(** * Conversational order orchestration of the pizzaria bot

    A shallow embedding of [src/index.js]: the tagged-block protocol
    ([[TEXT_FORMAT]] ... [[/END]] and its siblings), the multi-modal
    resolver [processTaggedResponse], the state detector
    [checkIfShouldAdvanceState], the per-turn controller
    [processMessageInternally] and the conversation lookup
    [getOrCreateConversation], followed by the properties of the
    specification that were checked against them. The embedding also
    covers the image route, the menu and payment texts of the prompt, the
    spoken confirmation, the validation of an address and the WhatsApp
    entry point [processTextMessage] with its audio and reset handlers;
    their properties come last.

    Conventions of the embedding.
    - A JavaScript string is a [string] holding its UTF-8 bytes; substring
      search on well-formed UTF-8 agrees with search on code points.
    - A JavaScript number is a binary64 [float]; the conversation state,
      which only ever holds small integers, is a [Z].
    - The builtins and external services the program calls but does not
      define (JSON.parse, number formatting, regular expressions built from
      run-time strings, speech synthesis, image download, the postal-code
      service, the language model) are fields of a [Platform] record or
      inputs of a turn; every theorem holds for all of them.
    - An exception is [None] in the [option] error monad; [try]/[catch]
      is a match on it.
    - [conversa.save()] writes the paths of the in-memory document that
      Mongoose tracks to the stored row, and [new Pedido(...).save()]
      stores the document the casts of the schema leave, or fails. *)

From Stdlib Require Import Bool Ascii String List ZArith NArith Lia.
From Stdlib Require Import Floats.PrimFloat.
Import ListNotations.

Open Scope bool_scope.
Open Scope list_scope.
Open Scope string_scope.

(* ================================================================== *)
(** * JavaScript strings *)

Module Js.

(** [s.startsWith(p)] *)
Fixpoint startsWith (s p : string) {struct s} : bool :=
  match p with
  | EmptyString => true
  | String a p' =>
      match s with
      | EmptyString => false
      | String b s' => Ascii.eqb a b && startsWith s' p'
      end
  end.

(** [s.includes(p)] *)
Fixpoint includes (s p : string) : bool :=
  startsWith s p ||
  match s with
  | EmptyString => false
  | String _ s' => includes s' p
  end.

(** [s.substring(n)] *)
Fixpoint drop (n : nat) (s : string) : string :=
  match n with
  | O => s
  | S n' => match s with EmptyString => EmptyString | String _ s' => drop n' s' end
  end.

(** The text before and after the first occurrence of [p] in [s]. *)
Fixpoint splitFirst (s p : string) : option (string * string) :=
  if startsWith s p then Some (EmptyString, drop (String.length p) s)
  else match s with
       | EmptyString => None
       | String c s' =>
           match splitFirst s' p with
           | Some (b, a) => Some (String c b, a)
           | None => None
           end
       end.

(** The replacement text of [String.prototype.replace] for a string
    pattern (GetSubstitution without capture groups): [$$] is a dollar,
    [$&] the matched text, [$`] the text before it, [$'] the text after
    it; every other character, a dollar before a digit included, stands
    for itself. *)
Fixpoint expandReplacement (r matched before after : string) : string :=
  match r with
  | EmptyString => EmptyString
  | String c r1 =>
      if Ascii.eqb c "$"%char then
        match r1 with
        | String d r2 =>
            if Ascii.eqb d "$"%char then String "$"%char (expandReplacement r2 matched before after)
            else if Ascii.eqb d "&"%char then matched ++ expandReplacement r2 matched before after
            else if Ascii.eqb d "`"%char then before ++ expandReplacement r2 matched before after
            else if Ascii.eqb d "'"%char then after ++ expandReplacement r2 matched before after
            else String c (expandReplacement r1 matched before after)
        | EmptyString => String c EmptyString
        end
      else String c (expandReplacement r1 matched before after)
  end.

(** [s.replace(p, r)] for a string pattern [p]: the first occurrence only. *)
Definition replaceFirst (s p r : string) : string :=
  match splitFirst s p with
  | Some (b, a) => b ++ expandReplacement r p b a ++ a
  | None => s
  end.

(** [s.replaceAll(p, r)] for a non-empty string pattern and a replacement
    without dollar signs; [fuel] bounds the number of occurrences, and
    [String.length s] always suffices. *)
Fixpoint replaceAllFuel (fuel : nat) (s p r : string) : string :=
  match fuel with
  | O => s
  | S f =>
      match splitFirst s p with
      | Some (b, a) => b ++ r ++ replaceAllFuel f a p r
      | None => s
      end
  end.

Definition replaceAll (s p r : string) : string :=
  replaceAllFuel (String.length s) s p r.

Definition isDigit (c : ascii) : bool :=
  let n := nat_of_ascii c in (48 <=? n)%nat && (n <=? 57)%nat.

(** White space of [\s] and [trim]: the single bytes tab, line feed,
    vertical tab, form feed, carriage return and space, and the encodings
    of U+00A0, U+1680, U+2000 to U+200A, U+2028, U+2029, U+202F, U+205F,
    U+3000 and U+FEFF. *)
Definition isSpace (c : ascii) : bool :=
  let n := nat_of_ascii c in ((9 <=? n)%nat && (n <=? 13)%nat) || (n =? 32)%nat.

Definition isSpace2 (a b : ascii) : bool :=
  (nat_of_ascii a =? 194)%nat && (nat_of_ascii b =? 160)%nat.

Definition isSpace3 (a b c : ascii) : bool :=
  let x := nat_of_ascii a in
  let y := nat_of_ascii b in
  let z := nat_of_ascii c in
  ((x =? 225) && (y =? 154) && (z =? 128))%nat ||
  ((x =? 226) && (y =? 128) &&
   (((128 <=? z) && (z <=? 138)) || (z =? 168) || (z =? 169) || (z =? 175)))%nat ||
  ((x =? 226) && (y =? 129) && (z =? 159))%nat ||
  ((x =? 227) && (y =? 128) && (z =? 128))%nat ||
  ((x =? 239) && (y =? 187) && (z =? 191))%nat.

(** One white-space character at the start of [s]: the text after it. *)
Definition spaceAt (s : string) : option string :=
  match s with
  | EmptyString => None
  | String a r1 =>
      if isSpace a then Some r1
      else match r1 with
           | EmptyString => None
           | String b r2 =>
               if isSpace2 a b then Some r2
               else match r2 with
                    | EmptyString => None
                    | String c r3 => if isSpace3 a b c then Some r3 else None
                    end
           end
  end.

Fixpoint trimStart (s : string) : string :=
  match s with
  | EmptyString => EmptyString
  | String a r1 =>
      if isSpace a then trimStart r1
      else match r1 with
           | EmptyString => s
           | String b r2 =>
               if isSpace2 a b then trimStart r2
               else match r2 with
                    | EmptyString => s
                    | String c r3 => if isSpace3 a b c then trimStart r3 else s
                    end
           end
  end.

(** [s] is white space throughout. *)
Definition allSpaces (s : string) : bool := trimStart s =? "".

Fixpoint trimEnd (s : string) : string :=
  match s with
  | EmptyString => EmptyString
  | String c s' => if allSpaces s then EmptyString else String c (trimEnd s')
  end.

(** [s.trim()] *)
Definition trim (s : string) : string := trimEnd (trimStart s).

(** [/\d+/.test(s)] *)
Fixpoint hasDigit (s : string) : bool :=
  match s with
  | EmptyString => false
  | String c s' => isDigit c || hasDigit s'
  end.

Fixpoint allDigits (s : string) : bool :=
  match s with
  | EmptyString => true
  | String c s' => isDigit c && allDigits s'
  end.

(** [/^\s*\d+\s*$/.test(s)] *)
Definition onlyNumber (s : string) : bool :=
  let t := trim s in negb (t =? "") && allDigits t.

(** [/\?$/.test(s)] *)
Fixpoint endsWithQuestion (s : string) : bool :=
  match s with
  | EmptyString => false
  | String c EmptyString => Ascii.eqb c "?"%char
  | String _ s' => endsWithQuestion s'
  end.

(** Case folding of the letters up to U+00FF: the ASCII capitals and the
    two-byte capitals of the Latin-1 supplement (U+00C0 to U+00DE but
    U+00D7). *)
Definition lowerAscii (c : ascii) : ascii :=
  let n := nat_of_ascii c in
  if (65 <=? n)%nat && (n <=? 90)%nat then ascii_of_nat (n + 32) else c.

Definition lowerLatin1 (c : ascii) : ascii :=
  let n := nat_of_ascii c in
  if (128 <=? n)%nat && (n <=? 158)%nat && negb (n =? 151)%nat
  then ascii_of_nat (n + 32) else c.

(** The comparison of a regular expression with the flag [i] and without
    the flag [u], for a pattern of letters up to U+00FF: a capital up to
    U+00FF is taken for its small letter, and no character beyond U+00FF
    is taken for one up to U+00FF. *)
Fixpoint foldCase (s : string) : string :=
  match s with
  | EmptyString => EmptyString
  | String c s' =>
      if (nat_of_ascii c =? 195)%nat then
        match s' with
        | String d s'' => String c (String (lowerLatin1 d) (foldCase s''))
        | EmptyString => String c EmptyString
        end
      else String (lowerAscii c) (foldCase s')
  end.

Definition bytes2 (a b : nat) : string :=
  String (ascii_of_nat a) (String (ascii_of_nat b) EmptyString).

Definition is2 (a b : ascii) (x y : nat) : bool :=
  (nat_of_ascii a =? x)%nat && (nat_of_ascii b =? y)%nat.

Definition is3 (a b c : ascii) (x y z : nat) : bool :=
  (nat_of_ascii a =? x)%nat && (nat_of_ascii b =? y)%nat && (nat_of_ascii c =? z)%nat.

(** [s.toLowerCase()]: the capitals up to U+00FF as above, and the five
    capitals beyond U+00FF whose small form holds a character up to U+00FF:
    U+0130 (small i and U+0307), U+0178 (U+00FF), U+1E9E (U+00DF), U+212A
    (small k) and U+212B (U+00E5). Every other capital beyond U+00FF is
    left as it is: its small form lies beyond U+00FF as well, and the
    program only looks for texts up to U+00FF and for digits in the
    result. *)
Fixpoint toLowerCase (s : string) : string :=
  match s with
  | EmptyString => EmptyString
  | String a r1 =>
      match r1 with
      | EmptyString => String (lowerAscii a) EmptyString
      | String b r2 =>
          if (nat_of_ascii a =? 195)%nat then
            String a (String (lowerLatin1 b) (toLowerCase r2))
          else if is2 a b 196 176 then
            String "i"%char (bytes2 204 135 ++ toLowerCase r2)
          else if is2 a b 197 184 then bytes2 195 191 ++ toLowerCase r2
          else
            match r2 with
            | EmptyString => String (lowerAscii a) (toLowerCase r1)
            | String c r3 =>
                if is3 a b c 225 186 158 then bytes2 195 159 ++ toLowerCase r3
                else if is3 a b c 226 132 170 then String "k"%char (toLowerCase r3)
                else if is3 a b c 226 132 171 then bytes2 195 165 ++ toLowerCase r3
                else String (lowerAscii a) (toLowerCase r1)
            end
      end
  end.

(** [l.join(sep)] *)
Fixpoint join (sep : string) (l : list string) : string :=
  match l with
  | [] => ""
  | [x] => x
  | x :: rest => x ++ sep ++ join sep rest
  end.

End Js.

(* ================================================================== *)
(** * JavaScript values *)

(** What [JSON.parse] returns, with [undefined] for an absent property. *)
#[warnings="-register-all"]
Inductive JValue : Type :=
| JUndef
| JNull
| JBool (b : bool)
| JNum (x : float)
| JStr (s : string)
| JArr (l : list JValue)
| JObj (fields : list (string * JValue)).

Definition isNaN (x : float) : bool := negb (PrimFloat.eqb x x).

(** ToBoolean *)
Definition truthy (v : JValue) : bool :=
  match v with
  | JUndef | JNull => false
  | JBool b => b
  | JNum x => negb (PrimFloat.eqb x 0%float) && negb (isNaN x)
  | JStr s => negb (s =? "")
  | JArr _ | JObj _ => true
  end.

Fixpoint lookupField (k : string) (fields : list (string * JValue)) : JValue :=
  match fields with
  | [] => JUndef
  | (k', v) :: rest => if k' =? k then v else lookupField k rest
  end.

(** [v.k] for a data property [k] of a parsed payload: a TypeError ([None])
    on [undefined] and [null], [undefined] on every value other than an
    object that holds the key. *)
Definition prop (v : JValue) (k : string) : option JValue :=
  match v with
  | JUndef | JNull => None
  | JObj fields => Some (lookupField k fields)
  | _ => Some JUndef
  end.

(** [a || b] *)
Definition jsOr (a b : JValue) : JValue := if truthy a then a else b.

(** [Array.isArray(v)] *)
Definition isArray (v : JValue) : bool :=
  match v with JArr _ => true | _ => false end.

(** [v.match(/\d+/)], as a boolean: only a string has the method. *)
Definition matchDigits (v : JValue) : option bool :=
  match v with
  | JStr s => Some (Js.hasDigit s)
  | _ => None
  end.

(** Truthiness of an optional string field ([undefined] when [None]). *)
Definition truthyS (o : option string) : bool :=
  match o with
  | Some s => negb (s =? "")
  | None => false
  end.

Definition orS (a b : option string) : option string :=
  if truthyS a then a else b.

(** [`${o}`] for an optional string field. *)
Definition showS (o : option string) : string :=
  match o with
  | Some s => s
  | None => "undefined"
  end.

(* ================================================================== *)
(** * Data model *)

Inductive Tipo : Type := User | Bot.

Definition isUser (t : Tipo) : bool :=
  match t with User => true | Bot => false end.

(** An entry of [conversa.mensagens]; the timestamp [data] is left out. *)
Record Mensagem : Type := mkMensagem {
  tipo : Tipo;
  conteudo : string
}.

Record Components : Type := mkComponents {
  street : option string;
  neighborhood : option string;
  city : option string;
  uf : option string;
  cep : option string
}.

Record AddressData : Type := mkAddressData {
  formattedAddress : option string;
  components : option Components
}.

(** A document of the [Conversa] collection. [pedidoData] is the staged
    order payload ([JUndef] when absent), [pedidoId] the reference of the
    committed order. [inicio] is the creation time in milliseconds.

    [pedidoData] has the schema type Mixed: [save()] writes it only when
    the path was assigned since the document was read or last saved, not
    when the value was changed in place (nothing in the program calls
    [markModified]). [pedidoDataSets] counts the assignments made on the
    document; a stored row keeps the count it was last written with, so
    the path is modified exactly when the two counts differ.

    [lastJsonData] is a property the schema does not have: it lives on the
    document in memory and is never stored. *)
Record Conversa : Type := mkConversa {
  cid : nat;
  telefone : string;
  inicio : Z;
  duracao : Z;
  state : Z;
  mensagens : list Mensagem;
  addressData : option AddressData;
  pedidoData : JValue;
  lastJsonData : option string;
  pedidoId : option nat;
  pedidoDataSets : nat
}.

(** A subdocument of [Pedido.itens] after the casts of its schema: [nome]
    is a text, [quantidade] and [preco] are numbers, and each of them may
    be [null] or absent ([JUndef]). *)
Record ItemPedido : Type := mkItemPedido {
  it_nome : JValue;
  it_quantidade : JValue;
  it_preco : JValue
}.

(** A document of the [Pedido] collection after the casts of its schema
    (the field [data], a timestamp, is left out): [endereco] and
    [formaPagamento] are texts, [null] or absent. *)
Record Pedido : Type := mkPedido {
  p_telefone : string;
  itens : list ItemPedido;
  valorTotal : float;
  endereco : JValue;
  formaPagamento : JValue;
  status : string
}.

(** The argument of [new Pedido({ ... })], as the program builds it. *)
Record DadosPedido : Type := mkDadosPedido {
  dp_telefone : string;
  dp_itens : JValue;
  dp_valorTotal : float;
  dp_endereco : JValue;
  dp_formaPagamento : JValue;
  dp_status : string
}.

Record CardapioItem : Type := mkCardapioItem {
  identificador : string;
  nome : string;
  descricao : option string;
  disponivel : bool;
  imagemGeral : option string;
  imagemEsquerda : option string;
  imagemDireita : option string
}.

Record BotConfig : Type := mkBotConfig {
  welcomeMessage : option string;
  menuImage : option string;
  menuImageCaption : option string;
  confirmationImage : option string;
  confirmationImageCaption : option string
}.

(** A decoded image and what was drawn on a canvas. *)
Record Image : Type := mkImage {
  img_url : string;
  img_width : Z;
  img_height : Z
}.

(** [ctx.drawImage(img, sx, sy, sw, sh, dx, dy, dw, dh)] *)
Record DrawOp : Type := mkDraw {
  d_img : Image;
  d_sx : Z; d_sy : Z; d_sw : Z; d_sh : Z;
  d_dx : Z; d_dy : Z; d_dw : Z; d_dh : Z
}.

Record Canvas : Type := mkCanvas {
  cv_width : Z;
  cv_height : Z;
  cv_ops : list DrawOp
}.

(** What the program observably does besides returning: calls of the
    language model and of speech synthesis, and the state-7 alert. *)
Inductive Event : Type :=
| EvModelCall
| EvAudio (texto : string)
| EvAlertaEstado7SemPedido.

(** The stores: the two collections the engine writes, the menu and the
    bot configuration it reads, the process-wide [tempPedidoData] map and the trace of events. Stored
    conversations are kept newest first. *)
Record World : Type := mkWorld {
  pedidos : list Pedido;
  conversas : list Conversa;
  cardapio : list CardapioItem;
  botConfig : option BotConfig;
  tempPedidoData : list (string * JValue);
  trace : list Event
}.

(** Builtins and external services, see the header. *)
Record Platform : Type := mkPlatform {
  JSON_parse : string -> option JValue;
  parseFloatStr : string -> float;
  stringToNumber : string -> float;
  numberToString : float -> string;
  toFixed2 : float -> string;
  regexI : string -> option (string -> bool);
  generateAudio : string -> option string;
  loadImage : string -> option Image;
  toDataURL : Canvas -> option string;
  cepLookup : string -> option Components;
  requireCanvas : bool;
  castObjectId : JValue -> bool
}.

(** One item of the response field [allImages]. *)
Record ImageEntry : Type := mkImageEntry {
  ie_id : string;
  ie_url : string;
  ie_caption : option string
}.

(** The object a turn answers with. *)
Record Response : Type := mkResponse {
  success : bool;
  rstate : option Z;
  text : string;
  audio : option string;
  image : option string;
  imageCaption : option string;
  allImages : option (list ImageEntry);
  error : option string
}.

(** [{ success: true, text, state }] *)
Definition plainResponse (st : option Z) (t : string) : Response :=
  mkResponse true st t None None None None None.

(* ================================================================== *)
(** * Tagged-block protocol *)

Definition END_TAG : string := "[/END]".
Definition TEXT_TAG : string := "[TEXT_FORMAT]".
Definition VOICE_TAG : string := "[VOICE_FORMAT]".
Definition IMAGE_TAG : string := "[IMAGE_FORMAT]".
Definition JSON_TAG : string := "[JSON_FORMAT]".
Definition CONFIRMATION_TAG : string := "[CONFIRMATION_FORMAT]".

(** One step of [/\[TAG\]([\s\S]*?)\[\/END\]/]: the body of the first
    block of the kind, and the text after its [[/END]]. The leftmost match
    opens at the first opener that a closer follows, which is the first
    opener; the lazy body stops at the first closer after it. *)
Definition matchBlock (tag s : string) : option (string * string) :=
  match Js.splitFirst s tag with
  | None => None
  | Some (_, rest) => Js.splitFirst rest END_TAG
  end.

(** [s.match(/\[TAG\]([\s\S]*?)\[\/END\]/)], capture group 1. *)
Definition firstBlock (tag s : string) : option string :=
  match matchBlock tag s with
  | Some (body, _) => Some body
  | None => None
  end.

(** The [exec] loop over the global image expression: every block body in
    document order. Each match consumes at least the two tags, so
    [String.length s] steps are enough. *)
Fixpoint allBlocksFuel (fuel : nat) (tag s : string) : list string :=
  match fuel with
  | O => []
  | S f =>
      match matchBlock tag s with
      | Some (body, rest) => body :: allBlocksFuel f tag rest
      | None => []
      end
  end.

Definition allBlocks (tag s : string) : list string :=
  allBlocksFuel (String.length s) tag s.

(** [imageMatches]: the trimmed bodies of the image blocks, blank ones
    dropped. *)
Definition imageMatches (botResponse : string) : list string :=
  filter (fun b => negb (b =? ""))
         (map Js.trim (allBlocks IMAGE_TAG botResponse)).

(* ================================================================== *)
(** * Record updates *)

Definition setText (r : Response) (t : string) : Response :=
  mkResponse (success r) (rstate r) t (audio r) (image r) (imageCaption r)
             (allImages r) (error r).

Definition setAudio (r : Response) (a : option string) : Response :=
  mkResponse (success r) (rstate r) (text r) a (image r) (imageCaption r)
             (allImages r) (error r).

Definition setImage (r : Response) (i : option string) : Response :=
  mkResponse (success r) (rstate r) (text r) (audio r) i (imageCaption r)
             (allImages r) (error r).

Definition setImageCaption (r : Response) (c : option string) : Response :=
  mkResponse (success r) (rstate r) (text r) (audio r) (image r) c
             (allImages r) (error r).

Definition setAllImages (r : Response) (l : option (list ImageEntry)) : Response :=
  mkResponse (success r) (rstate r) (text r) (audio r) (image r)
             (imageCaption r) l (error r).

Definition setState (c : Conversa) (s : Z) : Conversa :=
  mkConversa (cid c) (telefone c) (inicio c) (duracao c) s (mensagens c)
             (addressData c) (pedidoData c) (lastJsonData c) (pedidoId c)
             (pedidoDataSets c).

Definition setDuracao (c : Conversa) (d : Z) : Conversa :=
  mkConversa (cid c) (telefone c) (inicio c) d (state c) (mensagens c)
             (addressData c) (pedidoData c) (lastJsonData c) (pedidoId c)
             (pedidoDataSets c).

(** [conversa.pedidoData = p]: the path is marked as modified. *)
Definition setPedidoData (c : Conversa) (p : JValue) : Conversa :=
  mkConversa (cid c) (telefone c) (inicio c) (duracao c) (state c) (mensagens c)
             (addressData c) p (lastJsonData c) (pedidoId c)
             (S (pedidoDataSets c)).

(** [conversa.pedidoData.k = v], as the value [p] it leaves: a change in
    place, which marks nothing. *)
Definition mutatePedidoData (c : Conversa) (p : JValue) : Conversa :=
  mkConversa (cid c) (telefone c) (inicio c) (duracao c) (state c) (mensagens c)
             (addressData c) p (lastJsonData c) (pedidoId c)
             (pedidoDataSets c).

Definition setLastJsonData (c : Conversa) (j : option string) : Conversa :=
  mkConversa (cid c) (telefone c) (inicio c) (duracao c) (state c) (mensagens c)
             (addressData c) (pedidoData c) j (pedidoId c)
             (pedidoDataSets c).

Definition setPedidoId (c : Conversa) (i : option nat) : Conversa :=
  mkConversa (cid c) (telefone c) (inicio c) (duracao c) (state c) (mensagens c)
             (addressData c) (pedidoData c) (lastJsonData c) i
             (pedidoDataSets c).

Definition setAddressData (c : Conversa) (a : option AddressData) : Conversa :=
  mkConversa (cid c) (telefone c) (inicio c) (duracao c) (state c) (mensagens c)
             a (pedidoData c) (lastJsonData c) (pedidoId c)
             (pedidoDataSets c).

(** [conversa.mensagens.push(m)] *)
Definition pushMensagem (c : Conversa) (m : Mensagem) : Conversa :=
  mkConversa (cid c) (telefone c) (inicio c) (duracao c) (state c)
             (mensagens c ++ [m])%list
             (addressData c) (pedidoData c) (lastJsonData c) (pedidoId c)
             (pedidoDataSets c).

Definition addEvent (w : World) (e : Event) : World :=
  mkWorld (pedidos w) (conversas w) (cardapio w) (botConfig w) (tempPedidoData w)
          (trace w ++ [e])%list.

(** [Map.prototype.set] on an association list in insertion order. *)
Fixpoint mapSet (k : string) (v : JValue) (m : list (string * JValue))
  : list (string * JValue) :=
  match m with
  | [] => [(k, v)]
  | (k', v') :: rest => if k' =? k then (k', v) :: rest else (k', v') :: mapSet k v rest
  end.

Definition setTemp (w : World) (k : string) (v : JValue) : World :=
  mkWorld (pedidos w) (conversas w) (cardapio w) (botConfig w)
          (mapSet k v (tempPedidoData w)) (trace w).

(** What [conversa.save()] writes for the document [c] whose stored row,
    if there is one, is [antes]: every path of the schema, but
    [pedidoData] only when it is modified; a document stored for the first
    time is written whole. *)
Definition persistido (c : Conversa) (antes : option Conversa) : Conversa :=
  mkConversa (cid c) (telefone c) (inicio c) (duracao c) (state c) (mensagens c)
             (addressData c)
             (match antes with
              | Some r =>
                  if (pedidoDataSets r =? pedidoDataSets c)%nat
                  then pedidoData r else pedidoData c
              | None => pedidoData c
              end)
             None (pedidoId c) (pedidoDataSets c).

Fixpoint replaceRow (c : Conversa) (rows : list Conversa) : option (list Conversa) :=
  match rows with
  | [] => None
  | r :: rest =>
      if (cid r =? cid c)%nat then Some (persistido c (Some r) :: rest)
      else match replaceRow c rest with
           | Some rest' => Some (r :: rest')
           | None => None
           end
  end.

(** [conversa.save()]: the stored row of the document is rewritten; a
    document not stored yet becomes the newest row. *)
Definition saveConversa (c : Conversa) (w : World) : World :=
  mkWorld (pedidos w)
          (match replaceRow c (conversas w) with
           | Some rows => rows
           | None => persistido c None :: conversas w
           end)
          (cardapio w) (botConfig w) (tempPedidoData w) (trace w).

(** [field.k = v] on a staged payload: an object gets or replaces the
    field; on a primitive the assignment is dropped. A named property put
    on an array is not represented: no later read of the turn looks at
    it, and the change, made in place, is not stored. *)
Fixpoint setField (k : string) (v : JValue) (fields : list (string * JValue))
  : list (string * JValue) :=
  match fields with
  | [] => [(k, v)]
  | (k', v') :: rest => if k' =? k then (k', v) :: rest else (k', v') :: setField k v rest
  end.

Definition setProp (o : JValue) (k : string) (v : JValue) : JValue :=
  match o with
  | JObj fields => JObj (setField k v fields)
  | _ => o
  end.

(* ================================================================== *)
(** * The engine *)

Definition nl : string := String (ascii_of_nat 10) EmptyString.

(** A function either answers at once ([Return]) or goes on. *)
Inductive Step (A : Type) : Type :=
| Return (r : Response)
| Continue (a : A).
Arguments Return {A} r.
Arguments Continue {A} a.

Section Engine.

Variable P : Platform.

(** ** Numbers and conversions *)

(** ToString *)
Fixpoint jsToString (v : JValue) : string :=
  match v with
  | JUndef => "undefined"
  | JNull => "null"
  | JBool b => if b then "true" else "false"
  | JNum x => numberToString P x
  | JStr s => s
  | JArr l =>
      Js.join "," (map (fun e => match e with
                                 | JUndef | JNull => ""
                                 | _ => jsToString e
                                 end) l)
  | JObj _ => "[object Object]"
  end.

(** ToNumber *)
Definition toNumber (v : JValue) : float :=
  match v with
  | JUndef => PrimFloat.nan
  | JNull => 0%float
  | JBool b => if b then 1%float else 0%float
  | JNum x => x
  | JStr s => stringToNumber P s
  | JArr _ | JObj _ => stringToNumber P (jsToString v)
  end.

(** [parseFloat(v)]: the argument is converted to a string and parsed. A
    number prints in the shortest form that reads back as itself, so it
    is returned as it is, a negative zero as zero. *)
Definition parseFloat (v : JValue) : float :=
  match v with
  | JNum x => if PrimFloat.eqb x 0%float then 0%float else x
  | _ => parseFloatStr P (jsToString v)
  end.

(** The loop [items.forEach(item => { valorTotal += preco * quantidade })]
    with [quantidade = item.quantidade || 1] and
    [preco = parseFloat(item.preco)]; [None] is an exception: a property
    read on [null] or [undefined] and, when [check] is set, the
    [throw new Error] on a price that is not a number. *)
Fixpoint somaItens (check : bool) (items : list JValue) (acc : float) : option float :=
  match items with
  | [] => Some acc
  | item :: rest =>
      match prop item "quantidade", prop item "preco" with
      | Some q, Some pr =>
          let quantidade := jsOr q (JNum 1%float) in
          let preco := parseFloat pr in
          if check && isNaN preco then None
          else somaItens check rest
                 (PrimFloat.add acc (PrimFloat.mul preco (toNumber quantidade)))
      | _, _ => None
      end
  end.

(** [let valorTotal = 0; v.items.forEach(...)]; only an array has
    [forEach]. *)
Definition calcularTotal (check : bool) (items : JValue) : option float :=
  match items with
  | JArr l => somaItens check l 0%float
  | _ => None
  end.

(** [items.map(item => ({ nome, quantidade: item.quantidade || 1,
    preco: parseFloat(item.preco) }))] *)
Fixpoint mapItens (items : list JValue) : option (list JValue) :=
  match items with
  | [] => Some []
  | item :: rest =>
      match prop item "nome", prop item "quantidade", prop item "preco", mapItens rest with
      | Some n, Some q, Some pr, Some rest' =>
          Some (JObj [("nome", n);
                      ("quantidade", jsOr q (JNum 1%float));
                      ("preco", JNum (parseFloat pr))] :: rest')
      | _, _, _, _ => None
      end
  end.

(** [items[0]] *)
Definition primeiroItem (items : JValue) : JValue :=
  match items with
  | JArr (it :: _) => it
  | _ => JUndef
  end.

(** The first line of both order summaries:
    [*Pizza ${items[0].nome}* - R$ ${parseFloat(items[0].preco).toFixed(2)}] *)
Definition linhaPrimeiroItem (items : JValue) : option string :=
  match prop (primeiroItem items) "nome", prop (primeiroItem items) "preco" with
  | Some n, Some pr =>
      Some ("*Pizza " ++ jsToString n ++ "* - R$ " ++ toFixed2 P (parseFloat pr))
  | _, _ => None
  end.

(** ** Orders and the casts of their schema *)

(** The cast of the schema type String: [null] and [undefined] pass, an
    object that has a non-empty text [_id] gives that text, a number or a
    boolean its text; an array and any other object are refused
    ([None]). *)
Definition castString (v : JValue) : option JValue :=
  match v with
  | JUndef | JNull => Some v
  | JStr _ => Some v
  | JNum _ | JBool _ => Some (JStr (jsToString v))
  | JArr _ => None
  | JObj fields =>
      match lookupField "_id" fields with
      | JStr i => if i =? "" then None else Some (JStr i)
      | _ => None
      end
  end.

(** The cast of the schema type Number: [null] and [undefined] pass, the
    empty text gives [null], a text or a boolean its number; what is not
    a number (NaN), an array and an object are refused ([None]). *)
Definition castNumber (v : JValue) : option JValue :=
  match v with
  | JUndef | JNull => Some v
  | JStr s =>
      if s =? "" then Some JNull
      else if isNaN (stringToNumber P s) then None
           else Some (JNum (stringToNumber P s))
  | JBool b => Some (JNum (if b then 1%float else 0%float))
  | JNum x => if isNaN x then None else Some v
  | JArr _ | JObj _ => None
  end.

(** An [_id] of the payload: absent, or accepted as an identifier. *)
Definition truthyId (v : JValue) : bool :=
  match v with
  | JUndef => true
  | _ => castObjectId P v
  end.

(** The cast of one element of [itens] to a subdocument: the three paths
    of its schema are cast, every other property is dropped, and an
    [_id] the payload brings has to pass for an identifier. An element
    that is no object has no price: the total is then no number and the
    order is refused whatever becomes of the element, so it is refused
    here. *)
Definition castItem (v : JValue) : option ItemPedido :=
  match v with
  | JObj fields =>
      match castString (lookupField "nome" fields),
            castNumber (lookupField "quantidade" fields),
            castNumber (lookupField "preco" fields) with
      | Some n, Some q, Some pr =>
          if truthyId (lookupField "_id" fields) then Some (mkItemPedido n q pr) else None
      | _, _, _ => None
      end
  | _ => None
  end.

Fixpoint castItens (items : list JValue) : option (list ItemPedido) :=
  match items with
  | [] => Some []
  | item :: rest =>
      match castItem item, castItens rest with
      | Some it, Some rest' => Some (it :: rest')
      | _, _ => None
      end
  end.

(** [new Pedido(d)]: the document the casts leave; [None] when one of
    them fails. The constructor keeps the failure and [save()] reports
    it. Both callers hand it items they have iterated over before, so
    the items are an array here; anything else is refused. *)
Definition newPedido (d : DadosPedido) : option Pedido :=
  match dp_itens d with
  | JArr l =>
      match castItens l, castString (dp_endereco d), castString (dp_formaPagamento d) with
      | Some itens_, Some e, Some fp =>
          if isNaN (dp_valorTotal d) then None
          else Some (mkPedido (dp_telefone d) itens_ (dp_valorTotal d) e fp (dp_status d))
      | _, _, _ => None
      end
  | _ => None
  end.

(** [await new Pedido(d).save()]: the order is appended and its position
    is its reference; [None] is the rejection of a document that did not
    pass the casts, after which nothing is stored. *)
Definition comPedido (w : World) (p : Pedido) : World :=
  mkWorld (pedidos w ++ [p])%list (conversas w) (cardapio w) (botConfig w)
          (tempPedidoData w) (trace w).

Definition savePedido (d : DadosPedido) (w : World) : option (nat * Pedido * World) :=
  match newPedido d with
  | Some p => Some (List.length (pedidos w), p, comPedido w p)
  | None => None
  end.

(** ** Menu lookups *)

(** [CardapioItem.findOne({ identificador: id, disponivel: true })] *)
Definition findExact (db : list CardapioItem) (id : string) : option CardapioItem :=
  find (fun it => (identificador it =? id) && disponivel it) db.

(** [findOne({ nome: { $regex: new RegExp(pat, 'i') }, disponivel: true })];
    the outer [None] is the SyntaxError of a pattern that is no regular
    expression. *)
Definition findByNome (db : list CardapioItem) (pat : string)
  : option (option CardapioItem) :=
  match regexI P pat with
  | None => None
  | Some test => Some (find (fun it => test (nome it) && disponivel it) db)
  end.

(** [findOne({ $or: [{ identificador: re }, { nome: re }], disponivel: true })] *)
Definition findBroad (db : list CardapioItem) (pat : string)
  : option (option CardapioItem) :=
  match regexI P pat with
  | None => None
  | Some test =>
      Some (find (fun it => (test (identificador it) || test (nome it)) && disponivel it) db)
  end.

(** [s.split(sep)[1]] *)
Definition splitSecond (s sep : string) : option string :=
  match Js.splitFirst s sep with
  | None => None
  | Some (_, after) =>
      Some (match Js.splitFirst after sep with
            | Some (b, _) => b
            | None => after
            end)
  end.

(** [s.split('+')] when it has exactly two parts. *)
Definition splitPlus (s : string) : option (string * string) :=
  match Js.splitFirst s "+" with
  | Some (a, b) => if Js.includes b "+" then None else Some (a, b)
  | None => None
  end.

(** ** Composite images *)

(** [overlayImages(baseImageUrl, overlayImageUrl)]: both images are
    fetched and decoded, the canvas takes the size of the base, the base is
    drawn over the whole canvas and the overlay, whole, is drawn over it
    stretched to the same rectangle. A failure of these steps is caught
    inside and the base address is returned instead. The module [canvas]
    is required before the [try]: when it cannot be loaded the promise
    rejects, which is [None]. *)
Definition overlayCanvas (b o : Image) : Canvas :=
  mkCanvas (img_width b) (img_height b)
    [ mkDraw b 0 0 (img_width b) (img_height b) 0 0 (img_width b) (img_height b);
      mkDraw o 0 0 (img_width o) (img_height o) 0 0 (img_width b) (img_height b) ].

Definition overlayImages (baseImageUrl overlayImageUrl : string) : option string :=
  if requireCanvas P then
    match loadImage P baseImageUrl, loadImage P overlayImageUrl with
    | Some b, Some o =>
        match toDataURL P (overlayCanvas b o) with
        | Some merged => Some merged
        | None => Some baseImageUrl
        end
    | _, _ => Some baseImageUrl
    end
  else None.

(** [nome.replaceAll('Pizza ', '')] *)
Definition semPizza (n : string) : string := Js.replaceAll n "Pizza " "".

Definition captionMeio (s1 s2 : CardapioItem) (suffix : string) : string :=
  "Pizza meio " ++ semPizza (nome s1) ++ " e meio " ++ semPizza (nome s2) ++ suffix.

(** The branch [imageId.includes('+')]. The handler of the [try] around
    [overlayImages] runs when its promise rejects; the name of an item is
    a text (the schema requires it), so nothing else in the block
    throws. *)
Definition resolveComposite (db : list CardapioItem) (imageId : string)
  : option string * option string :=
  match splitPlus imageId with
  | None => (None, None)
  | Some (sabor1Id, sabor2Id) =>
      match findExact db sabor1Id, findExact db sabor2Id with
      | Some sabor1, Some sabor2 =>
          let leftImage := imagemEsquerda sabor1 in
          let rightImage := imagemDireita sabor2 in
          if truthyS rightImage && truthyS leftImage then
            match overlayImages (showS rightImage) (showS leftImage) with
            | Some merged => (Some merged, Some (captionMeio sabor1 sabor2 ""))
            | None =>
                (orS leftImage rightImage,
                 Some (captionMeio sabor1 sabor2 " (visualização parcial)"))
            end
          else if truthyS (imagemGeral sabor1) && truthyS (imagemGeral sabor2) then
            (imagemGeral sabor1,
             Some (captionMeio sabor1 sabor2 " (visualização aproximada)"))
          else
            (orS (imagemGeral sabor1)
                 (orS (imagemEsquerda sabor1)
                      (orS (imagemGeral sabor2) (imagemDireita sabor2))),
             Some ("Pizza meio " ++ semPizza (nome sabor1) ++ " e meio " ++ nome sabor2))
      | _, _ => (None, None)
      end
  end.

Definition captionItem (it : CardapioItem) : string :=
  "*" ++ nome it ++ "*: " ++ showS (orS (descricao it) (Some "")).

(** The three lookups of a single item; the outer [None] is an exception. *)
Definition resolveSingle (db : list CardapioItem) (imageId : string)
  : option (option CardapioItem) :=
  match findExact db imageId with
  | Some it => Some (Some it)
  | None =>
      let porNome :=
        match splitSecond imageId "_pizza-" with
        | Some nomePizza =>
            if negb (nomePizza =? "") then findByNome db nomePizza else Some None
        | None => Some None
        end in
      match porNome with
      | None => None
      | Some (Some it) => Some (Some it)
      | Some None => findBroad db imageId
      end
  end.

(** [imageUrl] and [imageCaption] of the first image. *)
Definition resolveFirst (db : list CardapioItem) (botConfig : option BotConfig)
           (imageId : string) : option (option string * option string) :=
  if (imageId =? "cardapio") || (imageId =? "menu") then
    match botConfig with
    | Some cfg =>
        if truthyS (menuImage cfg)
        then Some (menuImage cfg, orS (menuImageCaption cfg) (Some "Cardápio"))
        else Some (None, None)
    | None => Some (None, None)
    end
  else if Js.includes imageId "+" then Some (resolveComposite db imageId)
  else
    match resolveSingle db imageId with
    | None => None
    | Some (Some it) => Some (imagemGeral it, Some (captionItem it))
    | Some None => Some (None, None)
    end.

(** ** The voice block *)

Definition voicePhase (botResponse : string) (estado : Z) (r : Response) (w : World)
  : Response * World :=
  match firstBlock VOICE_TAG botResponse with
  | None => (r, w)
  | Some body =>
      let voiceText := Js.trim body in
      if (estado =? 6)%Z || (estado =? 7)%Z then
        match firstBlock TEXT_TAG botResponse with
        | None => (setText r (TEXT_TAG ++ voiceText ++ END_TAG), w)
        | Some _ => (r, w)
        end
      else
        let w' := addEvent w (EvAudio voiceText) in
        let audioUrl := generateAudio P voiceText in
        if truthyS audioUrl then (setAudio r audioUrl, w') else (r, w')
  end.

(** ** The image blocks *)

Definition isMenuImage (imageId : string) (imageCaption : option string) : bool :=
  (imageId =? "cardapio") || (imageId =? "menu") ||
  (truthyS imageCaption &&
   (Js.includes (Js.toLowerCase (showS imageCaption)) "cardápio" ||
    Js.includes (Js.toLowerCase (showS imageCaption)) "cardapio")).

Definition isPizzaDoce (imageId : string) (imageCaption : option string) : bool :=
  Js.includes imageId "pizza-doce" ||
  (truthyS imageCaption && Js.includes (Js.toLowerCase (showS imageCaption)) "doce").

(** [`${imageCaption}`] *)
Definition showCaption (c : option string) : string :=
  match c with Some s => s | None => "null" end.

(** The text that stands in when the reply shows an image and says nothing. *)
Definition textoSemTexto (imageId : string) (cap : option string) (estado : Z) : string :=
  if isMenuImage imageId cap then
    "Aqui está nosso cardápio. Qual sabor de pizza você gostaria de pedir?"
  else if (estado =? 0)%Z then
    "Aqui está a imagem da " ++ showCaption cap ++
    ". Gostaria de pedir esta pizza? Ou prefere ver outras opções?"
  else if (estado =? 1)%Z then
    if isPizzaDoce imageId cap
    then "Esta é a nossa " ++ showCaption cap ++ ". Gostaria de pedir agora?"
    else "Esta é a nossa " ++ showCaption cap ++
         ". Você gostaria dela inteira ou meio a meio com outro sabor?"
  else if (estado =? 2)%Z then
    "Aqui está a " ++ showCaption cap ++
    ". Gostaria de pedir mais alguma pizza ou podemos prosseguir com o pedido?"
  else if (estado =? 3)%Z then
    "Esta é a deliciosa " ++ showCaption cap ++
    ". Gostaria de adicionar alguma bebida ao seu pedido?"
  else
    "Esta é a nossa " ++ showCaption cap ++ ". O que você gostaria de fazer a seguir?".

(** The question appended to a text that does not end in one. *)
Definition questionToAdd (imageId : string) (cap : option string) (estado : Z) : string :=
  if isMenuImage imageId cap then " Qual sabor você gostaria de experimentar?"
  else if (estado =? 0)%Z then " Gostaria de pedir agora?"
  else if (estado =? 1)%Z then
    if isPizzaDoce imageId cap then " Gostaria de pedir agora?"
    else " Você prefere ela inteira ou meio a meio com outro sabor?"
  else if (estado =? 2)%Z then " Deseja mais alguma pizza ou podemos prosseguir?"
  else if (estado =? 3)%Z then " Gostaria de adicionar alguma bebida ao pedido?"
  else "".

Definition followUp (botResponse imageId : string) (cap : option string)
           (estado : Z) (r : Response) : Response :=
  let semTexto :=
    match firstBlock TEXT_TAG botResponse with
    | None => true
    | Some _ => (text r =? "") || (Js.trim (text r) =? "")
    end in
  if semTexto then setText r (textoSemTexto imageId cap estado)
  else if negb (text r =? "") && (0 <=? estado)%Z && (estado <=? 3)%Z then
    if Js.endsWithQuestion (Js.trim (text r)) then r
    else setText r (Js.trim (text r) ++ questionToAdd imageId cap estado)
  else r.

Definition firstImagePhase (botResponse : string) (estado : Z)
           (db : list CardapioItem) (botConfig : option BotConfig)
           (id0 : string) (r : Response) : Response :=
  let imageId := Js.trim id0 in
  match resolveFirst db botConfig imageId with
  | None =>
      if text r =? "" then
        setText r "Desculpe, não consegui processar a imagem solicitada."
      else r
  | Some (imageUrl, cap) =>
      if truthyS imageUrl then
        let r1 := setImage r imageUrl in
        let r2 := if truthyS cap then setImageCaption r1 cap else r1 in
        let r3 := setAllImages r2 (Some [mkImageEntry imageId (showS imageUrl) cap]) in
        followUp botResponse imageId cap estado r3
      else if text r =? "" then
        setText r "Desculpe, não encontrei imagem para este item no nosso cardápio."
      else r
  end.

(** The lookups of an image after the first; the outer [None] is an
    exception, caught per image. *)
Definition resolveAdditional (db : list CardapioItem) (additionalImageId : string)
  : option (option CardapioItem) :=
  match findExact db additionalImageId with
  | Some it => Some (Some it)
  | None =>
      let porNome :=
        if Js.includes additionalImageId "pizza-" then
          let pizzaName := orS (splitSecond additionalImageId "_pizza-")
                               (splitSecond additionalImageId "-pizza-") in
          if truthyS pizzaName then findByNome db (showS pizzaName) else Some None
        else Some None in
      match porNome with
      | None => None
      | Some (Some it) => Some (Some it)
      | Some None => findBroad db additionalImageId
      end
  end.

Fixpoint additionalImages (db : list CardapioItem) (ids : list string)
         (acc : list ImageEntry) : list ImageEntry :=
  match ids with
  | [] => acc
  | id :: rest =>
      let acc' :=
        match resolveAdditional db id with
        | Some (Some it) =>
            if truthyS (imagemGeral it)
            then (acc ++ [mkImageEntry id (showS (imagemGeral it)) (Some (captionItem it))])%list
            else acc
        | _ => acc
        end in
      additionalImages db rest acc'
  end.

Definition imagePhase (botResponse : string) (estado : Z)
           (db : list CardapioItem) (botConfig : option BotConfig)
           (r : Response) : Response :=
  match imageMatches botResponse with
  | [] => r
  | id0 :: rest =>
      let r1 := firstImagePhase botResponse estado db botConfig id0 r in
      match rest with
      | [] => r1
      | _ :: _ =>
          let started := match allImages r1 with Some l => l | None => [] end in
          setAllImages r1 (Some (additionalImages db rest started))
      end
  end.

(** ** The order payload *)

(** [jsonData.pedido], or [jsonData] itself when it carries the three
    fields, or [null]; [None] is the TypeError of reading [null]. *)
Definition selectPedido (jsonData : JValue) : option JValue :=
  match prop jsonData "pedido" with
  | None => None
  | Some ped =>
      if truthy ped then Some ped
      else
        match prop jsonData "items", prop jsonData "endereco", prop jsonData "pagamento" with
        | Some i, Some e, Some pg =>
            if truthy i && truthy e && truthy pg then Some jsonData else Some JNull
        | _, _, _ => None
        end
  end.

(** [pedidoData && Array.isArray(pedidoData.items) && pedidoData.endereco
    && pedidoData.pagamento] *)
Definition pedidoCompleto (pedidoData : JValue) : bool :=
  truthy pedidoData &&
  match prop pedidoData "items", prop pedidoData "endereco", prop pedidoData "pagamento" with
  | Some i, Some e, Some pg => isArray i && truthy e && truthy pg
  | _, _, _ => false
  end.

Definition getProp (v : JValue) (k : string) : JValue :=
  match prop v k with Some x => x | None => JUndef end.

Definition textoResumo (linha endereco pagamento total : string) : string :=
  Js.trim
    (nl ++ "        [TEXT_FORMAT]Vamos conferir seu pedido:" ++
     nl ++ "        " ++
     nl ++ "        " ++ linha ++
     nl ++ "        " ++
     nl ++ "        *Endereço de entrega:* " ++ endereco ++
     nl ++ "        *Forma de pagamento:* " ++ pagamento ++
     nl ++ "        " ++
     nl ++ "        *Total:* R$ " ++ total ++
     nl ++ "        " ++
     nl ++ "        Está tudo correto? Responda SIM para confirmar ou me diga o que gostaria de modificar.[/END]" ++
     nl ++ "          ").

Definition PEDIR_NUMERO : string :=
  "Preciso do número do endereço antes de confirmar. Por favor, informe o número completo.".

(** [tempPedidoData.set(conversa.telefone, pedidoData)] under
    [if (conversa && conversa.telefone)]. *)
Definition guardarTemp (c : Conversa) (pedidoData : JValue) (w : World) : World :=
  if negb (telefone c =? "") then setTemp w (telefone c) pedidoData else w.

(** The block [if (jsonMatch) { ... }]. *)
Definition jsonPhase (botResponse : string) (r : Response) (c : Conversa) (w : World)
  : Step Response * Conversa * World :=
  match firstBlock JSON_TAG botResponse with
  | None => (Continue r, c, w)
  | Some body =>
      let jsonData :=
        match JSON_parse P body with
        | Some v => v
        | None => JObj [("pedido", JNull)]
        end in
      match selectPedido jsonData with
      | None => (Continue r, c, w)
      | Some pedidoData =>
          if pedidoCompleto pedidoData then
            let w1 := guardarTemp c pedidoData w in
            match matchDigits (getProp pedidoData "endereco") with
            | None => (Continue r, c, w1)
            | Some false =>
                let c1 := setState c 4 in
                (Return (plainResponse (Some 4%Z) PEDIR_NUMERO), c1, saveConversa c1 w1)
            | Some true =>
                let c1 := setPedidoData c pedidoData in
                let c2 := if (state c1 <? 6)%Z then setState c1 6 else c1 in
                let w2 := guardarTemp c2 pedidoData (saveConversa c2 w1) in
                let items := getProp pedidoData "items" in
                match calcularTotal false items, linhaPrimeiroItem items with
                | Some valorTotal, Some linha =>
                    (Continue
                       (setText r
                          (textoResumo linha
                             (jsToString (getProp pedidoData "endereco"))
                             (jsToString (getProp pedidoData "pagamento"))
                             (toFixed2 P valorTotal))),
                     c2, w2)
                | _, _ =>
                    (Continue
                       (setText r
                          "Houve um problema ao registrar seu pedido. Por favor, tente novamente ou entre em contato por telefone."),
                     c2, w2)
                end
            end
          else (Continue r, c, w)
      end
  end.

(** ** The confirmation block *)

(** [botConfig && botConfig.confirmationImage] and its caption. *)
Definition comImagemConfirmacao (botConfig : option BotConfig) (r : Response) : Response :=
  match botConfig with
  | Some cfg =>
      if truthyS (confirmationImage cfg) then
        setImageCaption (setImage r (confirmationImage cfg))
                        (orS (confirmationImageCaption cfg) (Some "Pedido Confirmado"))
      else r
  | None => r
  end.

Definition ENDERECO_INCOMPLETO : string :=
  "Desculpe, precisamos de um endereço completo com número para confirmar seu pedido. Por favor, informe o número do seu endereço.".

Definition ERRO_CONFIRMAR : string :=
  "Houve um problema ao confirmar seu pedido. Por favor, tente novamente ou entre em contato por telefone.".

Definition SEM_DETALHES : string :=
  "Não consegui encontrar os detalhes do seu pedido para confirmar. Por favor, tente fazer o pedido novamente.".

(** [conversa.addressData.formattedAddress] when it is there and holds a
    digit. *)
Definition enderecoRecuperavel (c : Conversa) : option string :=
  match addressData c with
  | Some ad =>
      if truthyS (formattedAddress ad) && Js.hasDigit (showS (formattedAddress ad))
      then formattedAddress ad else None
  | None => None
  end.

(** The order built at confirmation time. *)
Definition novoPedidoConfirmacao (c : Conversa) (saved : JValue)
           (itensMapeados : list JValue) (valorTotal : float) : DadosPedido :=
  mkDadosPedido (telefone c) (JArr itensMapeados) valorTotal
                (getProp saved "endereco") (getProp saved "pagamento") "Confirmado".

(** The [try] block that totals, stores the order and closes the
    conversation; [None] when it throws, which it can only do before
    anything is stored. *)
Definition confirmarPedido (c : Conversa) (saved : JValue) (w : World)
  : option (Conversa * World) :=
  match getProp saved "items" with
  | JArr l =>
      match somaItens true l 0%float, mapItens l with
      | Some valorTotal, Some itensMapeados =>
          match savePedido (novoPedidoConfirmacao c saved itensMapeados valorTotal) w with
          | Some (id, _, w1) =>
              let c1 := setState (setPedidoId c (Some id)) 7 in
              Some (c1, saveConversa c1 w1)
          | None => None
          end
      | _, _ => None
      end
  | _ => None
  end.

(** The block [if (confirmationMatch) { ... }]; the outer [None] is the
    TypeError of [endereco.match] on a staged address that is no string,
    which nothing catches. *)
Definition confirmationPhase (botResponse : string) (botConfig : option BotConfig)
           (r : Response) (c : Conversa) (w : World)
  : option (Step Response * Conversa * World) :=
  match firstBlock CONFIRMATION_TAG botResponse with
  | None => Some (Continue r, c, w)
  | Some body =>
      match pedidoId c with
      | Some _ =>
          Some (Return (comImagemConfirmacao botConfig (setText r body)), c, w)
      | None =>
          let saved := pedidoData c in
          if truthy saved then
            let endereco := getProp saved "endereco" in
            let semNumero :=
              if truthy endereco then
                match matchDigits endereco with
                | Some b => Some (negb b)
                | None => None
                end
              else Some true in
            match semNumero with
            | None => None
            | Some true =>
                match enderecoRecuperavel c with
                | Some fa =>
                    let saved' := setProp saved "endereco" (JStr fa) in
                    let c0 := mutatePedidoData c saved' in
                    match confirmarPedido c0 saved' w with
                    | Some (c1, w1) =>
                        Some (Continue (comImagemConfirmacao botConfig (setText r body)), c1, w1)
                    | None => Some (Continue (setText r ERRO_CONFIRMAR), c0, w)
                    end
                | None =>
                    let c1 := setState c 4 in
                    Some (Return (setText r ENDERECO_INCOMPLETO), c1, saveConversa c1 w)
                end
            | Some false =>
                match confirmarPedido c saved w with
                | Some (c1, w1) =>
                    Some (Continue (comImagemConfirmacao botConfig (setText r body)), c1, w1)
                | None => Some (Continue (setText r ERRO_CONFIRMAR), c, w)
                end
            end
          else Some (Continue (setText r SEM_DETALHES), c, w)
      end
  end.

(** ** The whole resolver *)

Definition ERRO_PROCESSAR : string :=
  "Desculpe, ocorreu um erro ao processar sua mensagem. Poderia tentar novamente?".

Definition semConteudo (r : Response) : bool :=
  (text r =? "") && negb (truthyS (image r)) && negb (truthyS (audio r)).

Definition semTags (botResponse : string) : bool :=
  negb (Js.includes botResponse TEXT_TAG) &&
  negb (Js.includes botResponse VOICE_TAG) &&
  negb (Js.includes botResponse IMAGE_TAG) &&
  negb (Js.includes botResponse JSON_TAG).

Definition fallbackPhase (botResponse : string) (r : Response) : Response :=
  if semConteudo r then
    if semTags botResponse then setText r botResponse
    else setText r ERRO_PROCESSAR
  else r.

(** [processTaggedResponse(botResponse, userMessage, conversa, botConfig)]:
    the answer ([None] when the promise rejects), the conversation
    document as it was left in memory, and the stores. *)
Definition processTaggedResponse (botResponse userMessage : string)
           (c : Conversa) (botConfig : option BotConfig) (w : World)
  : option Response * Conversa * World :=
  let r0 := plainResponse (Some (state c)) botResponse in
  let (r1, w1) := voicePhase botResponse (state c) r0 w in
  let r2 := imagePhase botResponse (state c) (cardapio w1) botConfig r1 in
  match jsonPhase botResponse r2 c w1 with
  | (Return r, c2, w2) => (Some r, c2, w2)
  | (Continue r3, c2, w2) =>
      match confirmationPhase botResponse botConfig r3 c2 w2 with
      | None => (None, c2, w2)
      | Some (Return r, c3, w3) => (Some r, c3, w3)
      | Some (Continue r4, c3, w3) => (Some (fallbackPhase botResponse r4), c3, w3)
      end
  end.

(** ** Regular expressions of the controller *)

(** [f] holds at some position of [s]. *)
Fixpoint anywhere (f : string -> bool) (s : string) : bool :=
  f s ||
  match s with
  | EmptyString => false
  | String _ s' => anywhere f s'
  end.

(** The leftmost position of [s] where [f] answers, and its answer. *)
Fixpoint leftmost {A : Type} (f : string -> option A) (s : string) : option A :=
  match f s with
  | Some a => Some a
  | None =>
      match s with
      | EmptyString => None
      | String _ s' => leftmost f s'
      end
  end.

(** [\d{n}] at the start: the digits and the rest. *)
Fixpoint takeDigits (n : nat) (s : string) : option (string * string) :=
  match n with
  | O => Some (EmptyString, s)
  | S n' =>
      match s with
      | String c s' =>
          if Js.isDigit c then
            match takeDigits n' s' with
            | Some (d, r) => Some (String c d, r)
            | None => None
            end
          else None
      | EmptyString => None
      end
  end.

(** [(\d+)] at the start, greedy: [None] without a digit. *)
Fixpoint spanDigits (s : string) : string :=
  match s with
  | String c s' => if Js.isDigit c then String c (spanDigits s') else EmptyString
  | EmptyString => EmptyString
  end.

Definition digitsAt (s : string) : option string :=
  let d := spanDigits s in if d =? "" then None else Some d.

(** [-?] *)
Definition skipHyphen (s : string) : string :=
  match s with
  | String c s' => if Ascii.eqb c "-"%char then s' else s
  | EmptyString => s
  end.

(** [/\d{5}-?\d{3}/] at the start. *)
Definition cepAt (s : string) : bool :=
  match takeDigits 5 s with
  | Some (_, r) =>
      match takeDigits 3 (skipHyphen r) with
      | Some _ => true
      | None => false
      end
  | None => false
  end.

(** [/(\d{5})-?\s*?(\d{3})/] at the start: the eight digits. *)
Definition cepCaptureAt (s : string) : option string :=
  match takeDigits 5 s with
  | Some (d5, r) =>
      match takeDigits 3 (Js.trimStart (skipHyphen r)) with
      | Some (d3, _) => Some (d5 ++ d3)
      | None => None
      end
  | None => None
  end.

(** [/,\s*(\d+)/] at the start: the digits. *)
Definition commaNumberAt (s : string) : option string :=
  match s with
  | String c s' => if Ascii.eqb c ","%char then digitsAt (Js.trimStart s') else None
  | EmptyString => None
  end.

(** [/número\s+(\d+)/i] at the start. *)
Definition numeroPalavraAt (s : string) : option string :=
  if Js.startsWith (Js.foldCase s) "número" then
    let r := Js.drop (String.length "número") s in
    match Js.spaceAt r with
    | Some _ => digitsAt (Js.trimStart r)
    | None => None
    end
  else None.

(** [/n[º°]\s*(\d+)/i] at the start. *)
Definition numeroSinalAt (s : string) : option string :=
  if Js.startsWith (Js.foldCase s) "nº" || Js.startsWith (Js.foldCase s) "n°" then
    digitsAt (Js.trimStart (Js.drop (String.length "nº") s))
  else None.

(** ** The state detector *)

(** [checkIfShouldAdvanceState(botResponse, userMessage, currentState,
    conversa)]. In state 6 the result is the value of the [&&] chain,
    which need not be a boolean. *)
Definition checkIfShouldAdvanceState (botResponse userMessage : string)
           (currentState : Z) (c : Conversa) : JValue :=
  let userMsg := Js.toLowerCase userMessage in
  let bot := Js.toLowerCase botResponse in
  if (currentState =? 0)%Z then
    JBool (Js.includes userMsg "pizza" || Js.includes userMsg "tropicale" ||
           Js.includes userMsg "amazonas" || Js.includes userMsg "napolitana" ||
           Js.includes userMsg "pedido" || Js.includes userMsg "quero" ||
           Js.includes userMsg "manda")
  else if (currentState =? 1)%Z then
    let shouldAdvance1 :=
      Js.includes userMsg "inteira" || Js.includes userMsg "meio" ||
      Js.includes userMsg "metade" ||
      (Js.includes bot "pizza" &&
       (Js.includes bot "grande" || Js.includes bot "média" ||
        Js.includes bot "pequena" || Js.includes bot "familia")) in
    let isAskingForSize :=
      Js.includes bot "tamanho" || Js.includes bot "grande" ||
      Js.includes bot "média" || Js.includes bot "pequena" in
    let isAskingForType :=
      Js.includes bot "inteira" || Js.includes bot "meio a meio" in
    if isAskingForSize || isAskingForType then JBool true else JBool shouldAdvance1
  else if (currentState =? 2)%Z then
    JBool (Js.includes userMsg "finalizar" || Js.includes userMsg "mais uma" ||
           Js.includes userMsg "outra pizza")
  else if (currentState =? 3)%Z then
    JBool (Js.includes userMsg "sim" || Js.includes userMsg "não" ||
           Js.includes userMsg "nao" || Js.includes userMsg "refrigerante" ||
           Js.includes userMsg "guaraná" || Js.includes userMsg "guarana" ||
           Js.includes userMsg "coca" || Js.includes userMsg "sem refrigerante" ||
           Js.includes userMsg "sem bebida")
  else if (currentState =? 4)%Z then
    let hasCEP := anywhere cepAt userMsg in
    let hasNumber := Js.hasDigit userMsg in
    if hasCEP && match leftmost commaNumberAt userMsg with Some _ => true | None => false end
    then JBool true
    else if Js.onlyNumber userMsg then JBool true
    else if hasNumber then JBool true
    else JBool false
  else if (currentState =? 5)%Z then
    JBool (Js.includes userMsg "débito" || Js.includes userMsg "debito" ||
           Js.includes userMsg "crédito" || Js.includes userMsg "credito" ||
           Js.includes userMsg "dinheiro" || Js.includes userMsg "pix" ||
           Js.includes userMsg "vr")
  else if (currentState =? 6)%Z then
    let userConfirms :=
      Js.includes userMsg "sim" || Js.includes userMsg "confirmo" ||
      Js.includes userMsg "correto" || Js.includes userMsg "ok" ||
      Js.includes userMsg "pode ser" in
    let hasConfirmationTag := Js.includes botResponse CONFIRMATION_TAG in
    let pd := pedidoData c in
    let hasPedidoData :=
      if truthy pd then
        if truthy (getProp pd "items") then
          if truthy (getProp pd "endereco") then getProp pd "pagamento"
          else getProp pd "endereco"
        else getProp pd "items"
      else pd in
    if userConfirms then
      if hasConfirmationTag then hasPedidoData else JBool false
    else JBool false
  else JBool false.

(** ** Image requests in the user's message *)

Definition pizzaTypes : list (string * string) :=
  [ ("amazonas", "pizza-salgada_pizza-amazonas");
    ("porco & pinhão", "pizza-salgada_pizza-porco-e-pinhao");
    ("porco e pinhão", "pizza-salgada_pizza-porco-e-pinhao");
    ("porco e pinhao", "pizza-salgada_pizza-porco-e-pinhao");
    ("tropicale", "pizza-salgada_pizza-tropicale");
    ("napolitana paulistana", "pizza-salgada_pizza-napolitana-paulistana");
    ("cerrado brasileiro", "pizza-salgada_pizza-cerrado-brasileiro");
    ("caprese tropical", "pizza-salgada_pizza-caprese-tropical");
    ("frutos do mar à paulista", "pizza-salgada_pizza-frutos-do-mar-a-paulista");
    ("frutos do mar", "pizza-salgada_pizza-frutos-do-mar-a-paulista");
    ("dolce banana", "pizza-doce_pizza-dolce-banana");
    ("banana", "pizza-doce_pizza-dolce-banana") ].

(** [detectImageRequest(message)]; [None] is [null]. *)
Definition detectImageRequest (message0 : string) : option (list string) :=
  let message := Js.toLowerCase message0 in
  let hasImageRequest :=
    Js.includes message "imagem" || Js.includes message "foto" ||
    Js.includes message "mostra" || Js.includes message "mostrar" ||
    Js.includes message "ver" || Js.includes message "veja" ||
    Js.includes message "como é" in
  if negb hasImageRequest then None
  else if Js.includes message "cardápio" || Js.includes message "cardapio" ||
          Js.includes message "menu" ||
          (Js.includes message "opções" && Js.includes message "pizza")
  then Some ["cardapio"]
  else
    let mencionados := filter (fun pz => Js.includes message (fst pz)) pizzaTypes in
    let meio :=
      Js.includes message "meio a meio" || Js.includes message "metade" ||
      Js.includes message "meio" ||
      (Js.includes message "meia" && Js.includes message "meia") in
    match meio, mencionados with
    | true, sabor1 :: sabor2 :: _ => Some [snd sabor1 ++ "+" ++ snd sabor2]
    | _, _ =>
        match mencionados with
        | [] => None
        | _ :: _ => Some (map snd mencionados)
        end
    end.

(** The canned reply for an image request. *)
Definition respostaImagens (ids : list string) : string :=
  match ids with
  | [] => ""
  | id0 :: rest =>
      if id0 =? "cardapio" then
        "[TEXT_FORMAT]Aqui está nosso cardápio:[/END]" ++ nl ++ "[IMAGE_FORMAT]cardapio[/END]"
      else
        match rest with
        | _ :: _ =>
            "[TEXT_FORMAT]Aqui estão as imagens das pizzas solicitadas:[/END]" ++
            String.concat "" (map (fun id => nl ++ "[IMAGE_FORMAT]" ++ id ++ "[/END]") ids) ++
            nl ++ "[TEXT_FORMAT]Gostaria de pedir alguma destas pizzas?[/END]"
        | [] =>
            "[TEXT_FORMAT]Aqui está a imagem da pizza solicitada:[/END]" ++ nl ++
            "[IMAGE_FORMAT]" ++ id0 ++ "[/END]" ++ nl ++
            "[TEXT_FORMAT]Gostaria de pedir esta pizza?[/END]"
        end
  end.

(** ** Order data in the model's reply *)

(** [extractPedidoData(text, conversa)]; [None] is [null]. *)
Definition extractPedidoData (t : string) : option JValue :=
  match firstBlock JSON_TAG t with
  | None => None
  | Some body =>
      match JSON_parse P body with
      | None => None
      | Some jsonData =>
          match selectPedido jsonData with
          | None => None
          | Some pedidoData =>
              if pedidoCompleto pedidoData then
                match matchDigits (getProp pedidoData "endereco") with
                | Some true => Some pedidoData
                | _ => None
                end
              else None
          end
      end
  end.

(** The repair of a reply that carries none of the four kinds of block
    together with a closing tag. *)
Definition semFormato (botResponse : string) : bool :=
  negb (Js.includes botResponse TEXT_TAG && Js.includes botResponse END_TAG) &&
  negb (Js.includes botResponse VOICE_TAG && Js.includes botResponse END_TAG) &&
  negb (Js.includes botResponse IMAGE_TAG && Js.includes botResponse END_TAG) &&
  negb (Js.includes botResponse JSON_TAG && Js.includes botResponse END_TAG).

Definition aplicarFormatoPadrao (botResponse : string) : string :=
  if semFormato botResponse then TEXT_TAG ++ botResponse ++ END_TAG else botResponse.

Definition RESPOSTA_FALHA_MODELO : string :=
  "[TEXT_FORMAT]Desculpe, estou enfrentando alguns problemas técnicos no momento. Poderia tentar novamente em instantes?[/END]".

(** ** One turn *)

(** What the language model answered: an error of the call, a completion
    without content, or a text. *)
Inductive ModelReply : Type :=
| ReplyError
| ReplyNull
| ReplyText (s : string).

(** The inputs of a turn that the engine does not control: the clock, the
    answers of the language model to the first and to the enriched call,
    and whether the cache holds a story, a menu and payment methods. *)
Record Turno : Type := mkTurno {
  agora : Z;
  reply : ModelReply;
  enriched : ModelReply;
  temHistoria : bool;
  temCardapio : bool;
  temPagamento : bool
}.

Definition Result : Type := (Response * Conversa * World)%type.

(** The answer of the outermost [catch]. *)
Definition respostaErroCritico : Response :=
  mkResponse false None
    "[TEXT_FORMAT]Desculpe, ocorreu um erro ao processar sua mensagem.[/END]"
    None None None None (Some "Erro interno do servidor").

(** [await processTaggedResponse(...)] directly under the outermost [try]. *)
Definition responder (botResponse message : string) (c : Conversa)
           (cfg : option BotConfig) (w : World) : Result :=
  match processTaggedResponse botResponse message c cfg w with
  | (Some r, c', w') => (r, c', w')
  | (None, c', w') => (respostaErroCritico, c', w')
  end.

Definition isResetRequest (message : string) : bool :=
  (Js.toLowerCase message =? "reiniciar") ||
  (Js.toLowerCase message =? "começar de novo") ||
  (Js.toLowerCase message =? "novo pedido").

(** [Math.round((agora - inicio) / 60000)] *)
Definition minutosDesde (inicio_ agora_ : Z) : Z :=
  ((agora_ - inicio_ + 30000) / 60000)%Z.

(** [detectAndValidateCEP(message)] and the storing of its result. *)
Definition detectAndValidateCEP (message : string) : option AddressData :=
  match leftmost cepCaptureAt message with
  | Some digits =>
      match cepLookup P digits with
      | Some comps =>
          Some (mkAddressData
                  (Some (showS (street comps) ++ ", " ++ showS (neighborhood comps) ++ ", " ++
                         showS (city comps) ++ " - " ++ showS (uf comps) ++ ", " ++
                         showS (cep comps)))
                  (Some comps))
      | None => None
      end
  | None => None
  end.

Definition registrarCEP (message : string) (c : Conversa) (w : World) : Conversa * World :=
  match detectAndValidateCEP message with
  | Some ad => let c1 := setAddressData c (Some ad) in (c1, saveConversa c1 w)
  | None => (c, w)
  end.

Definition OPCOES_PAGAMENTO : string :=
  "Qual será a forma de pagamento? Temos as opções: Dinheiro, Cartão de crédito, Cartão de débito, PIX ou VR.".

(** State 4: a message that is only a number completes the stored street. *)
Definition interceptNumero (message : string) (c : Conversa) (w : World) : option Result :=
  if (state c =? 4)%Z && Js.onlyNumber message then
    match addressData c with
    | Some ad =>
        match components ad with
        | Some comps =>
            if truthyS (street comps) then
              let rua := showS (street comps) in
              let number := Js.trim message in
              let formatted :=
                if truthyS (formattedAddress ad)
                then Js.replaceFirst (showS (formattedAddress ad)) rua (rua ++ ", " ++ number)
                else rua ++ ", " ++ number in
              let c1 := setAddressData c (Some (mkAddressData (Some formatted) (components ad))) in
              let c2 := if truthy (pedidoData c1)
                        then mutatePedidoData c1
                               (setProp (pedidoData c1) "endereco" (JStr formatted))
                        else c1 in
              let c3 := setState c2 5 in
              let w1 := saveConversa c3 w in
              let confirmationMessage :=
                "Perfeito! Endereço registrado: " ++ formatted ++ ". " ++ OPCOES_PAGAMENTO in
              let c4 := pushMensagem c3 (mkMensagem Bot (TEXT_TAG ++ confirmationMessage ++ END_TAG)) in
              Some (plainResponse (Some 5%Z) (TEXT_TAG ++ confirmationMessage ++ END_TAG),
                    c4, saveConversa c4 w1)
            else None
        | None => None
        end
    | None => None
    end
  else None.

Definition PEDIR_TIPO_CARTAO : string :=
  "Por favor, especifique se deseja pagar com cartão de crédito ou débito.".

(** [conversa.mensagens.filter(msg => msg.tipo === 'user' &&
    conversa.state === 5)] *)
Definition mensagensNoEstado5 (c : Conversa) : list Mensagem :=
  filter (fun msg => isUser (tipo msg) && (state c =? 5)%Z) (mensagens c).

(** State 5: the payment prompt and the card-type question. *)
Definition interceptPagamento (message : string) (c : Conversa) (w : World) : option Result :=
  if (state c =? 5)%Z && negb (message =? "5") then
    if (List.length (mensagensNoEstado5 c) <=? 1)%nat then
      let botResponse := TEXT_TAG ++ OPCOES_PAGAMENTO ++ END_TAG in
      let c1 := pushMensagem c (mkMensagem Bot botResponse) in
      Some (plainResponse None botResponse, c1, saveConversa c1 w)
    else
      let m := Js.toLowerCase message in
      let temCartao := Js.includes m "cartão" || Js.includes m "cartao" in
      let temCredito := Js.includes m "credito" || Js.includes m "crédito" in
      let temDebito := Js.includes m "debito" || Js.includes m "débito" in
      if temCartao && negb temCredito && negb temDebito then
        let c1 := pushMensagem c (mkMensagem Bot (TEXT_TAG ++ PEDIR_TIPO_CARTAO ++ END_TAG)) in
        Some (plainResponse None (TEXT_TAG ++ PEDIR_TIPO_CARTAO ++ END_TAG),
              c1, saveConversa c1 w)
      else None
  else None.

(** The house number looked for in the user's messages, newest first. *)
Definition numeroMatch (conteudo_ : string) : option string :=
  match leftmost numeroPalavraAt conteudo_ with
  | Some n => Some n
  | None =>
      match leftmost commaNumberAt conteudo_ with
      | Some n => Some n
      | None => leftmost numeroSinalAt conteudo_
      end
  end.

Fixpoint procurarNumero (estado : Z) (doFim : list Mensagem) : option string :=
  match doFim with
  | [] => None
  | msg :: rest =>
      if isUser (tipo msg) then
        match numeroMatch (conteudo msg) with
        | Some n => Some n
        | None =>
            if Js.onlyNumber (conteudo msg) && (estado =? 4)%Z
            then Some (Js.trim (conteudo msg))
            else procurarNumero estado rest
        end
      else procurarNumero estado rest
  end.

(** [enderecoCompleto] of the state-6 shortcut. *)
Definition enderecoCompleto (c : Conversa) (pd : JValue) : JValue :=
  let e := getProp pd "endereco" in
  match addressData c with
  | Some ad =>
      match components ad with
      | Some comps =>
          if Js.hasDigit (jsToString e) then e
          else
            match procurarNumero (state c) (rev (mensagens c)) with
            | Some numero =>
                JStr (showS (street comps) ++ ", " ++ numero ++ ", " ++
                      showS (neighborhood comps) ++ ", " ++ showS (city comps) ++ " - " ++
                      showS (uf comps) ++ ", " ++ showS (cep comps))
            | None => e
            end
      | None => e
      end
  | None => e
  end.

Definition textoConfirmacao (linha endereco_ pagamento total : string) : string :=
  Js.trim
    (nl ++ "[TEXT_FORMAT]🎉 *PEDIDO CONFIRMADO* 🎉" ++
     nl ++
     nl ++ linha ++
     nl ++
     nl ++ "*Endereço de entrega:* " ++ endereco_ ++
     nl ++ "*Forma de pagamento:* " ++ pagamento ++
     nl ++
     nl ++ "*Total:* R$ " ++ total ++
     nl ++
     nl ++ "Seu pedido será entregue em aproximadamente 50 minutos. Obrigado pela preferência! 🍕[/END]" ++
     nl ++ "    ").

Definition novoCid (w : World) : nat :=
  S (fold_right Nat.max 0%nat (map cid (conversas w))).

(** [new Conversa({ telefone, inicio: now, duracao: 0, state: 0,
    mensagens: [] })] *)
Definition novaConversa (tel : string) (agora_ : Z) (w : World) : Conversa :=
  mkConversa (novoCid w) tel agora_ 0 0 [] None JUndef None None 0.

Definition ERRO_FINALIZAR : Response :=
  plainResponse (Some 6%Z)
    "[TEXT_FORMAT]Desculpe, ocorreu um erro ao finalizar seu pedido. Por favor, tente novamente.[/END]".

Definition isAfirmativo (message : string) : bool :=
  Js.includes (Js.toLowerCase message) "sim" ||
  Js.includes (Js.toLowerCase message) "correto" ||
  Js.includes (Js.toLowerCase message) "ok".

(** State 6: an affirmative message stores the staged order, its items as
    the payload has them. Every exception of the block, the rejection of
    the order by the casts included, ends in the same answer. *)
Definition interceptConfirmacao (t : Turno) (message : string) (c : Conversa) (w : World)
  : option Result :=
  if (state c =? 6)%Z && isAfirmativo message then
    let pd := pedidoData c in
    if negb (truthy pd) then
      Some (plainResponse (Some 0%Z)
              "[TEXT_FORMAT]Desculpe, houve um problema com seu pedido. Poderia começar novamente?[/END]",
            c, w)
    else
      let ender := enderecoCompleto c pd in
      match calcularTotal false (getProp pd "items") with
      | None => Some (ERRO_FINALIZAR, c, w)
      | Some total =>
          match savePedido (mkDadosPedido (telefone c) (getProp pd "items") total ender
                                          (getProp pd "pagamento") "Confirmado") w with
          | None => Some (ERRO_FINALIZAR, c, w)
          | Some (id, novoPedido, w1) =>
              let c1 := setState (setPedidoId c (Some id)) 7 in
              match linhaPrimeiroItem (getProp pd "items") with
              | None => Some (ERRO_FINALIZAR, c1, w1)
              | Some linha =>
                  let confirmacao :=
                    textoConfirmacao linha (jsToString ender)
                                     (jsToString (formaPagamento novoPedido))
                                     (toFixed2 P total) in
                  let c2 := pushMensagem c1 (mkMensagem Bot confirmacao) in
                  let w2 := saveConversa c2 w1 in
                  let w3 := saveConversa (novaConversa (telefone c2) (agora t) w2) w2 in
                  match processTaggedResponse confirmacao message c2 None w3 with
                  | (Some r, c3, w4) => Some (r, c3, w4)
                  | (None, c3, w4) => Some (ERRO_FINALIZAR, c3, w4)
                  end
              end
          end
      end
  else None.

(** The first call of the language model and the update of the staged
    order from [extractPedidoData]. A completion without content fails at
    the next [botResponse.includes] and ends, like an error of the call,
    in the fallback text. *)
Definition primeiraResposta (t : Turno) (c : Conversa) (w : World)
  : string * Conversa * World :=
  match reply t with
  | ReplyText botResponse =>
      if negb (botResponse =? "") then
        match extractPedidoData botResponse with
        | Some extracted =>
            let c1 := setLastJsonData (setPedidoData c extracted)
                                      (firstBlock JSON_TAG botResponse) in
            (botResponse, c1, saveConversa c1 w)
        | None => (botResponse, c, w)
        end
      else (botResponse, c, w)
  | ReplyError | ReplyNull => (RESPOSTA_FALHA_MODELO, c, w)
  end.

(** The block [if (botResponse.includes('[JSON_FORMAT]')) { ... }]: the
    parsed payload is staged as it is and the state becomes 6. *)
Definition armazenarPedido (botResponse : string) (c : Conversa) (w : World)
  : Conversa * World :=
  if Js.includes botResponse JSON_TAG then
    match firstBlock JSON_TAG botResponse with
    | Some body =>
        if negb (body =? "") then
          match JSON_parse P (Js.trim body) with
          | Some jsonData =>
              if negb (telefone c =? "") then
                match prop jsonData "pedido" with
                | Some ped =>
                    let dados := jsOr ped jsonData in
                    let w1 := setTemp w (telefone c) dados in
                    let c1 := setState (setPedidoData c dados) 6 in
                    (c1, saveConversa c1 w1)
                | None => (c, w)
                end
              else (c, w)
          | None => (c, w)
          end
        else (c, w)
    | None => (c, w)
    end
  else (c, w).

Definition removerPedidosDeContexto (botResponse : string) : string :=
  Js.trim
    (Js.replaceFirst
       (Js.replaceFirst
          (Js.replaceFirst
             (Js.replaceFirst
                (Js.replaceFirst
                   (Js.replaceFirst botResponse "[REQUEST_HISTORY]" "")
                   "[/REQUEST_HISTORY]" "")
                "[REQUEST_MENU]" "")
             "[/REQUEST_MENU]" "")
          "[REQUEST_PAYMENT]" "")
       "[/REQUEST_PAYMENT]" "").

(** The second, enriched call; [None] is a reply left [null], on which the
    format check throws. *)
Definition respostaEnriquecida (t : Turno) (botResponse : string) (w : World)
  : option string * World :=
  let needsHistory := Js.includes botResponse "[REQUEST_HISTORY]" ||
                      Js.includes botResponse "[/REQUEST_HISTORY]" in
  let needsMenu := Js.includes botResponse "[REQUEST_MENU]" ||
                   Js.includes botResponse "[/REQUEST_MENU]" in
  let needsPayment := Js.includes botResponse "[REQUEST_PAYMENT]" ||
                      Js.includes botResponse "[/REQUEST_PAYMENT]" in
  if needsHistory || needsMenu || needsPayment then
    let limpa := removerPedidosDeContexto botResponse in
    if (needsHistory && temHistoria t) || (needsMenu && temCardapio t) ||
       (needsPayment && temPagamento t) then
      let w1 := addEvent w EvModelCall in
      match enriched t with
      | ReplyText s => (Some (aplicarFormatoPadrao s), w1)
      | ReplyError => (Some limpa, w1)
      | ReplyNull => (None, w1)
      end
    else (Some limpa, w)
  else (Some botResponse, w).

Definition PEDIR_NUMERO_ANTES : string :=
  "Antes de confirmar seu pedido, preciso do número completo do seu endereço. Por favor, informe o número.".

(** The update of the state from the detector's result; [Some r] is the
    answer of the branch that returns at once. A result whose [typeof] is
    ["object"] is read as a record with [shouldAdvance] and
    [needAddressNumber]; on [null] that read throws and the state stays. *)
Definition atualizarEstado (botResponse message : string) (c : Conversa) (w : World)
  : option Response * Conversa * World :=
  let stateResult := checkIfShouldAdvanceState botResponse message (state c) c in
  let avancar (shouldAdvance : JValue) :=
    if truthy shouldAdvance && (state c <? 7)%Z then
      (None, setState c (state c + 1), w)
    else if (state c =? 7)%Z then
      match pedidoId c with
      | None => (None, c, addEvent w EvAlertaEstado7SemPedido)
      | Some _ => (None, c, w)
      end
    else (None, c, w) in
  match stateResult with
  | JNull => (None, c, w)
  | JArr _ | JObj _ =>
      if truthy (getProp stateResult "needAddressNumber") then
        let c1 := setState c 4 in
        let c2 := pushMensagem c1 (mkMensagem Bot (TEXT_TAG ++ PEDIR_NUMERO_ANTES ++ END_TAG)) in
        (Some (plainResponse (Some 4%Z) (TEXT_TAG ++ PEDIR_NUMERO_ANTES ++ END_TAG)),
         c2, saveConversa c2 w)
      else avancar (getProp stateResult "shouldAdvance")
  | _ => avancar stateResult
  end.

(** The projection the cache keeps of the bot configuration: the image
    fields are not among the selected ones. *)
Definition cachedBotConfig (w : World) : option BotConfig :=
  match botConfig w with
  | Some cfg => Some (mkBotConfig (welcomeMessage cfg) None None None None)
  | None => None
  end.

(** The path through the language model. *)
Definition viaModelo (t : Turno) (message : string) (c : Conversa) (w : World) : Result :=
  let w0 := addEvent w EvModelCall in
  let '(resposta1, c1, w1) := primeiraResposta t c w0 in
  let '(c2, w2) := armazenarPedido resposta1 c1 w1 in
  let '(resposta2, w3) := respostaEnriquecida t resposta1 w2 in
  let botResponse :=
    match resposta2 with
    | Some s => aplicarFormatoPadrao s
    | None => RESPOSTA_FALHA_MODELO
    end in
  let c3 := pushMensagem c2 (mkMensagem Bot botResponse) in
  match atualizarEstado botResponse message c3 w3 with
  | (Some r, c4, w4) => (r, c4, w4)
  | (None, c4, w4) =>
      responder botResponse message c4 (cachedBotConfig w4) (saveConversa c4 w4)
  end.

(** [processMessageInternally(userPhone, message, isAudio, messageType,
    conversa)] *)
Definition processMessageInternally (t : Turno) (userPhone message : string)
           (isAudio : bool) (c : Conversa) (w : World) : Result :=
  if userPhone =? "" then (respostaErroCritico, c, w)
  else if isResetRequest message then
    (mkResponse true None "Seu pedido foi reiniciado. Como posso ajudar?"
                None None None None None, c, w)
  else
    let c0 := setDuracao c (minutosDesde (inicio c) (agora t)) in
    let '(c1, w1) := registrarCEP message c0 w in
    let c2 := pushMensagem c1
                (mkMensagem User (if isAudio then "[Áudio]: " ++ message else message)) in
    match interceptNumero message c2 w1 with
    | Some res => res
    | None =>
        match interceptPagamento message c2 w1 with
        | Some res => res
        | None =>
            match interceptConfirmacao t message c2 w1 with
            | Some res => res
            | None =>
                match detectImageRequest message with
                | Some (id0 :: ids) =>
                    let responseText := respostaImagens (id0 :: ids) in
                    let c3 := pushMensagem c2 (mkMensagem Bot responseText) in
                    responder responseText message c3 (botConfig w1) (saveConversa c3 w1)
                | _ => viaModelo t message c2 w1
                end
            end
        end
    end.

(** [getOrCreateConversation(userPhone, message)]; [antiga] tells whether
    the newest conversation began more than three hours ago. *)
Definition antiga (c : Conversa) (agora_ : Z) : bool :=
  (3 * 60 * 60 * 1000 <? agora_ - inicio c)%Z.

Definition maisRecente (userPhone : string) (w : World) : option Conversa :=
  find (fun c => telefone c =? userPhone) (conversas w).

Definition getOrCreateConversation (agora_ : Z) (userPhone message : string) (w : World)
  : Conversa * World :=
  let criar := let c := novaConversa userPhone agora_ w in (c, saveConversa c w) in
  if isResetRequest message then criar
  else
    match maisRecente userPhone w with
    | Some c => if (state c =? 7)%Z || antiga c agora_ then criar else (c, w)
    | None => criar
    end.

(** What the route [POST /api/message] answers: the status 400 with an
    error text, or the answer of the turn. *)
Inductive RespostaRota : Type :=
| Recusada (erro : string)
| Respondida (r : Response).

(** The route [POST /api/message] for a body whose [phone] is the text
    [phone] (empty when the body has none) and whose [message], when it
    has one, is a text. *)
Definition apiMessage (t : Turno) (phone : string) (message : option string)
           (isAudio : bool) (w : World) : RespostaRota * World :=
  if phone =? "" then (Recusada "Número de telefone é obrigatório", w)
  else
    match message with
    | None => (Recusada "Mensagem é obrigatória", w)
    | Some m =>
        let '(c, w1) := getOrCreateConversation (agora t) phone m w in
        let '(r, _, w2) := processMessageInternally t phone m isAudio c w1 in
        (Respondida r, w2)
    end.

Definition BOAS_VINDAS_PADRAO : string :=
  "Olá! Sou o atendente virtual da pizzaria. Como posso ajudar?".

(** [handleResetRequest(userPhone)]: the conversation it creates, the
    answer it sends ([None] when it fails) and the stores. *)
Definition handleResetRequest (agora_ : Z) (userPhone : string) (w : World)
  : option Response * Conversa * World :=
  let c := novaConversa userPhone agora_ w in
  let w1 := saveConversa c w in
  let welcome :=
    match botConfig w1 with
    | Some cfg => if truthyS (welcomeMessage cfg) then showS (welcomeMessage cfg)
                  else BOAS_VINDAS_PADRAO
    | None => BOAS_VINDAS_PADRAO
    end in
  let formattedWelcome :=
    if Js.includes welcome TEXT_TAG then welcome else TEXT_TAG ++ welcome ++ END_TAG in
  let c1 := pushMensagem (pushMensagem c (mkMensagem User "reiniciar"))
                         (mkMensagem Bot formattedWelcome) in
  processTaggedResponse formattedWelcome "reiniciar" c1 (cachedBotConfig w1)
                        (saveConversa c1 w1).

End Engine.

(** ** Sequences of turns *)

(** A request that arrives at the route: the inputs of its turn, the
    customer's number, the text, if the body has one, and whether it was
    spoken. *)
Record Entrada : Type := mkEntrada {
  en_turno : Turno;
  en_phone : string;
  en_message : option string;
  en_audio : bool
}.

Section Sessao.

Variable P : Platform.

(** The stores after the messages of [turns] went through the entry point
    one after the other. *)
Fixpoint sessao (turns : list Entrada) (w : World) : World :=
  match turns with
  | [] => w
  | e :: rest =>
      sessao rest (snd (apiMessage P (en_turno e) (en_phone e) (en_message e) (en_audio e) w))
  end.

End Sessao.

(** ** What the text entry point sends *)

(** [block.replace(/\[TEXT_FORMAT\]|\[\/END\]/g, '')]: one pass from the
    left; [skip] counts the characters of a tag still to be dropped. *)
Fixpoint stripTags (skip : nat) (s : string) : string :=
  match s with
  | EmptyString => EmptyString
  | String ch s' =>
      match skip with
      | S k => stripTags k s'
      | O =>
          if Js.startsWith s TEXT_TAG then stripTags (Nat.pred (String.length TEXT_TAG)) s'
          else if Js.startsWith s END_TAG then stripTags (Nat.pred (String.length END_TAG)) s'
          else String ch (stripTags 0 s')
      end
  end.

(** The texts [processTextMessage] sends for [apiResponse.text]: every
    text block, its tags removed, trimmed, unless nothing is left. *)
Definition textosEnviados (text_ : string) : list string :=
  filter (fun cleanText => negb (cleanText =? ""))
         (map (fun body => Js.trim (stripTags 0 (TEXT_TAG ++ body ++ END_TAG)))
              (allBlocks TEXT_TAG text_)).

(* ================================================================== *)
(** * Routes, prompt texts and the WhatsApp entry point *)

(** ** The route [POST /api/get-image-by-id] *)

(** What the route answers: the status and the fields of the body. *)
Record RespostaImagem : Type := mkRespostaImagem {
  ri_status : Z;
  ri_success : bool;
  ri_message : option string;
  ri_imageUrl : option string;
  ri_caption : option string
}.

Section Rotas.

Variable P : Platform.

(** The handler for a text [imageId]; the empty text is the missing one.
    The three lookups are those of the additional images of the resolver;
    an exception of theirs is the status 500. *)
Definition getImageById (db : list CardapioItem) (imageId : string) : RespostaImagem :=
  if imageId =? "" then
    mkRespostaImagem 400 false (Some "ID de imagem não fornecido") None None
  else
    match resolveAdditional P db imageId with
    | None => mkRespostaImagem 500 false (Some "Erro ao buscar imagem") None None
    | Some (Some item) =>
        if truthyS (imagemGeral item)
        then mkRespostaImagem 200 true None (imagemGeral item) (Some (captionItem item))
        else mkRespostaImagem 404 false (Some "Imagem não encontrada") None None
    | Some None => mkRespostaImagem 404 false (Some "Imagem não encontrada") None None
    end.

End Rotas.

(** ** The texts of the system prompt *)

(** A payment method as the cache keeps it. *)
Record FormaPagamento : Type := mkFormaPagamento {
  fp_nome : option string;
  fp_requerTroco : bool
}.

Definition linhaPagamento (forma : FormaPagamento) : string :=
  "- " ++ showS (fp_nome forma) ++
  (if fp_requerTroco forma then " (pode precisar de troco)" else "") ++ nl.

(** [formatPagamentoForPrompt(pagamentos)]; [None] is a value without
    [forEach], on which the function answers from its [catch]. *)
Definition formatPagamentoForPrompt (pagamentos : option (list FormaPagamento)) : string :=
  match pagamentos with
  | Some l => fold_left (fun result forma => result ++ linhaPagamento forma) l ""
  | None => "Formas de pagamento não disponíveis"
  end.

(** A menu item as the cache keeps it; a field that is [None] is absent,
    the price also when it is no number. *)
Record ItemPrompt : Type := mkItemPrompt {
  ip_nome : option string;
  ip_descricao : option string;
  ip_categoria : option string;
  ip_preco : option float;
  ip_inspiracao : option string
}.

(** The names every object inherits: under such a key [categorias[key]]
    is there before anything is put, and it has no [push]. *)
Definition herdadas : list string :=
  [ "constructor"; "__proto__"; "__defineGetter__"; "__defineSetter__";
    "__lookupGetter__"; "__lookupSetter__"; "hasOwnProperty"; "isPrototypeOf";
    "propertyIsEnumerable"; "toLocaleString"; "toString"; "valueOf" ].

(** [categorias[k].push(item)] after [categorias[k] = []] when the key is
    new; the keys in the order they were put. *)
Fixpoint inserirNoGrupo (k : string) (item : ItemPrompt)
         (grupos : list (string * list ItemPrompt)) : list (string * list ItemPrompt) :=
  match grupos with
  | [] => [(k, [item])]
  | (k', its) :: rest =>
      if k' =? k then (k', (its ++ [item])%list) :: rest
      else (k', its) :: inserirNoGrupo k item rest
  end.

(** The first loop; [None] is the TypeError of an item without category
    or of a category named like an inherited property. *)
Fixpoint agrupar (items : list ItemPrompt) (grupos : list (string * list ItemPrompt))
  : option (list (string * list ItemPrompt)) :=
  match items with
  | [] => Some grupos
  | item :: rest =>
      match ip_categoria item with
      | None => None
      | Some k =>
          if existsb (String.eqb k) herdadas then None
          else agrupar rest (inserirNoGrupo k item grupos)
      end
  end.

Fixpoint valorDecimal (s : string) (acc : N) : N :=
  match s with
  | EmptyString => acc
  | String c s' => valorDecimal s' (10 * acc + N.of_nat (nat_of_ascii c - 48))%N
  end.

(** The key is an array index: the decimal writing, without leading zero,
    of a number up to 2^32 - 2. *)
Definition indiceDe (k : string) : option N :=
  if negb (k =? "") && Js.allDigits k && ((k =? "0") || negb (Js.startsWith k "0")) then
    if (valorDecimal k 0 <=? 4294967294)%N then Some (valorDecimal k 0) else None
  else None.

Fixpoint inserirPorIndice {A : Type} (i : N) (x : A) (l : list (N * A)) : list (N * A) :=
  match l with
  | [] => [(i, x)]
  | (j, y) :: rest =>
      if (i <=? j)%N then (i, x) :: l else (j, y) :: inserirPorIndice i x rest
  end.

(** [Object.keys]: the array indices in ascending order, then the other
    keys in the order they were put. *)
Definition chavesProprias {A : Type} (grupos : list (string * A)) : list (string * A) :=
  (map snd
       (fold_right
          (fun g acc => match indiceDe (fst g) with
                        | Some i => inserirPorIndice i g acc
                        | None => acc
                        end) [] grupos) ++
   filter (fun g => match indiceDe (fst g) with Some _ => false | None => true end) grupos)%list.

Section Prompt.

Variable P : Platform.

(** The lines of one item; [None] is the TypeError of [preco.toFixed]. *)
Definition linhaItem (item : ItemPrompt) : option string :=
  match ip_preco item with
  | None => None
  | Some preco =>
      Some ("- *" ++ showS (ip_nome item) ++ "*: " ++
            showS (orS (ip_descricao item) (Some "")) ++ " - R$" ++ toFixed2 P preco ++ nl ++
            (if truthyS (ip_inspiracao item)
             then "  Inspiração: " ++ showS (ip_inspiracao item) ++ nl
             else ""))
  end.

Fixpoint formatarItens (items : list ItemPrompt) (result : string) : option string :=
  match items with
  | [] => Some result
  | item :: rest =>
      match linhaItem item with
      | None => None
      | Some linha => formatarItens rest (result ++ linha)
      end
  end.

Fixpoint formatarGrupos (grupos : list (string * list ItemPrompt)) (result : string)
  : option string :=
  match grupos with
  | [] => Some result
  | (categoria, its) :: rest =>
      match formatarItens its (result ++ nl ++ categoria ++ ":" ++ nl) with
      | None => None
      | Some result' => formatarGrupos rest result'
      end
  end.

(** [formatCardapioForPrompt(items)]; every exception ends in the text of
    the [catch]. *)
Definition formatCardapioForPrompt (items : option (list ItemPrompt)) : string :=
  match items with
  | None => "Cardápio não disponível"
  | Some l =>
      match agrupar l [] with
      | None => "Cardápio não disponível"
      | Some grupos =>
          match formatarGrupos (chavesProprias grupos) "" with
          | Some result => result
          | None => "Cardápio não disponível"
          end
      end
  end.

(** ** The text of the spoken confirmation *)

Definition CONFIRMADO_PADRAO : string := "Pedido confirmado! Obrigado pela preferência.".

(** The loop over the items: the text and the total so far; [None] is the
    TypeError of an item that is [null] or [undefined]. *)
Fixpoint linhasConfirmacao (items : list JValue) (texto : string) (total : float)
  : option (string * float) :=
  match items with
  | [] => Some (texto, total)
  | item :: rest =>
      match prop item "preco", prop item "quantidade", prop item "nome" with
      | Some pr, Some q, Some n =>
          let quantidade := jsOr q (JNum 1%float) in
          let subtotal := PrimFloat.mul (parseFloat P pr) (toNumber P quantidade) in
          linhasConfirmacao rest
            (texto ++ "- " ++ jsToString P quantidade ++ "x *" ++ jsToString P n ++
             "*: R$" ++ toFixed2 P (parseFloat P pr) ++ " = R$" ++ toFixed2 P subtotal ++ nl)
            (PrimFloat.add total subtotal)
      | _, _, _ => None
      end
  end.

(** [gerarTextoConfirmacaoPedido(pedidoData, conversa)]; [conversa] is
    [None] when the caller gives none. *)
Definition gerarTextoConfirmacaoPedido (pedidoData : JValue) (conversa : option Conversa)
  : string :=
  if negb (truthy pedidoData) || negb (truthy (getProp pedidoData "items")) ||
     negb (truthy (getProp pedidoData "endereco")) ||
     negb (truthy (getProp pedidoData "pagamento"))
  then CONFIRMADO_PADRAO
  else
    let endereco :=
      match conversa with
      | Some c =>
          match addressData c with
          | Some ad =>
              if truthyS (formattedAddress ad) then showS (formattedAddress ad)
              else jsToString P (getProp pedidoData "endereco")
          | None => jsToString P (getProp pedidoData "endereco")
          end
      | None => jsToString P (getProp pedidoData "endereco")
      end in
    match getProp pedidoData "items" with
    | JArr l =>
        match linhasConfirmacao l ("🎉 *PEDIDO CONFIRMADO* 🎉" ++ nl ++ nl ++ "*Itens:*" ++ nl)
                                0%float with
        | Some (texto, total) =>
            texto ++ nl ++ "*Valor Total:* R$" ++ toFixed2 P total ++ nl ++
            "*Endereço de Entrega:* " ++ endereco ++ nl ++
            "*Forma de Pagamento:* " ++ jsToString P (getProp pedidoData "pagamento") ++
            nl ++ nl ++
            "Seu pedido será entregue em aproximadamente 50 minutos. Obrigado pela preferência! 🍕"
        | None => CONFIRMADO_PADRAO
        end
    | _ => CONFIRMADO_PADRAO
    end.

(** ** What a reset sends *)

Definition ERRO_REINICIAR : string :=
  "Desculpe, ocorreu um erro ao reiniciar. Por favor, tente novamente.".

(** The texts [handleResetRequest] sends, the conversation it leaves and
    the stores. *)
Definition enviosDoReinicio (agora_ : Z) (userPhone : string) (w : World)
  : list string * Conversa * World :=
  match handleResetRequest P agora_ userPhone w with
  | (Some r, c, w') => (textosEnviados (text r), c, w')
  | (None, c, w') => ([ERRO_REINICIAR], c, w')
  end.

End Prompt.

(** ** What the WhatsApp entry point delivers *)

(** A character of the class [[A-Za-z-+\/]]. *)
Definition isMediaTypeChar (c : ascii) : bool :=
  let n := nat_of_ascii c in
  ((65 <=? n)%nat && (n <=? 90)%nat) || ((97 <=? n)%nat && (n <=? 122)%nat) ||
  (n =? 45)%nat || (n =? 43)%nat || (n =? 47)%nat.

Fixpoint skipMediaType (s : string) : string :=
  match s with
  | String c s' => if isMediaTypeChar c then skipMediaType s' else s
  | EmptyString => EmptyString
  end.

(** The line terminators a dot does not match: line feed, carriage
    return, U+2028 and U+2029. *)
Definition semQuebraDeLinha (s : string) : bool :=
  negb (Js.includes s (String (ascii_of_nat 10) EmptyString)) &&
  negb (Js.includes s (String (ascii_of_nat 13) EmptyString)) &&
  negb (Js.includes s (String (ascii_of_nat 226)
                         (String (ascii_of_nat 128) (String (ascii_of_nat 168) EmptyString)))) &&
  negb (Js.includes s (String (ascii_of_nat 226)
                         (String (ascii_of_nat 128) (String (ascii_of_nat 169) EmptyString)))).

(** [url.match(/^data:([A-Za-z-+\/]+);base64,(.+)$/)], as a boolean. The
    class holds no semicolon, so the media type is the longest run. *)
Definition dataUrl (url : string) : bool :=
  Js.startsWith url "data:" &&
  (let r := Js.drop 5 url in
   let r' := skipMediaType r in
   negb (String.length r' =? String.length r)%nat &&
   Js.startsWith r' ";base64," &&
   negb (Js.drop 8 r' =? "") && semQuebraDeLinha (Js.drop 8 r')).

(** What one message of the customer is answered with: the texts, the
    address of the voice message and the images with their captions, each
    in the order of sending. *)
Record Remessa : Type := mkRemessa {
  rm_textos : list string;
  rm_voz : option string;
  rm_imagens : list (string * string)
}.

Definition ERRO_MENSAGEM : string :=
  "Desculpe, ocorreu um erro ao processar sua mensagem. Por favor, tente novamente.".

Definition SEM_PEDIDO_PARA_AUDIO : string :=
  "Desculpe, não encontrei dados de pedido para gerar o áudio. Por favor, faça seu pedido primeiro.".

Definition SEM_AUDIO_DA_CONFIRMACAO : string :=
  "Desculpe, não consegui gerar o áudio da confirmação neste momento. " ++
  "Seu pedido foi registrado e será entregue em aproximadamente 50 minutos.".

Section Envio.

Variable P : Platform.

(** [downloadMedia(url, type)] left a file: the answer to the [n]-th
    download of the turn. The function catches its own failures. *)
Variable downloadMedia : nat -> string -> bool.

(** The images sent so far, the set [sentImages] and the number of
    downloads so far. *)
Definition EstadoEnvio : Type := (list (string * string) * list string * nat)%type.

(** One image, main or additional: skipped when its address was sent
    already; a data address is sent when the expression matches it, any
    other address when its download leaves a file. *)
Definition enviarImagem (url caption : string) (st : EstadoEnvio) : EstadoEnvio :=
  let '(enviadas, sentImages, n) := st in
  if existsb (String.eqb url) sentImages then st
  else if Js.startsWith url "data:image" then
    if dataUrl url then ((enviadas ++ [(url, caption)])%list, url :: sentImages, n) else st
  else if downloadMedia n url
       then ((enviadas ++ [(url, caption)])%list, url :: sentImages, S n)
       else (enviadas, sentImages, S n).

(** The part of [processTextMessage] after the answer of the engine. *)
Definition entregar (apiResponse : Response) : Remessa :=
  if negb (success apiResponse) then mkRemessa [ERRO_MENSAGEM] None []
  else
    let textos := if text apiResponse =? "" then [] else textosEnviados (text apiResponse) in
    let voz :=
      if truthyS (audio apiResponse) && downloadMedia 0 (showS (audio apiResponse))
      then audio apiResponse else None in
    let n0 := if truthyS (audio apiResponse) then 1%nat else 0%nat in
    let st1 :=
      if truthyS (image apiResponse)
      then enviarImagem (showS (image apiResponse))
                        (showS (orS (imageCaption apiResponse) (Some ""))) ([], [], n0)
      else ([], [], n0) in
    let st2 :=
      match allImages apiResponse with
      | Some l =>
          fold_left (fun st imgData =>
                       if ie_url imgData =? "" then st
                       else enviarImagem (ie_url imgData)
                                         (showS (orS (ie_caption imgData) (Some ""))) st)
                    l st1
      | None => st1
      end in
    mkRemessa textos voz (fst (fst st2)).

(** [handleAudioRequest(userPhone, message)]: [None] when the message is
    left to the engine. *)
Definition handleAudioRequest (userPhone message : string) (w : World)
  : option (Remessa * World) :=
  let m := Js.toLowerCase message in
  if negb (Js.includes m "audio") && negb (Js.includes m "áudio") &&
     negb (Js.includes m "ouvir") && negb (Js.includes m "escutar") then None
  else if Js.includes m "confirmação" || Js.includes m "confirmado" || Js.includes m "pedido" then
    match maisRecente userPhone w with
    | Some conversa =>
        if truthy (pedidoData conversa) then
          let confirmationText :=
            gerarTextoConfirmacaoPedido P (pedidoData conversa) (Some conversa) in
          let w' := addEvent w (EvAudio confirmationText) in
          let audioUrl := generateAudio P confirmationText in
          if truthyS audioUrl then
            Some (mkRemessa [] (if downloadMedia 0 (showS audioUrl) then audioUrl else None) [],
                  w')
          else Some (mkRemessa [SEM_AUDIO_DA_CONFIRMACAO] None [], w')
        else Some (mkRemessa [SEM_PEDIDO_PARA_AUDIO] None [], w)
    | None => Some (mkRemessa [SEM_PEDIDO_PARA_AUDIO] None [], w)
    end
  else None.

(** [processTextMessage(userPhone, text)]: what is sent and the stores. *)
Definition processTextMessage (t : Turno) (userPhone text_ : string) (w : World)
  : Remessa * World :=
  match handleAudioRequest userPhone text_ w with
  | Some res => res
  | None =>
      let '(conversa, w1) := getOrCreateConversation (agora t) userPhone text_ w in
      if isResetRequest text_ then
        let '(textos, _, w2) := enviosDoReinicio P (agora t) userPhone w1 in
        (mkRemessa textos None [], w2)
      else
        let '(apiResponse, _, w2) :=
          processMessageInternally P t userPhone text_ false conversa w1 in
        (entregar apiResponse, w2)
  end.

End Envio.

(** ** The validation of an address *)

(** A character of [\w]. *)
Definition isWord (c : ascii) : bool :=
  let n := nat_of_ascii c in
  ((48 <=? n)%nat && (n <=? 57)%nat) || ((65 <=? n)%nat && (n <=? 90)%nat) ||
  ((97 <=? n)%nat && (n <=? 122)%nat) || (n =? 95)%nat.

(** The leftmost position where [f] answers among the positions that
    follow no word character: the [\b] in front of an expression that
    begins with a word character. [prevWord] tells whether the character
    before [s] is one. *)
Fixpoint leftmostBounded {A : Type} (f : string -> option A) (prevWord : bool) (s : string)
  : option A :=
  match (if prevWord then None else f s) with
  | Some a => Some a
  | None =>
      match s with
      | EmptyString => None
      | String c s' => leftmostBounded f (isWord c) s'
      end
  end.

(** [/\d{5}-?\d{3}\b/] at the start: the eight digits, which is the match
    without its hyphen. *)
Definition cepBoundedAt (s : string) : option string :=
  match takeDigits 5 s with
  | Some (d5, r) =>
      match takeDigits 3 (skipHyphen r) with
      | Some (d3, rest) =>
          match rest with
          | String c _ => if isWord c then None else Some (d5 ++ d3)
          | EmptyString => Some (d5 ++ d3)
          end
      | None => None
      end
  | None => None
  end.

(** [p] stands at the start of [s], whatever the case of the letters of
    [s]; [p] is in lower case. *)
Fixpoint startsWithCI (s p : string) : bool :=
  match p with
  | EmptyString => true
  | String a p' =>
      match s with
      | EmptyString => false
      | String b s' => Ascii.eqb a (Js.lowerAscii b) && startsWithCI s' p'
      end
  end.

(** [(R\.|Rua|Av\.|Avenida|Al\.|Alameda)] under the flag [i], at the
    start: the length of the alternative that matches. No two of them
    match at the same place. *)
Definition logradouroAt (s : string) : option nat :=
  match find (startsWithCI s) ["r."; "rua"; "av."; "avenida"; "al."; "alameda"] with
  | Some p => Some (String.length p)
  | None => None
  end.

(** The characters before the first comma. *)
Fixpoint spanNotComma (s : string) : string :=
  match s with
  | String c s' => if Ascii.eqb c ","%char then EmptyString else String c (spanNotComma s')
  | EmptyString => EmptyString
  end.

(** [s.substring(0, n)] *)
Fixpoint takeChars (n : nat) (s : string) : string :=
  match n, s with
  | S n', String c s' => String c (takeChars n' s')
  | _, _ => EmptyString
  end.

(** [/(R\.|Rua|Av\.|Avenida|Al\.|Alameda)\s+[^,]+,\s*(\d+)/i] at the
    start, capture group 2. The white space and the run without comma
    need one character each (what the white space gives back the run
    takes), the run ends at the first comma, and the digits follow the
    white space after that comma. *)
Definition numeroDaRuaAt (s : string) : option string :=
  match logradouroAt s with
  | Some n =>
      match Js.spaceAt (Js.drop n s) with
      | Some r =>
          let seg := spanNotComma r in
          if negb (seg =? "") then
            match Js.drop (String.length seg) r with
            | String _ depois => digitsAt (Js.trimStart depois)
            | EmptyString => None
            end
          else None
      | None => None
      end
  | None => None
  end.

(** [/(R\.|Rua|Av\.|Avenida|Al\.|Alameda)\s+([^,]+)/i] at the start: the
    whole match. *)
Definition nomeDaRuaAt (s : string) : option string :=
  match logradouroAt s with
  | Some n =>
      match Js.spaceAt (Js.drop n s) with
      | Some r =>
          let seg := spanNotComma r in
          if negb (seg =? "")
          then Some (takeChars (String.length s - String.length r + String.length seg) s)
          else None
      | None => None
      end
  | None => None
  end.

(** What the postal-code service answers: the request fails, the answer
    carries no data, or it carries the street, the neighbourhood, the
    city and the state. *)
Inductive ConsultaCep : Type :=
| CepFalha
| CepSemDados
| CepDados (dados : Components).

(** The field [components] of a validation. *)
Record ComponentesValidados : Type := mkComponentesValidados {
  streetNumber : string;
  cv_street : option string;
  sublocality : option string;
  locality : option string;
  administrativeArea : option string;
  postalCode : string
}.

(** The object [validateAddress] answers with; a field that is not there
    is [None], or [false] for the two flags. *)
Record Validacao : Type := mkValidacao {
  valid : bool;
  requiresNumber : bool;
  streetName : option string;
  va_formattedAddress : option JValue;
  va_components : option ComponentesValidados;
  va_message : string;
  fromCep : bool
}.

Definition ENDERECO_VAZIO : Validacao :=
  mkValidacao false false None None None "Por favor, informe um endereço para entrega." false.

Definition ENDERECO_NAO_ENCONTRADO : Validacao :=
  mkValidacao false false None None None
    "Não consegui encontrar este endereço. Você poderia informar um CEP válido de São Paulo?"
    false.

Section Validacao.

(** [axios.get] on the service, by the eight digits. *)
Variable consultaCep : string -> ConsultaCep.

(** The part after the lookup, which also runs when the service answers
    without data. *)
Definition semConsulta (address : string) (isQuery : bool) : Validacao :=
  if isQuery then ENDERECO_NAO_ENCONTRADO
  else if Js.hasDigit address then
    mkValidacao true false None (Some (JStr address)) None
                ("Endereço registrado: " ++ address) false
  else
    let nomeRua :=
      match leftmostBounded nomeDaRuaAt false address with
      | Some m => m
      | None => "endereço mencionado"
      end in
    mkValidacao false true (Some nomeRua) None None
                ("Preciso do NÚMERO do seu endereço na " ++ nomeRua ++
                 " para prosseguir com a entrega.") false.

(** The branch of an answer with data. *)
Definition comDados (address cep_ : string) (cepData : Components) (isQuery : bool)
  : Validacao :=
  if match city cepData with Some k => k =? "São Paulo" | None => false end &&
     match uf cepData with Some k => k =? "SP" | None => false end
  then
    let numero :=
      match leftmost numeroDaRuaAt address with
      | Some d => d
      | None => ""
      end in
    let f0 := showS (orS (street cepData) (Some "")) in
    let f1 := if numero =? "" then f0 else f0 ++ ", " ++ numero in
    let f2 := if truthyS (neighborhood cepData)
              then f1 ++ ", " ++ showS (neighborhood cepData) else f1 in
    let f3 := f2 ++ ", " ++ showS (orS (city cepData) (Some "")) ++ " - " ++
              showS (orS (uf cepData) (Some "")) in
    let formattedAddress_ := if cep_ =? "" then f3 else f3 ++ ", " ++ cep_ in
    let comps :=
      mkComponentesValidados numero (street cepData) (neighborhood cepData)
                             (city cepData) (uf cepData) cep_ in
    if negb (numero =? "") || isQuery then
      mkValidacao true false None (Some (JStr formattedAddress_)) (Some comps)
                  ("Ótimo! " ++ formattedAddress_ ++ " faz parte da nossa rota de entregas!")
                  true
    else
      mkValidacao false true (street cepData) (Some (JStr formattedAddress_)) (Some comps)
                  ("Preciso do NÚMERO do seu endereço na " ++ showS (street cepData) ++
                   " para prosseguir com a entrega.") true
  else
    mkValidacao false false None None None
                ("Desculpe, só entregamos em São Paulo capital. Este endereço (" ++
                 showS (city cepData) ++ "-" ++ showS (uf cepData) ++
                 ") não está na nossa área de entrega.") false.

(** [validateAddress(address, isQuery)]. A value that is no text and not
    falsy has no [trim]: the TypeError ends in the outer [catch], which
    accepts the address. *)
Definition validateAddress (address : JValue) (isQuery : bool) : Validacao :=
  if negb (truthy address) then ENDERECO_VAZIO
  else
    match address with
    | JStr a =>
        if Js.trim a =? "" then ENDERECO_VAZIO
        else
          match leftmostBounded cepBoundedAt false a with
          | Some cep_ =>
              match consultaCep cep_ with
              | CepFalha => ENDERECO_NAO_ENCONTRADO
              | CepSemDados => semConsulta a isQuery
              | CepDados cepData => comDados a cep_ cepData isQuery
              end
          | None => semConsulta a isQuery
          end
    | _ =>
        mkValidacao true false None (Some address) None
          "Endereço registrado. Se houver algum problema com a entrega, entraremos em contato."
          false
    end.

(** The route [POST /api/validate-address]: the status and the body,
    which is the validation unless the address is missing. *)
Definition rotaValidarEndereco (address : JValue) : Z * option Validacao :=
  if negb (truthy address) then (400%Z, None)
  else (200%Z, Some (validateAddress address false)).

End Validacao.

(* ================================================================== *)
(** * Facts about string search *)

Section StringFacts.

Lemma startsWith_nil (s : string) : Js.startsWith s "" = true.
Proof. destruct s; reflexivity. Qed.

Lemma startsWith_app (p b : string) : Js.startsWith (p ++ b) p = true.
Proof.
  induction p as [|a p IH]; simpl.
  - destruct b; reflexivity.
  - rewrite Ascii.eqb_refl. exact IH.
Qed.

Lemma drop_app (p b : string) : Js.drop (String.length p) (p ++ b) = b.
Proof.
  induction p as [|a p IH]; simpl; [reflexivity | exact IH].
Qed.

Lemma startsWith_split (s p : string) :
  Js.startsWith s p = true -> s = p ++ Js.drop (String.length p) s.
Proof.
  revert s. induction p as [|a p IH]; intros s H; simpl in *.
  - reflexivity.
  - destruct s as [|b s]; [discriminate|].
    apply andb_prop in H. destruct H as [Hab Hs].
    apply Ascii.eqb_eq in Hab. subst b. f_equal. apply IH. exact Hs.
Qed.

Lemma app_assoc_s (a b c : string) : (a ++ b) ++ c = a ++ b ++ c.
Proof.
  induction a as [|x a IH]; simpl; [reflexivity | now rewrite IH].
Qed.

Lemma app_nil_r_s (a : string) : a ++ "" = a.
Proof.
  induction a as [|x a IH]; simpl; [reflexivity | now rewrite IH].
Qed.

Lemma length_app_s (a b : string) :
  String.length (a ++ b) = (String.length a + String.length b)%nat.
Proof.
  induction a as [|x a IH]; simpl; [reflexivity | now rewrite IH].
Qed.

Lemma splitFirst_eq (s p : string) :
  Js.splitFirst s p =
  if Js.startsWith s p then Some (EmptyString, Js.drop (String.length p) s)
  else match s with
       | EmptyString => None
       | String c s' =>
           match Js.splitFirst s' p with
           | Some (b, a) => Some (String c b, a)
           | None => None
           end
       end.
Proof. destruct s; reflexivity. Qed.

Lemma includes_eq (s p : string) :
  Js.includes s p =
  Js.startsWith s p ||
  match s with
  | EmptyString => false
  | String _ s' => Js.includes s' p
  end.
Proof. destruct s; reflexivity. Qed.

(** What [splitFirst] returns is a decomposition of the text. *)
Lemma splitFirst_sound (s p b a : string) :
  Js.splitFirst s p = Some (b, a) -> s = b ++ p ++ a.
Proof.
  revert b a. induction s as [|c s IH]; intros b a H;
    rewrite splitFirst_eq in H;
    match type of H with context [Js.startsWith ?x p] =>
      destruct (Js.startsWith x p) eqn:E end.
  - inversion H; subst. simpl. now apply startsWith_split.
  - discriminate.
  - inversion H; subst. simpl. now apply startsWith_split.
  - destruct (Js.splitFirst s p) as [[b' a']|] eqn:E'; [|discriminate].
    inversion H; subst. simpl. f_equal. now apply IH.
Qed.

Lemma splitFirst_none (s p : string) :
  Js.splitFirst s p = None <-> Js.includes s p = false.
Proof.
  induction s as [|c s IH]; rewrite splitFirst_eq, includes_eq;
    match goal with |- context [Js.startsWith ?x p] =>
      destruct (Js.startsWith x p) eqn:E end; simpl.
  - split; intro H; discriminate.
  - split; reflexivity.
  - split; intro H; discriminate.
  - destruct (Js.splitFirst s p) as [[b a]|].
    + split; intro H; [discriminate|].
      apply IH in H. discriminate.
    + split; intro H; [now apply IH | reflexivity].
Qed.

Lemma includes_cons_false (c : ascii) (s p : string) :
  Js.includes (String c s) p = false ->
  Js.startsWith (String c s) p = false /\ Js.includes s p = false.
Proof.
  simpl. intro H. apply orb_false_elim in H. exact H.
Qed.

(** The character [c] does not occur in [t]. *)
Fixpoint noChar (c : ascii) (t : string) : bool :=
  match t with
  | EmptyString => true
  | String d t' => negb (Ascii.eqb d c) && noChar c t'
  end.

(** A tag opens with a bracket and holds no other one. *)
Definition tagLike (p : string) : bool :=
  match p with
  | String c t => Ascii.eqb c "["%char && noChar "["%char t
  | EmptyString => false
  end.

Lemma startsWith_before_char (c : ascii) (t a rest : string) :
  noChar c t = true ->
  Js.startsWith (a ++ String c rest) t = true ->
  Js.startsWith a t = true.
Proof.
  revert a. induction t as [|d t IH]; intros a Hnb H; simpl in *.
  - apply startsWith_nil.
  - apply andb_prop in Hnb. destruct Hnb as [Hd Hnb].
    destruct a as [|e a]; simpl in *.
    + apply andb_prop in H. destruct H as [H _].
      rewrite H in Hd. discriminate.
    + apply andb_prop in H. destruct H as [H1 H2].
      rewrite H1. simpl. now apply IH.
Qed.

(** The first occurrence of a pattern whose first character occurs in it
    only once is where the text before it holds none: an occurrence cannot
    straddle the character that opens the next one. *)
Lemma splitFirst_once (c : ascii) (t a b : string) :
  noChar c t = true ->
  Js.includes a (String c t) = false ->
  Js.splitFirst (a ++ String c t ++ b) (String c t) = Some (a, b).
Proof.
  intros Ht.
  induction a as [|x a IH]; intro Hinc.
  - change ("" ++ String c t ++ b) with (String c t ++ b).
    rewrite splitFirst_eq, startsWith_app, drop_app. reflexivity.
  - apply includes_cons_false in Hinc. destruct Hinc as [Hs Hi].
    change (String x a ++ String c t ++ b)
      with (String x (a ++ String c t ++ b)).
    rewrite splitFirst_eq.
    assert (Hf : Js.startsWith (String x (a ++ String c t ++ b))
                               (String c t) = false).
    { change (Ascii.eqb c x &&
              Js.startsWith (a ++ String c (t ++ b)) t = false).
      change (Ascii.eqb c x && Js.startsWith a t = false) in Hs.
      destruct (Ascii.eqb c x); simpl in *; [|reflexivity].
      destruct (Js.startsWith (a ++ String c (t ++ b)) t) eqn:E; [|reflexivity].
      apply startsWith_before_char in E; [|exact Ht]. congruence. }
    rewrite Hf, (IH Hi). reflexivity.
Qed.

Lemma splitFirst_tag (p a b : string) :
  tagLike p = true ->
  Js.includes a p = false ->
  Js.splitFirst (a ++ p ++ b) p = Some (a, b).
Proof.
  intros Hp. destruct p as [|c t]; [discriminate|].
  simpl in Hp. apply andb_prop in Hp. destruct Hp as [Hc Ht].
  apply Ascii.eqb_eq in Hc. subst c.
  now apply splitFirst_once.
Qed.

Lemma startsWith_app_l (a b p : string) :
  Js.startsWith a p = true -> Js.startsWith (a ++ b) p = true.
Proof.
  revert p. induction a as [|x a IH]; intros p H.
  - destruct p; [apply startsWith_nil | discriminate].
  - destruct p as [|d p]; [apply startsWith_nil|].
    change (Ascii.eqb d x && Js.startsWith a p = true) in H.
    change (Ascii.eqb d x && Js.startsWith (a ++ b) p = true).
    apply andb_prop in H. destruct H as [H1 H2].
    rewrite H1, (IH _ H2). reflexivity.
Qed.

Lemma includes_app_l (a b p : string) :
  Js.includes a p = true -> Js.includes (a ++ b) p = true.
Proof.
  induction a as [|x a IH]; intro H; rewrite includes_eq in H;
    apply orb_prop in H; destruct H as [H|H].
  - rewrite includes_eq, (startsWith_app_l _ b _ H). reflexivity.
  - discriminate.
  - rewrite includes_eq, (startsWith_app_l _ b _ H). reflexivity.
  - change (String x a ++ b) with (String x (a ++ b)).
    rewrite includes_eq, (IH H). apply orb_true_r.
Qed.

Lemma includes_app_r (a b p : string) :
  Js.includes b p = true -> Js.includes (a ++ b) p = true.
Proof.
  induction a as [|x a IH]; intro H; [exact H|].
  change (String x a ++ b) with (String x (a ++ b)).
  rewrite includes_eq, (IH H). apply orb_true_r.
Qed.

End StringFacts.

(* ================================================================== *)
(** * The block parser on well-formed replies *)

(** A reply laid out as blocks of one kind, each after a stretch of other
    text: [pre1 [TAG]body1[/END] pre2 [TAG]body2[/END] ... tail]. *)
Fixpoint render (tag : string) (blocks : list (string * string)) (tail : string) : string :=
  match blocks with
  | [] => tail
  | (pre, body) :: rest => pre ++ tag ++ body ++ END_TAG ++ render tag rest tail
  end.

(** The stretches between blocks hold no opener of the kind, the bodies no
    closer, and the tail no further block. *)
Definition wellFormed (tag : string) (blocks : list (string * string)) (tail : string) : Prop :=
  Forall (fun pb => Js.includes (fst pb) tag = false /\
                    Js.includes (snd pb) END_TAG = false) blocks /\
  matchBlock tag tail = None.

Section Parser.

Variable tag : string.
Hypothesis tag_ok : tagLike tag = true.

Lemma matchBlock_head (pre body rest : string) :
  Js.includes pre tag = false ->
  Js.includes body END_TAG = false ->
  matchBlock tag (pre ++ tag ++ body ++ END_TAG ++ rest) = Some (body, rest).
Proof.
  intros Hpre Hbody. unfold matchBlock.
  rewrite (splitFirst_tag tag pre (body ++ END_TAG ++ rest) tag_ok Hpre).
  apply splitFirst_tag; [reflexivity | exact Hbody].
Qed.


Lemma allBlocksFuel_render (blocks : list (string * string)) (tail : string) :
  wellFormed tag blocks tail ->
  forall fuel, (List.length blocks <= fuel)%nat ->
  allBlocksFuel fuel tag (render tag blocks tail) = map snd blocks.
Proof.
  intros [Hall Htail]. induction Hall as [|[pre body] rest [Hp Hb] Hrest IH];
    intros fuel Hfuel.
  - destruct fuel; simpl; [reflexivity | now rewrite Htail].
  - destruct fuel as [|f]; [simpl in Hfuel; lia|].
    change (render tag ((pre, body) :: rest) tail)
      with (pre ++ tag ++ body ++ END_TAG ++ render tag rest tail).
    change (allBlocksFuel (S f) tag ?x)
      with (match matchBlock tag x with
            | Some (b, r) => b :: allBlocksFuel f tag r
            | None => []
            end).
    simpl in Hp, Hb.
    rewrite (matchBlock_head pre body (render tag rest tail) Hp Hb).
    simpl map. f_equal. apply IH. simpl in Hfuel. lia.
Qed.

Lemma length_render (blocks : list (string * string)) (tail : string) :
  (List.length blocks <= String.length (render tag blocks tail))%nat.
Proof.
  induction blocks as [|[pre body] rest IH]; [simpl; lia|].
  change (render tag ((pre, body) :: rest) tail)
    with (pre ++ tag ++ body ++ END_TAG ++ render tag rest tail).
  rewrite !length_app_s. simpl List.length.
  assert (1 <= String.length tag)%nat.
  { clear IH. destruct tag; [discriminate | simpl; lia]. }
  lia.
Qed.

(** Every block of a well-formed reply is found, in document order. *)
Lemma allBlocks_render (blocks : list (string * string)) (tail : string) :
  wellFormed tag blocks tail ->
  allBlocks tag (render tag blocks tail) = map snd blocks.
Proof.
  intro H. unfold allBlocks. apply allBlocksFuel_render; [exact H|].
  apply length_render.
Qed.

End Parser.

(** ** White space *)

Lemma trimStart_step (s : string) :
  Js.trimStart s =
  match Js.spaceAt s with
  | Some r => Js.trimStart r
  | None => s
  end.
Proof.
  destruct s as [|a [|b [|c r]]]; cbn [Js.trimStart Js.spaceAt]; try reflexivity.
  - destruct (Js.isSpace a); reflexivity.
  - destruct (Js.isSpace a); [reflexivity|]. destruct (Js.isSpace2 a b); reflexivity.
  - destruct (Js.isSpace a); [reflexivity|]. destruct (Js.isSpace2 a b); [reflexivity|].
    destruct (Js.isSpace3 a b c); reflexivity.
Qed.

(** The bytes a white-space character can begin with. *)
Definition abreEspaco (c : ascii) : bool :=
  let n := nat_of_ascii c in
  Js.isSpace c || (n =? 194)%nat || (n =? 225)%nat || (n =? 226)%nat ||
  (n =? 227)%nat || (n =? 239)%nat.

Lemma spaceAt_split (s r : string) :
  Js.spaceAt s = Some r ->
  exists c p, s = String c (p ++ r) /\ abreEspaco c = true.
Proof.
  unfold abreEspaco.
  destruct s as [|a r1]; cbn [Js.spaceAt]; [discriminate|].
  destruct (Js.isSpace a) eqn:E1.
  { intro H. injection H as <-. exists a, "". split; [reflexivity|]. now rewrite E1. }
  destruct r1 as [|b r2]; [discriminate|].
  destruct (Js.isSpace2 a b) eqn:E2.
  { intro H. injection H as <-. exists a, (String b ""). split; [reflexivity|].
    unfold Js.isSpace2 in E2. apply andb_prop in E2. destruct E2 as [E2 _].
    rewrite E2. cbn. now rewrite !orb_true_r. }
  destruct r2 as [|c r3]; [discriminate|].
  destruct (Js.isSpace3 a b c) eqn:E3; [|discriminate].
  intro H. injection H as <-. exists a, (String b (String c "")). split; [reflexivity|].
  unfold Js.isSpace3 in E3.
  destruct (nat_of_ascii a =? 225)%nat; [now rewrite !orb_true_r|].
  destruct (nat_of_ascii a =? 226)%nat; [now rewrite !orb_true_r|].
  destruct (nat_of_ascii a =? 227)%nat; [now rewrite !orb_true_r|].
  destruct (nat_of_ascii a =? 239)%nat; [now rewrite !orb_true_r|].
  cbn in E3. discriminate.
Qed.

Lemma spaceAt_shorter (s r : string) :
  Js.spaceAt s = Some r -> (String.length r < String.length s)%nat.
Proof.
  intro H. destruct (spaceAt_split s r H) as (c & p & -> & _).
  simpl. rewrite length_app_s. lia.
Qed.

Lemma spaceAt_app (s r t : string) :
  Js.spaceAt s = Some r -> Js.spaceAt (s ++ t) = Some (r ++ t).
Proof.
  destruct s as [|a r1]; cbn [Js.spaceAt append]; [discriminate|].
  destruct (Js.isSpace a); [intro H; injection H as <-; reflexivity|].
  destruct r1 as [|b r2]; [discriminate|]. cbn [append].
  destruct (Js.isSpace2 a b); [intro H; injection H as <-; reflexivity|].
  destruct r2 as [|c r3]; [discriminate|]. cbn [append].
  destruct (Js.isSpace3 a b c); [intro H; injection H as <-; reflexivity | discriminate].
Qed.

Lemma spaceAt_abre (c : ascii) (s : string) :
  abreEspaco c = false -> Js.spaceAt (String c s) = None.
Proof.
  intro H. destruct (Js.spaceAt (String c s)) as [r|] eqn:E; [|reflexivity].
  destruct (spaceAt_split _ _ E) as (c' & p & Heq & Hc). injection Heq as <- _.
  congruence.
Qed.

(** Nothing to trim at the start. *)
Definition startsClean (s : string) : bool :=
  match Js.spaceAt s with
  | Some _ => false
  | None => true
  end.

Lemma trimStart_clean_le (n : nat) :
  forall s, (String.length s <= n)%nat -> startsClean (Js.trimStart s) = true.
Proof.
  induction n as [|n IH]; intros s Hn.
  - destruct s; [reflexivity | simpl in Hn; lia].
  - rewrite trimStart_step. destruct (Js.spaceAt s) as [r|] eqn:E.
    + apply IH. apply spaceAt_shorter in E. lia.
    + unfold startsClean. now rewrite E.
Qed.

Lemma trimStart_clean (s : string) : startsClean (Js.trimStart s) = true.
Proof. apply (trimStart_clean_le (String.length s)). lia. Qed.

Lemma trimStart_of_clean (s : string) : startsClean s = true -> Js.trimStart s = s.
Proof.
  unfold startsClean. intro H. rewrite trimStart_step.
  destruct (Js.spaceAt s); [discriminate | reflexivity].
Qed.

(** What [trimStart] leaves is the end of the text. *)
Lemma trimStart_suffix_le (n : nat) :
  forall s, (String.length s <= n)%nat -> exists p, s = p ++ Js.trimStart s.
Proof.
  induction n as [|n IH]; intros s Hn.
  - destruct s; [now exists "" | simpl in Hn; lia].
  - rewrite trimStart_step. destruct (Js.spaceAt s) as [r|] eqn:E.
    + destruct (spaceAt_split _ _ E) as (c & p & -> & _).
      destruct (IH r) as [q Hq].
      { simpl in Hn. rewrite length_app_s in Hn. lia. }
      exists (String c (p ++ q)). cbn [append]. f_equal.
      rewrite app_assoc_s. now rewrite <- Hq.
    + now exists "".
Qed.

Lemma trimStart_suffix (s : string) : exists p, s = p ++ Js.trimStart s.
Proof. apply (trimStart_suffix_le (String.length s)). lia. Qed.

Lemma trimStart_app_spaces_le (n : nat) :
  forall p t, (String.length p <= n)%nat ->
              Js.allSpaces p = true -> Js.trimStart (p ++ t) = Js.trimStart t.
Proof.
  unfold Js.allSpaces.
  induction n as [|n IH]; intros p t Hn Hp.
  - destruct p; [reflexivity | simpl in Hn; lia].
  - rewrite trimStart_step in Hp. destruct (Js.spaceAt p) as [r|] eqn:E.
    + rewrite (trimStart_step (p ++ t)), (spaceAt_app _ _ t E).
      apply IH; [|exact Hp]. apply spaceAt_shorter in E. lia.
    + apply String.eqb_eq in Hp. subst p. reflexivity.
Qed.

Lemma trimStart_app_spaces (p t : string) :
  Js.allSpaces p = true -> Js.trimStart (p ++ t) = Js.trimStart t.
Proof. apply (trimStart_app_spaces_le (String.length p)). lia. Qed.

Lemma trimEnd_cons (c : ascii) (s : string) :
  Js.trimEnd (String c s) =
  if Js.allSpaces (String c s) then EmptyString else String c (Js.trimEnd s).
Proof. reflexivity. Qed.

(** What [trimEnd] drops is white space throughout. *)
Lemma trimEnd_split (u : string) :
  exists t, u = Js.trimEnd u ++ t /\ Js.allSpaces t = true.
Proof.
  induction u as [|c u [t [Ht Hs]]]; [now exists ""|].
  rewrite trimEnd_cons. destruct (Js.allSpaces (String c u)) eqn:E.
  - exists (String c u). split; [reflexivity | exact E].
  - exists t. split; [|exact Hs]. cbn [append]. now rewrite <- Ht.
Qed.

Lemma allSpaces_trimEnd_cons (c : ascii) (u : string) :
  Js.allSpaces (String c u) = false -> Js.allSpaces (String c (Js.trimEnd u)) = false.
Proof.
  intro H. destruct (Js.allSpaces (String c (Js.trimEnd u))) eqn:E; [|reflexivity].
  destruct (trimEnd_split u) as [t [Ht Hs]].
  pose proof (trimStart_app_spaces (String c (Js.trimEnd u)) t E) as Hp.
  cbn [append] in Hp. rewrite <- Ht in Hp.
  unfold Js.allSpaces in H, Hs. apply String.eqb_eq in Hs. rewrite Hp, Hs in H.
  discriminate.
Qed.

Lemma trimEnd_idem (u : string) : Js.trimEnd (Js.trimEnd u) = Js.trimEnd u.
Proof.
  induction u as [|c u IH]; [reflexivity|].
  rewrite (trimEnd_cons c u).
  destruct (Js.allSpaces (String c u)) eqn:E; [reflexivity|].
  rewrite trimEnd_cons, (allSpaces_trimEnd_cons c u E), IH. reflexivity.
Qed.

Lemma trimEnd_clean (s : string) : startsClean s = true -> startsClean (Js.trimEnd s) = true.
Proof.
  unfold startsClean. intro H.
  destruct (Js.spaceAt (Js.trimEnd s)) as [r|] eqn:E; [|reflexivity].
  destruct (trimEnd_split s) as [t [Ht _]].
  apply (spaceAt_app _ _ t) in E. rewrite <- Ht in E. now rewrite E in H.
Qed.

Lemma trim_idem (s : string) : Js.trim (Js.trim s) = Js.trim s.
Proof.
  unfold Js.trim.
  rewrite (trimStart_of_clean (Js.trimEnd (Js.trimStart s))).
  - apply trimEnd_idem.
  - apply trimEnd_clean, trimStart_clean.
Qed.

(** A text that begins with a byte no white space begins with keeps its
    start, and its end when no later byte begins white space either. *)
Lemma trimStart_abre (c : ascii) (s : string) :
  abreEspaco c = false -> Js.trimStart (String c s) = String c s.
Proof. intro H. now rewrite trimStart_step, (spaceAt_abre c s H). Qed.

Lemma allSpaces_abre (c : ascii) (s : string) :
  abreEspaco c = false -> Js.allSpaces (String c s) = false.
Proof. intro H. unfold Js.allSpaces. now rewrite (trimStart_abre c s H). Qed.

(** ** Images are kept in the order of their blocks *)






Section ImageOrder.

Variable P : Platform.







End ImageOrder.

(* ================================================================== *)
(** * What the phases of the resolver leave alone *)

Section Frames.

Variable P : Platform.

Lemma pedidos_saveConversa (c : Conversa) (w : World) :
  pedidos (saveConversa c w) = pedidos w.
Proof. reflexivity. Qed.

Lemma pedidos_setTemp (w : World) (k : string) (v : JValue) :
  pedidos (setTemp w k v) = pedidos w.
Proof. reflexivity. Qed.

Lemma pedidos_addEvent (w : World) (e : Event) :
  pedidos (addEvent w e) = pedidos w.
Proof. reflexivity. Qed.

Lemma pedidos_guardarTemp (c : Conversa) (v : JValue) (w : World) :
  pedidos (guardarTemp c v w) = pedidos w.
Proof. unfold guardarTemp. destruct (negb (telefone c =? "")); reflexivity. Qed.

Lemma trace_guardarTemp (c : Conversa) (v : JValue) (w : World) :
  trace (guardarTemp c v w) = trace w.
Proof. unfold guardarTemp. destruct (negb (telefone c =? "")); reflexivity. Qed.

Lemma cardapio_guardarTemp (c : Conversa) (v : JValue) (w : World) :
  cardapio (guardarTemp c v w) = cardapio w.
Proof. unfold guardarTemp. destruct (negb (telefone c =? "")); reflexivity. Qed.

Lemma voicePhase_pedidos (botResponse : string) (estado : Z) (r : Response) (w : World) :
  pedidos (snd (voicePhase P botResponse estado r w)) = pedidos w.
Proof.
  unfold voicePhase.
  repeat match goal with
         | |- context [match ?x with _ => _ end] => destruct x
         end; reflexivity.
Qed.

(** The order block stores no order and leaves the order reference. *)
Lemma jsonPhase_frame (botResponse : string) (r : Response) (c : Conversa) (w : World)
      (s : Step Response) (c' : Conversa) (w' : World) :
  jsonPhase P botResponse r c w = (s, c', w') ->
  pedidos w' = pedidos w /\ pedidoId c' = pedidoId c /\ trace w' = trace w /\
  telefone c' = telefone c /\ cid c' = cid c.
Proof.
  unfold jsonPhase. intro H.
  repeat match type of H with
         | context [match ?x with _ => _ end] => destruct x
         end;
    inversion H; subst; clear H;
    repeat split; simpl;
    rewrite ?pedidos_guardarTemp, ?trace_guardarTemp; simpl;
    rewrite ?pedidos_guardarTemp, ?trace_guardarTemp; try reflexivity;
    repeat match goal with
           | |- context [if ?b then _ else _] => destruct b
           end; reflexivity.
Qed.

End Frames.

(* ================================================================== *)
(** * The total of an order *)

Section Total.

Variable P : Platform.

(** The total as the program computes it from the items of a payload:
    the price is what [parseFloat] reads and the quantity is
    [item.quantidade || 1], so a quantity that is absent, [null], zero,
    [false] or the empty text counts as 1. *)
Definition precoDe (item : JValue) : float := parseFloat P (getProp item "preco").

Definition quantidadeDe (item : JValue) : float :=
  toNumber P (jsOr (getProp item "quantidade") (JNum 1%float)).

Definition somaPrecoVezesQuantidade (items : list JValue) : float :=
  fold_left (fun acc item => PrimFloat.add acc (PrimFloat.mul (precoDe item) (quantidadeDe item)))
            items 0%float.

(** The total as the specification words it, over the items of a stored
    order: the sum of price times quantity, the quantity being 1 when the
    item has none. An item without a price has no total. *)
Definition precoDoItem (it : ItemPedido) : float :=
  match it_preco it with
  | JNum x => x
  | _ => PrimFloat.nan
  end.

Definition quantidadeDoItem (it : ItemPedido) : float :=
  match it_quantidade it with
  | JNum x => x
  | _ => 1%float
  end.

Definition totalDosItens (l : list ItemPedido) : float :=
  fold_left (fun acc it => PrimFloat.add acc (PrimFloat.mul (precoDoItem it) (quantidadeDoItem it)))
            l 0%float.

Lemma getProp_of_prop (v x : JValue) (k : string) : prop v k = Some x -> getProp v k = x.
Proof. unfold getProp. now intros ->. Qed.

Lemma somaItens_fold (check : bool) (items : list JValue) :
  forall acc v,
    somaItens P check items acc = Some v ->
    v = fold_left (fun a item => PrimFloat.add a (PrimFloat.mul (precoDe item) (quantidadeDe item)))
                  items acc.
Proof.
  induction items as [|item rest IH]; intros acc v H; simpl in H.
  - now inversion H.
  - destruct (prop item "quantidade") as [q|] eqn:Eqd; [|discriminate].
    destruct (prop item "preco") as [pr|] eqn:Epr; [|discriminate].
    destruct (check && isNaN (parseFloat P pr)); [discriminate|].
    apply IH in H. rewrite H. simpl. unfold precoDe, quantidadeDe.
    now rewrite (getProp_of_prop _ _ _ Eqd), (getProp_of_prop _ _ _ Epr).
Qed.

(** The quantity the confirmation block stores is the one it counted. *)
Lemma castNumber_quantidade (q qq : JValue) :
  castNumber P (jsOr q (JNum 1%float)) = Some qq ->
  qq = JNum (toNumber P (jsOr q (JNum 1%float))).
Proof.
  unfold jsOr. destruct (truthy q) eqn:Et.
  - destruct q as [| |b|x|s0|l|f]; try discriminate; cbn [castNumber toNumber].
    + destruct b; [|discriminate]. now intros [= <-].
    + destruct (isNaN x); [discriminate|]. now intros [= <-].
    + cbn [truthy] in Et. apply negb_true_iff in Et. rewrite Et.
      destruct (isNaN (stringToNumber P s0)); [discriminate|]. now intros [= <-].
  - cbn [castNumber toNumber]. change (isNaN 1%float) with false. now intros [= <-].
Qed.

(** The items the confirmation block stores add up to the total it
    stores with them. *)
Lemma total_dos_itens_mapeados (l : list JValue) :
  forall acc total l' its,
    somaItens P true l acc = Some total ->
    mapItens P l = Some l' ->
    castItens P l' = Some its ->
    total = fold_left (fun a it => PrimFloat.add a
                                     (PrimFloat.mul (precoDoItem it) (quantidadeDoItem it)))
                      its acc.
Proof.
  induction l as [|item rest IH]; intros acc total l' its Hs Hm Hc.
  - cbn in Hs, Hm. injection Hs as <-. injection Hm as <-.
    cbn in Hc. injection Hc as <-. reflexivity.
  - cbn [somaItens] in Hs. cbn [mapItens] in Hm.
    destruct (prop item "nome") as [n|]; [|discriminate].
    destruct (prop item "quantidade") as [q|]; [|discriminate].
    destruct (prop item "preco") as [pr|]; [|discriminate].
    destruct (mapItens P rest) as [rest'|] eqn:Er; [|discriminate].
    injection Hm as <-.
    cbn [andb] in Hs. destruct (isNaN (parseFloat P pr)) eqn:En; [discriminate|].
    cbn [castItens castItem lookupField String.eqb Ascii.eqb Bool.eqb] in Hc.
    destruct (castString P n) as [n'|]; [|discriminate].
    destruct (castNumber P (jsOr q (JNum 1%float))) as [qq|] eqn:Eq; [|discriminate].
    cbn [castNumber] in Hc. rewrite En in Hc. cbn [truthyId] in Hc.
    destruct (castItens P rest') as [its'|] eqn:Ec; [|discriminate].
    injection Hc as <-.
    apply castNumber_quantidade in Eq. subst qq.
    cbn [fold_left precoDoItem quantidadeDoItem it_preco it_quantidade].
    exact (IH _ _ _ _ Hs eq_refl Ec).
Qed.

Lemma lookupField_setField_other (k k' : string) (v : JValue) (fields : list (string * JValue)) :
  k' <> k -> lookupField k' (setField k v fields) = lookupField k' fields.
Proof.
  intro Hne. induction fields as [|[k0 v0] rest IH]; simpl.
  - destruct (k =? k') eqn:E; [|reflexivity].
    apply String.eqb_eq in E. congruence.
  - destruct (k0 =? k) eqn:E; simpl.
    + apply String.eqb_eq in E. subst k0.
      destruct (k =? k') eqn:E'; [|reflexivity].
      apply String.eqb_eq in E'. congruence.
    + destruct (k0 =? k'); [reflexivity | exact IH].
Qed.

Lemma lookupField_setField_same (k : string) (v : JValue) (fields : list (string * JValue)) :
  lookupField k (setField k v fields) = v.
Proof.
  induction fields as [|[k0 v0] rest IH]; simpl.
  - now rewrite String.eqb_refl.
  - destruct (k0 =? k) eqn:E; simpl.
    + now rewrite E.
    + now rewrite E.
Qed.

(** The fields of a document that passed the casts. *)
Lemma newPedido_spec (d : DadosPedido) (p : Pedido) :
  newPedido P d = Some p ->
  p_telefone p = dp_telefone d /\ status p = dp_status d /\
  valorTotal p = dp_valorTotal d /\ isNaN (valorTotal p) = false /\
  castString P (dp_endereco d) = Some (endereco p) /\
  castString P (dp_formaPagamento d) = Some (formaPagamento p) /\
  exists l, dp_itens d = JArr l /\ castItens P l = Some (itens p).
Proof.
  unfold newPedido. intro H.
  destruct (dp_itens d) as [| | | | |l|]; try discriminate.
  destruct (castItens P l) as [its|] eqn:Ei; [|discriminate].
  destruct (castString P (dp_endereco d)) as [e|] eqn:Ee; [|discriminate].
  destruct (castString P (dp_formaPagamento d)) as [fp|] eqn:Ef; [|discriminate].
  destruct (isNaN (dp_valorTotal d)) eqn:En; [discriminate|].
  injection H as <-. cbn. repeat split; try assumption; try reflexivity.
  exists l. split; [reflexivity | exact Ei].
Qed.

Lemma savePedido_spec (d : DadosPedido) (w : World) (id : nat) (p : Pedido) (w1 : World) :
  savePedido P d w = Some (id, p, w1) ->
  newPedido P d = Some p /\ id = List.length (pedidos w) /\ w1 = comPedido w p.
Proof.
  unfold savePedido. destruct (newPedido P d) as [p'|]; [|discriminate].
  intros [= <- <- <-]. repeat split.
Qed.

(** The order the confirmation block stores for the conversation it
    leaves as [c']: built from the staged items, which have prices that
    are numbers, with the total the loop computed over them, and
    delivered to the staged address, which holds a digit. *)
Definition pedidoDaConfirmacao (c' : Conversa) (p : Pedido) : Prop :=
  exists l l' total,
    getProp (pedidoData c') "items" = JArr l /\
    somaItens P true l 0%float = Some total /\
    mapItens P l = Some l' /\
    newPedido P (novoPedidoConfirmacao c' (pedidoData c') l' total) = Some p /\
    matchDigits (getProp (pedidoData c') "endereco") = Some true.

(** Such an order is of the customer, is confirmed, and its total is the
    sum over its own items of price times quantity. *)
Lemma pedidoDaConfirmacao_total (c' : Conversa) (p : Pedido) :
  pedidoDaConfirmacao c' p ->
  p_telefone p = telefone c' /\ status p = "Confirmado" /\
  valorTotal p = totalDosItens (itens p) /\
  (exists e, endereco p = JStr e /\ Js.hasDigit e = true).
Proof.
  intros (l & l' & total & Hi & Hs & Hm & Hn & Hd).
  apply newPedido_spec in Hn.
  destruct Hn as (Ht & Hst & Hv & _ & He & _ & l0 & Hl0 & Hc).
  cbn in Ht, Hst, Hv, He, Hl0. injection Hl0 as <-.
  repeat split; try assumption.
  - rewrite Hv. exact (total_dos_itens_mapeados l _ _ _ _ Hs Hm Hc).
  - destruct (getProp (pedidoData c') "endereco") as [| | | |e| |]; try discriminate.
    cbn in He, Hd. injection He as <-. injection Hd as Hd. now exists e.
Qed.

(** The order the confirmation block stores for a staged payload, if it
    stores one: the items are an array, each has a price that is a
    number, and the order passes the casts. *)
Definition pedidoConfirmavel (c : Conversa) (saved : JValue) : option Pedido :=
  match getProp saved "items" with
  | JArr l =>
      match somaItens P true l 0%float, mapItens P l with
      | Some total, Some l' => newPedido P (novoPedidoConfirmacao c saved l' total)
      | _, _ => None
      end
  | _ => None
  end.

Lemma confirmarPedido_eq (c : Conversa) (saved : JValue) (w : World) :
  confirmarPedido P c saved w =
  match pedidoConfirmavel c saved with
  | Some p =>
      Some (setState (setPedidoId c (Some (List.length (pedidos w)))) 7,
            saveConversa (setState (setPedidoId c (Some (List.length (pedidos w)))) 7)
                         (comPedido w p))
  | None => None
  end.
Proof.
  unfold confirmarPedido, pedidoConfirmavel, savePedido.
  destruct (getProp saved "items") as [| | | | |l|]; try reflexivity.
  destruct (somaItens P true l 0%float) as [total|]; [|reflexivity].
  destruct (mapItens P l) as [l'|]; [|reflexivity].
  destruct (newPedido P _); reflexivity.
Qed.

(** What a successful confirmation stores. *)
Lemma confirmarPedido_spec (c : Conversa) (saved : JValue) (w : World)
      (c1 : Conversa) (w1 : World) :
  confirmarPedido P c saved w = Some (c1, w1) ->
  exists l l' total p,
    getProp saved "items" = JArr l /\
    somaItens P true l 0%float = Some total /\
    mapItens P l = Some l' /\
    newPedido P (novoPedidoConfirmacao c saved l' total) = Some p /\
    pedidos w1 = (pedidos w ++ [p])%list /\
    c1 = setState (setPedidoId c (Some (List.length (pedidos w)))) 7 /\
    trace w1 = trace w.
Proof.
  unfold confirmarPedido. intro H.
  destruct (getProp saved "items") as [| | | | |l|] eqn:Ei; try discriminate.
  destruct (somaItens P true l 0%float) as [total|] eqn:Et; [|discriminate].
  destruct (mapItens P l) as [l'|] eqn:Em; [|discriminate].
  destruct (savePedido P _ w) as [[[id p] w0]|] eqn:Es; [|discriminate].
  apply savePedido_spec in Es. destruct Es as (Hn & -> & ->).
  injection H as <- <-.
  exists l, l', total, p. repeat split; try assumption; reflexivity.
Qed.

Lemma enderecoRecuperavel_digit (c : Conversa) (fa : string) :
  enderecoRecuperavel c = Some fa -> Js.hasDigit fa = true.
Proof.
  unfold enderecoRecuperavel.
  destruct (addressData c) as [ad|]; [|discriminate].
  destruct (formattedAddress ad) as [s|]; simpl; [|discriminate].
  destruct (negb (s =? "")); simpl; [|discriminate].
  destruct (Js.hasDigit s) eqn:E; [|discriminate].
  now intros [= <-].
Qed.

(** The address of the staged payload after the recovery. *)
Lemma recovered_endereco (c : Conversa) (saved : JValue) (fa : string) (l : list JValue) :
  getProp (setProp saved "endereco" (JStr fa)) "items" = JArr l ->
  enderecoRecuperavel c = Some fa ->
  matchDigits (getProp (setProp saved "endereco" (JStr fa)) "endereco") = Some true.
Proof.
  intros Hi Er.
  destruct saved as [| | | | | |fields]; try discriminate.
  unfold getProp; simpl. rewrite lookupField_setField_same. simpl.
  now rewrite (enderecoRecuperavel_digit _ _ Er).
Qed.

Lemma confirmarPedido_recuperado (c : Conversa) (w : World) (fa : string) :
  enderecoRecuperavel c = Some fa ->
  match confirmarPedido P (mutatePedidoData c (setProp (pedidoData c) "endereco" (JStr fa)))
          (setProp (pedidoData c) "endereco" (JStr fa)) w with
  | Some (c1, w1) =>
      exists p,
      pedidos w1 = (pedidos w ++ [p])%list /\
      pedidoDaConfirmacao c1 p /\
      state c1 = 7%Z /\
      pedidoId c1 = Some (List.length (pedidos w))
  | None => True
  end.
Proof.
  intro Er.
  destruct (confirmarPedido P _ _ w) as [[c1 w1]|] eqn:Ec; [|exact I].
  apply confirmarPedido_spec in Ec.
  destruct Ec as (l & l' & total & p & Hi & Hs & Hm & Hn & Hp & Hc & _). subst c1.
  exists p. split; [exact Hp|]. split; [|split; reflexivity].
  exists l, l', total. cbn. repeat split; try assumption.
  exact (recovered_endereco c _ fa l Hi Er).
Qed.

(** The confirmation block either stores nothing, or stores one order for
    a conversation that had none, totalled from the staged items, with an
    address that holds a digit. *)
Lemma confirmationPhase_spec (botResponse : string) (cfg : option BotConfig)
      (r : Response) (c : Conversa) (w : World)
      (s : Step Response) (c' : Conversa) (w' : World) :
  confirmationPhase P botResponse cfg r c w = Some (s, c', w') ->
  (pedidos w' = pedidos w /\ pedidoId c' = pedidoId c /\
   (state c' = state c \/ state c' = 4%Z)) \/
  (pedidoId c = None /\
   exists p,
     pedidos w' = (pedidos w ++ [p])%list /\
     pedidoDaConfirmacao c' p /\
     state c' = 7%Z /\
     pedidoId c' = Some (List.length (pedidos w))).
Proof.
  unfold confirmationPhase. intro H.
  destruct (firstBlock CONFIRMATION_TAG botResponse) as [body|].
  2:{ inversion H; subst. left. auto. }
  destruct (pedidoId c) as [pid|] eqn:Epid.
  { inversion H; subst. left. auto. }
  destruct (truthy (pedidoData c)) eqn:Etr.
  2:{ inversion H; subst. left. auto. }
  pose proof (confirmarPedido_recuperado c w) as Hrec.
  destruct (truthy (getProp (pedidoData c) "endereco")) eqn:Ete.
  - destruct (matchDigits (getProp (pedidoData c) "endereco")) as [[|]|] eqn:Emd;
      [| |discriminate]; simpl in H.
    + (* the staged address holds a digit *)
      destruct (confirmarPedido P c (pedidoData c) w) as [[c1 w1]|] eqn:Ec.
      * inversion H; subst; clear H.
        apply confirmarPedido_spec in Ec.
        destruct Ec as (l & l' & total & p & Hi & Hs & Hm & Hn & Hp & Hc & _). subst c'.
        right. split; [reflexivity|]. exists p.
        split; [exact Hp|]. split; [|split; reflexivity].
        exists l, l', total. cbn. repeat split; assumption.
      * inversion H; subst. left. auto.
    + (* no digit: recover it from the resolved address, or go back to 4 *)
      destruct (enderecoRecuperavel c) as [fa|] eqn:Er.
      * specialize (Hrec fa eq_refl).
        destruct (confirmarPedido P _ _ w) as [[c1 w1]|] eqn:Ec.
        -- inversion H; subst; clear H. right. split; [reflexivity | exact Hrec].
        -- inversion H; subst. left. simpl. auto.
      * inversion H; subst. left. simpl. auto.
  - simpl in H.
    destruct (enderecoRecuperavel c) as [fa|] eqn:Er.
    + specialize (Hrec fa eq_refl).
      destruct (confirmarPedido P _ _ w) as [[c1 w1]|] eqn:Ec.
      * inversion H; subst; clear H. right. split; [reflexivity | exact Hrec].
      * inversion H; subst. left. simpl. auto.
    + inversion H; subst. left. simpl. auto.
Qed.

End Total.

(* ================================================================== *)
(** * Orders stored by the resolver *)

Section Orders.

Variable P : Platform.

(** One call of the resolver stores at most one order, only for a
    conversation without an order reference, totalled from the staged
    items and delivered to an address that holds a digit. *)
Lemma processTaggedResponse_orders (botResponse userMessage : string) (c : Conversa)
      (cfg : option BotConfig) (w : World)
      (r : option Response) (c' : Conversa) (w' : World) :
  processTaggedResponse P botResponse userMessage c cfg w = (r, c', w') ->
  (pedidos w' = pedidos w /\ pedidoId c' = pedidoId c) \/
  (pedidoId c = None /\
   exists p,
     pedidos w' = (pedidos w ++ [p])%list /\
     pedidoDaConfirmacao P c' p /\
     state c' = 7%Z /\
     pedidoId c' = Some (List.length (pedidos w))).
Proof.
  unfold processTaggedResponse. intro H.
  pose proof (voicePhase_pedidos P botResponse (state c)
                (plainResponse (Some (state c)) botResponse) w) as Hv.
  destruct (voicePhase P botResponse (state c)
              (plainResponse (Some (state c)) botResponse) w) as [r1 w1].
  simpl in Hv.
  destruct (jsonPhase P botResponse _ c w1) as [[s2 c2] w2] eqn:Ej.
  apply jsonPhase_frame in Ej. destruct Ej as [Hp2 [Hid2 [_ [Htel2 _]]]].
  destruct s2 as [rr|r3].
  - inversion H; subst. left. split; congruence.
  - destruct (confirmationPhase P botResponse cfg r3 c2 w2) as [[[s3 c3] w3]|] eqn:Ec.
    + apply confirmationPhase_spec in Ec.
      assert (Hres : c' = c3 /\ w' = w3).
      { destruct s3; inversion H; subst; auto. }
      destruct Hres as [-> ->].
      destruct Ec as [[Hp3 [Hid3 _]]|[Hnone (p & Hp & Hl)]].
      * left. split; congruence.
      * right. split; [congruence|]. exists p.
        rewrite <- Hv, <- Hp2. split; [exact Hp | exact Hl].
    + inversion H; subst. left. split; congruence.
Qed.

End Orders.

Section Shortcut.

Variable P : Platform.

(** What the state-6 shortcut hands to [new Pedido] for a staged payload:
    the items as the payload has them. *)
Definition pedidoDoAtalho (c : Conversa) (total : float) : DadosPedido :=
  mkDadosPedido (telefone c) (getProp (pedidoData c) "items") total
                (enderecoCompleto P c (pedidoData c))
                (getProp (pedidoData c) "pagamento") "Confirmado".

(** The orders after the shortcut: one more exactly when a payload is
    staged, its items can be totalled and the order passes the casts. *)
Lemma interceptConfirmacao_orders (t : Turno) (message : string) (c : Conversa) (w : World)
      (r : Response) (c' : Conversa) (w' : World) :
  interceptConfirmacao P t message c w = Some (r, c', w') ->
  pedidos w' =
  if truthy (pedidoData c) then
    match calcularTotal P false (getProp (pedidoData c) "items") with
    | Some total =>
        match newPedido P (pedidoDoAtalho c total) with
        | Some p => (pedidos w ++ [p])%list
        | None => pedidos w
        end
    | None => pedidos w
    end
  else pedidos w.
Proof.
  unfold interceptConfirmacao. intro H.
  destruct ((state c =? 6)%Z && isAfirmativo message); [|discriminate].
  destruct (truthy (pedidoData c)); simpl in H.
  2:{ now inversion H. }
  destruct (calcularTotal P false (getProp (pedidoData c) "items")) as [total|].
  2:{ now inversion H. }
  fold (pedidoDoAtalho c total) in H. unfold savePedido in H.
  destruct (newPedido P (pedidoDoAtalho c total)) as [p|].
  2:{ now inversion H. }
  cbv zeta in H.
  destruct (linhaPrimeiroItem P (getProp (pedidoData c) "items")) as [linha|].
  2:{ inversion H; subst. reflexivity. }
  match type of H with
  | context [processTaggedResponse P ?a ?b ?c2 ?d ?w3] =>
      destruct (processTaggedResponse P a b c2 d w3) as [[ro c3] w4] eqn:Ep
  end.
  apply processTaggedResponse_orders in Ep.
  destruct Ep as [[Hp _]|[Hnone _]]; [|discriminate].
  assert (w' = w4) as -> by (destruct ro; now inversion H).
  rewrite Hp. reflexivity.
Qed.

End Shortcut.

(** C9. The total of a stored order is computed when the order is built
    and no field of the payload other than the items, the address and the
    payment method reaches the store, so a total the model supplied is
    never used. An order stored by the confirmation block of the resolver
    carries, as its total, the sum over its own items of price times
    quantity. An order stored by the state-6 shortcut carries the items as
    the payload has them (after the casts of the schema) and, as its
    total, the sum the program computes over the payload, in which a
    quantity of zero counts as one: there the total need not be the sum
    over the order's own items. *)
Theorem C9_total_of_a_stored_order :
  (forall P botResponse userMessage c cfg w r c' w',
      processTaggedResponse P botResponse userMessage c cfg w = (r, c', w') ->
      pedidos w' = pedidos w \/
      exists p,
        pedidos w' = (pedidos w ++ [p])%list /\
        valorTotal p = totalDosItens (itens p)) /\
  (forall P t message c w r c' w',
      interceptConfirmacao P t message c w = Some (r, c', w') ->
      pedidos w' = pedidos w \/
      exists p raw,
        pedidos w' = (pedidos w ++ [p])%list /\
        getProp (pedidoData c) "items" = JArr raw /\
        castItens P raw = Some (itens p) /\
        valorTotal p = somaPrecoVezesQuantidade P raw) /\
  (forall P c k v fields w,
      k <> "items" -> k <> "endereco" -> k <> "pagamento" ->
      confirmarPedido P c (JObj ((k, v) :: fields)) w =
      confirmarPedido P c (JObj fields) w) /\
  (forall P c k v fields total,
      k <> "items" -> k <> "endereco" -> k <> "pagamento" ->
      pedidoDoAtalho P (setPedidoData c (JObj ((k, v) :: fields))) total =
      pedidoDoAtalho P (setPedidoData c (JObj fields)) total).
Proof.
  assert (Hget : forall k v fields x, k <> x ->
                   getProp (JObj ((k, v) :: fields)) x = getProp (JObj fields) x).
  { intros k v fields x Hne. unfold getProp. simpl.
    destruct (k =? x) eqn:E; [|reflexivity].
    apply String.eqb_eq in E. congruence. }
  split; [|split; [|split]].
  - intros P botResponse userMessage c cfg w r c' w' H.
    apply processTaggedResponse_orders in H.
    destruct H as [[H _]|[_ (p & Hp & Hc & _)]]; [now left|].
    right. exists p. split; [exact Hp|].
    now apply (pedidoDaConfirmacao_total P c' p).
  - intros P t message c w r c' w' H.
    apply interceptConfirmacao_orders in H.
    destruct (truthy (pedidoData c)); [|now left].
    destruct (calcularTotal P false (getProp (pedidoData c) "items")) as [total|] eqn:Et;
      [|now left].
    destruct (newPedido P (pedidoDoAtalho P c total)) as [p|] eqn:En; [|now left].
    right. unfold calcularTotal in Et.
    destruct (getProp (pedidoData c) "items") as [| | | | |l|] eqn:Ei; try discriminate.
    apply newPedido_spec in En.
    destruct En as (_ & _ & Hv & _ & _ & _ & l0 & Hl0 & Hc).
    cbn in Hv, Hl0. rewrite Ei in Hl0. injection Hl0 as <-.
    exists p, l. split; [exact H|]. split; [reflexivity|]. split; [exact Hc|].
    rewrite Hv. apply (somaItens_fold P false l _ _ Et).
  - intros P c k v fields w H1 H2 H3. unfold confirmarPedido, novoPedidoConfirmacao.
    now rewrite !Hget.
  - intros P c k v fields total H1 H2 H3. unfold pedidoDoAtalho, enderecoCompleto. simpl.
    now rewrite !Hget.
Qed.

(* ================================================================== *)
(** * The resolver, phase by phase *)

Section Views.

Variable P : Platform.

(** The complete order payload a reply carries in its first order block. *)
Definition payloadDe (botResponse : string) : option JValue :=
  match firstBlock JSON_TAG botResponse with
  | None => None
  | Some body =>
      let jsonData :=
        match JSON_parse P body with
        | Some v => v
        | None => JObj [("pedido", JNull)]
        end in
      match selectPedido jsonData with
      | Some pedidoData => if pedidoCompleto pedidoData then Some pedidoData else None
      | None => None
      end
  end.

(** The reply carries a complete payload whose address is a text without
    a digit. *)
Definition semNumeroNoEndereco (botResponse : string) : bool :=
  match payloadDe botResponse with
  | Some pedidoData =>
      match matchDigits (getProp pedidoData "endereco") with
      | Some false => true
      | _ => false
      end
  | None => false
  end.

(** The answer as the order block leaves it when it does not return. *)
Definition respostaJson (botResponse : string) (r : Response) : Response :=
  match payloadDe botResponse with
  | Some pedidoData =>
      match matchDigits (getProp pedidoData "endereco") with
      | Some true =>
          let items := getProp pedidoData "items" in
          match calcularTotal P false items, linhaPrimeiroItem P items with
          | Some valorTotal, Some linha =>
              setText r (textoResumo linha
                           (jsToString P (getProp pedidoData "endereco"))
                           (jsToString P (getProp pedidoData "pagamento"))
                           (toFixed2 P valorTotal))
          | _, _ =>
              setText r "Houve um problema ao registrar seu pedido. Por favor, tente novamente ou entre em contato por telefone."
          end
      | _ => r
      end
  | None => r
  end.

(** The conversation as the order block leaves it when the payload is
    staged. *)
Definition estagiar (c : Conversa) (pedidoData : JValue) : Conversa :=
  let c1 := setPedidoData c pedidoData in
  if (state c1 <? 6)%Z then setState c1 6 else c1.

Lemma jsonPhase_view (botResponse : string) (r : Response) (c : Conversa) (w : World) :
  jsonPhase P botResponse r c w =
  match payloadDe botResponse with
  | Some pedidoData =>
      match matchDigits (getProp pedidoData "endereco") with
      | None => (Continue r, c, guardarTemp c pedidoData w)
      | Some false =>
          (Return (plainResponse (Some 4%Z) PEDIR_NUMERO), setState c 4,
           saveConversa (setState c 4) (guardarTemp c pedidoData w))
      | Some true =>
          (Continue (respostaJson botResponse r), estagiar c pedidoData,
           guardarTemp (estagiar c pedidoData) pedidoData
             (saveConversa (estagiar c pedidoData) (guardarTemp c pedidoData w)))
      end
  | None => (Continue r, c, w)
  end.
Proof.
  unfold jsonPhase, respostaJson, payloadDe, estagiar.
  destruct (firstBlock JSON_TAG botResponse) as [body|]; [|reflexivity].
  destruct (selectPedido _) as [pd|]; [|reflexivity].
  destruct (pedidoCompleto pd); [|reflexivity].
  destruct (matchDigits (getProp pd "endereco")) as [[|]|]; try reflexivity.
  destruct (calcularTotal P false (getProp pd "items"));
    destruct (linhaPrimeiroItem P (getProp pd "items")); reflexivity.
Qed.

(** The voice block while the state is 6 or 7: nothing is spoken. *)
Definition vozSuprimida (botResponse : string) (r : Response) : Response :=
  match firstBlock VOICE_TAG botResponse with
  | None => r
  | Some body =>
      match firstBlock TEXT_TAG botResponse with
      | None => setText r (TEXT_TAG ++ Js.trim body ++ END_TAG)
      | Some _ => r
      end
  end.

Lemma voicePhase_suppressed (botResponse : string) (estado : Z) (r : Response) (w : World) :
  estado = 6%Z \/ estado = 7%Z ->
  voicePhase P botResponse estado r w = (vozSuprimida botResponse r, w).
Proof.
  intros [-> | ->]; unfold voicePhase, vozSuprimida;
    destruct (firstBlock VOICE_TAG botResponse); try reflexivity;
    simpl; destruct (firstBlock TEXT_TAG botResponse); reflexivity.
Qed.

(** ** The answer but for the state it reports *)

Definition semEstado (r : Response) : Response :=
  mkResponse (success r) None (text r) (audio r) (image r) (imageCaption r)
             (allImages r) (error r).

Lemma semEstado_setText (r : Response) (t : string) :
  semEstado (setText r t) = setText (semEstado r) t.
Proof. reflexivity. Qed.

Lemma vozSuprimida_semEstado (botResponse : string) (r : Response) :
  semEstado (vozSuprimida botResponse r) = vozSuprimida botResponse (semEstado r).
Proof.
  unfold vozSuprimida.
  destruct (firstBlock VOICE_TAG botResponse); [|reflexivity].
  destruct (firstBlock TEXT_TAG botResponse); reflexivity.
Qed.

Lemma respostaJson_semEstado (botResponse : string) (r : Response) :
  semEstado (respostaJson botResponse r) = respostaJson botResponse (semEstado r).
Proof.
  unfold respostaJson.
  destruct (payloadDe botResponse) as [pd|]; [|reflexivity].
  destruct (matchDigits (getProp pd "endereco")) as [[|]|]; try reflexivity.
  destruct (calcularTotal P false (getProp pd "items"));
    destruct (linhaPrimeiroItem P (getProp pd "items")); reflexivity.
Qed.

Lemma comImagemConfirmacao_semEstado (cfg : option BotConfig) (r : Response) :
  semEstado (comImagemConfirmacao cfg r) = comImagemConfirmacao cfg (semEstado r).
Proof.
  unfold comImagemConfirmacao. destruct cfg as [cfg|]; [|reflexivity].
  destruct (truthyS (confirmationImage cfg)); reflexivity.
Qed.

Lemma followUp_semEstado (botResponse imageId : string) (cap : option string)
      (estado : Z) (r : Response) :
  semEstado (followUp botResponse imageId cap estado r) =
  followUp botResponse imageId cap estado (semEstado r).
Proof.
  unfold followUp. simpl.
  repeat match goal with |- context [if ?b then _ else _] => destruct b end;
    reflexivity.
Qed.

Lemma firstImagePhase_semEstado (botResponse : string) (estado : Z)
      (db : list CardapioItem) (cfg : option BotConfig) (id0 : string) (r : Response) :
  semEstado (firstImagePhase P botResponse estado db cfg id0 r) =
  firstImagePhase P botResponse estado db cfg id0 (semEstado r).
Proof.
  unfold firstImagePhase.
  destruct (resolveFirst P db cfg (Js.trim id0)) as [[url cap]|]; simpl.
  - destruct (truthyS url).
    + rewrite followUp_semEstado. destruct (truthyS cap); reflexivity.
    + destruct (text r =? ""); reflexivity.
  - destruct (text r =? ""); reflexivity.
Qed.

Lemma imagePhase_semEstado (botResponse : string) (estado : Z)
      (db : list CardapioItem) (cfg : option BotConfig) (r : Response) :
  semEstado (imagePhase P botResponse estado db cfg r) =
  imagePhase P botResponse estado db cfg (semEstado r).
Proof.
  unfold imagePhase.
  destruct (imageMatches botResponse) as [|id0 rest]; [reflexivity|].
  destruct rest as [|id1 rest]; [apply firstImagePhase_semEstado|].
  rewrite <- firstImagePhase_semEstado. reflexivity.
Qed.

(** Past the beverage state the follow-up of an image is the same. *)
Lemma followUp_late (botResponse imageId : string) (cap : option string)
      (e e' : Z) (r : Response) :
  (3 < e)%Z -> (3 < e')%Z ->
  followUp botResponse imageId cap e r = followUp botResponse imageId cap e' r.
Proof.
  intros He He'. unfold followUp, textoSemTexto, questionToAdd.
  replace (e =? 0)%Z with false by (symmetry; apply Z.eqb_neq; lia).
  replace (e =? 1)%Z with false by (symmetry; apply Z.eqb_neq; lia).
  replace (e =? 2)%Z with false by (symmetry; apply Z.eqb_neq; lia).
  replace (e =? 3)%Z with false by (symmetry; apply Z.eqb_neq; lia).
  replace (e' =? 0)%Z with false by (symmetry; apply Z.eqb_neq; lia).
  replace (e' =? 1)%Z with false by (symmetry; apply Z.eqb_neq; lia).
  replace (e' =? 2)%Z with false by (symmetry; apply Z.eqb_neq; lia).
  replace (e' =? 3)%Z with false by (symmetry; apply Z.eqb_neq; lia).
  replace (e <=? 3)%Z with false by (symmetry; apply Z.leb_gt; lia).
  replace (e' <=? 3)%Z with false by (symmetry; apply Z.leb_gt; lia).
  rewrite !andb_false_r. reflexivity.
Qed.

Lemma imagePhase_late (botResponse : string) (e e' : Z)
      (db : list CardapioItem) (cfg : option BotConfig) (r : Response) :
  (3 < e)%Z -> (3 < e')%Z ->
  imagePhase P botResponse e db cfg r = imagePhase P botResponse e' db cfg r.
Proof.
  intros He He'. unfold imagePhase, firstImagePhase.
  destruct (imageMatches botResponse) as [|id0 rest]; [reflexivity|].
  destruct (resolveFirst P db cfg (Js.trim id0)) as [[url cap]|]; [|reflexivity].
  destruct (truthyS url); [|reflexivity].
  now rewrite (followUp_late botResponse (Js.trim id0) cap e e' _ He He').
Qed.

End Views.

Section Idempotence.

Variable P : Platform.

Lemma confirmarPedido_cardapio (c : Conversa) (saved : JValue) (w : World)
      (c1 : Conversa) (w1 : World) :
  confirmarPedido P c saved w = Some (c1, w1) -> cardapio w1 = cardapio w.
Proof.
  unfold confirmarPedido. intro H.
  destruct (getProp saved "items"); try discriminate.
  destruct (somaItens P true l 0%float); [|discriminate].
  destruct (mapItens P l); [|discriminate].
  destruct (savePedido P _ w) as [[[id p] w0]|] eqn:Es; [|discriminate].
  apply savePedido_spec in Es. destruct Es as (_ & _ & ->).
  now inversion H.
Qed.

Lemma confirmationPhase_cardapio (botResponse : string) (cfg : option BotConfig)
      (r : Response) (c : Conversa) (w : World)
      (s : Step Response) (c' : Conversa) (w' : World) :
  confirmationPhase P botResponse cfg r c w = Some (s, c', w') ->
  cardapio w' = cardapio w.
Proof.
  unfold confirmationPhase. intro H.
  repeat match type of H with
         | context [confirmarPedido P ?a ?b ?d] =>
             let E := fresh "E" in
             destruct (confirmarPedido P a b d) as [[? ?]|] eqn:E;
             [apply confirmarPedido_cardapio in E|]
         | context [match ?x with _ => _ end] => destruct x
         end; inversion H; subst; clear H; simpl; congruence.
Qed.

(** When the confirmation block stores an order, it goes on with the
    text of the block and the confirmation image. *)
Lemma confirmationPhase_commit_response (botResponse : string) (cfg : option BotConfig)
      (r : Response) (c : Conversa) (w : World)
      (s : Step Response) (c' : Conversa) (w' : World) :
  confirmationPhase P botResponse cfg r c w = Some (s, c', w') ->
  pedidos w' <> pedidos w ->
  exists body,
    firstBlock CONFIRMATION_TAG botResponse = Some body /\
    s = Continue (comImagemConfirmacao cfg (setText r body)).
Proof.
  unfold confirmationPhase. intros H Hne.
  destruct (firstBlock CONFIRMATION_TAG botResponse) as [body|].
  2:{ inversion H; subst. congruence. }
  exists body. split; [reflexivity|].
  repeat match type of H with
         | context [confirmarPedido P ?a ?b ?d] =>
             destruct (confirmarPedido P a b d) as [[? ?]|]
         | context [match ?x with _ => _ end] => destruct x
         end; inversion H; subst; clear H; simpl in *; congruence.
Qed.

(** With an order reference the confirmation block returns at once. *)
Lemma confirmationPhase_guard (botResponse : string) (cfg : option BotConfig)
      (r : Response) (c : Conversa) (w : World) (body : string) (pid : nat) :
  firstBlock CONFIRMATION_TAG botResponse = Some body ->
  pedidoId c = Some pid ->
  confirmationPhase P botResponse cfg r c w =
  Some (Return (comImagemConfirmacao cfg (setText r body)), c, w).
Proof.
  intros Hb Hp. unfold confirmationPhase. now rewrite Hb, Hp.
Qed.

Lemma text_comImagemConfirmacao (cfg : option BotConfig) (r : Response) :
  text (comImagemConfirmacao cfg r) = text r.
Proof.
  unfold comImagemConfirmacao. destruct cfg as [cfg|]; [|reflexivity].
  destruct (truthyS (confirmationImage cfg)); reflexivity.
Qed.

Lemma success_comImagemConfirmacao (cfg : option BotConfig) (r : Response) :
  success (comImagemConfirmacao cfg r) = success r.
Proof.
  unfold comImagemConfirmacao. destruct cfg as [cfg|]; [|reflexivity].
  destruct (truthyS (confirmationImage cfg)); reflexivity.
Qed.

Lemma success_voicePhase (botResponse : string) (estado : Z) (r : Response) (w : World) :
  success (fst (voicePhase P botResponse estado r w)) = success r.
Proof.
  unfold voicePhase.
  repeat match goal with
         | |- context [match ?x with _ => _ end] => destruct x
         end; reflexivity.
Qed.

Lemma success_followUp (botResponse imageId : string) (cap : option string)
      (estado : Z) (r : Response) :
  success (followUp botResponse imageId cap estado r) = success r.
Proof.
  unfold followUp.
  repeat match goal with |- context [if ?b then _ else _] => destruct b end;
    reflexivity.
Qed.

Lemma success_imagePhase (botResponse : string) (estado : Z)
      (db : list CardapioItem) (cfg : option BotConfig) (r : Response) :
  success (imagePhase P botResponse estado db cfg r) = success r.
Proof.
  unfold imagePhase, firstImagePhase.
  destruct (imageMatches botResponse) as [|id0 rest]; [reflexivity|].
  assert (H : success
                match resolveFirst P db cfg (Js.trim id0) with
                | Some (imageUrl, cap) =>
                    if truthyS imageUrl
                    then followUp botResponse (Js.trim id0) cap estado
                           (setAllImages
                              (if truthyS cap
                               then setImageCaption (setImage r imageUrl) cap
                               else setImage r imageUrl)
                              (Some [mkImageEntry (Js.trim id0) (showS imageUrl) cap]))
                    else if text r =? ""
                         then setText r "Desculpe, não encontrei imagem para este item no nosso cardápio."
                         else r
                | None =>
                    if text r =? ""
                    then setText r "Desculpe, não consegui processar a imagem solicitada."
                    else r
                end = success r).
  { destruct (resolveFirst P db cfg (Js.trim id0)) as [[url cap]|].
    - destruct (truthyS url).
      + rewrite success_followUp. destruct (truthyS cap); reflexivity.
      + destruct (text r =? ""); reflexivity.
    - destruct (text r =? ""); reflexivity. }
  destruct rest; [exact H | exact H].
Qed.

Lemma success_respostaJson (botResponse : string) (r : Response) :
  success (respostaJson P botResponse r) = success r.
Proof.
  unfold respostaJson.
  repeat match goal with
         | |- context [match ?x with _ => _ end] => destruct x
         end; reflexivity.
Qed.

(** The order block either returns the request for the house number or
    goes on with the answer [respostaJson]. *)
Lemma jsonPhase_return (botResponse : string) (r : Response) (c : Conversa) (w : World) :
  semNumeroNoEndereco P botResponse = true ->
  exists w2,
    jsonPhase P botResponse r c w =
    (Return (plainResponse (Some 4%Z) PEDIR_NUMERO), setState c 4, w2) /\
    pedidos w2 = pedidos w /\ trace w2 = trace w /\ cardapio w2 = cardapio w.
Proof.
  unfold semNumeroNoEndereco. intro H. rewrite jsonPhase_view.
  destruct (payloadDe P botResponse) as [pd|]; [|discriminate].
  destruct (matchDigits (getProp pd "endereco")) as [[|]|]; try discriminate.
  eexists. split; [reflexivity|]. simpl.
  now rewrite pedidos_guardarTemp, trace_guardarTemp, cardapio_guardarTemp.
Qed.

Lemma jsonPhase_continue (botResponse : string) (r : Response) (c : Conversa) (w : World) :
  semNumeroNoEndereco P botResponse = false ->
  exists c2 w2,
    jsonPhase P botResponse r c w = (Continue (respostaJson P botResponse r), c2, w2) /\
    pedidos w2 = pedidos w /\ trace w2 = trace w /\ cardapio w2 = cardapio w /\
    pedidoId c2 = pedidoId c /\
    (state c2 = state c \/ ((state c < 6)%Z /\ state c2 = 6%Z)).
Proof.
  unfold semNumeroNoEndereco. intro H. rewrite jsonPhase_view.
  assert (Hr : forall pd, payloadDe P botResponse = Some pd ->
                 matchDigits (getProp pd "endereco") = None ->
                 respostaJson P botResponse r = r).
  { intros pd E1 E2. unfold respostaJson. now rewrite E1, E2. }
  assert (Hn : payloadDe P botResponse = None -> respostaJson P botResponse r = r).
  { intros E1. unfold respostaJson. now rewrite E1. }
  destruct (payloadDe P botResponse) as [pd|].
  2:{ exists c, w. rewrite (Hn eq_refl). repeat split; auto. }
  specialize (Hr pd eq_refl).
  destruct (matchDigits (getProp pd "endereco")) as [[|]|]; try discriminate.
  - eexists; eexists. split; [reflexivity|]. simpl.
    rewrite !pedidos_guardarTemp, !trace_guardarTemp, !cardapio_guardarTemp. simpl.
    rewrite !pedidos_guardarTemp, !trace_guardarTemp, !cardapio_guardarTemp.
    repeat split; unfold estagiar; simpl;
      destruct (state c <? 6)%Z eqn:E; simpl; auto.
    right. split; [now apply Z.ltb_lt | reflexivity].
  - exists c, (guardarTemp c pd w). rewrite (Hr eq_refl).
    split; [reflexivity|].
    rewrite !pedidos_guardarTemp, !trace_guardarTemp, !cardapio_guardarTemp.
    repeat split; auto.
Qed.

Lemma app_one_neq {A : Type} (l : list A) (x : A) : (l ++ [x])%list <> l.
Proof.
  intro H. apply (f_equal (@List.length A)) in H.
  rewrite length_app in H. simpl in H. lia.
Qed.

(** The guard: with an order reference nothing is stored, and a reply
    that holds a confirmation block is answered with the text of that
    block and the configured confirmation image, unless its order block
    asks for the house number first. *)
Lemma processTaggedResponse_guard (botResponse userMessage : string) (c : Conversa)
      (cfg : option BotConfig) (w : World) (pid : nat) (body : string) :
  pedidoId c = Some pid ->
  firstBlock CONFIRMATION_TAG botResponse = Some body ->
  semNumeroNoEndereco P botResponse = false ->
  exists r3 c' w',
    processTaggedResponse P botResponse userMessage c cfg w =
    (Some (comImagemConfirmacao cfg (setText r3 body)), c', w') /\
    success r3 = true /\
    semEstado r3 =
    respostaJson P botResponse
      (imagePhase P botResponse (state c) (cardapio w) cfg
         (semEstado (fst (voicePhase P botResponse (state c)
                            (plainResponse (Some (state c)) botResponse) w)))) /\
    pedidos w' = pedidos w /\ pedidoId c' = Some pid.
Proof.
  intros Hpid Hb Hj. unfold processTaggedResponse.
  pose proof (voicePhase_pedidos P botResponse (state c)
                (plainResponse (Some (state c)) botResponse) w) as Hv.
  pose proof (success_voicePhase botResponse (state c)
                (plainResponse (Some (state c)) botResponse) w) as Hsv.
  assert (Hcv : cardapio (snd (voicePhase P botResponse (state c)
                          (plainResponse (Some (state c)) botResponse) w)) = cardapio w).
  { unfold voicePhase.
    repeat match goal with
           | |- context [match ?x with _ => _ end] => destruct x
           end; reflexivity. }
  destruct (voicePhase P botResponse (state c)
              (plainResponse (Some (state c)) botResponse) w) as [r1 w1].
  simpl in Hv, Hsv, Hcv. simpl fst. rewrite Hcv.
  destruct (jsonPhase_continue botResponse
              (imagePhase P botResponse (state c) (cardapio w) cfg r1) c w1 Hj)
    as [c2 [w2 [Ej [Hp2 [_ [_ [Hid2 _]]]]]]].
  rewrite Ej.
  rewrite (confirmationPhase_guard botResponse cfg _ c2 w2 body pid Hb);
    [|congruence].
  eexists; exists c2, w2. split; [reflexivity|].
  rewrite success_respostaJson, success_imagePhase.
  rewrite respostaJson_semEstado, imagePhase_semEstado.
  repeat split; congruence.
Qed.

Lemma fallbackPhase_with_text (botResponse : string) (r : Response) :
  text r <> "" -> fallbackPhase botResponse r = r.
Proof.
  intro H. unfold fallbackPhase, semConteudo.
  destruct (text r =? "") eqn:E; [|reflexivity].
  apply String.eqb_eq in E. contradiction.
Qed.

(** Two calls in a row: when the first, from state 6, stores an order, the
    second stores nothing and answers the same but for the state. *)
Lemma processTaggedResponse_twice (botResponse userMessage : string) (c : Conversa)
      (cfg : option BotConfig) (w : World)
      (r : option Response) (c1 : Conversa) (w1 : World) (p : Pedido) (body : string) :
  state c = 6%Z ->
  processTaggedResponse P botResponse userMessage c cfg w = (r, c1, w1) ->
  pedidos w1 = (pedidos w ++ [p])%list ->
  firstBlock CONFIRMATION_TAG botResponse = Some body ->
  body <> "" ->
  exists resp1 resp2 c2 w2,
    r = Some resp1 /\
    processTaggedResponse P botResponse userMessage c1 cfg w1 = (Some resp2, c2, w2) /\
    pedidos w2 = pedidos w1 /\ pedidoId c2 = pedidoId c1 /\
    success resp1 = true /\ success resp2 = true /\
    text resp1 = body /\
    semEstado resp1 = semEstado resp2.
Proof.
  intros Hs H Hp Hb Hne.
  assert (Hneq : pedidos w1 <> pedidos w) by (rewrite Hp; apply app_one_neq).
  pose proof H as Ho. apply processTaggedResponse_orders in Ho.
  destruct Ho as [[Ho _]|[Hnone (p0 & _ & _ & Hs1 & Hid1)]]; [contradiction|].
  unfold processTaggedResponse in H. rewrite Hs in H.
  rewrite (voicePhase_suppressed P botResponse 6 _ w (or_introl eq_refl)) in H.
  destruct (semNumeroNoEndereco P botResponse) eqn:Ej.
  { destruct (jsonPhase_return botResponse
                (imagePhase P botResponse 6 (cardapio w) cfg
                   (vozSuprimida botResponse (plainResponse (Some 6%Z) botResponse)))
                c w Ej) as [w2 [E [Hp2 _]]].
    rewrite E in H. inversion H; subst. congruence. }
  destruct (jsonPhase_continue botResponse
              (imagePhase P botResponse 6 (cardapio w) cfg
                 (vozSuprimida botResponse (plainResponse (Some 6%Z) botResponse)))
              c w Ej) as [c2 [w2 [E [Hp2 [_ [Hc2 _]]]]]].
  rewrite E in H.
  destruct (confirmationPhase P botResponse cfg _ c2 w2) as [[[s c3] w3]|] eqn:Ec.
  2:{ inversion H; subst. congruence. }
  assert (Hw : c1 = c3 /\ w1 = w3) by (destruct s; inversion H; auto).
  destruct Hw as [-> ->].
  pose proof Ec as Hc3. apply confirmationPhase_cardapio in Hc3.
  pose proof Ec as Hcr. apply confirmationPhase_commit_response in Hcr; [|congruence].
  destruct Hcr as [body' [Hb' Hs']].
  rewrite Hb in Hb'. inversion Hb'; subst body'. subst s.
  rewrite fallbackPhase_with_text in H
    by (rewrite text_comImagemConfirmacao; exact Hne).
  destruct (processTaggedResponse_guard botResponse userMessage c3 cfg w3
              (List.length (pedidos w)) body Hid1 Hb Ej)
    as [r3' [c4 [w4 [E4 [Hsu [Hse [Hp4 Hid4]]]]]]].
  eexists; eexists; exists c4, w4.
  split; [inversion H; reflexivity|].
  split; [exact E4|].
  split; [exact Hp4|]. split; [congruence|].
  split.
  { rewrite success_comImagemConfirmacao. simpl.
    rewrite success_respostaJson, success_imagePhase.
    unfold vozSuprimida.
    destruct (firstBlock VOICE_TAG botResponse); [|reflexivity].
    destruct (firstBlock TEXT_TAG botResponse); reflexivity. }
  split; [rewrite success_comImagemConfirmacao; exact Hsu|].
  split; [rewrite text_comImagemConfirmacao; reflexivity|].
  rewrite !comImagemConfirmacao_semEstado, !semEstado_setText.
  rewrite Hse, Hs1.
  rewrite (voicePhase_suppressed P botResponse 7 _ w3 (or_intror eq_refl)). simpl fst.
  rewrite respostaJson_semEstado, imagePhase_semEstado, !vozSuprimida_semEstado.
  rewrite Hc3, Hc2.
  rewrite (imagePhase_late P botResponse 6 7) by lia.
  reflexivity.
Qed.

End Idempotence.

(* ================================================================== *)
(** * A platform and data for worked examples *)

Module Demo.

(** A text between double quotes. *)
Definition aspas (s : string) : string :=
  String (ascii_of_nat 34) s ++ String (ascii_of_nat 34) EmptyString.

(** The order payload as the model writes it, for a given address. *)
Definition jsonPedido (endereco_ : string) : string :=
  "{" ++ aspas "pedido" ++ ":{" ++ aspas "items" ++ ":[{" ++
  aspas "nome" ++ ":" ++ aspas "Amazonas" ++ "," ++
  aspas "quantidade" ++ ":2," ++ aspas "preco" ++ ":45.5}]," ++
  aspas "endereco" ++ ":" ++ aspas endereco_ ++ "," ++
  aspas "pagamento" ++ ":" ++ aspas "pix" ++ "}}".

Definition pedidoDemo (endereco_ : string) : JValue :=
  JObj [("items", JArr [JObj [("nome", JStr "Amazonas");
                              ("quantidade", JNum 2%float);
                              ("preco", JNum 45.5%float)]]);
        ("endereco", JStr endereco_);
        ("pagamento", JStr "pix")].

(** [JSON.parse] on the two payloads of the examples; every other text
    of the examples is no JSON. *)
Definition parse (s : string) : option JValue :=
  if s =? jsonPedido "Rua Augusta, 1234" then Some (JObj [("pedido", pedidoDemo "Rua Augusta, 1234")])
  else if s =? jsonPedido "Rua Augusta" then Some (JObj [("pedido", pedidoDemo "Rua Augusta")])
  else None.

(** [toFixed(2)] and [String] on the numbers of the examples. *)
Definition fixed2 (x : float) : string :=
  if PrimFloat.eqb x 91%float then "91.00"
  else if PrimFloat.eqb x 45.5%float then "45.50"
  else "0.00".

Definition numStr (x : float) : string :=
  if PrimFloat.eqb x 2%float then "2"
  else if PrimFloat.eqb x 45.5%float then "45.5"
  else "0".

(** An expression without special characters matches where it occurs,
    whatever the case. *)
Definition regex (pat : string) : option (string -> bool) :=
  Some (fun s => Js.includes (Js.toLowerCase s) (Js.toLowerCase pat)).

(** Every image loads but the one at the broken address. *)
Definition load (url : string) : option Image :=
  if url =? "https://img/quebrada.png" then None else Some (mkImage url 800 600).

Definition lookupCep (digits : string) : option Components :=
  if digits =? "01310100"
  then Some (mkComponents (Some "Avenida Paulista") (Some "Bela Vista")
                          (Some "São Paulo") (Some "SP") (Some "01310-100"))
  else None.

Definition plataforma : Platform :=
  mkPlatform parse (fun _ => PrimFloat.nan) (fun _ => PrimFloat.nan)
             numStr fixed2 regex
             (fun _ => Some "/api/media/speech-1.mp3")
             load (fun _ => Some "data:image/jpeg;base64,AAAA")
             lookupCep true (fun _ => true).

Definition config : BotConfig :=
  mkBotConfig (Some "Olá! Bem-vindo à pizzaria.")
              (Some "https://img/cardapio.png") (Some "Nosso cardápio")
              (Some "https://img/confirmado.png") None.

Definition mundo : World := mkWorld [] [] [] (Some config) [] [].

(** A conversation of the customer 5511999990000 in a given state, with a
    given staged payload and order reference. *)
Definition conversa (estado : Z) (staged : JValue) (ref : option nat) : Conversa :=
  mkConversa 1 "5511999990000" 0 0 estado
             [mkMensagem User "quero uma pizza amazonas"] None staged None ref 0.

Definition CONFIRMACAO : string := "[CONFIRMATION_FORMAT]Pedido confirmado![/END]".

End Demo.

(* ================================================================== *)
(** * An order line with the quantity zero *)

Module QuantidadeZero.

(** The one item of the staged order: no pizza of it is asked for. *)
Definition item : JValue :=
  JObj [("nome", JStr "Amazonas"); ("quantidade", JNum 0%float); ("preco", JNum 45.5%float)].

Definition pedido : JValue :=
  JObj [("items", JArr [item]); ("endereco", JStr "Rua Augusta, 1234");
        ("pagamento", JStr "pix")].

(** The conversation in state 6 with that order staged. *)
Definition conversa : Conversa := Demo.conversa 6 pedido None.

Definition turno : Turno := mkTurno 60000 ReplyError ReplyError false false false.

End QuantidadeZero.

(** C9 on the state-6 shortcut, at an order whose one line has the
    quantity 0 and the price 45.5, confirmed with "sim": the order is
    stored with the quantity 0 and the total 45.5, which is the sum the
    program computes over the payload, while the sum over the order's own
    items of price times quantity is 0. *)
Lemma C9_total_of_a_stored_order_witness :
  exists r c' w' p,
    interceptConfirmacao Demo.plataforma QuantidadeZero.turno "sim"
      QuantidadeZero.conversa Demo.mundo = Some (r, c', w') /\
    pedidos w' = [p] /\
    itens p = [mkItemPedido (JStr "Amazonas") (JNum 0%float) (JNum 45.5%float)] /\
    valorTotal p = somaPrecoVezesQuantidade Demo.plataforma [QuantidadeZero.item] /\
    valorTotal p = 45.5%float /\
    totalDosItens (itens p) = 0%float.
Proof.
  destruct (interceptConfirmacao Demo.plataforma QuantidadeZero.turno "sim"
              QuantidadeZero.conversa Demo.mundo) as [[[r c'] w']|] eqn:E;
    [|vm_compute in E; discriminate E].
  destruct (proj1 (proj2 C9_total_of_a_stored_order) Demo.plataforma QuantidadeZero.turno
              "sim" QuantidadeZero.conversa Demo.mundo r c' w' E)
    as [H|(p & raw & Hp & Hraw & Hc & Hv)].
  - exfalso. vm_compute in E. injection E as _ _ <-. vm_compute in H. discriminate H.
  - exists r, c', w', p. split; [reflexivity|].
    vm_compute in Hraw. injection Hraw as <-.
    vm_compute in E. injection E as _ _ <-.
    vm_compute in Hp. injection Hp as <-.
    split; [reflexivity|]. split; [reflexivity|]. split; [exact Hv|].
    split; vm_compute; reflexivity.
Defined.

(* ================================================================== *)
(** * Idempotent commit *)

(** C1, as amended. Processing a reply for a conversation that already
    carries an order reference stores no order and keeps the reference;
    when the reply holds a confirmation block and its order block does not
    ask for the house number, the answer is the text of that block with the
    configured confirmation image. And when processing a reply with a
    non-empty confirmation block stores an order for a conversation in
    state 6, processing the same reply again stores nothing more and both
    answers succeed and agree in everything but the state they report. *)
Theorem C1_commit_is_idempotent :
  forall P botResponse userMessage c cfg w r c1 w1,
    processTaggedResponse P botResponse userMessage c cfg w = (r, c1, w1) ->
    (forall pid,
        pedidoId c = Some pid ->
        pedidos w1 = pedidos w /\ pedidoId c1 = Some pid /\
        (forall body,
            firstBlock CONFIRMATION_TAG botResponse = Some body ->
            semNumeroNoEndereco P botResponse = false ->
            exists resp,
              r = Some resp /\ success resp = true /\ text resp = body /\
              (forall cfgv,
                  cfg = Some cfgv ->
                  truthyS (confirmationImage cfgv) = true ->
                  image resp = confirmationImage cfgv /\
                  imageCaption resp =
                  orS (confirmationImageCaption cfgv) (Some "Pedido Confirmado")))) /\
    (forall p body,
        state c = 6%Z ->
        pedidos w1 = (pedidos w ++ [p])%list ->
        firstBlock CONFIRMATION_TAG botResponse = Some body ->
        body <> "" ->
        exists resp1 resp2 c2 w2,
          r = Some resp1 /\
          processTaggedResponse P botResponse userMessage c1 cfg w1 = (Some resp2, c2, w2) /\
          pedidos w2 = pedidos w1 /\ pedidoId c2 = pedidoId c1 /\
          success resp1 = true /\ success resp2 = true /\
          text resp1 = body /\
          semEstado resp1 = semEstado resp2).
Proof.
  intros P botResponse userMessage c cfg w r c1 w1 H. split.
  - intros pid Hpid.
    pose proof H as Ho. apply processTaggedResponse_orders in Ho.
    destruct Ho as [[Hp Hi]|[Hnone _]]; [|congruence].
    split; [exact Hp|]. split; [congruence|].
    intros body Hb Hj.
    destruct (processTaggedResponse_guard P botResponse userMessage c cfg w pid body
                Hpid Hb Hj) as [r3 [c' [w' [E [Hs _]]]]].
    rewrite E in H. inversion H; subst.
    eexists. split; [reflexivity|].
    rewrite success_comImagemConfirmacao, text_comImagemConfirmacao. simpl.
    split; [exact Hs|]. split; [reflexivity|].
    intros cfgv -> Ht. simpl. rewrite Ht. split; reflexivity.
  - intros p body Hs Hp Hb Hne.
    eapply processTaggedResponse_twice; eassumption.
Qed.

(** C1 at an order being confirmed: the first call stores it, the second
    answers the same and stores nothing. *)
Lemma C1_commit_is_idempotent_witness :
  let c := Demo.conversa 6 (Demo.pedidoDemo "Rua Augusta, 1234") None in
  let res := processTaggedResponse Demo.plataforma Demo.CONFIRMACAO "sim" c
               (Some Demo.config) Demo.mundo in
  exists resp1 resp2 c2 w2,
    fst (fst res) = Some resp1 /\
    processTaggedResponse Demo.plataforma Demo.CONFIRMACAO "sim"
      (snd (fst res)) (Some Demo.config) (snd res) = (Some resp2, c2, w2) /\
    pedidos w2 = pedidos (snd res) /\ pedidoId c2 = pedidoId (snd (fst res)) /\
    success resp1 = true /\ success resp2 = true /\
    text resp1 = "Pedido confirmado!" /\
    semEstado resp1 = semEstado resp2.
Proof.
  intros c res.
  refine (proj2 (C1_commit_is_idempotent Demo.plataforma Demo.CONFIRMACAO "sim" c
                   (Some Demo.config) Demo.mundo
                   (fst (fst res)) (snd (fst res)) (snd res) _)
                (mkPedido "5511999990000"
                   [mkItemPedido (JStr "Amazonas") (JNum 2%float) (JNum 45.5%float)]
                   91%float (JStr "Rua Augusta, 1234") (JStr "pix") "Confirmado")
                "Pedido confirmado!" _ _ _ _).
  - vm_compute. reflexivity.
  - reflexivity.
  - vm_compute. reflexivity.
  - vm_compute. reflexivity.
  - discriminate.
Defined.

(** C1 as stated fails twice over. A conversation with an order reference
    whose reply holds a confirmation block after an order block without a
    house number is answered with the request for the number, not with the
    confirmation text, and falls back to state 4. And for a conversation
    with nothing staged two calls store no order at all. *)
Lemma C1_counterexample :
  (let c := Demo.conversa 7 (Demo.pedidoDemo "Rua Augusta, 1234") (Some 0%nat) in
   let botResponse := "[JSON_FORMAT]" ++ Demo.jsonPedido "Rua Augusta" ++ "[/END]" ++
                      Demo.CONFIRMACAO in
   let res := processTaggedResponse Demo.plataforma botResponse "sim" c
                (Some Demo.config) Demo.mundo in
   firstBlock CONFIRMATION_TAG botResponse = Some "Pedido confirmado!" /\
   fst (fst res) = Some (plainResponse (Some 4%Z) PEDIR_NUMERO) /\
   state (snd (fst res)) = 4%Z) /\
  (let c := Demo.conversa 6 JUndef None in
   let res1 := processTaggedResponse Demo.plataforma Demo.CONFIRMACAO "sim" c
                 (Some Demo.config) Demo.mundo in
   let res2 := processTaggedResponse Demo.plataforma Demo.CONFIRMACAO "sim"
                 (snd (fst res1)) (Some Demo.config) (snd res1) in
   pedidos (snd res2) = []).
Proof.
  split; [split; [|split]|]; vm_compute; reflexivity.
Qed.

(* ================================================================== *)
(** * Addresses without a house number *)

Section HouseNumber.

Variable P : Platform.

Lemma conversas_guardarTemp (c : Conversa) (v : JValue) (w : World) :
  conversas (guardarTemp c v w) = conversas w.
Proof. unfold guardarTemp. destruct (negb (telefone c =? "")); reflexivity. Qed.

Lemma voicePhase_conversas (botResponse : string) (estado : Z) (r : Response) (w : World) :
  conversas (snd (voicePhase P botResponse estado r w)) = conversas w.
Proof.
  unfold voicePhase.
  repeat match goal with
         | |- context [match ?x with _ => _ end] => destruct x
         end; reflexivity.
Qed.

Lemma conversas_saveConversa (c : Conversa) (w w0 : World) :
  conversas w = conversas w0 ->
  conversas (saveConversa c w) = conversas (saveConversa c w0).
Proof. unfold saveConversa. cbn [conversas]. now intros ->. Qed.

Lemma processTaggedResponse_rejects (botResponse userMessage : string) (c : Conversa)
      (cfg : option BotConfig) (w : World) :
  semNumeroNoEndereco P botResponse = true ->
  exists w',
    processTaggedResponse P botResponse userMessage c cfg w =
    (Some (plainResponse (Some 4%Z) PEDIR_NUMERO), setState c 4, w') /\
    conversas w' = conversas (saveConversa (setState c 4) w) /\
    pedidos w' = pedidos w.
Proof.
  intro Hj. unfold processTaggedResponse.
  pose proof (voicePhase_pedidos P botResponse (state c)
                (plainResponse (Some (state c)) botResponse) w) as Hv.
  pose proof (voicePhase_conversas botResponse (state c)
                (plainResponse (Some (state c)) botResponse) w) as Hc.
  destruct (voicePhase P botResponse (state c)
              (plainResponse (Some (state c)) botResponse) w) as [r1 w1].
  simpl in Hv, Hc.
  rewrite jsonPhase_view. unfold semNumeroNoEndereco in Hj.
  destruct (payloadDe P botResponse) as [pd|]; [|discriminate].
  destruct (matchDigits (getProp pd "endereco")) as [[|]|]; try discriminate.
  eexists. split; [reflexivity|]. split.
  - apply conversas_saveConversa. now rewrite conversas_guardarTemp.
  - rewrite pedidos_saveConversa, pedidos_guardarTemp. exact Hv.
Qed.

(** The staged address has no digit to show. *)
Definition semDigito (e : JValue) : Prop :=
  truthy e = false \/ matchDigits e = Some false.

(** The resolver on a reply that carries no complete order payload: the
    voice and image blocks, then the confirmation block. *)
Lemma processTaggedResponse_sem_payload (botResponse userMessage : string)
      (c : Conversa) (cfg : option BotConfig) (w : World) :
  payloadDe P botResponse = None ->
  processTaggedResponse P botResponse userMessage c cfg w =
  let rw := voicePhase P botResponse (state c) (plainResponse (Some (state c)) botResponse) w in
  let r2 := imagePhase P botResponse (state c) (cardapio (snd rw)) cfg (fst rw) in
  match confirmationPhase P botResponse cfg r2 c (snd rw) with
  | None => (None, c, snd rw)
  | Some (Return r, c3, w3) => (Some r, c3, w3)
  | Some (Continue r4, c3, w3) => (Some (fallbackPhase botResponse r4), c3, w3)
  end.
Proof.
  intro Hpay. unfold processTaggedResponse.
  destruct (voicePhase P botResponse (state c)
              (plainResponse (Some (state c)) botResponse) w) as [r1 w1].
  rewrite jsonPhase_view, Hpay. reflexivity.
Qed.

(** The confirmation block for a conversation without an order reference
    and with a staged payload. *)
Definition confirmar (botResponse : string) (cfg : option BotConfig) (r : Response)
           (body : string) (c : Conversa) (saved : JValue) (w : World)
  : option (Step Response * Conversa * World) :=
  match confirmarPedido P c saved w with
  | Some (c1, w1) => Some (Continue (comImagemConfirmacao cfg (setText r body)), c1, w1)
  | None => Some (Continue (setText r ERRO_CONFIRMAR), c, w)
  end.

Lemma confirmationPhase_view (botResponse : string) (cfg : option BotConfig)
      (r : Response) (c : Conversa) (w : World) (body : string) :
  firstBlock CONFIRMATION_TAG botResponse = Some body ->
  pedidoId c = None ->
  truthy (pedidoData c) = true ->
  confirmationPhase P botResponse cfg r c w =
  let recuperar :=
    match enderecoRecuperavel c with
    | Some fa =>
        confirmar botResponse cfg r body
          (mutatePedidoData c (setProp (pedidoData c) "endereco" (JStr fa)))
          (setProp (pedidoData c) "endereco" (JStr fa)) w
    | None =>
        Some (Return (setText r ENDERECO_INCOMPLETO), setState c 4,
              saveConversa (setState c 4) w)
    end in
  if truthy (getProp (pedidoData c) "endereco") then
    match matchDigits (getProp (pedidoData c) "endereco") with
    | None => None
    | Some true => confirmar botResponse cfg r body c (pedidoData c) w
    | Some false => recuperar
    end
  else recuperar.
Proof.
  intros Hb Hid Htr. unfold confirmationPhase, confirmar. rewrite Hb, Hid, Htr.
  destruct (truthy (getProp (pedidoData c) "endereco")).
  - destruct (matchDigits (getProp (pedidoData c) "endereco")) as [[|]|]; reflexivity.
  - reflexivity.
Qed.

Lemma confirmationPhase_recupera (botResponse : string) (cfg : option BotConfig)
      (r : Response) (c : Conversa) (w : World) (body : string) :
  firstBlock CONFIRMATION_TAG botResponse = Some body ->
  pedidoId c = None ->
  truthy (pedidoData c) = true ->
  semDigito (getProp (pedidoData c) "endereco") ->
  confirmationPhase P botResponse cfg r c w =
  match enderecoRecuperavel c with
  | Some fa =>
      confirmar botResponse cfg r body
        (mutatePedidoData c (setProp (pedidoData c) "endereco" (JStr fa)))
        (setProp (pedidoData c) "endereco" (JStr fa)) w
  | None =>
      Some (Return (setText r ENDERECO_INCOMPLETO), setState c 4,
            saveConversa (setState c 4) w)
  end.
Proof.
  intros Hb Hid Htr Hsem. rewrite (confirmationPhase_view _ _ _ _ _ body Hb Hid Htr).
  cbv zeta. destruct Hsem as [Hf|Hm].
  - now rewrite Hf.
  - rewrite Hm. destruct (truthy (getProp (pedidoData c) "endereco")); reflexivity.
Qed.

Lemma text_fallbackPhase (botResponse : string) (r : Response) :
  text r <> "" -> text (fallbackPhase botResponse r) = text r.
Proof.
  intro H. unfold fallbackPhase, semConteudo.
  destruct (text r =? "") eqn:E; [|reflexivity].
  apply String.eqb_eq in E. contradiction.
Qed.


Lemma processTaggedResponse_back_to_address (botResponse userMessage : string)
      (c : Conversa) (cfg : option BotConfig) (w : World) (body : string) :
  firstBlock CONFIRMATION_TAG botResponse = Some body ->
  payloadDe P botResponse = None ->
  pedidoId c = None ->
  truthy (pedidoData c) = true ->
  semDigito (getProp (pedidoData c) "endereco") ->
  enderecoRecuperavel c = None ->
  exists resp w',
    processTaggedResponse P botResponse userMessage c cfg w =
    (Some resp, setState c 4, w') /\
    text resp = ENDERECO_INCOMPLETO /\ success resp = true /\
    conversas w' = conversas (saveConversa (setState c 4) w) /\
    pedidos w' = pedidos w.
Proof.
  intros Hb Hpay Hid Htr Hsem Hrec.
  rewrite (processTaggedResponse_sem_payload _ _ _ _ _ Hpay). cbv zeta.
  rewrite (confirmationPhase_recupera _ _ _ _ _ body Hb Hid Htr Hsem), Hrec.
  eexists; eexists. split; [reflexivity|].
  cbn [text success setText]. rewrite success_imagePhase, success_voicePhase.
  repeat split.
  - apply conversas_saveConversa, voicePhase_conversas.
  - rewrite pedidos_saveConversa. apply voicePhase_pedidos.
Qed.

(** The same reply for a conversation whose resolved address holds a
    digit: the order is stored with that address when it can be stored
    at all. *)
Lemma processTaggedResponse_recovers (botResponse userMessage : string)
      (c : Conversa) (cfg : option BotConfig) (w : World) (body fa : string) :
  firstBlock CONFIRMATION_TAG botResponse = Some body ->
  payloadDe P botResponse = None ->
  pedidoId c = None ->
  truthy (pedidoData c) = true ->
  semDigito (getProp (pedidoData c) "endereco") ->
  enderecoRecuperavel c = Some fa ->
  match pedidoConfirmavel P c (setProp (pedidoData c) "endereco" (JStr fa)) with
  | Some p =>
      endereco p = JStr fa /\
      exists resp c' w',
        processTaggedResponse P botResponse userMessage c cfg w = (Some resp, c', w') /\
        pedidos w' = (pedidos w ++ [p])%list /\ state c' = 7%Z /\
        pedidoId c' = Some (List.length (pedidos w)) /\
        (body <> "" -> text resp = body)
  | None =>
      exists resp w',
        processTaggedResponse P botResponse userMessage c cfg w =
        (Some resp, mutatePedidoData c (setProp (pedidoData c) "endereco" (JStr fa)), w') /\
        text resp = ERRO_CONFIRMAR /\ pedidos w' = pedidos w
  end.
Proof.
  intros Hb Hpay Hid Htr Hsem Hrec.
  rewrite (processTaggedResponse_sem_payload _ _ _ _ _ Hpay). cbv zeta.
  rewrite (confirmationPhase_recupera _ _ _ _ _ body Hb Hid Htr Hsem), Hrec.
  unfold confirmar. rewrite confirmarPedido_eq.
  assert (Hpc : forall p,
             pedidoConfirmavel P (mutatePedidoData c (setProp (pedidoData c) "endereco" (JStr fa)))
               (setProp (pedidoData c) "endereco" (JStr fa)) = Some p ->
             endereco p = JStr fa).
  { intros p Hp. unfold pedidoConfirmavel in Hp.
    destruct (getProp (setProp (pedidoData c) "endereco" (JStr fa)) "items")
      as [| | | | |l|] eqn:Ei; try discriminate.
    destruct (somaItens P true l 0%float); [|discriminate].
    destruct (mapItens P l); [|discriminate].
    apply newPedido_spec in Hp. destruct Hp as (_ & _ & _ & _ & He & _).
    cbn [dp_endereco novoPedidoConfirmacao] in He.
    destruct (pedidoData c) as [| | | | | |fields]; try discriminate.
    unfold getProp in He; cbn [prop setProp] in He.
    rewrite lookupField_setField_same in He. cbn in He. now injection He as <-. }
  change (pedidoConfirmavel P (mutatePedidoData c (setProp (pedidoData c) "endereco" (JStr fa))))
    with (pedidoConfirmavel P c) in *.
  destruct (pedidoConfirmavel P c (setProp (pedidoData c) "endereco" (JStr fa))) as [p|].
  - split; [now apply Hpc|].
    eexists; eexists; eexists. split; [reflexivity|].
    rewrite pedidos_saveConversa. cbn [pedidos comPedido state setState pedidoId setPedidoId].
    rewrite voicePhase_pedidos. repeat split.
    intro Hne. rewrite text_fallbackPhase; rewrite text_comImagemConfirmacao; [reflexivity|exact Hne].
  - eexists; eexists. split; [reflexivity|]. split.
    + now rewrite text_fallbackPhase.
    + apply voicePhase_pedidos.
Qed.

End HouseNumber.

(** C3, as amended. A reply whose order block carries a complete payload
    with an address that holds no digit is answered with the request for
    the house number: the conversation goes to state 4 and is stored so,
    its staged payload is left as it was and no order is stored. The
    resolver never stores an order whose address holds no digit. For a
    reply with a confirmation block and no order block of its own, and a
    staged address without a digit: when the conversation holds no
    resolved address with a digit, the result is state 4 and no order;
    when it holds one, that address takes the place of the staged one,
    and the order is stored with it, closing the conversation, exactly
    when the staged items have prices that are numbers and the order
    passes the casts of its schema; otherwise the confirmation fails
    with an error text and nothing is stored. *)
Theorem C3_no_digit_goes_back_to_address :
  forall P botResponse userMessage c cfg w,
    (semNumeroNoEndereco P botResponse = true ->
     exists w',
       processTaggedResponse P botResponse userMessage c cfg w =
       (Some (plainResponse (Some 4%Z) PEDIR_NUMERO), setState c 4, w') /\
       pedidoData (setState c 4) = pedidoData c /\
       conversas w' = conversas (saveConversa (setState c 4) w) /\
       pedidos w' = pedidos w) /\
    (forall r c' w',
        processTaggedResponse P botResponse userMessage c cfg w = (r, c', w') ->
        pedidos w' = pedidos w \/
        exists p e, pedidos w' = (pedidos w ++ [p])%list /\
                    endereco p = JStr e /\ Js.hasDigit e = true) /\
    (forall body,
        firstBlock CONFIRMATION_TAG botResponse = Some body ->
        payloadDe P botResponse = None ->
        pedidoId c = None ->
        truthy (pedidoData c) = true ->
        semDigito (getProp (pedidoData c) "endereco") ->
        enderecoRecuperavel c = None ->
        exists resp w',
          processTaggedResponse P botResponse userMessage c cfg w =
          (Some resp, setState c 4, w') /\
          text resp = ENDERECO_INCOMPLETO /\ success resp = true /\
          conversas w' = conversas (saveConversa (setState c 4) w) /\
          pedidos w' = pedidos w) /\
    (forall body fa,
        firstBlock CONFIRMATION_TAG botResponse = Some body ->
        payloadDe P botResponse = None ->
        pedidoId c = None ->
        truthy (pedidoData c) = true ->
        semDigito (getProp (pedidoData c) "endereco") ->
        enderecoRecuperavel c = Some fa ->
        match pedidoConfirmavel P c (setProp (pedidoData c) "endereco" (JStr fa)) with
        | Some p =>
            endereco p = JStr fa /\
            exists resp c' w',
              processTaggedResponse P botResponse userMessage c cfg w =
              (Some resp, c', w') /\
              pedidos w' = (pedidos w ++ [p])%list /\ state c' = 7%Z /\
              pedidoId c' = Some (List.length (pedidos w)) /\
              (body <> "" -> text resp = body)
        | None =>
            exists resp w',
              processTaggedResponse P botResponse userMessage c cfg w =
              (Some resp,
               mutatePedidoData c (setProp (pedidoData c) "endereco" (JStr fa)), w') /\
              text resp = ERRO_CONFIRMAR /\ pedidos w' = pedidos w
        end).
Proof.
  intros P botResponse userMessage c cfg w. split; [|split; [|split]].
  - intro Hj.
    destruct (processTaggedResponse_rejects P botResponse userMessage c cfg w Hj)
      as [w' [E [Hc Hp]]].
    exists w'. repeat split; assumption.
  - intros r c' w' H. apply processTaggedResponse_orders in H.
    destruct H as [[H _]|[_ (p & Hp & Hc & _)]]; [now left|].
    right. apply pedidoDaConfirmacao_total in Hc.
    destruct Hc as (_ & _ & _ & e & He & Hd).
    exists p, e. repeat split; assumption.
  - intros body. apply processTaggedResponse_back_to_address.
  - intros body fa. apply processTaggedResponse_recovers.
Qed.

(** C3 as stated fails: in state 6, with a confirmation block and a staged
    address without a digit, the order is stored and the state becomes 7
    when the resolved address of the conversation holds a digit. *)
Lemma C3_counterexample :
  let c0 := Demo.conversa 6 (Demo.pedidoDemo "Rua Augusta") None in
  let c := setAddressData c0
             (Some (mkAddressData
                      (Some "Rua Augusta, 1234, Consolação, São Paulo - SP, 01305-000")
                      None)) in
  let res := processTaggedResponse Demo.plataforma Demo.CONFIRMACAO "sim" c
               (Some Demo.config) Demo.mundo in
  matchDigits (getProp (pedidoData c) "endereco") = Some false /\
  state (snd (fst res)) = 7%Z /\
  List.length (pedidos (snd res)) = 1%nat.
Proof.
  vm_compute. repeat split; reflexivity.
Qed.

(* ================================================================== *)
(** * What commits an order in state 6 *)

Section Commit.

Variable P : Platform.

(** The confirmation vocabulary of the detector. *)
Definition userConfirms (userMessage : string) : bool :=
  let userMsg := Js.toLowerCase userMessage in
  Js.includes userMsg "sim" || Js.includes userMsg "confirmo" ||
  Js.includes userMsg "correto" || Js.includes userMsg "ok" ||
  Js.includes userMsg "pode ser".

(** The staged payload shows items, an address and a payment method. *)
Definition hasPedidoData (c : Conversa) : bool :=
  truthy (pedidoData c) &&
  truthy (getProp (pedidoData c) "items") &&
  truthy (getProp (pedidoData c) "endereco") &&
  truthy (getProp (pedidoData c) "pagamento").

Lemma detector_state6 (botResponse userMessage : string) (c : Conversa) :
  truthy (checkIfShouldAdvanceState botResponse userMessage 6 c) =
  userConfirms userMessage && Js.includes botResponse CONFIRMATION_TAG && hasPedidoData c.
Proof.
  unfold checkIfShouldAdvanceState, userConfirms, hasPedidoData.
  change ((6 =? 0)%Z) with false. change ((6 =? 1)%Z) with false.
  change ((6 =? 2)%Z) with false. change ((6 =? 3)%Z) with false.
  change ((6 =? 4)%Z) with false. change ((6 =? 5)%Z) with false.
  change ((6 =? 6)%Z) with true. cbv iota.
  destruct (Js.includes (Js.toLowerCase userMessage) "sim" ||
            Js.includes (Js.toLowerCase userMessage) "confirmo" ||
            Js.includes (Js.toLowerCase userMessage) "correto" ||
            Js.includes (Js.toLowerCase userMessage) "ok" ||
            Js.includes (Js.toLowerCase userMessage) "pode ser"); [|reflexivity].
  destruct (Js.includes botResponse CONFIRMATION_TAG); [|reflexivity].
  simpl.
  destruct (truthy (pedidoData c)) eqn:E1; [|exact E1].
  destruct (truthy (getProp (pedidoData c) "items")) eqn:E2; [|exact E2].
  destruct (truthy (getProp (pedidoData c) "endereco")) eqn:E3; [|exact E3].
  reflexivity.
Qed.

Lemma confirmarPedido_trace (c : Conversa) (saved : JValue) (w : World)
      (c1 : Conversa) (w1 : World) :
  confirmarPedido P c saved w = Some (c1, w1) -> trace w1 = trace w.
Proof.
  intro H. apply confirmarPedido_spec in H.
  destruct H as (l & l' & total & p & _ & _ & _ & _ & _ & _ & H). exact H.
Qed.

Lemma confirmationPhase_trace (botResponse : string) (cfg : option BotConfig)
      (r : Response) (c : Conversa) (w : World)
      (s : Step Response) (c' : Conversa) (w' : World) :
  confirmationPhase P botResponse cfg r c w = Some (s, c', w') ->
  trace w' = trace w.
Proof.
  unfold confirmationPhase. intro H.
  repeat match type of H with
         | context [confirmarPedido P ?a ?b ?d] =>
             let E := fresh "E" in
             destruct (confirmarPedido P a b d) as [[? ?]|] eqn:E;
             [apply confirmarPedido_trace in E|]
         | context [match ?x with _ => _ end] => destruct x
         end; inversion H; subst; clear H; simpl; congruence.
Qed.

(** In states 6 and 7 the resolver calls no service. *)
Lemma processTaggedResponse_trace_late (botResponse userMessage : string) (c : Conversa)
      (cfg : option BotConfig) (w : World)
      (r : option Response) (c' : Conversa) (w' : World) :
  state c = 6%Z \/ state c = 7%Z ->
  processTaggedResponse P botResponse userMessage c cfg w = (r, c', w') ->
  trace w' = trace w.
Proof.
  intros Hs H. unfold processTaggedResponse in H.
  rewrite (voicePhase_suppressed P botResponse (state c) _ w Hs) in H.
  destruct (jsonPhase P botResponse _ c w) as [[s2 c2] w2] eqn:Ej.
  apply jsonPhase_frame in Ej. destruct Ej as [_ [_ [Ht2 _]]].
  destruct s2 as [rr|r3].
  - inversion H; subst. exact Ht2.
  - destruct (confirmationPhase P botResponse cfg r3 c2 w2) as [[[s3 c3] w3]|] eqn:Ec.
    + apply confirmationPhase_trace in Ec.
      assert (w' = w3) as -> by (destruct s3; now inversion H).
      congruence.
    + inversion H; subst. exact Ht2.
Qed.

(** With an order reference the resolver leaves the state, stages up to
    state 6 or goes back to state 4. *)
Lemma processTaggedResponse_guarded_state (botResponse userMessage : string) (c : Conversa)
      (cfg : option BotConfig) (w : World) (pid : nat)
      (r : option Response) (c' : Conversa) (w' : World) :
  pedidoId c = Some pid ->
  processTaggedResponse P botResponse userMessage c cfg w = (r, c', w') ->
  state c' = state c \/ state c' = 4%Z \/ ((state c < 6)%Z /\ state c' = 6%Z).
Proof.
  intros Hid H. unfold processTaggedResponse in H.
  destruct (voicePhase P botResponse (state c)
              (plainResponse (Some (state c)) botResponse) w) as [r1 w1].
  destruct (semNumeroNoEndereco P botResponse) eqn:Ej.
  - destruct (jsonPhase_return P botResponse
                (imagePhase P botResponse (state c) (cardapio w1) cfg r1) c w1 Ej)
      as (w2 & E & _).
    rewrite E in H. inversion H; subst. right; left. reflexivity.
  - destruct (jsonPhase_continue P botResponse
                (imagePhase P botResponse (state c) (cardapio w1) cfg r1) c w1 Ej)
      as (c2 & w2 & E & _ & _ & _ & Hid2 & Hs2).
    rewrite E in H. unfold confirmationPhase in H. rewrite Hid2, Hid in H.
    destruct (firstBlock CONFIRMATION_TAG botResponse); inversion H; subst;
      destruct Hs2 as [Hs2|Hs2]; auto.
Qed.

(** The shortcut of state 6: an affirmative message over a staged payload
    stores the order exactly when its items can be totalled and the order
    passes the casts; otherwise it answers with the error text and leaves
    everything as it was. No service is called. The conversation is left
    with the order reference and in state 7, or in state 4 when the
    confirmation text the shortcut builds is itself read as an order
    block without a house number. *)
Lemma interceptConfirmacao_commits (t : Turno) (message : string) (c : Conversa)
      (w : World) :
  state c = 6%Z ->
  isAfirmativo message = true ->
  truthy (pedidoData c) = true ->
  exists r c' w',
    interceptConfirmacao P t message c w = Some (r, c', w') /\
    trace w' = trace w /\
    match calcularTotal P false (getProp (pedidoData c) "items") with
    | Some total =>
        match newPedido P (pedidoDoAtalho P c total) with
        | Some p =>
            pedidos w' = (pedidos w ++ [p])%list /\
            (state c' = 7%Z \/ state c' = 4%Z) /\
            pedidoId c' = Some (List.length (pedidos w))
        | None => r = ERRO_FINALIZAR /\ c' = c /\ w' = w
        end
    | None => r = ERRO_FINALIZAR /\ c' = c /\ w' = w
    end.
Proof.
  intros Hs Ha Htr.
  unfold interceptConfirmacao. rewrite Hs, Ha, Htr. cbn [Z.eqb Pos.eqb andb negb].
  destruct (calcularTotal P false (getProp (pedidoData c) "items")) as [total|].
  2:{ eexists; eexists; eexists. split; [reflexivity|]. repeat split. }
  fold (pedidoDoAtalho P c total). unfold savePedido.
  destruct (newPedido P (pedidoDoAtalho P c total)) as [p|].
  2:{ eexists; eexists; eexists. split; [reflexivity|]. repeat split. }
  cbv zeta.
  destruct (linhaPrimeiroItem P (getProp (pedidoData c) "items")) as [linha|].
  2:{ eexists; eexists; eexists. split; [reflexivity|]. split; [reflexivity|].
      split; [reflexivity|]. split; [now left | reflexivity]. }
  match goal with
  | |- context [processTaggedResponse P ?a ?b ?c2 ?d ?w3] =>
      destruct (processTaggedResponse P a b c2 d w3) as [[ro c3] w4] eqn:Ep
  end.
  pose proof Ep as Htrace.
  apply processTaggedResponse_trace_late in Htrace; [|right; reflexivity].
  pose proof Ep as Hst.
  apply processTaggedResponse_orders in Ep.
  destruct Ep as [[Hp Hid]|[Hnone _]]; [|discriminate].
  apply (processTaggedResponse_guarded_state _ _ _ _ _ (List.length (pedidos w))) in Hst;
    [|reflexivity].
  cbn [state setState pushMensagem] in Hst.
  assert (Hs7 : state c3 = 7%Z \/ state c3 = 4%Z).
  { destruct Hst as [H|[H|[H _]]]; [now left | now right | lia]. }
  exists (match ro with Some r => r | None => ERRO_FINALIZAR end), c3, w4.
  split; [destruct ro; reflexivity|].
  split; [exact Htrace|]. rewrite Hp. repeat split; assumption.
Qed.

End Commit.

(* ================================================================== *)
(** * Repeated blocks *)

Section FirstBlocks.

Variable P : Platform.





End FirstBlocks.


(** A reply with two voice blocks outside the states 6 and 7: the first
    is spoken, the second is not. *)
Example second_voice_block_not_spoken :
  trace (snd (processTaggedResponse Demo.plataforma
                "[VOICE_FORMAT]Boa noite[/END][VOICE_FORMAT]Até logo[/END]" "oi"
                (Demo.conversa 0 JUndef None) None Demo.mundo)) =
  [EvAudio "Boa noite"].
Proof.
  vm_compute. reflexivity.
Qed.


Section CommitNeeds.

Variable P : Platform.

(** An order stored by the resolver comes from a confirmation block, for
    a conversation without an order reference, and from a staged payload
    with an items array and an address that holds a digit. *)
Lemma processTaggedResponse_commit_needs (botResponse userMessage : string)
      (c : Conversa) (cfg : option BotConfig) (w : World)
      (r : option Response) (c' : Conversa) (w' : World) :
  processTaggedResponse P botResponse userMessage c cfg w = (r, c', w') ->
  pedidos w' <> pedidos w ->
  (exists body, firstBlock CONFIRMATION_TAG botResponse = Some body) /\
  pedidoId c = None /\
  truthy (pedidoData c') = true /\
  isArray (getProp (pedidoData c') "items") = true /\
  matchDigits (getProp (pedidoData c') "endereco") = Some true.
Proof.
  intros H Hne.
  pose proof H as Ho. apply processTaggedResponse_orders in Ho.
  destruct Ho as [[Ho _]|[Hnone (p & _ & (l & l' & total & Hi & _ & _ & _ & Hd) & _)]];
    [contradiction|].
  split.
  - unfold processTaggedResponse in H.
    pose proof (voicePhase_pedidos P botResponse (state c)
                  (plainResponse (Some (state c)) botResponse) w) as Hv.
    destruct (voicePhase P botResponse (state c)
                (plainResponse (Some (state c)) botResponse) w) as [r1 w1].
    simpl in Hv.
    destruct (jsonPhase P botResponse _ c w1) as [[s2 c2] w2] eqn:Ej.
    apply jsonPhase_frame in Ej. destruct Ej as [Hp2 _].
    destruct s2 as [rr|r3].
    + inversion H; subst. congruence.
    + destruct (confirmationPhase P botResponse cfg r3 c2 w2) as [[[s3 c3] w3]|] eqn:Ec.
      * assert (w' = w3) as -> by (destruct s3; now inversion H).
        apply confirmationPhase_commit_response in Ec; [|congruence].
        destruct Ec as [body [Hb _]]. now exists body.
      * inversion H; subst. congruence.
  - split; [exact Hnone|]. rewrite Hi, Hd. repeat split.
    destruct (pedidoData c'); try discriminate. reflexivity.
Qed.

Lemma interceptConfirmacao_needs (t : Turno) (message : string) (c : Conversa) (w : World)
      (r : Response) (c' : Conversa) (w' : World) :
  interceptConfirmacao P t message c w = Some (r, c', w') ->
  pedidos w' <> pedidos w ->
  state c = 6%Z /\ isAfirmativo message = true /\ truthy (pedidoData c) = true.
Proof.
  intros H Hne.
  pose proof H as Ho. apply interceptConfirmacao_orders in Ho.
  unfold interceptConfirmacao in H.
  destruct (state c =? 6)%Z eqn:Es; [|discriminate].
  destruct (isAfirmativo message); [|discriminate].
  apply Z.eqb_eq in Es.
  destruct (truthy (pedidoData c)); [auto | contradiction].
Qed.

(** The resolver on a reply with a confirmation block and no order block
    of its own, for a conversation without an order reference whose
    staged address holds a digit: the order is stored exactly when it can
    be built. *)
Lemma processTaggedResponse_commits (botResponse userMessage : string)
      (c : Conversa) (cfg : option BotConfig) (w : World) (body : string) :
  firstBlock CONFIRMATION_TAG botResponse = Some body ->
  payloadDe P botResponse = None ->
  pedidoId c = None ->
  matchDigits (getProp (pedidoData c) "endereco") = Some true ->
  match pedidoConfirmavel P c (pedidoData c) with
  | Some p =>
      exists resp c' w',
        processTaggedResponse P botResponse userMessage c cfg w = (Some resp, c', w') /\
        pedidos w' = (pedidos w ++ [p])%list /\ state c' = 7%Z /\
        pedidoId c' = Some (List.length (pedidos w))
  | None =>
      exists resp w',
        processTaggedResponse P botResponse userMessage c cfg w = (Some resp, c, w') /\
        text resp = ERRO_CONFIRMAR /\ pedidos w' = pedidos w
  end.
Proof.
  intros Hb Hpay Hid Hd.
  assert (Htr : truthy (pedidoData c) = true).
  { destruct (pedidoData c); try discriminate; reflexivity. }
  assert (Hte : truthy (getProp (pedidoData c) "endereco") = true).
  { destruct (getProp (pedidoData c) "endereco") as [| | | |e| |]; try discriminate.
    cbn in Hd |- *. injection Hd as Hd. destruct e; [discriminate | reflexivity]. }
  rewrite (processTaggedResponse_sem_payload _ _ _ _ _ _ Hpay). cbv zeta.
  rewrite (confirmationPhase_view _ _ _ _ _ _ body Hb Hid Htr). cbv zeta.
  rewrite Hte, Hd. unfold confirmar. rewrite confirmarPedido_eq.
  destruct (pedidoConfirmavel P c (pedidoData c)) as [p|].
  - eexists; eexists; eexists. split; [reflexivity|].
    rewrite pedidos_saveConversa. cbn [pedidos comPedido state setState pedidoId setPedidoId].
    rewrite voicePhase_pedidos. repeat split.
  - eexists; eexists. split; [reflexivity|]. split.
    + now rewrite text_fallbackPhase.
    + apply voicePhase_pedidos.
Qed.

End CommitNeeds.

(** C2, as amended. In state 6 the state detector advances exactly when
    the user's message is affirmative, the model's output holds the
    confirmation tag and the conversation carries a staged payload that
    shows items, an address and a payment method. An order, however, is
    stored in two ways, neither of which needs all three. Before the
    model is consulted, an affirmative message ("sim", "correto", "ok")
    over a staged payload stores the order by itself, exactly when the
    items can be totalled and the order passes the casts of its schema,
    and otherwise answers with an error and stores nothing; this shortcut
    stores nothing without an affirmative message and a staged payload.
    And the resolver stores an order only for a reply with a confirmation
    block, a conversation without an order reference and a staged payload
    with an items array and an address that holds a digit, whatever the
    user's message; given these, and no order block in the reply, it
    stores the order exactly when every price is a number and the order
    passes the casts. *)
Theorem C2_commit_in_state_6 :
  forall P,
    (forall botResponse userMessage c,
        truthy (checkIfShouldAdvanceState botResponse userMessage 6 c) =
        userConfirms userMessage && Js.includes botResponse CONFIRMATION_TAG &&
        hasPedidoData c) /\
    (forall t message c w,
        state c = 6%Z ->
        isAfirmativo message = true ->
        truthy (pedidoData c) = true ->
        exists r c' w',
          interceptConfirmacao P t message c w = Some (r, c', w') /\
          trace w' = trace w /\
          match calcularTotal P false (getProp (pedidoData c) "items") with
          | Some total =>
              match newPedido P (pedidoDoAtalho P c total) with
              | Some p =>
                  pedidos w' = (pedidos w ++ [p])%list /\
                  (state c' = 7%Z \/ state c' = 4%Z) /\
                  pedidoId c' = Some (List.length (pedidos w))
              | None => r = ERRO_FINALIZAR /\ c' = c /\ w' = w
              end
          | None => r = ERRO_FINALIZAR /\ c' = c /\ w' = w
          end) /\
    (forall t message c w r c' w',
        interceptConfirmacao P t message c w = Some (r, c', w') ->
        pedidos w' <> pedidos w ->
        state c = 6%Z /\ isAfirmativo message = true /\ truthy (pedidoData c) = true) /\
    (forall botResponse userMessage c cfg w r c' w',
        processTaggedResponse P botResponse userMessage c cfg w = (r, c', w') ->
        pedidos w' <> pedidos w ->
        (exists body, firstBlock CONFIRMATION_TAG botResponse = Some body) /\
        pedidoId c = None /\
        truthy (pedidoData c') = true /\
        isArray (getProp (pedidoData c') "items") = true /\
        matchDigits (getProp (pedidoData c') "endereco") = Some true) /\
    (forall botResponse userMessage c cfg w body,
        firstBlock CONFIRMATION_TAG botResponse = Some body ->
        payloadDe P botResponse = None ->
        pedidoId c = None ->
        matchDigits (getProp (pedidoData c) "endereco") = Some true ->
        match pedidoConfirmavel P c (pedidoData c) with
        | Some p =>
            exists resp c' w',
              processTaggedResponse P botResponse userMessage c cfg w =
              (Some resp, c', w') /\
              pedidos w' = (pedidos w ++ [p])%list /\ state c' = 7%Z /\
              pedidoId c' = Some (List.length (pedidos w))
        | None =>
            exists resp w',
              processTaggedResponse P botResponse userMessage c cfg w =
              (Some resp, c, w') /\
              text resp = ERRO_CONFIRMAR /\ pedidos w' = pedidos w
        end).
Proof.
  intro P. split; [|split; [|split; [|split]]].
  - apply detector_state6.
  - apply interceptConfirmacao_commits.
  - apply interceptConfirmacao_needs.
  - apply processTaggedResponse_commit_needs.
  - intros botResponse userMessage c cfg w body.
    apply processTaggedResponse_commits.
Qed.

(** C2 as stated fails both ways. In state 6 with a staged order the
    message "sim" alone stores the order and closes the conversation: the
    model is never called, so no confirmation block is involved. And a
    message that is not affirmative is followed by a stored order when the
    model's reply holds a confirmation block. *)
Lemma C2_counterexample :
  (let c := Demo.conversa 6 (Demo.pedidoDemo "Rua Augusta, 1234") None in
   let t := mkTurno 1000 ReplyError ReplyError false false false in
   let res := processMessageInternally Demo.plataforma t "5511999990000" "sim" false
                c Demo.mundo in
   List.length (pedidos (snd res)) = 1%nat /\
   state (snd (fst res)) = 7%Z /\
   trace (snd res) = []) /\
  (let c := Demo.conversa 6 (Demo.pedidoDemo "Rua Augusta, 1234") None in
   let t := mkTurno 1000 (ReplyText Demo.CONFIRMACAO) ReplyError false false false in
   let res := processMessageInternally Demo.plataforma t "5511999990000"
                "quero trocar o sabor" false c Demo.mundo in
   userConfirms "quero trocar o sabor" = false /\
   List.length (pedidos (snd res)) = 1%nat /\
   state (snd (fst res)) = 7%Z).
Proof.
  split; vm_compute; repeat split; reflexivity.
Qed.

(* ================================================================== *)
(** * Composite images *)

Section Composite.

Variable P : Platform.


















End Composite.


Module Sabores.

Definition amazonas : CardapioItem :=
  mkCardapioItem "pizza-salgada_pizza-amazonas" "Pizza Amazonas"
                 (Some "Molho, mussarela e tucumã") true
                 (Some "https://img/amazonas.png")
                 (Some "https://img/amazonas-esq.png")
                 (Some "https://img/amazonas-dir.png").

(** A sweet pizza without half pictures. *)
Definition banana : CardapioItem :=
  mkCardapioItem "pizza-doce_pizza-dolce-banana" "Pizza Dolce Banana"
                 (Some "Banana, canela e leite condensado") true
                 (Some "https://img/banana.png") None None.

(** A pizza without a general picture. *)
Definition tropicale : CardapioItem :=
  mkCardapioItem "pizza-salgada_pizza-tropicale" "Pizza Tropicale"
                 None true None
                 (Some "https://img/tropicale-esq.png")
                 (Some "https://img/tropicale-dir.png").

(** A pizza whose left half is stored at an address that does not load. *)
Definition calabresa : CardapioItem :=
  mkCardapioItem "pizza-salgada_pizza-calabresa" "Pizza Calabresa"
                 None true
                 (Some "https://img/calabresa.png")
                 (Some "https://img/quebrada.png")
                 (Some "https://img/calabresa-dir.png").

Definition cardapio : list CardapioItem := [amazonas; banana; tropicale; calabresa].

Definition mundo : World := mkWorld [] [] cardapio (Some Demo.config) [] [].


(** The platform of the examples on a machine where the canvas module
    is not installed. *)
Definition semCanvas : Platform :=
  mkPlatform Demo.parse (fun _ => PrimFloat.nan) (fun _ => PrimFloat.nan)
             Demo.numStr Demo.fixed2 Demo.regex
             (fun _ => Some "/api/media/speech-1.mp3")
             Demo.load (fun _ => Some "data:image/jpeg;base64,AAAA")
             Demo.lookupCep false (fun _ => true).

End Sabores.



(** Both halves are there and the upper one does not load: the base is
    shown under the caption of a finished composition. *)
Example composite_failure_caption :
  resolveFirst Demo.plataforma Sabores.cardapio None
    "pizza-salgada_pizza-calabresa+pizza-salgada_pizza-tropicale" =
  Some (Some "https://img/tropicale-dir.png",
        Some "Pizza meio Calabresa e meio Tropicale").
Proof.
  vm_compute. reflexivity.
Qed.

(** Both halves are there and the canvas module is missing: the upper
    half is shown, and the caption says that the view is partial. *)
Example composite_without_canvas :
  resolveFirst Sabores.semCanvas Sabores.cardapio None
    "pizza-salgada_pizza-amazonas+pizza-salgada_pizza-tropicale" =
  Some (Some "https://img/amazonas-esq.png",
        Some "Pizza meio Amazonas e meio Tropicale (visualização parcial)").
Proof.
  vm_compute. reflexivity.
Qed.

(* ================================================================== *)
(** * The house number given alone *)

Section Splice.

Variable P : Platform.







Lemma registrarCEP_frame (message : string) (c : Conversa) (w : World) :
  state (fst (registrarCEP P message c w)) = state c /\
  pedidoData (fst (registrarCEP P message c w)) = pedidoData c /\
  trace (snd (registrarCEP P message c w)) = trace w.
Proof.
  unfold registrarCEP. destruct (detectAndValidateCEP P message); repeat split; reflexivity.
Qed.



Lemma includes_self_app (p b : string) : Js.includes (p ++ b) p = true.
Proof.
  rewrite includes_eq, startsWith_app. reflexivity.
Qed.














End Splice.


Module Entrega.

(** What the postal-code service answered earlier in the conversation. *)
Definition componentes : Components :=
  mkComponents (Some "Rua Augusta") (Some "Consolação") (Some "São Paulo")
               (Some "SP") (Some "01304-000").

Definition endereco : AddressData :=
  mkAddressData (Some "Rua Augusta, Consolação, São Paulo - SP, 01304-000")
                (Some componentes).

(** A conversation waiting for the address, with the street resolved. *)
Definition conversa : Conversa :=
  setAddressData (Demo.conversa 4 JUndef None) (Some endereco).

(** The stores with that conversation in them. *)
Definition mundo : World := saveConversa conversa Demo.mundo.

(** A turn in which the language model would answer with plain text. *)
Definition turno : Turno :=
  mkTurno 60000 (ReplyText "[TEXT_FORMAT]Certo![/END]")
          (ReplyText "[TEXT_FORMAT]Certo![/END]") false false false.

(** A postal-code service that also knows a code of a whole town, which
    has no street. *)
Definition consulta (digits : string) : option Components :=
  if digits =? "18150000"
  then Some (mkComponents None None (Some "Ibiúna") (Some "SP") (Some "18150-000"))
  else Demo.lookupCep digits.

Definition plataforma : Platform :=
  mkPlatform Demo.parse (fun _ => PrimFloat.nan) (fun _ => PrimFloat.nan)
             Demo.numStr Demo.fixed2 Demo.regex
             (fun _ => Some "/api/media/speech-1.mp3")
             Demo.load (fun _ => Some "data:image/jpeg;base64,AAAA")
             consulta true (fun _ => true).

End Entrega.



(* ================================================================== *)
(** * The payment prompt of state 5 *)

Section Payment.

Variable P : Platform.

(** The user's messages of a conversation. *)
Definition doUsuario (c : Conversa) : list Mensagem :=
  filter (fun msg => isUser (tipo msg)) (mensagens c).

(** [temCartao && !temCredito && !temDebito] *)
Definition cartaoSemTipo (message : string) : bool :=
  let m := Js.toLowerCase message in
  (Js.includes m "cartão" || Js.includes m "cartao") &&
  negb (Js.includes m "credito" || Js.includes m "crédito") &&
  negb (Js.includes m "debito" || Js.includes m "débito").

Lemma registrarCEP_mensagens (message : string) (c : Conversa) (w : World) :
  mensagens (fst (registrarCEP P message c w)) = mensagens c.
Proof.
  unfold registrarCEP. destruct (detectAndValidateCEP P message); reflexivity.
Qed.

(** In state 5 the filter keeps every message of the user, whenever it was
    sent. *)
Lemma mensagensNoEstado5_all (c : Conversa) :
  state c = 5%Z -> mensagensNoEstado5 c = doUsuario c.
Proof.
  intro H. unfold mensagensNoEstado5, doUsuario. rewrite H.
  apply filter_ext. intro a. simpl. apply andb_true_r.
Qed.

Lemma doUsuario_push (c : Conversa) (s : string) :
  doUsuario (pushMensagem c (mkMensagem User s)) =
  (doUsuario c ++ [mkMensagem User s])%list.
Proof.
  unfold doUsuario. simpl. now rewrite filter_app.
Qed.

Lemma interceptPagamento_spec (message : string) (c : Conversa) (w : World) (s : string) :
  state c = 5%Z ->
  message <> "5" ->
  let c2 := pushMensagem c (mkMensagem User s) in
  interceptPagamento message c2 w =
  if match doUsuario c with [] => true | _ => false end then
    let c3 := pushMensagem c2 (mkMensagem Bot (TEXT_TAG ++ OPCOES_PAGAMENTO ++ END_TAG)) in
    Some (plainResponse None (TEXT_TAG ++ OPCOES_PAGAMENTO ++ END_TAG), c3, saveConversa c3 w)
  else if cartaoSemTipo message then
    let c3 := pushMensagem c2 (mkMensagem Bot (TEXT_TAG ++ PEDIR_TIPO_CARTAO ++ END_TAG)) in
    Some (plainResponse None (TEXT_TAG ++ PEDIR_TIPO_CARTAO ++ END_TAG), c3, saveConversa c3 w)
  else None.
Proof.
  intros Hs Hm c2. unfold interceptPagamento.
  assert (Hs2 : state c2 = 5%Z) by exact Hs.
  rewrite Hs2. apply String.eqb_neq in Hm. rewrite Hm.
  rewrite (mensagensNoEstado5_all c2 Hs2). unfold c2 at 1. rewrite doUsuario_push.
  rewrite length_app. simpl.
  destruct (doUsuario c) as [|m0 l]; simpl; [reflexivity|].
  replace (List.length l + 1 <=? 0)%nat with false
    by (symmetry; apply Nat.leb_gt; lia).
  reflexivity.
Qed.

End Payment.

(** C6, what the program does. In state 5, for a message that is not "5":
    the payment options are returned, without a call of the language
    model, exactly when the conversation holds no earlier message of the
    user at all, whatever the state it was sent in; otherwise a message
    that names the card without its type gets the question about the type,
    the state stays 5 and the model is not called; every other message
    goes on to the language model (or to the image shortcut). *)
Theorem C6_payment_prompt_counts_all_messages :
  forall P t userPhone message (isAudio : bool) c w,
    userPhone <> "" ->
    state c = 5%Z ->
    isResetRequest message = false ->
    message <> "5" ->
    let r := registrarCEP P message (setDuracao c (minutosDesde (inicio c) (agora t))) w in
    let c2 := pushMensagem (fst r)
                (mkMensagem User (if isAudio then "[Áudio]: " ++ message else message)) in
    let answered (txt : string) :=
      let c3 := pushMensagem c2 (mkMensagem Bot (TEXT_TAG ++ txt ++ END_TAG)) in
      processMessageInternally P t userPhone message isAudio c w =
      (plainResponse None (TEXT_TAG ++ txt ++ END_TAG), c3, saveConversa c3 (snd r)) /\
      state c3 = 5%Z /\ trace (saveConversa c3 (snd r)) = trace w in
    (doUsuario c = [] -> answered OPCOES_PAGAMENTO) /\
    (doUsuario c <> [] -> cartaoSemTipo message = true -> answered PEDIR_TIPO_CARTAO) /\
    (doUsuario c <> [] -> cartaoSemTipo message = false ->
     detectImageRequest message = None ->
     processMessageInternally P t userPhone message isAudio c w =
     viaModelo P t message c2 (snd r)).
Proof.
  intros P t userPhone message isAudio c w Hp Hs Hr Hm r c2 answered.
  pose proof (registrarCEP_frame P message
                (setDuracao c (minutosDesde (inicio c) (agora t))) w) as (Fs & _ & Ft).
  pose proof (registrarCEP_mensagens P message
                (setDuracao c (minutosDesde (inicio c) (agora t))) w) as Fm.
  fold r in Fs, Ft, Fm.
  assert (Hs1 : state (fst r) = 5%Z) by (rewrite Fs; exact Hs).
  assert (Hu : doUsuario (fst r) = doUsuario c) by (unfold doUsuario; now rewrite Fm).
  assert (Hn : interceptNumero message c2 (snd r) = None).
  { unfold interceptNumero. change (state c2) with (state (fst r)). now rewrite Hs1. }
  assert (Hc : interceptConfirmacao P t message c2 (snd r) = None).
  { unfold interceptConfirmacao. change (state c2) with (state (fst r)). now rewrite Hs1. }
  pose proof (interceptPagamento_spec message (fst r) (snd r)
                (if isAudio then "[Áudio]: " ++ message else message) Hs1 Hm) as Hi.
  cbv zeta in Hi. fold c2 in Hi. rewrite Hu in Hi.
  assert (Hstep : processMessageInternally P t userPhone message isAudio c w =
                  match interceptPagamento message c2 (snd r) with
                  | Some res => res
                  | None =>
                      match detectImageRequest message with
                      | Some (id0 :: ids) =>
                          let responseText := respostaImagens (id0 :: ids) in
                          let c3 := pushMensagem c2 (mkMensagem Bot responseText) in
                          responder P responseText message c3 (botConfig (snd r))
                                    (saveConversa c3 (snd r))
                      | _ => viaModelo P t message c2 (snd r)
                      end
                  end).
  { unfold processMessageInternally. apply String.eqb_neq in Hp. rewrite Hp, Hr.
    fold r. clearbody r. destruct r as [c1 w1]. cbn [fst snd] in *.
    fold c2. now rewrite Hn, Hc. }
  split; [|split].
  - intro He. rewrite He in Hi. unfold answered. cbv zeta.
    rewrite Hstep, Hi. repeat split; [exact Hs1 | exact Ft].
  - intros He Hk. unfold answered. cbv zeta.
    destruct (doUsuario c) as [|m0 l]; [contradiction|]. rewrite Hk in Hi.
    rewrite Hstep, Hi. repeat split; [exact Hs1 | exact Ft].
  - intros He Hk Hd.
    destruct (doUsuario c) as [|m0 l]; [contradiction|]. rewrite Hk in Hi.
    now rewrite Hstep, Hi, Hd.
Qed.

Module Pagamento.

(** What the language model says when it is asked about a payment. *)
Definition turno : Turno :=
  mkTurno 60000
          (ReplyText "[TEXT_FORMAT]Certo, pagamento via PIX. Vai precisar de troco?[/END]")
          (ReplyText "[TEXT_FORMAT]Certo![/END]") false false false.

(** A conversation that has just come to state 5; its history holds the
    message with which the customer began. *)
Definition conversa : Conversa := Demo.conversa 5 JUndef None.

End Pagamento.

(** C6 on the first message sent in state 5 by a customer who wrote before:
    the language model is called and its text is the answer. *)
Lemma C6_payment_prompt_counts_all_messages_witness :
  let res := processMessageInternally Demo.plataforma Pagamento.turno "5511999990000"
               "quero pagar com pix" false Pagamento.conversa Demo.mundo in
  doUsuario Pagamento.conversa = [mkMensagem User "quero uma pizza amazonas"] /\
  trace (snd res) = [EvModelCall] /\
  text (fst (fst res)) =
  "[TEXT_FORMAT]Certo, pagamento via PIX. Vai precisar de troco?[/END]".
Proof.
  intro res. split; [reflexivity|]. unfold res.
  destruct (C6_payment_prompt_counts_all_messages Demo.plataforma Pagamento.turno
              "5511999990000" "quero pagar com pix" false Pagamento.conversa Demo.mundo
              ltac:(discriminate) eq_refl eq_refl ltac:(discriminate))
    as (_ & _ & Hv).
  rewrite (Hv ltac:(discriminate) eq_refl eq_refl).
  vm_compute. split; reflexivity.
Defined.

(* ================================================================== *)
(** * The state machine *)

(** The three answers that ask for the house number. *)
Definition pedeNumero (r : Response) : bool :=
  (text r =? PEDIR_NUMERO) || (text r =? ENDERECO_INCOMPLETO) ||
  (text r =? TEXT_TAG ++ PEDIR_NUMERO_ANTES ++ END_TAG).

(** What a turn may do to the state: go forward, up to 7, or go back to the
    address state with an answer that asks for the house number. *)
Definition passo (s s' : Z) (o : option Response) : Prop :=
  (s <= s' /\ s' <= 7)%Z \/
  (s' = 4%Z /\ exists r, o = Some r /\ pedeNumero r = true).

Ltac split_matches H :=
  repeat match type of H with
         | context [match ?x with _ => _ end] => destruct x eqn:?
         end.

Section StateMachine.

Variable P : Platform.

Lemma passo_after (s s1 s2 : Z) (o : option Response) :
  (s <= s1)%Z -> passo s1 s2 o -> passo s s2 o.
Proof. unfold passo. intros H [H1|H1]; [left; lia | right; exact H1]. Qed.

Lemma passo_some (s s' : Z) (o : option Response) (r : Response) :
  passo s s' o -> (o = None \/ o = Some r) -> passo s s' (Some r).
Proof.
  unfold passo. intros [H|(H & x & Hx & Hp)] Ho; [now left|].
  right. split; [exact H|]. exists x. split; [|exact Hp].
  destruct Ho as [Ho|Ho]; congruence.
Qed.

Lemma jsonPhase_state (botResponse : string) (r : Response) (c : Conversa) (w : World)
      (st : Step Response) (c' : Conversa) (w' : World) :
  jsonPhase P botResponse r c w = (st, c', w') ->
  (state c <= 7)%Z ->
  match st with
  | Return r' => state c' = 4%Z /\ text r' = PEDIR_NUMERO
  | Continue _ => (state c <= state c' /\ state c' <= 7)%Z
  end.
Proof.
  unfold jsonPhase. intros H Hs.
  repeat match type of H with
         | context [match ?x with _ => _ end] => destruct x eqn:?
         end;
    inversion H; subst; simpl; try lia; try (split; reflexivity).
  all: match goal with E : (_ <? 6)%Z = _ |- _ => simpl in E;
         first [apply Z.ltb_lt in E | apply Z.ltb_ge in E] end; lia.
Qed.

Lemma confirmarPedido_state (c : Conversa) (saved : JValue) (w : World)
      (c1 : Conversa) (w1 : World) :
  confirmarPedido P c saved w = Some (c1, w1) -> state c1 = 7%Z.
Proof.
  unfold confirmarPedido. intro H.
  repeat match type of H with
         | context [match ?x with _ => _ end] => destruct x eqn:?
         end; inversion H; subst; reflexivity.
Qed.

Lemma confirmationPhase_state (botResponse : string) (cfg : option BotConfig)
      (r : Response) (c : Conversa) (w : World)
      (st : Step Response) (c' : Conversa) (w' : World) :
  confirmationPhase P botResponse cfg r c w = Some (st, c', w') ->
  (state c <= 7)%Z ->
  match st with
  | Return r' => state c' = state c \/ (state c' = 4%Z /\ text r' = ENDERECO_INCOMPLETO)
  | Continue _ => (state c <= state c' /\ state c' <= 7)%Z
  end.
Proof.
  unfold confirmationPhase. intros H Hs.
  repeat match type of H with
         | context [match ?x with _ => _ end] => destruct x eqn:?
         end;
    inversion H; subst; simpl; try lia; try (now left); try (right; split; reflexivity);
    match goal with
    | E : confirmarPedido _ _ _ _ = Some _ |- _ =>
        apply confirmarPedido_state in E; lia
    end.
Qed.

Lemma pedeNumero_text (r : Response) :
  text r = PEDIR_NUMERO \/ text r = ENDERECO_INCOMPLETO \/
  text r = TEXT_TAG ++ PEDIR_NUMERO_ANTES ++ END_TAG ->
  pedeNumero r = true.
Proof.
  unfold pedeNumero. intros [H|[H|H]]; rewrite H, String.eqb_refl;
    rewrite ?orb_true_r; reflexivity.
Qed.

Lemma processTaggedResponse_state (botResponse userMessage : string) (c : Conversa)
      (cfg : option BotConfig) (w : World)
      (o : option Response) (c' : Conversa) (w' : World) :
  processTaggedResponse P botResponse userMessage c cfg w = (o, c', w') ->
  (state c <= 7)%Z ->
  passo (state c) (state c') o.
Proof.
  unfold processTaggedResponse. intros H Hs.
  destruct (voicePhase P botResponse (state c) (plainResponse (Some (state c)) botResponse) w)
    as [r1 w1].
  destruct (jsonPhase P botResponse
              (imagePhase P botResponse (state c) (cardapio w1) cfg r1) c w1)
    as [[st c2] w2] eqn:Ej.
  pose proof (jsonPhase_state _ _ _ _ _ _ _ Ej Hs) as Hj.
  destruct st as [r|r3].
  - inversion H; subst. right. split; [tauto|].
    exists r. split; [reflexivity|]. apply pedeNumero_text. tauto.
  - destruct (confirmationPhase P botResponse cfg r3 c2 w2) as [[[st3 c3] w3]|] eqn:Ec.
    + pose proof (confirmationPhase_state _ _ _ _ _ _ _ _ Ec ltac:(lia)) as Hc.
      destruct st3 as [r|r4]; inversion H; subst.
      * destruct Hc as [Hc|[Hc Ht]]; [left; lia|].
        right. split; [exact Hc|]. exists r. split; [reflexivity|].
        apply pedeNumero_text. tauto.
      * left. lia.
    + inversion H; subst. left. exact Hj.
Qed.

Lemma responder_state (botResponse message : string) (c : Conversa)
      (cfg : option BotConfig) (w : World) (r : Response) (c' : Conversa) (w' : World) :
  responder P botResponse message c cfg w = (r, c', w') ->
  (state c <= 7)%Z ->
  passo (state c) (state c') (Some r).
Proof.
  unfold responder. intros H Hs.
  destruct (processTaggedResponse P botResponse message c cfg w) as [[o c2] w2] eqn:E.
  pose proof (processTaggedResponse_state _ _ _ _ _ _ _ _ E Hs) as Hp.
  destruct o; inversion H; subst; apply (passo_some _ _ _ _ Hp); auto.
Qed.

Lemma interceptNumero_state (message : string) (c : Conversa) (w : World)
      (r : Response) (c' : Conversa) (w' : World) :
  interceptNumero message c w = Some (r, c', w') -> state c' = 5%Z /\ state c = 4%Z.
Proof.
  unfold interceptNumero. intro H.
  destruct ((state c =? 4)%Z && Js.onlyNumber message) eqn:E; [|discriminate].
  apply andb_prop in E. destruct E as [E _]. apply Z.eqb_eq in E.
  split_matches H; inversion H; subst; split; try reflexivity; exact E.
Qed.

Lemma interceptPagamento_state (message : string) (c : Conversa) (w : World)
      (r : Response) (c' : Conversa) (w' : World) :
  interceptPagamento message c w = Some (r, c', w') -> state c' = state c.
Proof.
  unfold interceptPagamento. intro H.
  split_matches H; inversion H; subst; reflexivity.
Qed.

Lemma interceptConfirmacao_state (t : Turno) (message : string) (c : Conversa) (w : World)
      (r : Response) (c' : Conversa) (w' : World) :
  interceptConfirmacao P t message c w = Some (r, c', w') ->
  passo (state c) (state c') (Some r).
Proof.
  unfold interceptConfirmacao. intro H.
  destruct ((state c =? 6)%Z && isAfirmativo message) eqn:E; [|discriminate].
  apply andb_prop in E. destruct E as [E _]. apply Z.eqb_eq in E.
  destruct (negb (truthy (pedidoData c))); [inversion H; subst; left; lia|].
  destruct (calcularTotal P false (getProp (pedidoData c) "items")) as [total|];
    [|inversion H; subst; left; lia].
  destruct (savePedido P _ w) as [[[id novoPedido] w1]|];
    [|inversion H; subst; left; lia].
  destruct (linhaPrimeiroItem P (getProp (pedidoData c) "items")) as [linha|];
    [|inversion H; subst; left; simpl; lia].
  match type of H with
  | context [processTaggedResponse P ?a ?b ?c2 ?d ?e] =>
      destruct (processTaggedResponse P a b c2 d e) as [[o c3] w4] eqn:Ep;
      assert (Hp : passo (state c2) (state c3) o)
        by (apply (processTaggedResponse_state _ _ _ _ _ _ _ _ Ep); simpl; lia)
  end.
  simpl in Hp. apply (passo_after _ 7%Z); [lia|].
  destruct o; inversion H; subst; apply (passo_some _ _ _ _ Hp); auto.
Qed.

Lemma primeiraResposta_state (t : Turno) (c : Conversa) (w : World)
      (s : string) (c' : Conversa) (w' : World) :
  primeiraResposta P t c w = (s, c', w') -> state c' = state c.
Proof.
  unfold primeiraResposta. intro H.
  split_matches H; inversion H; subst; reflexivity.
Qed.

Lemma armazenarPedido_state (botResponse : string) (c : Conversa) (w : World)
      (c' : Conversa) (w' : World) :
  armazenarPedido P botResponse c w = (c', w') ->
  state c' = state c \/ state c' = 6%Z.
Proof.
  unfold armazenarPedido. intro H.
  split_matches H; inversion H; subst; auto.
Qed.

(** The update of the state: a forward step below 7, or the answer that
    asks for the house number from state 4. *)
Lemma atualizarEstado_state (botResponse message : string) (c : Conversa) (w : World)
      (o : option Response) (c' : Conversa) (w' : World) :
  atualizarEstado botResponse message c w = (o, c', w') ->
  (state c <= 7)%Z ->
  match o with
  | Some r => state c' = 4%Z /\ text r = TEXT_TAG ++ PEDIR_NUMERO_ANTES ++ END_TAG
  | None => (state c <= state c' /\ state c' <= 7)%Z
  end.
Proof.
  unfold atualizarEstado. intros H Hs.
  split_matches H; inversion H; subst; simpl; try lia; try (split; reflexivity);
    match goal with
    | E : _ && (_ <? 7)%Z = true |- _ =>
        apply andb_prop in E; destruct E as [_ E]; apply Z.ltb_lt in E; lia
    end.
Qed.

Lemma viaModelo_state (t : Turno) (message : string) (c : Conversa) (w : World)
      (r : Response) (c' : Conversa) (w' : World) :
  viaModelo P t message c w = (r, c', w') ->
  (state c <= 6)%Z ->
  passo (state c) (state c') (Some r).
Proof.
  unfold viaModelo. intros H Hs.
  destruct (primeiraResposta P t c (addEvent w EvModelCall)) as [[r1 c1] w1] eqn:E1.
  apply primeiraResposta_state in E1.
  destruct (armazenarPedido P r1 c1 w1) as [c2 w2] eqn:E2.
  apply armazenarPedido_state in E2.
  destruct (respostaEnriquecida t r1 w2) as [r2 w3].
  match type of H with
  | context [atualizarEstado ?a ?b ?c3 ?d] =>
      destruct (atualizarEstado a b c3 d) as [[o c4] w4] eqn:E4;
      pose proof (atualizarEstado_state _ _ _ _ _ _ _ E4) as H4
  end.
  simpl in H4. specialize (H4 ltac:(lia)). destruct o as [r4|].
  - inversion H; subst. right. split; [tauto|]. exists r.
    split; [reflexivity|]. apply pedeNumero_text. tauto.
  - apply responder_state in H; [|lia].
    apply (passo_after _ (state c4)); [lia | exact H].
Qed.

(** A turn on a conversation that is not closed yet. *)
Lemma processMessageInternally_state (t : Turno) (userPhone message : string)
      (isAudio : bool) (c : Conversa) (w : World)
      (r : Response) (c' : Conversa) (w' : World) :
  processMessageInternally P t userPhone message isAudio c w = (r, c', w') ->
  (state c <= 6)%Z ->
  passo (state c) (state c') (Some r).
Proof.
  unfold processMessageInternally. intros H Hs.
  destruct (userPhone =? ""); [inversion H; subst; left; lia|].
  destruct (isResetRequest message); [inversion H; subst; left; lia|].
  pose proof (registrarCEP_frame P message
                (setDuracao c (minutosDesde (inicio c) (agora t))) w) as (Fs & _ & _).
  destruct (registrarCEP P message (setDuracao c (minutosDesde (inicio c) (agora t))) w)
    as [c1 w1].
  simpl in Fs.
  set (c2 := pushMensagem c1
               (mkMensagem User (if isAudio then "[Áudio]: " ++ message else message))) in H.
  assert (H2 : state c2 = state c) by exact Fs.
  destruct (interceptNumero message c2 w1) as [[[r0 c0] w0]|] eqn:En.
  { apply interceptNumero_state in En. inversion H; subst. left. lia. }
  destruct (interceptPagamento message c2 w1) as [[[r0 c0] w0]|] eqn:Ep.
  { apply interceptPagamento_state in Ep. inversion H; subst. left. lia. }
  destruct (interceptConfirmacao P t message c2 w1) as [[[r0 c0] w0]|] eqn:Ec.
  { apply interceptConfirmacao_state in Ec. inversion H; subst. now rewrite <- H2. }
  destruct (detectImageRequest message) as [[|id0 ids]|].
  - apply viaModelo_state in H; [now rewrite <- H2 | lia].
  - apply responder_state in H; [|simpl; lia]. simpl in H. now rewrite <- H2.
  - apply viaModelo_state in H; [now rewrite <- H2 | lia].
Qed.

(** The state update on a closed conversation: nothing is changed, and
    the missing order reference is reported. *)
Lemma atualizarEstado_closed (botResponse message : string) (c : Conversa) (w : World) :
  state c = 7%Z ->
  atualizarEstado botResponse message c w =
  (None, c, match pedidoId c with
            | None => addEvent w EvAlertaEstado7SemPedido
            | Some _ => w
            end).
Proof.
  intro H. unfold atualizarEstado, checkIfShouldAdvanceState. rewrite H. simpl.
  destruct (pedidoId c); reflexivity.
Qed.

Lemma cid_below_max (l : list nat) (x : nat) :
  In x l -> (x <= fold_right Nat.max 0 l)%nat.
Proof.
  induction l as [|y l IH]; simpl; [tauto|].
  intros [->|H]; [lia|]. specialize (IH H). lia.
Qed.

Lemma novoCid_fresh (w : World) : ~ In (novoCid w) (map cid (conversas w)).
Proof.
  intro H. apply cid_below_max in H. unfold novoCid in H. lia.
Qed.

End StateMachine.

(** ** The stored conversations *)

(** A conversation whose state is one of the eight, and a store that holds
    only such conversations. *)
Definition emFaixa (c : Conversa) : Prop := (0 <= state c <= 7)%Z.

Definition lojaEmFaixa (w : World) : Prop := Forall emFaixa (conversas w).

Lemma replaceRow_faixa (c : Conversa) (rows rows' : list Conversa) :
  emFaixa c -> Forall emFaixa rows -> replaceRow c rows = Some rows' ->
  Forall emFaixa rows'.
Proof.
  intros Hc. revert rows'. induction rows as [|r rows IH]; intros rows' Hr H; simpl in H.
  - discriminate.
  - inversion Hr; subst. destruct (cid r =? cid c)%nat.
    + inversion H; subst. now constructor.
    + destruct (replaceRow c rows) as [rest|]; [|discriminate].
      inversion H; subst. constructor; [assumption|]. now apply IH.
Qed.

Lemma saveConversa_faixa (c : Conversa) (w : World) :
  emFaixa c -> lojaEmFaixa w -> lojaEmFaixa (saveConversa c w).
Proof.
  intros Hc Hw. unfold lojaEmFaixa, saveConversa. simpl.
  destruct (replaceRow c (conversas w)) as [rows|] eqn:E.
  - exact (replaceRow_faixa c _ _ Hc Hw E).
  - now constructor.
Qed.

Lemma guardarTemp_faixa (c : Conversa) (pd : JValue) (w : World) :
  lojaEmFaixa w -> lojaEmFaixa (guardarTemp c pd w).
Proof.
  unfold guardarTemp. destruct (negb (telefone c =? "")); intro H; exact H.
Qed.

Ltac faixa :=
  repeat match goal with
         | H : (_ <? _)%Z = true |- _ => apply Z.ltb_lt in H
         | H : (_ <? _)%Z = false |- _ => apply Z.ltb_ge in H
         | H : (_ =? _)%Z = true |- _ => apply Z.eqb_eq in H
         | H : _ && _ = true |- _ => apply andb_prop in H; destruct H
         end;
  repeat first
    [ assumption
    | match goal with H : lojaEmFaixa _ |- lojaEmFaixa _ => exact H end
    | apply saveConversa_faixa
    | apply guardarTemp_faixa
    | match goal with |- emFaixa _ => unfold emFaixa in *; simpl in *; lia end
    | match goal with |- _ /\ _ => split end ].

Section Range.

Variable P : Platform.

Lemma voicePhase_faixa (botResponse : string) (estado : Z) (r : Response) (w : World) :
  lojaEmFaixa w -> lojaEmFaixa (snd (voicePhase P botResponse estado r w)).
Proof.
  intro H. unfold voicePhase.
  repeat match goal with
         | |- context [match ?x with _ => _ end] => destruct x
         end; exact H.
Qed.

Lemma jsonPhase_faixa (botResponse : string) (r : Response) (c : Conversa) (w : World)
      (st : Step Response) (c' : Conversa) (w' : World) :
  jsonPhase P botResponse r c w = (st, c', w') ->
  emFaixa c -> lojaEmFaixa w -> emFaixa c' /\ lojaEmFaixa w'.
Proof.
  unfold jsonPhase. intros H Hc Hw.
  split_matches H; inversion H; subst; faixa.
Qed.

Lemma confirmarPedido_faixa (c : Conversa) (saved : JValue) (w : World)
      (c1 : Conversa) (w1 : World) :
  confirmarPedido P c saved w = Some (c1, w1) ->
  emFaixa c -> lojaEmFaixa w -> emFaixa c1 /\ lojaEmFaixa w1.
Proof.
  unfold confirmarPedido. intros H Hc Hw.
  split_matches H; inversion H; subst.
  match goal with
  | E : savePedido _ _ _ = Some _ |- _ =>
      apply savePedido_spec in E; destruct E as (_ & _ & ->)
  end.
  faixa.
Qed.

Lemma confirmationPhase_faixa (botResponse : string) (cfg : option BotConfig)
      (r : Response) (c : Conversa) (w : World)
      (st : Step Response) (c' : Conversa) (w' : World) :
  confirmationPhase P botResponse cfg r c w = Some (st, c', w') ->
  emFaixa c -> lojaEmFaixa w -> emFaixa c' /\ lojaEmFaixa w'.
Proof.
  unfold confirmationPhase. intros H Hc Hw.
  split_matches H; inversion H; subst;
    try match goal with
        | E : confirmarPedido _ _ _ _ = Some _ |- _ =>
            apply confirmarPedido_faixa in E; [exact E| |]
        end; faixa.
Qed.

Lemma processTaggedResponse_faixa (botResponse userMessage : string) (c : Conversa)
      (cfg : option BotConfig) (w : World)
      (o : option Response) (c' : Conversa) (w' : World) :
  processTaggedResponse P botResponse userMessage c cfg w = (o, c', w') ->
  emFaixa c -> lojaEmFaixa w -> emFaixa c' /\ lojaEmFaixa w'.
Proof.
  unfold processTaggedResponse. intros H Hc Hw.
  pose proof (voicePhase_faixa botResponse (state c)
                (plainResponse (Some (state c)) botResponse) w Hw) as Hv.
  destruct (voicePhase P botResponse (state c) (plainResponse (Some (state c)) botResponse) w)
    as [r1 w1].
  simpl in Hv.
  destruct (jsonPhase P botResponse
              (imagePhase P botResponse (state c) (cardapio w1) cfg r1) c w1)
    as [[st c2] w2] eqn:Ej.
  destruct (jsonPhase_faixa _ _ _ _ _ _ _ Ej Hc Hv) as [Hc2 Hw2].
  destruct st as [r|r3]; [inversion H; subst; now split|].
  destruct (confirmationPhase P botResponse cfg r3 c2 w2) as [[[st3 c3] w3]|] eqn:Ec.
  - destruct (confirmationPhase_faixa _ _ _ _ _ _ _ _ Ec Hc2 Hw2) as [Hc3 Hw3].
    destruct st3; inversion H; subst; now split.
  - inversion H; subst. now split.
Qed.

Lemma responder_faixa (botResponse message : string) (c : Conversa)
      (cfg : option BotConfig) (w : World) (r : Response) (c' : Conversa) (w' : World) :
  responder P botResponse message c cfg w = (r, c', w') ->
  emFaixa c -> lojaEmFaixa w -> emFaixa c' /\ lojaEmFaixa w'.
Proof.
  unfold responder. intros H Hc Hw.
  destruct (processTaggedResponse P botResponse message c cfg w) as [[o c2] w2] eqn:E.
  apply processTaggedResponse_faixa in E; [|assumption|assumption].
  destruct o; inversion H; subst; exact E.
Qed.

Lemma registrarCEP_faixa (message : string) (c : Conversa) (w : World) :
  emFaixa c -> lojaEmFaixa w ->
  emFaixa (fst (registrarCEP P message c w)) /\
  lojaEmFaixa (snd (registrarCEP P message c w)).
Proof.
  intros Hc Hw. unfold registrarCEP.
  destruct (detectAndValidateCEP P message); simpl; faixa.
Qed.

Lemma interceptNumero_faixa (message : string) (c : Conversa) (w : World)
      (r : Response) (c' : Conversa) (w' : World) :
  interceptNumero message c w = Some (r, c', w') ->
  emFaixa c -> lojaEmFaixa w -> emFaixa c' /\ lojaEmFaixa w'.
Proof.
  unfold interceptNumero. intros H Hc Hw.
  split_matches H; inversion H; subst; faixa.
Qed.

Lemma interceptPagamento_faixa (message : string) (c : Conversa) (w : World)
      (r : Response) (c' : Conversa) (w' : World) :
  interceptPagamento message c w = Some (r, c', w') ->
  emFaixa c -> lojaEmFaixa w -> emFaixa c' /\ lojaEmFaixa w'.
Proof.
  unfold interceptPagamento. intros H Hc Hw.
  split_matches H; inversion H; subst; faixa.
Qed.

Lemma novaConversa_faixa (tel : string) (agora_ : Z) (w : World) :
  emFaixa (novaConversa tel agora_ w).
Proof. unfold emFaixa. simpl. lia. Qed.

Lemma interceptConfirmacao_faixa (t : Turno) (message : string) (c : Conversa) (w : World)
      (r : Response) (c' : Conversa) (w' : World) :
  interceptConfirmacao P t message c w = Some (r, c', w') ->
  emFaixa c -> lojaEmFaixa w -> emFaixa c' /\ lojaEmFaixa w'.
Proof.
  unfold interceptConfirmacao. intros H Hc Hw.
  destruct ((state c =? 6)%Z && isAfirmativo message); [|discriminate].
  destruct (negb (truthy (pedidoData c))); [inversion H; subst; now split|].
  destruct (calcularTotal P false (getProp (pedidoData c) "items")) as [total|];
    [|inversion H; subst; now split].
  destruct (savePedido P _ w) as [[[id novoPedido] w1]|] eqn:Es;
    [|inversion H; subst; now split].
  apply savePedido_spec in Es. destruct Es as (_ & _ & ->).
  destruct (linhaPrimeiroItem P (getProp (pedidoData c) "items")) as [linha|];
    [|inversion H; subst; faixa].
  match type of H with
  | context [processTaggedResponse P ?a ?b ?c2 ?d ?e] =>
      destruct (processTaggedResponse P a b c2 d e) as [[o c3] w4] eqn:Ep;
      apply processTaggedResponse_faixa in Ep
  end.
  - destruct o; inversion H; subst; exact Ep.
  - faixa.
  - apply saveConversa_faixa; [apply novaConversa_faixa|]. faixa.
Qed.

Lemma primeiraResposta_faixa (t : Turno) (c : Conversa) (w : World)
      (s : string) (c' : Conversa) (w' : World) :
  primeiraResposta P t c w = (s, c', w') ->
  emFaixa c -> lojaEmFaixa w -> emFaixa c' /\ lojaEmFaixa w'.
Proof.
  unfold primeiraResposta. intros H Hc Hw.
  split_matches H; inversion H; subst; faixa.
Qed.

Lemma armazenarPedido_faixa (botResponse : string) (c : Conversa) (w : World)
      (c' : Conversa) (w' : World) :
  armazenarPedido P botResponse c w = (c', w') ->
  emFaixa c -> lojaEmFaixa w -> emFaixa c' /\ lojaEmFaixa w'.
Proof.
  unfold armazenarPedido. intros H Hc Hw.
  split_matches H; inversion H; subst; faixa.
Qed.

Lemma respostaEnriquecida_faixa (t : Turno) (botResponse : string) (w : World) :
  lojaEmFaixa w -> lojaEmFaixa (snd (respostaEnriquecida t botResponse w)).
Proof.
  intro H. unfold respostaEnriquecida.
  repeat match goal with
         | |- context [match ?x with _ => _ end] => destruct x
         end; exact H.
Qed.

Lemma atualizarEstado_faixa (botResponse message : string) (c : Conversa) (w : World)
      (o : option Response) (c' : Conversa) (w' : World) :
  atualizarEstado botResponse message c w = (o, c', w') ->
  emFaixa c -> lojaEmFaixa w -> emFaixa c' /\ lojaEmFaixa w'.
Proof.
  unfold atualizarEstado. intros H Hc Hw.
  split_matches H; inversion H; subst; faixa.
Qed.

Lemma viaModelo_faixa (t : Turno) (message : string) (c : Conversa) (w : World)
      (r : Response) (c' : Conversa) (w' : World) :
  viaModelo P t message c w = (r, c', w') ->
  emFaixa c -> lojaEmFaixa w -> emFaixa c' /\ lojaEmFaixa w'.
Proof.
  unfold viaModelo. intros H Hc Hw.
  destruct (primeiraResposta P t c (addEvent w EvModelCall)) as [[r1 c1] w1] eqn:E1.
  apply primeiraResposta_faixa in E1; [|assumption|exact Hw]. destruct E1 as [Hc1 Hw1].
  destruct (armazenarPedido P r1 c1 w1) as [c2 w2] eqn:E2.
  apply armazenarPedido_faixa in E2; [|assumption|assumption]. destruct E2 as [Hc2 Hw2].
  pose proof (respostaEnriquecida_faixa t r1 w2 Hw2) as Hw3.
  destruct (respostaEnriquecida t r1 w2) as [r2 w3]. simpl in Hw3.
  match type of H with
  | context [atualizarEstado ?a ?b ?c3 ?d] =>
      destruct (atualizarEstado a b c3 d) as [[o c4] w4] eqn:E4;
      apply atualizarEstado_faixa in E4; [|exact Hc2|exact Hw3]
  end.
  destruct E4 as [Hc4 Hw4].
  destruct o as [r4|]; [inversion H; subst; now split|].
  apply responder_faixa in H; [exact H|assumption|]. faixa.
Qed.

Lemma processMessageInternally_faixa (t : Turno) (userPhone message : string)
      (isAudio : bool) (c : Conversa) (w : World)
      (r : Response) (c' : Conversa) (w' : World) :
  processMessageInternally P t userPhone message isAudio c w = (r, c', w') ->
  emFaixa c -> lojaEmFaixa w -> emFaixa c' /\ lojaEmFaixa w'.
Proof.
  unfold processMessageInternally. intros H Hc Hw.
  destruct (userPhone =? ""); [inversion H; subst; now split|].
  destruct (isResetRequest message); [inversion H; subst; now split|].
  assert (Hc0 : emFaixa (setDuracao c (minutosDesde (inicio c) (agora t)))) by exact Hc.
  destruct (registrarCEP_faixa message _ w Hc0 Hw) as [Hc1 Hw1].
  destruct (registrarCEP P message (setDuracao c (minutosDesde (inicio c) (agora t))) w)
    as [c1 w1].
  simpl in Hc1, Hw1.
  set (c2 := pushMensagem c1
               (mkMensagem User (if isAudio then "[Áudio]: " ++ message else message))) in H.
  assert (Hc2 : emFaixa c2) by exact Hc1.
  destruct (interceptNumero message c2 w1) as [[[r0 c0] w0]|] eqn:En.
  { apply interceptNumero_faixa in En; [|assumption|assumption]. now inversion H; subst. }
  destruct (interceptPagamento message c2 w1) as [[[r0 c0] w0]|] eqn:Ep.
  { apply interceptPagamento_faixa in Ep; [|assumption|assumption]. now inversion H; subst. }
  destruct (interceptConfirmacao P t message c2 w1) as [[[r0 c0] w0]|] eqn:Ec.
  { apply interceptConfirmacao_faixa in Ec; [|assumption|assumption]. now inversion H; subst. }
  destruct (detectImageRequest message) as [[|id0 ids]|].
  - now apply viaModelo_faixa in H.
  - apply responder_faixa in H; [exact H|exact Hc2|]. faixa.
  - now apply viaModelo_faixa in H.
Qed.

Lemma maisRecente_faixa (userPhone : string) (w : World) (c : Conversa) :
  lojaEmFaixa w -> maisRecente userPhone w = Some c -> emFaixa c.
Proof.
  unfold lojaEmFaixa, maisRecente. intros Hw H.
  apply find_some in H. destruct H as [H _].
  rewrite Forall_forall in Hw. now apply Hw.
Qed.

(** The conversation a turn works on is never a closed one. *)
Lemma getOrCreateConversation_faixa (agora_ : Z) (userPhone message : string) (w : World) :
  lojaEmFaixa w ->
  (0 <= state (fst (getOrCreateConversation agora_ userPhone message w)) <= 6)%Z /\
  lojaEmFaixa (snd (getOrCreateConversation agora_ userPhone message w)).
Proof.
  intro Hw. unfold getOrCreateConversation.
  assert (Hn : lojaEmFaixa (saveConversa (novaConversa userPhone agora_ w) w))
    by (apply saveConversa_faixa; [apply novaConversa_faixa|exact Hw]).
  destruct (isResetRequest message); [simpl; split; [lia|exact Hn]|].
  destruct (maisRecente userPhone w) as [c|] eqn:Em; [|simpl; split; [lia|exact Hn]].
  pose proof (maisRecente_faixa _ _ _ Hw Em) as Hc. unfold emFaixa in Hc.
  destruct (state c =? 7)%Z eqn:E7; [simpl; split; [lia|exact Hn]|].
  apply Z.eqb_neq in E7.
  destruct (antiga c agora_); simpl; (split; [lia|assumption]).
Qed.

(** A turn on the conversation the entry point picks keeps every stored
    conversation in one of the eight states, and takes the conversation it
    works on forward, or back to the address state with an answer that
    asks for the house number. *)
Lemma turno_faixa (t : Turno) (phone message : string) (isAudio : bool) (w : World)
      (r : Response) (c' : Conversa) (w' : World) :
  lojaEmFaixa w ->
  processMessageInternally P t phone message isAudio
    (fst (getOrCreateConversation (agora t) phone message w))
    (snd (getOrCreateConversation (agora t) phone message w)) = (r, c', w') ->
  emFaixa c' /\ lojaEmFaixa w' /\
  passo (state (fst (getOrCreateConversation (agora t) phone message w))) (state c') (Some r).
Proof.
  intros Hw H.
  destruct (getOrCreateConversation_faixa (agora t) phone message w Hw) as [Hc Hw1].
  destruct (getOrCreateConversation (agora t) phone message w) as [c w1].
  simpl in Hc, Hw1, H |- *.
  pose proof H as Hs.
  apply processMessageInternally_state in Hs; [|lia].
  apply processMessageInternally_faixa in H; [|unfold emFaixa; lia|exact Hw1].
  destruct H as [H1 H2]. split; [exact H1 | split; [exact H2 | exact Hs]].
Qed.

(** The route hands the turn the conversation [getOrCreateConversation]
    picks and answers what the turn answers. *)
Lemma apiMessage_turno (t : Turno) (phone message : string) (isAudio : bool) (w : World)
      (r : Response) (c' : Conversa) (w' : World) :
  phone <> "" ->
  processMessageInternally P t phone message isAudio
    (fst (getOrCreateConversation (agora t) phone message w))
    (snd (getOrCreateConversation (agora t) phone message w)) = (r, c', w') ->
  apiMessage P t phone (Some message) isAudio w = (Respondida r, w').
Proof.
  intros Hp H. unfold apiMessage. apply String.eqb_neq in Hp. rewrite Hp.
  destruct (getOrCreateConversation (agora t) phone message w) as [c w1].
  simpl in H. now rewrite H.
Qed.

Lemma apiMessage_faixa (t : Turno) (phone : string) (message : option string)
      (isAudio : bool) (w : World) :
  lojaEmFaixa w -> lojaEmFaixa (snd (apiMessage P t phone message isAudio w)).
Proof.
  intro Hw. unfold apiMessage.
  destruct (phone =? ""); [exact Hw|].
  destruct message as [m|]; [|exact Hw].
  pose proof (turno_faixa t phone m isAudio w) as H.
  destruct (getOrCreateConversation (agora t) phone m w) as [c w1]. simpl in H.
  destruct (processMessageInternally P t phone m isAudio c w1) as [[r c'] w'].
  simpl. now destruct (H r c' w' Hw eq_refl) as (_ & H2 & _).
Qed.

End Range.

(** ** The stored state of a conversation *)

(** The state stored under the identifier [i]. *)
Definition estadoGuardado (i : nat) (w : World) : option Z :=
  option_map state (find (fun r => (cid r =? i)%nat) (conversas w)).

(** One write of a turn that works on the conversation [i]: the document
    of that conversation, in a state that [A] allows, or a document that
    is stored for the first time, in state 0. *)
Definition escrita (i : nat) (A : Z -> Prop) (c : Conversa) (rows : list Conversa) : Prop :=
  (cid c = i /\ A (state c)) \/ (~ In (cid c) (map cid rows) /\ state c = 0%Z).

(** The conversations of [w'] are those of [w] after a series of such
    writes. *)
Inductive gravacoes (i : nat) (A : Z -> Prop) (w : World) : World -> Prop :=
| gr_nada (w' : World) : conversas w' = conversas w -> gravacoes i A w w'
| gr_escrita (w1 w' : World) (c : Conversa) :
    gravacoes i A w w1 -> escrita i A c (conversas w1) ->
    conversas w' = conversas (saveConversa c w1) -> gravacoes i A w w'.

(** No two stored conversations share an identifier. *)
Definition semRepetidos (w : World) : Prop := NoDup (map cid (conversas w)).

Lemma gr_conv (i : nat) (A : Z -> Prop) (w w1 w2 : World) :
  gravacoes i A w w1 -> conversas w2 = conversas w1 -> gravacoes i A w w2.
Proof.
  intros H E. destruct H as [w1 H|w0 w1 c H Hq Hc].
  - apply gr_nada. congruence.
  - apply (gr_escrita i A w w0 w2 c H Hq). congruence.
Qed.

Lemma gr_trans (i : nat) (A : Z -> Prop) (w w1 w2 : World) :
  gravacoes i A w w1 -> gravacoes i A w1 w2 -> gravacoes i A w w2.
Proof.
  intros H1 H2. induction H2 as [w2 E|w0 w2 c H IH Hq Hc].
  - exact (gr_conv i A w w1 w2 H1 E).
  - exact (gr_escrita i A w w0 w2 c IH Hq Hc).
Qed.

Lemma gr_weaken (i : nat) (A B : Z -> Prop) (w w' : World) :
  (forall s, A s -> B s) -> gravacoes i A w w' -> gravacoes i B w w'.
Proof.
  intros HAB H. induction H as [w' E|w0 w' c H IH Hq Hc].
  - now apply gr_nada.
  - apply (gr_escrita i B w w0 w' c IH); [|exact Hc].
    destruct Hq as [[H1 H2]|H1]; [left; split; [exact H1 | now apply HAB] | now right].
Qed.

Lemma gr_start (i : nat) (A : Z -> Prop) (w : World) : gravacoes i A w w.
Proof. now apply gr_nada. Qed.

Lemma gr_saveConversa (i : nat) (A : Z -> Prop) (w w1 : World) (c : Conversa) :
  gravacoes i A w w1 -> escrita i A c (conversas w1) ->
  gravacoes i A w (saveConversa c w1).
Proof. intros H Hq. exact (gr_escrita i A w w1 _ c H Hq eq_refl). Qed.

Lemma gr_guardarTemp (i : nat) (A : Z -> Prop) (w w1 : World) (c : Conversa) (v : JValue) :
  gravacoes i A w w1 -> gravacoes i A w (guardarTemp c v w1).
Proof.
  intro H. apply (gr_conv i A w w1); [exact H|].
  unfold guardarTemp. destruct (negb (telefone c =? "")); reflexivity.
Qed.

Lemma gr_setTemp (i : nat) (A : Z -> Prop) (w w1 : World) (k : string) (v : JValue) :
  gravacoes i A w w1 -> gravacoes i A w (setTemp w1 k v).
Proof. intro H. now apply (gr_conv i A w w1). Qed.

Lemma gr_addEvent (i : nat) (A : Z -> Prop) (w w1 : World) (e : Event) :
  gravacoes i A w w1 -> gravacoes i A w (addEvent w1 e).
Proof. intro H. now apply (gr_conv i A w w1). Qed.

Lemma gr_comPedido (i : nat) (A : Z -> Prop) (w w1 : World) (p : Pedido) :
  gravacoes i A w w1 -> gravacoes i A w (comPedido w1 p).
Proof. intro H. now apply (gr_conv i A w w1). Qed.

Lemma replaceRow_cids (c : Conversa) (rows rows' : list Conversa) :
  replaceRow c rows = Some rows' -> map cid rows' = map cid rows.
Proof.
  revert rows'. induction rows as [|r rest IH]; intros rows' H; [discriminate H|].
  cbn [replaceRow] in H. destruct (cid r =? cid c)%nat eqn:E.
  - inversion H. cbn. apply Nat.eqb_eq in E. now rewrite E.
  - destruct (replaceRow c rest) as [rest'|]; [|discriminate H].
    inversion H. cbn. now rewrite (IH rest' eq_refl).
Qed.

Lemma replaceRow_none_notin (c : Conversa) (rows : list Conversa) :
  replaceRow c rows = None -> ~ In (cid c) (map cid rows).
Proof.
  induction rows as [|r rest IH]; intro H; [intros []|].
  cbn [replaceRow] in H. destruct (cid r =? cid c)%nat eqn:E; [discriminate H|].
  destruct (replaceRow c rest); [discriminate H|].
  apply Nat.eqb_neq in E. cbn. intros [H1|H1]; [now apply E | now apply IH].
Qed.

(** A write keeps the identifiers apart: it rewrites a row in place, or
    adds a row when no row has the identifier. *)
Lemma saveConversa_semRepetidos (c : Conversa) (w : World) :
  semRepetidos w -> semRepetidos (saveConversa c w).
Proof.
  unfold semRepetidos, saveConversa. cbn [conversas]. intro H.
  destruct (replaceRow c (conversas w)) as [rows|] eqn:E.
  - now rewrite (replaceRow_cids c _ _ E).
  - cbn. constructor; [exact (replaceRow_none_notin c _ E) | exact H].
Qed.

Lemma replaceRow_estado (c : Conversa) (j : nat) (rows rows' : list Conversa) :
  replaceRow c rows = Some rows' ->
  option_map state (find (fun r => (cid r =? j)%nat) rows') =
  if (cid c =? j)%nat then Some (state c)
  else option_map state (find (fun r => (cid r =? j)%nat) rows).
Proof.
  revert rows'. induction rows as [|r rest IH]; intros rows' H; [discriminate H|].
  cbn [replaceRow] in H. destruct (cid r =? cid c)%nat eqn:E.
  - inversion H. apply Nat.eqb_eq in E. cbn [find persistido cid].
    rewrite E. destruct (cid c =? j)%nat; reflexivity.
  - destruct (replaceRow c rest) as [rest'|]; [|discriminate H].
    inversion H. cbn [find]. destruct (cid r =? j)%nat eqn:Ej.
    + apply Nat.eqb_eq in Ej. subst j. apply Nat.eqb_neq in E.
      destruct (Nat.eqb_spec (cid c) (cid r)) as [Hc|]; [now elim E|reflexivity].
    + exact (IH rest' eq_refl).
Qed.

(** What a write stores: the state of the document under its identifier,
    and nothing else. *)
Lemma estadoGuardado_saveConversa (c : Conversa) (j : nat) (w : World) :
  estadoGuardado j (saveConversa c w) =
  if (cid c =? j)%nat then Some (state c) else estadoGuardado j w.
Proof.
  unfold estadoGuardado, saveConversa. cbn [conversas].
  destruct (replaceRow c (conversas w)) as [rows|] eqn:E.
  - exact (replaceRow_estado c j _ _ E).
  - cbn [find persistido cid]. destruct (cid c =? j)%nat; reflexivity.
Qed.

Lemma estadoGuardado_In (j : nat) (w : World) (s : Z) :
  estadoGuardado j w = Some s ->
  exists r, In r (conversas w) /\ cid r = j /\ state r = s.
Proof.
  unfold estadoGuardado. intro H.
  destruct (find (fun r => (cid r =? j)%nat) (conversas w)) as [r|] eqn:E; [|discriminate H].
  apply find_some in E. destruct E as [E1 E2]. apply Nat.eqb_eq in E2.
  exists r. cbn in H. injection H as H. auto.
Qed.

Lemma find_cid_NoDup (rows : list Conversa) (r : Conversa) :
  NoDup (map cid rows) -> In r rows ->
  find (fun x => (cid x =? cid r)%nat) rows = Some r.
Proof.
  induction rows as [|x rest IH]; intros Hn Hin; [destruct Hin|].
  cbn in Hn. inversion Hn as [|? ? Hx Hrest]; subst.
  cbn [find]. destruct Hin as [->|Hin]; [now rewrite Nat.eqb_refl|].
  destruct (Nat.eqb_spec (cid x) (cid r)) as [E|_]; [|now apply IH].
  exfalso. apply Hx. rewrite E. now apply in_map.
Qed.

Lemma estadoGuardado_row (w : World) (r : Conversa) :
  semRepetidos w -> In r (conversas w) -> estadoGuardado (cid r) w = Some (state r).
Proof.
  intros Hn Hin. unfold estadoGuardado. now rewrite (find_cid_NoDup _ r Hn Hin).
Qed.

Lemma estadoGuardado_none (j : nat) (w : World) :
  ~ In j (map cid (conversas w)) -> estadoGuardado j w = None.
Proof.
  intro H. destruct (estadoGuardado j w) as [s|] eqn:E; [|reflexivity].
  apply estadoGuardado_In in E. destruct E as (r & Hin & Hc & _).
  exfalso. apply H. rewrite <- Hc. now apply in_map.
Qed.

Lemma estadoGuardado_conversas (j : nat) (w w' : World) :
  conversas w' = conversas w -> estadoGuardado j w' = estadoGuardado j w.
Proof. unfold estadoGuardado. now intros ->. Qed.

(** After a series of writes of a turn on the conversation [i] every
    conversation stored before is still stored, in the state it had, or,
    if it is the conversation [i], in a state that [A] allows. *)
Lemma gravacoes_estado (i : nat) (A : Z -> Prop) (w w' : World) :
  gravacoes i A w w' ->
  semRepetidos w ->
  semRepetidos w' /\
  forall j s, estadoGuardado j w = Some s ->
              exists s', estadoGuardado j w' = Some s' /\ (s' = s \/ (j = i /\ A s')).
Proof.
  intros H Hn. induction H as [w' E|w1 w' c H IH Hq Hc].
  - split; [unfold semRepetidos; now rewrite E|].
    intros j s Hj. exists s. rewrite (estadoGuardado_conversas j w w' E). auto.
  - destruct IH as [Hn1 IH]. split.
    + unfold semRepetidos. rewrite Hc. now apply saveConversa_semRepetidos.
    + intros j s Hj. destruct (IH j s Hj) as (s1 & H1 & Hs1).
      rewrite (estadoGuardado_conversas j _ w' Hc), estadoGuardado_saveConversa.
      destruct (Nat.eqb_spec (cid c) j) as [Ec|Ec]; [|exists s1; auto].
      exists (state c). split; [reflexivity|].
      destruct Hq as [[Hi Ha]|[Hfresh _]]; [right; split; congruence|].
      exfalso. apply Hfresh. rewrite Ec.
      apply estadoGuardado_In in H1. destruct H1 as (r & Hin & Hr & _).
      rewrite <- Hr. now apply in_map.
Qed.

Section Stored.

Variable P : Platform.

Ltac grava :=
  repeat first
    [ apply gr_start
    | apply gr_guardarTemp
    | apply gr_setTemp
    | apply gr_addEvent
    | apply gr_comPedido
    | apply gr_saveConversa; [|left; split; [reflexivity|]] ].

Lemma passo_pede (s0 : Z) (r : Response) :
  pedeNumero r = true -> passo s0 4 (Some r).
Proof. intro H. right. split; [reflexivity|]. now exists r. Qed.

Lemma jsonPhase_gravado (botResponse : string) (r : Response) (c : Conversa) (w : World)
      (st : Step Response) (c' : Conversa) (w' : World) (s0 : Z) :
  jsonPhase P botResponse r c w = (st, c', w') ->
  (s0 <= state c)%Z -> (state c <= 7)%Z ->
  gravacoes (cid c)
    (fun s' => match st with
               | Return r' => passo s0 s' (Some r')
               | Continue _ => (s0 <= s' /\ s' <= 7)%Z
               end) w w'.
Proof.
  unfold jsonPhase. intros H H0 H7.
  split_matches H; inversion H; subst; grava;
    try (apply passo_pede; reflexivity);
    cbn [state setState setPedidoData];
    try match goal with E : (_ <? 6)%Z = _ |- _ => cbn [state setPedidoData] in E;
          first [apply Z.ltb_lt in E | apply Z.ltb_ge in E] end; lia.
Qed.

Lemma confirmarPedido_gravado (c : Conversa) (saved : JValue) (w : World)
      (c1 : Conversa) (w1 : World) (A : Z -> Prop) :
  confirmarPedido P c saved w = Some (c1, w1) -> A 7%Z ->
  cid c1 = cid c /\ gravacoes (cid c) A w w1.
Proof.
  unfold confirmarPedido. intros H HA.
  split_matches H; inversion H; subst.
  match goal with
  | E : savePedido _ _ _ = Some _ |- _ =>
      apply savePedido_spec in E; destruct E as (_ & _ & ->)
  end.
  split; [reflexivity|]. grava. exact HA.
Qed.

Lemma confirmationPhase_gravado (botResponse : string) (cfg : option BotConfig)
      (r : Response) (c : Conversa) (w : World)
      (st : Step Response) (c' : Conversa) (w' : World) (s0 : Z) :
  confirmationPhase P botResponse cfg r c w = Some (st, c', w') ->
  (s0 <= state c)%Z -> (state c <= 7)%Z ->
  gravacoes (cid c)
    (fun s' => match st with
               | Return r' => passo s0 s' (Some r')
               | Continue _ => (s0 <= s' /\ s' <= 7)%Z
               end) w w'.
Proof.
  unfold confirmationPhase. intros H H0 H7.
  split_matches H; inversion H; subst;
    try match goal with
        | E : confirmarPedido _ _ _ _ = Some _ |- _ =>
            apply (confirmarPedido_gravado _ _ _ _ _
                     (fun s' => (s0 <= s' /\ s' <= 7)%Z)) in E; [exact (proj2 E)|lia]
        end;
    grava.
  apply passo_pede. reflexivity.
Qed.

Lemma processTaggedResponse_gravado (botResponse userMessage : string) (c : Conversa)
      (cfg : option BotConfig) (w : World)
      (o : option Response) (c' : Conversa) (w' : World) (s0 : Z) :
  processTaggedResponse P botResponse userMessage c cfg w = (o, c', w') ->
  (s0 <= state c)%Z -> (state c <= 7)%Z ->
  gravacoes (cid c) (fun s' => passo s0 s' o) w w'.
Proof.
  unfold processTaggedResponse. intros H H0 H7.
  pose proof (voicePhase_conversas P botResponse (state c)
                (plainResponse (Some (state c)) botResponse) w) as Hv.
  destruct (voicePhase P botResponse (state c) (plainResponse (Some (state c)) botResponse) w)
    as [r1 w1].
  cbn [snd] in Hv.
  assert (G1 : gravacoes (cid c) (fun s' => passo s0 s' o) w w1) by (now apply gr_nada).
  apply (gr_trans _ _ w w1 w' G1).
  destruct (jsonPhase P botResponse
              (imagePhase P botResponse (state c) (cardapio w1) cfg r1) c w1)
    as [[st c2] w2] eqn:Ej.
  pose proof (jsonPhase_state _ _ _ _ _ _ _ _ Ej H7) as Hs.
  pose proof (jsonPhase_frame _ _ _ _ _ _ _ _ Ej) as (_ & _ & _ & _ & Hcid).
  pose proof (jsonPhase_gravado _ _ _ _ _ _ _ s0 Ej H0 H7) as Gj.
  destruct st as [r|r3].
  - inversion H; subst. exact Gj.
  - assert (Gj' : gravacoes (cid c) (fun s' => passo s0 s' o) w1 w2).
    { apply (gr_weaken _ _ _ _ _ (fun s Hx => or_introl Hx) Gj). }
    destruct (confirmationPhase P botResponse cfg r3 c2 w2) as [[[st3 c3] w3]|] eqn:Ec.
    + pose proof (confirmationPhase_gravado _ _ _ _ _ _ _ _ s0 Ec ltac:(lia) ltac:(lia)) as Gc.
      rewrite Hcid in Gc.
      destruct st3 as [r|r4]; inversion H; subst.
      * exact (gr_trans _ _ _ _ _ Gj' Gc).
      * apply (gr_trans _ _ _ _ _ Gj').
        apply (gr_weaken _ _ _ _ _ (fun s Hx => or_introl Hx) Gc).
    + inversion H; subst. exact Gj'.
Qed.

Lemma processTaggedResponse_cid (botResponse userMessage : string) (c : Conversa)
      (cfg : option BotConfig) (w : World)
      (o : option Response) (c' : Conversa) (w' : World) :
  processTaggedResponse P botResponse userMessage c cfg w = (o, c', w') -> cid c' = cid c.
Proof.
  unfold processTaggedResponse. intro H.
  destruct (voicePhase P botResponse (state c)
              (plainResponse (Some (state c)) botResponse) w) as [r1 w1].
  destruct (jsonPhase P botResponse _ c w1) as [[s2 c2] w2] eqn:Ej.
  apply jsonPhase_frame in Ej. destruct Ej as (_ & _ & _ & _ & Hc2).
  destruct s2 as [rr|r3]; [inversion H; subst; exact Hc2|].
  destruct (confirmationPhase P botResponse cfg r3 c2 w2) as [[[s3 c3] w3]|] eqn:Ec.
  - assert (Hc3 : cid c3 = cid c2).
    { unfold confirmationPhase in Ec.
      split_matches Ec; inversion Ec; subst; try reflexivity;
        match goal with
        | E : confirmarPedido _ _ _ _ = Some _ |- _ =>
            apply (confirmarPedido_gravado _ _ _ _ _ (fun _ => True)) in E;
            [exact (proj1 E)|exact I]
        end. }
    destruct s3; inversion H; subst; congruence.
  - inversion H; subst. exact Hc2.
Qed.

Lemma gr_answer (i : nat) (s0 : Z) (o : option Response) (r : Response) (w w' : World) :
  gravacoes i (fun s' => passo s0 s' o) w w' ->
  o = None \/ o = Some r ->
  gravacoes i (fun s' => passo s0 s' (Some r)) w w'.
Proof.
  intros G Ho. revert G. apply gr_weaken. intros s Hs. exact (passo_some _ _ _ _ Hs Ho).
Qed.

Lemma responder_gravado (botResponse message : string) (c : Conversa)
      (cfg : option BotConfig) (w : World) (r : Response) (c' : Conversa) (w' : World)
      (s0 : Z) :
  responder P botResponse message c cfg w = (r, c', w') ->
  (s0 <= state c)%Z -> (state c <= 7)%Z ->
  gravacoes (cid c) (fun s' => passo s0 s' (Some r)) w w'.
Proof.
  unfold responder. intros H H0 H7.
  destruct (processTaggedResponse P botResponse message c cfg w) as [[o c2] w2] eqn:E.
  pose proof (processTaggedResponse_gravado _ _ _ _ _ _ _ _ s0 E H0 H7) as G.
  destruct o; inversion H; subst; apply (gr_answer _ _ _ _ _ _ G); auto.
Qed.

Lemma interceptNumero_gravado (message : string) (c : Conversa) (w : World)
      (r : Response) (c' : Conversa) (w' : World) :
  interceptNumero message c w = Some (r, c', w') ->
  gravacoes (cid c) (fun s' => passo (state c) s' (Some r)) w w'.
Proof.
  intro H. pose proof (interceptNumero_state _ _ _ _ _ _ H) as [_ H4].
  unfold interceptNumero in H.
  split_matches H; inversion H; subst; grava;
    left; rewrite H4;
    repeat match goal with |- context [if ?b then _ else _] => destruct b end;
    cbn; lia.
Qed.

Lemma interceptPagamento_gravado (message : string) (c : Conversa) (w : World)
      (r : Response) (c' : Conversa) (w' : World) :
  interceptPagamento message c w = Some (r, c', w') ->
  gravacoes (cid c) (fun s' => passo (state c) s' (Some r)) w w'.
Proof.
  unfold interceptPagamento. intro H.
  destruct ((state c =? 5)%Z && negb (message =? "5")) eqn:E; [|discriminate H].
  apply andb_prop in E. destruct E as [E _]. apply Z.eqb_eq in E.
  split_matches H; inversion H; subst; grava; left; cbn; lia.
Qed.

Lemma interceptConfirmacao_gravado (t : Turno) (message : string) (c : Conversa) (w : World)
      (r : Response) (c' : Conversa) (w' : World) :
  interceptConfirmacao P t message c w = Some (r, c', w') ->
  gravacoes (cid c) (fun s' => passo (state c) s' (Some r)) w w'.
Proof.
  unfold interceptConfirmacao. intro H.
  destruct ((state c =? 6)%Z && isAfirmativo message) eqn:E; [|discriminate].
  apply andb_prop in E. destruct E as [E _]. apply Z.eqb_eq in E.
  destruct (negb (truthy (pedidoData c))); [inversion H; subst; apply gr_start|].
  destruct (calcularTotal P false (getProp (pedidoData c) "items")) as [total|];
    [|inversion H; subst; apply gr_start].
  destruct (savePedido P _ w) as [[[id novoPedido] w1]|] eqn:Es;
    [|inversion H; subst; apply gr_start].
  apply savePedido_spec in Es. destruct Es as (_ & _ & ->).
  destruct (linhaPrimeiroItem P (getProp (pedidoData c) "items")) as [linha|];
    [|inversion H; subst; grava].
  match type of H with
  | context [processTaggedResponse P ?a ?b ?c2 ?d (saveConversa ?n ?w2)] =>
      destruct (processTaggedResponse P a b c2 d (saveConversa n w2)) as [[o c3] w4] eqn:Ep;
      pose proof (processTaggedResponse_gravado _ _ _ _ _ _ _ _ (state c) Ep
                    ltac:(cbn; lia) ltac:(cbn; lia)) as G;
      assert (G0 : gravacoes (cid c) (fun s' => passo (state c) s' o) w (saveConversa n w2))
  end.
  { apply gr_saveConversa.
    - grava. left. cbn. lia.
    - right. split; [apply novoCid_fresh | reflexivity]. }
  cbn [cid pushMensagem setState setPedidoId] in G.
  pose proof (gr_trans _ _ _ _ _ G0 G) as G1.
  destruct o; inversion H; subst; apply (gr_answer _ _ _ _ _ _ G1); auto.
Qed.

Lemma primeiraResposta_gravado (t : Turno) (c : Conversa) (w : World)
      (s : string) (c' : Conversa) (w' : World) (A : Z -> Prop) :
  primeiraResposta P t c w = (s, c', w') -> A (state c) ->
  cid c' = cid c /\ gravacoes (cid c) A w w'.
Proof.
  unfold primeiraResposta. intros H HA.
  split_matches H; inversion H; subst; (split; [reflexivity|]); grava; exact HA.
Qed.

Lemma armazenarPedido_gravado (botResponse : string) (c : Conversa) (w : World)
      (c' : Conversa) (w' : World) (A : Z -> Prop) :
  armazenarPedido P botResponse c w = (c', w') -> A 6%Z ->
  cid c' = cid c /\ gravacoes (cid c) A w w'.
Proof.
  unfold armazenarPedido. intros H HA.
  split_matches H; inversion H; subst; (split; [reflexivity|]); grava; exact HA.
Qed.

Lemma respostaEnriquecida_conversas (t : Turno) (botResponse : string) (w : World) :
  conversas (snd (respostaEnriquecida t botResponse w)) = conversas w.
Proof.
  unfold respostaEnriquecida.
  repeat match goal with
         | |- context [match ?x with _ => _ end] => destruct x
         end; reflexivity.
Qed.

Lemma atualizarEstado_gravado (botResponse message : string) (c : Conversa) (w : World)
      (o : option Response) (c' : Conversa) (w' : World) (s0 : Z) :
  atualizarEstado botResponse message c w = (o, c', w') ->
  cid c' = cid c /\
  gravacoes (cid c)
    (fun s' => match o with
               | Some r => passo s0 s' (Some r)
               | None => (s0 <= s' /\ s' <= 7)%Z
               end) w w'.
Proof.
  unfold atualizarEstado. intro H.
  split_matches H; inversion H; subst; (split; [reflexivity|]); grava.
  all: apply passo_pede; reflexivity.
Qed.

Lemma viaModelo_gravado (t : Turno) (message : string) (c : Conversa) (w : World)
      (r : Response) (c' : Conversa) (w' : World) (s0 : Z) :
  viaModelo P t message c w = (r, c', w') ->
  (s0 <= state c)%Z -> (state c <= 6)%Z ->
  gravacoes (cid c) (fun s' => passo s0 s' (Some r)) w w'.
Proof.
  unfold viaModelo. intros H H0 H6.
  set (A := fun s' => passo s0 s' (Some r)).
  assert (HA : forall s, (s0 <= s /\ s <= 7)%Z -> A s) by (intros s Hs; now left).
  destruct (primeiraResposta P t c (addEvent w EvModelCall)) as [[r1 c1] w1] eqn:E1.
  pose proof (primeiraResposta_state _ _ _ _ _ _ _ E1) as S1.
  apply (primeiraResposta_gravado _ _ _ _ _ _ A) in E1; [|apply HA; lia].
  destruct E1 as [C1 G1].
  destruct (armazenarPedido P r1 c1 w1) as [c2 w2] eqn:E2.
  pose proof (armazenarPedido_state _ _ _ _ _ _ E2) as S2.
  apply (armazenarPedido_gravado _ _ _ _ _ A) in E2; [|apply HA; lia].
  destruct E2 as [C2 G2]. rewrite C1 in G2.
  pose proof (respostaEnriquecida_conversas t r1 w2) as E3.
  destruct (respostaEnriquecida t r1 w2) as [r2 w3]. cbn [snd] in E3.
  assert (G3 : gravacoes (cid c) A (addEvent w EvModelCall) w3).
  { apply (gr_conv _ _ _ w2); [|exact E3]. exact (gr_trans _ _ _ _ _ G1 G2). }
  assert (G0 : gravacoes (cid c) A w w3).
  { apply (gr_trans _ _ _ (addEvent w EvModelCall)); [|exact G3]. now apply gr_nada. }
  match type of H with
  | context [atualizarEstado ?a ?b ?c3 ?d] =>
      destruct (atualizarEstado a b c3 d) as [[o c4] w4] eqn:E4;
      pose proof (atualizarEstado_state _ _ _ _ _ _ _ E4) as S4;
      pose proof (atualizarEstado_gravado _ _ _ _ _ _ _ s0 E4) as [C4 G4]
  end.
  cbn [cid state pushMensagem] in C4, G4, S4. rewrite C2, C1 in C4, G4.
  specialize (S4 ltac:(lia)).
  destruct o as [r4|].
  - inversion H; subst. exact (gr_trans _ _ _ _ _ G0 G4).
  - assert (G4' : gravacoes (cid c) A w3 w4) by exact (gr_weaken _ _ _ _ _ HA G4).
    pose proof (responder_gravado _ _ _ _ _ _ _ _ s0 H ltac:(lia) ltac:(lia)) as G5.
    rewrite C4 in G5.
    apply (gr_trans _ _ _ _ _ G0). apply (gr_trans _ _ _ _ _ G4').
    apply (gr_trans _ _ _ (saveConversa c4 w4)); [|exact G5].
    apply gr_saveConversa; [apply gr_start|].
    left. split; [exact C4 | apply HA; lia].
Qed.

(** The writes of a turn on a conversation that is not closed. *)
Lemma processMessageInternally_gravado (t : Turno) (userPhone message : string)
      (isAudio : bool) (c : Conversa) (w : World)
      (r : Response) (c' : Conversa) (w' : World) :
  processMessageInternally P t userPhone message isAudio c w = (r, c', w') ->
  (state c <= 6)%Z ->
  gravacoes (cid c) (fun s' => passo (state c) s' (Some r)) w w'.
Proof.
  unfold processMessageInternally. intros H Hs.
  destruct (userPhone =? ""); [inversion H; subst; apply gr_start|].
  destruct (isResetRequest message); [inversion H; subst; apply gr_start|].
  set (A := fun s' => passo (state c) s' (Some r)).
  assert (G1 : gravacoes (cid c) A w
                 (snd (registrarCEP P message
                         (setDuracao c (minutosDesde (inicio c) (agora t))) w)) /\
               cid (fst (registrarCEP P message
                           (setDuracao c (minutosDesde (inicio c) (agora t))) w)) = cid c /\
               state (fst (registrarCEP P message
                             (setDuracao c (minutosDesde (inicio c) (agora t))) w)) = state c).
  { unfold registrarCEP. destruct (detectAndValidateCEP P message); cbn [fst snd].
    - split; [|split; reflexivity]. grava. left. cbn. lia.
    - split; [apply gr_start|split; reflexivity]. }
  destruct (registrarCEP P message (setDuracao c (minutosDesde (inicio c) (agora t))) w)
    as [c1 w1].
  cbn [fst snd] in G1. destruct G1 as (G1 & C1 & S1).
  set (c2 := pushMensagem c1
               (mkMensagem User (if isAudio then "[Áudio]: " ++ message else message))) in H.
  assert (C2 : cid c2 = cid c) by exact C1.
  assert (S2 : state c2 = state c) by exact S1.
  apply (gr_trans _ _ _ _ _ G1).
  destruct (interceptNumero message c2 w1) as [[[r0 c0] w0]|] eqn:En.
  { apply interceptNumero_gravado in En. inversion H; subst. now rewrite C2, S2 in En. }
  destruct (interceptPagamento message c2 w1) as [[[r0 c0] w0]|] eqn:Ep.
  { apply interceptPagamento_gravado in Ep. inversion H; subst. now rewrite C2, S2 in Ep. }
  destruct (interceptConfirmacao P t message c2 w1) as [[[r0 c0] w0]|] eqn:Ec.
  { apply interceptConfirmacao_gravado in Ec. inversion H; subst. now rewrite C2, S2 in Ec. }
  destruct (detectImageRequest message) as [[|id0 ids]|].
  - apply (viaModelo_gravado _ _ _ _ _ _ _ (state c)) in H; [|lia|lia]. now rewrite C2 in H.
  - apply (responder_gravado _ _ _ _ _ _ _ _ (state c)) in H; [|cbn; lia|cbn; lia].
    cbn [cid pushMensagem] in H. rewrite C2 in H.
    apply (gr_trans _ _ _ (saveConversa (pushMensagem c2
             (mkMensagem Bot (respostaImagens (id0 :: ids)))) w1)); [|exact H].
    apply gr_saveConversa; [apply gr_start|]. left. split; [exact C2|]. left. cbn. lia.
  - apply (viaModelo_gravado _ _ _ _ _ _ _ (state c)) in H; [|lia|lia]. now rewrite C2 in H.
Qed.

(** One request through the route: every conversation stored before is
    still stored, and in a state that is not lower, unless the request is
    answered with a request for the house number, which puts the
    conversation in state 4. *)
Lemma apiMessage_guardado (t : Turno) (phone : string) (message : option string)
      (isAudio : bool) (w : World) :
  lojaEmFaixa w -> semRepetidos w ->
  semRepetidos (snd (apiMessage P t phone message isAudio w)) /\
  forall r, In r (conversas w) ->
    exists s',
      estadoGuardado (cid r) (snd (apiMessage P t phone message isAudio w)) = Some s' /\
      ((state r <= s')%Z \/
       (s' = 4%Z /\ exists x, fst (apiMessage P t phone message isAudio w) = Respondida x /\
                              pedeNumero x = true)).
Proof.
  intros Hf Hn.
  assert (Hsame : semRepetidos w /\
                  forall r, In r (conversas w) ->
                    exists s', estadoGuardado (cid r) w = Some s' /\ (state r <= s')%Z).
  { split; [exact Hn|]. intros r Hr. exists (state r).
    split; [now apply estadoGuardado_row | lia]. }
  unfold apiMessage.
  destruct (phone =? "").
  { cbn [fst snd]. destruct Hsame as [H1 H2]. split; [exact H1|].
    intros r Hr. destruct (H2 r Hr) as (s' & E & Hs). exists s'. auto. }
  destruct message as [m|].
  2:{ cbn [fst snd]. destruct Hsame as [H1 H2]. split; [exact H1|].
      intros r Hr. destruct (H2 r Hr) as (s' & E & Hs). exists s'. auto. }
  clear Hsame.
  pose proof (getOrCreateConversation_faixa (agora t) phone m w Hf) as [Hc6 _].
  assert (Hg : let cw := getOrCreateConversation (agora t) phone m w in
               forall A,
                 gravacoes (cid (fst cw)) A w (snd cw) /\
                 (In (fst cw) (conversas w) \/ ~ In (cid (fst cw)) (map cid (conversas w)))).
  { unfold getOrCreateConversation. cbv zeta.
    assert (Hnova : forall A,
               gravacoes (cid (novaConversa phone (agora t) w)) A w
                 (saveConversa (novaConversa phone (agora t) w) w) /\
               (In (novaConversa phone (agora t) w) (conversas w) \/
                ~ In (cid (novaConversa phone (agora t) w)) (map cid (conversas w)))).
    { intro A. split; [|right; apply novoCid_fresh].
      apply gr_saveConversa; [apply gr_start|].
      right. split; [apply novoCid_fresh | reflexivity]. }
    destruct (isResetRequest m); [exact Hnova|].
    destruct (maisRecente phone w) as [c|] eqn:Em; [|exact Hnova].
    destruct ((state c =? 7)%Z || antiga c (agora t)); [exact Hnova|].
    intro A. cbn [fst snd]. split; [apply gr_start|left].
    unfold maisRecente in Em. apply find_some in Em. tauto. }
  cbv zeta in Hg.
  destruct (getOrCreateConversation (agora t) phone m w) as [c w1].
  cbn [fst snd] in Hg, Hc6.
  destruct (processMessageInternally P t phone m isAudio c w1) as [[resp c'] w'] eqn:Ep.
  cbn [fst snd].
  pose proof (processMessageInternally_gravado _ _ _ _ _ _ _ _ _ Ep ltac:(lia)) as G.
  destruct (Hg (fun s' => passo (state c) s' (Some resp))) as [G0 Hc].
  pose proof (gravacoes_estado _ _ _ _ (gr_trans _ _ _ _ _ G0 G) Hn) as [Hn' He].
  split; [exact Hn'|].
  intros r Hr.
  destruct (He (cid r) (state r) (estadoGuardado_row w r Hn Hr)) as (s' & E & Hs).
  exists s'. split; [exact E|].
  destruct Hs as [->|[Hi Hp]]; [left; lia|].
  assert (Hst : state r = state c).
  { destruct Hc as [Hc|Hc].
    - pose proof (estadoGuardado_row w r Hn Hr) as E1.
      pose proof (estadoGuardado_row w c Hn Hc) as E2.
      rewrite Hi in E1. congruence.
    - exfalso. apply Hc. rewrite <- Hi. now apply in_map. }
  rewrite Hst. destruct Hp as [Hp|(Hp & x & Hx & Hpn)]; [left; lia|].
  right. split; [exact Hp|]. exists x. split; [|exact Hpn]. congruence.
Qed.

(** Over a sequence of requests a conversation stays stored and its state
    never falls below the lower of its state and 4. *)
Lemma sessao_guardado (turns : list Entrada) :
  forall w,
    lojaEmFaixa w -> semRepetidos w ->
    semRepetidos (sessao P turns w) /\
    forall r, In r (conversas w) ->
      exists s',
        estadoGuardado (cid r) (sessao P turns w) = Some s' /\
        (Z.min (state r) 4 <= s' <= 7)%Z.
Proof.
  induction turns as [|e turns IH]; intros w Hf Hn.
  - cbn [sessao]. split; [exact Hn|]. intros r Hr. exists (state r).
    split; [now apply estadoGuardado_row|].
    unfold lojaEmFaixa in Hf. rewrite Forall_forall in Hf.
    specialize (Hf r Hr). unfold emFaixa in Hf. lia.
  - cbn [sessao].
    pose proof (apiMessage_faixa P (en_turno e) (en_phone e) (en_message e) (en_audio e) w Hf)
      as Hf1.
    destruct (apiMessage_guardado (en_turno e) (en_phone e) (en_message e) (en_audio e) w Hf Hn)
      as [Hn1 H1].
    destruct (IH _ Hf1 Hn1) as [Hn2 H2].
    split; [exact Hn2|]. intros r Hr.
    destruct (H1 r Hr) as (s1 & E1 & Hs1).
    apply estadoGuardado_In in E1. destruct E1 as (r1 & Hin1 & Hc1 & Hst1).
    destruct (H2 r1 Hin1) as (s' & E2 & Hs2).
    exists s'. rewrite <- Hc1. split; [exact E2|].
    rewrite Hst1 in Hs2. destruct Hs1 as [Hs1|[Hs1 _]]; lia.
Qed.

End Stored.


(** C4, as amended. Over any sequence of requests every stored
    conversation stays in a state between 0 and 7. A turn leaves the
    conversation it works on in a state that is not lower than before,
    except that it may put it back in state 4, the address state, and then
    its answer is one of the three requests for the house number. The
    same holds of what is stored: after a request every conversation
    stored before is still stored, in a state that is not lower, or in
    state 4 after such an answer; so over any sequence of requests the
    stored state of a conversation never falls below the lower of its
    first value and 4. A reset command always yields a conversation
    created anew, in state 0, without messages and without an order; a
    conversation in state 7 is never handed to a further turn, and the
    state update leaves a conversation in state 7 as it is, reporting the
    missing order reference when there is none. *)
Theorem C4_state_machine :
  forall P,
    (forall turns w, lojaEmFaixa w -> lojaEmFaixa (sessao P turns w)) /\
    (forall t phone message isAudio w,
        lojaEmFaixa w -> semRepetidos w ->
        let res := apiMessage P t phone message isAudio w in
        semRepetidos (snd res) /\
        forall r, In r (conversas w) ->
          exists s',
            estadoGuardado (cid r) (snd res) = Some s' /\
            ((state r <= s')%Z \/
             (s' = 4%Z /\ exists x, fst res = Respondida x /\ pedeNumero x = true))) /\
    (forall turns w,
        lojaEmFaixa w -> semRepetidos w ->
        forall r, In r (conversas w) ->
          exists s',
            estadoGuardado (cid r) (sessao P turns w) = Some s' /\
            (Z.min (state r) 4 <= s' <= 7)%Z) /\
    (forall t userPhone message isAudio w r c' w',
        lojaEmFaixa w ->
        userPhone <> "" ->
        let c := fst (getOrCreateConversation (agora t) userPhone message w) in
        let w1 := snd (getOrCreateConversation (agora t) userPhone message w) in
        processMessageInternally P t userPhone message isAudio c w1 = (r, c', w') ->
        apiMessage P t userPhone (Some message) isAudio w = (Respondida r, w') /\
        (0 <= state c' <= 7)%Z /\ lojaEmFaixa w' /\
        ((state c <= state c')%Z \/ (state c' = 4%Z /\ pedeNumero r = true))) /\
    (forall agora_ userPhone message w,
        isResetRequest message = true ->
        let c := fst (getOrCreateConversation agora_ userPhone message w) in
        c = novaConversa userPhone agora_ w /\
        state c = 0%Z /\ mensagens c = [] /\ pedidoId c = None /\
        ~ In (cid c) (map cid (conversas w))) /\
    (forall agora_ userPhone message w c,
        maisRecente userPhone w = Some c ->
        state c = 7%Z ->
        fst (getOrCreateConversation agora_ userPhone message w) =
        novaConversa userPhone agora_ w) /\
    (forall botResponse message c w,
        state c = 7%Z ->
        atualizarEstado botResponse message c w =
        (None, c, match pedidoId c with
                  | None => addEvent w EvAlertaEstado7SemPedido
                  | Some _ => w
                  end)).
Proof.
  intros P. split; [|split; [|split; [|split; [|split; [|split]]]]].
  - intros turns. induction turns as [|e turns IH]; intros w Hw; [exact Hw|].
    simpl. apply IH. now apply apiMessage_faixa.
  - intros t phone message isAudio w Hf Hn res.
    exact (apiMessage_guardado P t phone message isAudio w Hf Hn).
  - intros turns w Hf Hn. exact (proj2 (sessao_guardado P turns w Hf Hn)).
  - intros t userPhone message isAudio w r c' w' Hw Hp c w1 Ht.
    split; [exact (apiMessage_turno P _ _ _ _ _ _ _ _ Hp Ht)|].
    apply turno_faixa in Ht; [|exact Hw].
    destruct Ht as (Hc & Hw' & Hs). fold c in Hs.
    unfold emFaixa in Hc. split; [exact Hc|]. split; [exact Hw'|].
    destruct Hs as [Hs|(Hs & x & Hx & Hn)]; [left; lia|].
    right. inversion Hx; subst x. now split.
  - intros agora_ userPhone message w Hr c. subst c.
    unfold getOrCreateConversation. rewrite Hr. simpl.
    repeat split. apply (novoCid_fresh w).
  - intros agora_ userPhone message w c Hm Hs.
    unfold getOrCreateConversation. rewrite Hm, Hs.
    destruct (isResetRequest message); reflexivity.
  - intros botResponse message c w Hs. now apply atualizarEstado_closed.
Qed.

Module Recuo.

(** The language model stages an order whose address has no number. *)
Definition turno : Turno :=
  mkTurno 60000
          (ReplyText ("[TEXT_FORMAT]Anotado![/END][JSON_FORMAT]" ++
                      Demo.jsonPedido "Rua Augusta" ++ "[/END]"))
          (ReplyText "[TEXT_FORMAT]Certo![/END]") false false false.

(** The language model stages a complete order. *)
Definition turnoCompleto : Turno :=
  mkTurno 60000
          (ReplyText ("[TEXT_FORMAT]Anotado![/END][JSON_FORMAT]" ++
                      Demo.jsonPedido "Rua Augusta, 1234" ++ "[/END]"))
          (ReplyText "[TEXT_FORMAT]Certo![/END]") false false false.

End Recuo.

(** C4 as stated fails: a turn that is no reset takes the stored
    conversation of the customer from state 6 back to state 4. *)
Lemma C4_counterexample :
  let w := saveConversa (Demo.conversa 6 JUndef None) Demo.mundo in
  let res := apiMessage Demo.plataforma Recuo.turno "5511999990000"
               (Some "entregar na rua augusta") false w in
  isResetRequest "entregar na rua augusta" = false /\
  map state (conversas w) = [6%Z] /\
  map state (conversas (snd res)) = [4%Z] /\
  fst res = Respondida (plainResponse (Some 4%Z) PEDIR_NUMERO).
Proof.
  vm_compute. repeat split; reflexivity.
Qed.

(** Outside the reachable turns: were a conversation in state 7 handed to
    the controller, the staging of a new payload would put it back in
    state 6 before the state update looks at it. *)
Example closed_conversation_reopened_by_staging :
  let c := Demo.conversa 7 (Demo.pedidoDemo "Rua Augusta, 1234") (Some 0%nat) in
  let res := processMessageInternally Demo.plataforma Recuo.turnoCompleto "5511999990000"
               "obrigado" false c Demo.mundo in
  state (snd (fst res)) = 6%Z /\ trace (snd res) = [EvModelCall].
Proof.
  vm_compute. split; reflexivity.
Qed.

(* ================================================================== *)
(** * Replies without tags *)

(** No opener of a voice, image, order or confirmation block. *)
Definition semBlocos (r : string) : bool :=
  negb (Js.includes r VOICE_TAG) && negb (Js.includes r IMAGE_TAG) &&
  negb (Js.includes r JSON_TAG) && negb (Js.includes r CONFIRMATION_TAG).

Section Repair.

Variable P : Platform.

Lemma startsWith_app_tag (c : ascii) (t : string) (x : ascii) (a rest : string) :
  noChar c t = true ->
  Js.startsWith (String x a) (String c t) = false ->
  Js.startsWith (String x (a ++ String c rest)) (String c t) = false.
Proof.
  intros Ht Hs.
  change (Ascii.eqb c x && Js.startsWith (a ++ String c rest) t = false).
  change (Ascii.eqb c x && Js.startsWith a t = false) in Hs.
  destruct (Ascii.eqb c x); simpl in *; [|reflexivity].
  destruct (Js.startsWith (a ++ String c rest) t) eqn:E; [|reflexivity].
  apply startsWith_before_char in E; [|exact Ht]. congruence.
Qed.

(** An occurrence of a tag cannot lie across the start of the next tag. *)
Lemma includes_app_closer (c : ascii) (t a q : string) :
  noChar c t = true ->
  Js.includes a (String c t) = false ->
  Js.includes (a ++ String c q) (String c t) = Js.includes (String c q) (String c t).
Proof.
  intros Ht. induction a as [|x a IH]; intro H; [reflexivity|].
  apply includes_cons_false in H. destruct H as [Hs Hi].
  change (String x a ++ String c q) with (String x (a ++ String c q)).
  rewrite (includes_eq (String x (a ++ String c q))).
  now rewrite (startsWith_app_tag c t x a q Ht Hs), (IH Hi).
Qed.

Lemma wrapped_without (tag r : string) :
  In tag [VOICE_TAG; IMAGE_TAG; JSON_TAG; CONFIRMATION_TAG] ->
  Js.includes r tag = false ->
  Js.includes (TEXT_TAG ++ r ++ END_TAG) tag = false.
Proof.
  intros Hin Hr.
  assert (Hw : Js.includes (TEXT_TAG ++ r ++ END_TAG) tag = Js.includes (r ++ END_TAG) tag).
  { simpl in Hin. destruct Hin as [<-|[<-|[<-|[<-|[]]]]]; reflexivity. }
  rewrite Hw. simpl in Hin.
  destruct Hin as [<-|[<-|[<-|[<-|[]]]]];
    unfold VOICE_TAG, IMAGE_TAG, JSON_TAG, CONFIRMATION_TAG, END_TAG in *;
    (rewrite includes_app_closer; [reflexivity | reflexivity | exact Hr]).
Qed.

Lemma firstBlock_absent (tag s : string) :
  Js.includes s tag = false -> matchBlock tag s = None /\ firstBlock tag s = None.
Proof.
  intro H. apply splitFirst_none in H. unfold firstBlock, matchBlock. now rewrite H.
Qed.

Lemma imageMatches_absent (s : string) :
  Js.includes s IMAGE_TAG = false -> imageMatches s = [].
Proof.
  intro H. apply firstBlock_absent in H. destruct H as [H _].
  unfold imageMatches, allBlocks. destruct (String.length s); simpl; [reflexivity|].
  now rewrite H.
Qed.

(** A text without any block is answered as it is. *)
Lemma processTaggedResponse_plain (s userMessage : string) (c : Conversa)
      (cfg : option BotConfig) (w : World) :
  semBlocos s = true ->
  processTaggedResponse P s userMessage c cfg w =
  (Some (plainResponse (Some (state c)) s), c, w).
Proof.
  unfold semBlocos. intro H.
  apply andb_prop in H. destruct H as [H Hc].
  apply andb_prop in H. destruct H as [H Hj].
  apply andb_prop in H. destruct H as [Hv Hi].
  apply negb_true_iff in Hv, Hi, Hj, Hc.
  destruct (String.eqb_spec s "") as [->|Hne]; [reflexivity|].
  apply firstBlock_absent in Hv, Hj, Hc.
  destruct Hv as [_ Hv]. destruct Hj as [_ Hj]. destruct Hc as [_ Hc].
  unfold processTaggedResponse, voicePhase, imagePhase, jsonPhase, confirmationPhase.
  rewrite Hv, (imageMatches_absent s Hi), Hj, Hc.
  unfold fallbackPhase, semConteudo. simpl.
  apply String.eqb_neq in Hne. now rewrite Hne.
Qed.

Lemma semBlocos_wrapped (r : string) :
  semBlocos r = true -> semBlocos (TEXT_TAG ++ r ++ END_TAG) = true.
Proof.
  unfold semBlocos. intro H.
  apply andb_prop in H. destruct H as [H Hc].
  apply andb_prop in H. destruct H as [H Hj].
  apply andb_prop in H. destruct H as [Hv Hi].
  apply negb_true_iff in Hv, Hi, Hj, Hc.
  rewrite (wrapped_without VOICE_TAG r), (wrapped_without IMAGE_TAG r),
    (wrapped_without JSON_TAG r), (wrapped_without CONFIRMATION_TAG r);
    simpl; auto 6.
Qed.

Lemma stripTags_eq (ch : ascii) (s : string) :
  stripTags 0 (String ch s) =
  if Js.startsWith (String ch s) TEXT_TAG
  then stripTags (Nat.pred (String.length TEXT_TAG)) s
  else if Js.startsWith (String ch s) END_TAG
       then stripTags (Nat.pred (String.length END_TAG)) s
       else String ch (stripTags 0 s).
Proof. reflexivity. Qed.

Lemma stripTags_skip (p s : string) :
  stripTags (String.length p) (p ++ s) = stripTags 0 s.
Proof.
  induction p as [|a p IH]; [reflexivity|]. exact IH.
Qed.

Lemma stripTags_opener (s : string) : stripTags 0 (TEXT_TAG ++ s) = stripTags 0 s.
Proof.
  change (TEXT_TAG ++ s) with (String "["%char ("TEXT_FORMAT]" ++ s)).
  rewrite stripTags_eq.
  change (String "["%char ("TEXT_FORMAT]" ++ s)) with (TEXT_TAG ++ s).
  rewrite startsWith_app.
  exact (stripTags_skip "TEXT_FORMAT]" s).
Qed.

Lemma stripTags_plain (a q : string) :
  Js.includes a TEXT_TAG = false ->
  Js.includes a END_TAG = false ->
  stripTags 0 (a ++ String "["%char q) = a ++ stripTags 0 (String "["%char q).
Proof.
  induction a as [|x a IH]; intros Ht He; [reflexivity|].
  apply includes_cons_false in Ht. destruct Ht as [Ht1 Ht2].
  apply includes_cons_false in He. destruct He as [He1 He2].
  change (String x a ++ String "["%char q) with (String x (a ++ String "["%char q)).
  rewrite stripTags_eq.
  unfold TEXT_TAG, END_TAG in *.
  rewrite (startsWith_app_tag "["%char "TEXT_FORMAT]" x a q eq_refl Ht1).
  rewrite (startsWith_app_tag "["%char "/END]" x a q eq_refl He1).
  now rewrite (IH Ht2 He2).
Qed.

Lemma stripTags_wrapped (r : string) :
  Js.includes r TEXT_TAG = false ->
  Js.includes r END_TAG = false ->
  stripTags 0 (TEXT_TAG ++ r ++ END_TAG) = r.
Proof.
  intros Ht He. rewrite stripTags_opener. unfold END_TAG.
  rewrite (stripTags_plain r "/END]" Ht He).
  change (stripTags 0 "[/END]") with "". apply app_nil_r_s.
Qed.

(** What is sent of a wrapped text that holds no tag of its own. *)
Lemma textosEnviados_wrapped (r : string) :
  Js.includes r TEXT_TAG = false ->
  Js.includes r END_TAG = false ->
  textosEnviados (TEXT_TAG ++ r ++ END_TAG) =
  if Js.trim r =? "" then [] else [Js.trim r].
Proof.
  intros Ht He. unfold textosEnviados.
  change (TEXT_TAG ++ r ++ END_TAG) with (render TEXT_TAG [("", r)] "") at 1.
  rewrite (allBlocks_render TEXT_TAG eq_refl [("", r)] "").
  - change (map snd [("", r)]) with [r]. cbn [map].
    rewrite (stripTags_wrapped r Ht He). cbn [filter].
    destruct (Js.trim r =? ""); reflexivity.
  - split; [|reflexivity]. constructor; [|constructor]. split; [reflexivity|exact He].
Qed.

End Repair.

(** No request for more context: none of the six markers that make the
    controller ask the language model again. *)
Definition semPedidosDeContexto (r : string) : bool :=
  negb (Js.includes r "[REQUEST_HISTORY]" || Js.includes r "[/REQUEST_HISTORY]") &&
  negb (Js.includes r "[REQUEST_MENU]" || Js.includes r "[/REQUEST_MENU]") &&
  negb (Js.includes r "[REQUEST_PAYMENT]" || Js.includes r "[/REQUEST_PAYMENT]").

Section RepairedTurn.

Variable P : Platform.

Lemma semBlocos_parts (s : string) :
  semBlocos s = true ->
  Js.includes s VOICE_TAG = false /\ Js.includes s IMAGE_TAG = false /\
  Js.includes s JSON_TAG = false /\ Js.includes s CONFIRMATION_TAG = false.
Proof.
  unfold semBlocos. intro H.
  apply andb_prop in H. destruct H as [H Hc].
  apply andb_prop in H. destruct H as [H Hj].
  apply andb_prop in H. destruct H as [Hv Hi].
  apply negb_true_iff in Hv, Hi, Hj, Hc. tauto.
Qed.

(** Without a confirmation opener in the reply the detector answers with
    a boolean. *)
Lemma checkIfShouldAdvanceState_bool (botResponse userMessage : string) (estado : Z)
      (c : Conversa) :
  Js.includes botResponse CONFIRMATION_TAG = false ->
  exists b, checkIfShouldAdvanceState botResponse userMessage estado c = JBool b.
Proof.
  intro H. unfold checkIfShouldAdvanceState. rewrite H.
  repeat match goal with
         | |- context [if ?b then _ else _] => destruct b
         end; eexists; reflexivity.
Qed.

(** The update of the state from a boolean: one step forward or none. *)
Lemma atualizarEstado_bool (botResponse message : string) (c : Conversa) (w : World) :
  Js.includes botResponse CONFIRMATION_TAG = false ->
  exists c' w',
    atualizarEstado botResponse message c w = (None, c', w') /\
    (c' = c \/ c' = setState c (state c + 1)) /\
    conversas w' = conversas w /\ pedidos w' = pedidos w /\
    (trace w' = trace w \/ trace w' = (trace w ++ [EvAlertaEstado7SemPedido])%list).
Proof.
  intro H. unfold atualizarEstado.
  destruct (checkIfShouldAdvanceState_bool botResponse message (state c) c H) as [b ->].
  destruct (truthy (JBool b) && (state c <? 7)%Z).
  { eexists; eexists. split; [reflexivity|]. repeat split; auto. }
  destruct (state c =? 7)%Z; [destruct (pedidoId c)|];
    (eexists; eexists; split; [reflexivity|]; repeat split; auto).
Qed.

Lemma semPedidosDeContexto_parts (s : string) :
  semPedidosDeContexto s = true ->
  Js.includes s "[REQUEST_HISTORY]" || Js.includes s "[/REQUEST_HISTORY]" = false /\
  Js.includes s "[REQUEST_MENU]" || Js.includes s "[/REQUEST_MENU]" = false /\
  Js.includes s "[REQUEST_PAYMENT]" || Js.includes s "[/REQUEST_PAYMENT]" = false.
Proof.
  unfold semPedidosDeContexto. intro H.
  apply andb_prop in H. destruct H as [H H3].
  apply andb_prop in H. destruct H as [H1 H2].
  apply negb_true_iff in H1, H2, H3. tauto.
Qed.

(** The path through the language model for a reply without any tag. *)
Lemma viaModelo_sem_tags (t : Turno) (message s : string) (c : Conversa) (w : World) :
  reply t = ReplyText s ->
  semFormato s = true ->
  semBlocos s = true ->
  semPedidosDeContexto s = true ->
  let resposta := TEXT_TAG ++ s ++ END_TAG in
  exists c' w',
    viaModelo P t message c w = (plainResponse (Some (state c')) resposta, c', w') /\
    (state c' = state c \/ state c' = (state c + 1)%Z) /\
    mensagens c' = (mensagens c ++ [mkMensagem Bot resposta])%list /\
    pedidoData c' = pedidoData c /\ pedidoId c' = pedidoId c /\
    conversas w' = conversas (saveConversa c' w) /\
    pedidos w' = pedidos w /\
    (trace w' = (trace w ++ [EvModelCall])%list \/
     trace w' = (trace w ++ [EvModelCall; EvAlertaEstado7SemPedido])%list).
Proof.
  intros Hr Hf Hb Hq resposta.
  destruct (semBlocos_parts s Hb) as (Hv & Hi & Hj & Hc).
  destruct (semPedidosDeContexto_parts s Hq) as (Q1 & Q2 & Q3).
  assert (Hx : extractPedidoData P s = None).
  { unfold extractPedidoData. destruct (firstBlock_absent JSON_TAG s Hj) as [_ ->]. reflexivity. }
  unfold viaModelo, primeiraResposta. rewrite Hr, Hx.
  assert (E1 : (if negb (s =? "") then (s, c, addEvent w EvModelCall)
                else (s, c, addEvent w EvModelCall)) = (s, c, addEvent w EvModelCall))
    by (destruct (negb (s =? "")); reflexivity).
  rewrite E1. unfold armazenarPedido. rewrite Hj.
  unfold respostaEnriquecida. rewrite Q1, Q2, Q3. cbn [orb].
  assert (Hw : aplicarFormatoPadrao s = resposta)
    by (unfold aplicarFormatoPadrao; now rewrite Hf).
  cbv zeta. rewrite Hw.
  assert (Hbw : semBlocos resposta = true) by (now apply semBlocos_wrapped).
  destruct (semBlocos_parts resposta Hbw) as (_ & _ & _ & Hcw).
  destruct (atualizarEstado_bool resposta message
              (pushMensagem c (mkMensagem Bot resposta)) (addEvent w EvModelCall) Hcw)
    as (c4 & w4 & Ha & Hc4 & Hcv & Hpe & Htr).
  rewrite Ha. unfold responder.
  rewrite (processTaggedResponse_plain P resposta message c4 _ _ Hbw).
  exists c4, (saveConversa c4 w4).
  split; [reflexivity|].
  assert (Hfields : (state c4 = state c \/ state c4 = (state c + 1)%Z) /\
                    mensagens c4 = (mensagens c ++ [mkMensagem Bot resposta])%list /\
                    pedidoData c4 = pedidoData c /\ pedidoId c4 = pedidoId c).
  { destruct Hc4 as [-> | ->]; cbn; repeat split; auto. }
  destruct Hfields as (F1 & F2 & F3 & F4).
  split; [exact F1|]. split; [exact F2|]. split; [exact F3|]. split; [exact F4|].
  split; [exact (conversas_saveConversa c4 w4 w Hcv)|].
  split; [exact Hpe|].
  cbn [trace saveConversa]. cbn [trace addEvent] in Htr.
  destruct Htr as [-> | ->]; [now left|right]. now rewrite <- app_assoc.
Qed.

(** No interceptor of the states 4, 5 and 6 answers below state 4. *)
Lemma interceptores_none (t : Turno) (message : string) (c : Conversa) (w : World) :
  (state c < 4)%Z ->
  interceptNumero message c w = None /\
  interceptPagamento message c w = None /\
  interceptConfirmacao P t message c w = None.
Proof.
  intro H. unfold interceptNumero, interceptPagamento, interceptConfirmacao.
  assert (E4 : (state c =? 4)%Z = false) by (apply Z.eqb_neq; lia).
  assert (E5 : (state c =? 5)%Z = false) by (apply Z.eqb_neq; lia).
  assert (E6 : (state c =? 6)%Z = false) by (apply Z.eqb_neq; lia).
  rewrite E4, E5, E6. repeat split; reflexivity.
Qed.

(** A whole turn below state 4 whose message asks for no image and is no
    reset: the reply without tags is the answer, wrapped. *)
Lemma processMessageInternally_sem_tags (t : Turno) (userPhone message s : string)
      (isAudio : bool) (c : Conversa) (w : World) :
  userPhone <> "" ->
  isResetRequest message = false ->
  detectImageRequest message = None ->
  (state c < 4)%Z ->
  reply t = ReplyText s ->
  semFormato s = true ->
  semBlocos s = true ->
  semPedidosDeContexto s = true ->
  exists c' w',
    processMessageInternally P t userPhone message isAudio c w =
    (plainResponse (Some (state c')) (TEXT_TAG ++ s ++ END_TAG), c', w') /\
    (state c' = state c \/ state c' = (state c + 1)%Z) /\
    pedidos w' = pedidos w.
Proof.
  intros Hp Hr Hd Hs Hreply Hf Hb Hq.
  unfold processMessageInternally.
  apply String.eqb_neq in Hp. rewrite Hp, Hr.
  pose proof (registrarCEP_frame P message
                (setDuracao c (minutosDesde (inicio c) (agora t))) w) as (Fs & _ & _).
  assert (Fp : pedidos (snd (registrarCEP P message
                (setDuracao c (minutosDesde (inicio c) (agora t))) w)) = pedidos w)
    by (unfold registrarCEP; destruct (detectAndValidateCEP P message); reflexivity).
  destruct (registrarCEP P message (setDuracao c (minutosDesde (inicio c) (agora t))) w)
    as [c1 w1].
  cbn [fst snd] in Fs, Fp. cbn [state setDuracao] in Fs.
  set (c2 := pushMensagem c1
               (mkMensagem User (if isAudio then "[Áudio]: " ++ message else message))).
  assert (H2 : state c2 = state c) by exact Fs.
  destruct (interceptores_none t message c2 w1 ltac:(lia)) as (-> & -> & ->).
  rewrite Hd.
  destruct (viaModelo_sem_tags t message s c2 w1 Hreply Hf Hb Hq)
    as (c' & w' & Hv & Hst & _ & _ & _ & _ & Hpe & _).
  exists c', w'. split; [exact Hv|]. split; [now rewrite <- H2|]. now rewrite Hpe.
Qed.

End RepairedTurn.

(** C8, as amended. A reply of the language model that holds none of the
    four pairs of an opener and a closer, no opener of a voice, image,
    order or confirmation block and no request for more context is
    wrapped whole as one text block, and that block is the answer of the
    turn: the answer succeeds, carries no error, no voice and no image,
    and the conversation moves at most one state forward. This holds on
    the path through the language model from every state and for a whole
    turn below state 4 whose message is no reset and asks for no image.
    What is sent to the customer of such an answer is the trimmed reply,
    given that the reply holds no text opener and no closer of its own,
    and nothing when the reply is blank. *)
Theorem C8_untagged_reply_is_wrapped :
  forall P t s,
    reply t = ReplyText s ->
    semFormato s = true ->
    semBlocos s = true ->
    semPedidosDeContexto s = true ->
    let resposta := TEXT_TAG ++ s ++ END_TAG in
    (forall message c w,
        exists c' w',
          viaModelo P t message c w = (plainResponse (Some (state c')) resposta, c', w') /\
          (state c' = state c \/ state c' = (state c + 1)%Z) /\
          mensagens c' = (mensagens c ++ [mkMensagem Bot resposta])%list /\
          pedidoData c' = pedidoData c /\ pedidoId c' = pedidoId c /\
          conversas w' = conversas (saveConversa c' w) /\
          pedidos w' = pedidos w) /\
    (forall userPhone message isAudio c w,
        userPhone <> "" ->
        isResetRequest message = false ->
        detectImageRequest message = None ->
        (state c < 4)%Z ->
        exists c' w',
          processMessageInternally P t userPhone message isAudio c w =
          (plainResponse (Some (state c')) resposta, c', w') /\
          (state c' = state c \/ state c' = (state c + 1)%Z) /\
          pedidos w' = pedidos w) /\
    (forall st,
        success (plainResponse st resposta) = true /\
        error (plainResponse st resposta) = None /\
        audio (plainResponse st resposta) = None /\
        image (plainResponse st resposta) = None /\
        allImages (plainResponse st resposta) = None) /\
    (forall downloadMedia st,
        Js.includes s TEXT_TAG = false ->
        Js.includes s END_TAG = false ->
        entregar downloadMedia (plainResponse st resposta) =
        mkRemessa (if Js.trim s =? "" then [] else [Js.trim s]) None []).
Proof.
  intros P t s Hr Hf Hb Hq resposta. split; [|split; [|split]].
  - intros message c w.
    destruct (viaModelo_sem_tags P t message s c w Hr Hf Hb Hq)
      as (c' & w' & H1 & H2 & H3 & H4 & H5 & H6 & H7 & _).
    exists c', w'. repeat split; assumption.
  - intros userPhone message isAudio c w Hp Hres Hd Hs.
    exact (processMessageInternally_sem_tags P t userPhone message s isAudio c w
             Hp Hres Hd Hs Hr Hf Hb Hq).
  - intro st. repeat split; reflexivity.
  - intros dl st Ht He. unfold resposta, entregar.
    cbn [success plainResponse negb text audio image allImages truthyS andb fst].
    rewrite (textosEnviados_wrapped s Ht He).
    reflexivity.
Qed.

Module Reparo.

(** The language model answers with a confirmation block alone. *)
Definition turnoConfirmacao : Turno :=
  mkTurno 60000 (ReplyText Demo.CONFIRMACAO)
          (ReplyText "[TEXT_FORMAT]Certo![/END]") false false false.

(** The language model answers without any tag. *)
Definition turnoSemTags : Turno :=
  mkTurno 60000 (ReplyText "Olá! Qual pizza você deseja? [promoção]")
          (ReplyText "[TEXT_FORMAT]Certo![/END]") false false false.

End Reparo.

(** C8 at a turn in state 0 whose reply has no tag at all: the whole reply
    is the answer, wrapped, and the reply is what is sent. *)
Lemma C8_untagged_reply_is_wrapped_witness :
  (exists c' w',
      processMessageInternally Demo.plataforma Reparo.turnoSemTags "5511999990000" "oi" false
        (Demo.conversa 0 JUndef None) Demo.mundo =
      (plainResponse (Some (state c'))
         "[TEXT_FORMAT]Olá! Qual pizza você deseja? [promoção][/END]", c', w') /\
      (state c' = 0%Z \/ state c' = 1%Z) /\ pedidos w' = []) /\
  entregar (fun _ _ => true)
    (plainResponse (Some 0%Z) "[TEXT_FORMAT]Olá! Qual pizza você deseja? [promoção][/END]") =
  mkRemessa ["Olá! Qual pizza você deseja? [promoção]"] None [].
Proof.
  destruct (C8_untagged_reply_is_wrapped Demo.plataforma Reparo.turnoSemTags
              "Olá! Qual pizza você deseja? [promoção]" eq_refl eq_refl eq_refl eq_refl)
    as (_ & H2 & _ & H4).
  split.
  - exact (H2 "5511999990000" "oi" false (Demo.conversa 0 JUndef None) Demo.mundo
              ltac:(discriminate) eq_refl eq_refl ltac:(reflexivity)).
  - exact (H4 (fun _ _ => true) (Some 0%Z) eq_refl eq_refl).
Defined.

(** C8 as stated fails: a reply that is a confirmation block alone has
    none of the four pairs and is wrapped, but with no order staged the
    customer is answered with another text, of which nothing is sent. *)
Lemma C8_counterexample :
  let res := processMessageInternally Demo.plataforma Reparo.turnoConfirmacao
               "5511999990000" "pode mandar" false (Demo.conversa 6 JUndef None)
               Demo.mundo in
  semFormato Demo.CONFIRMACAO = true /\
  aplicarFormatoPadrao Demo.CONFIRMACAO = TEXT_TAG ++ Demo.CONFIRMACAO ++ END_TAG /\
  text (fst (fst res)) = SEM_DETALHES /\
  textosEnviados (text (fst (fst res))) = [].
Proof.
  vm_compute. repeat split; reflexivity.
Qed.

(** A turn whose reply has no tag at all: the whole reply is sent. *)
Example untagged_reply_delivered :
  let res := processMessageInternally Demo.plataforma Reparo.turnoSemTags
               "5511999990000" "oi" false (Demo.conversa 0 JUndef None) Demo.mundo in
  text (fst (fst res)) = "[TEXT_FORMAT]Olá! Qual pizza você deseja? [promoção][/END]" /\
  success (fst (fst res)) = true /\
  textosEnviados (text (fst (fst res))) = ["Olá! Qual pizza você deseja? [promoção]"].
Proof.
  vm_compute. repeat split; reflexivity.
Qed.

(* ================================================================== *)
(** * Image requests in the customer's message *)

(** A text without an opening bracket and without a byte that begins
    white space. *)
Fixpoint simples (s : string) : bool :=
  match s with
  | EmptyString => true
  | String c s' => negb (abreEspaco c) && negb (Ascii.eqb c "["%char) && simples s'
  end.

Section ImageRequest.

Lemma simples_app (a b : string) : simples (a ++ b) = simples a && simples b.
Proof.
  induction a as [|c a IH]; [reflexivity|].
  change (String c a ++ b) with (String c (a ++ b)). simpl.
  rewrite IH. now rewrite !andb_assoc.
Qed.

Lemma simples_trimEnd (s : string) : simples s = true -> Js.trimEnd s = s.
Proof.
  induction s as [|c s IH]; [reflexivity|]. intro H. simpl in H.
  apply andb_prop in H. destruct H as [H Hs].
  apply andb_prop in H. destruct H as [Hc _]. apply negb_true_iff in Hc.
  rewrite trimEnd_cons, (allSpaces_abre c s Hc). now rewrite (IH Hs).
Qed.

Lemma simples_trim (s : string) : simples s = true -> Js.trim s = s.
Proof.
  intro H. unfold Js.trim.
  assert (Ht : Js.trimStart s = s).
  { destruct s as [|c s]; [reflexivity|]. simpl in H.
    apply andb_prop in H. destruct H as [H _].
    apply andb_prop in H. destruct H as [Hc _]. apply negb_true_iff in Hc.
    now apply trimStart_abre. }
  rewrite Ht. now apply simples_trimEnd.
Qed.

Lemma simples_no_tag (s t : string) :
  simples s = true -> Js.includes s (String "["%char t) = false.
Proof.
  induction s as [|c s IH]; intro H; [reflexivity|].
  simpl in H. apply andb_prop in H. destruct H as [H Hs].
  apply andb_prop in H. destruct H as [_ Hc]. apply negb_true_iff in Hc.
  rewrite includes_eq, (IH Hs), orb_false_r.
  change (Ascii.eqb "["%char c && Js.startsWith s t = false).
  rewrite Ascii.eqb_sym, Hc. reflexivity.
Qed.

Lemma pizzaTypes_simples : forallb (fun pz => simples (snd pz)) pizzaTypes = true.
Proof. reflexivity. Qed.

Lemma mencionado_simples (f : string * string -> bool) (pz : string * string) :
  In pz (filter f pizzaTypes) -> simples (snd pz) = true /\ In (snd pz) (map snd pizzaTypes).
Proof.
  intro H. apply filter_In in H. destruct H as [H _]. split.
  - pose proof pizzaTypes_simples as Hall. rewrite forallb_forall in Hall. now apply Hall.
  - now apply in_map.
Qed.

(** What [detectImageRequest] can answer. *)
Lemma detectImageRequest_cases (message : string) (ids : list string) :
  detectImageRequest message = Some ids ->
  ids = ["cardapio"] \/
  (exists a b, In a (map snd pizzaTypes) /\ In b (map snd pizzaTypes) /\
               ids = [a ++ "+" ++ b]) \/
  (ids <> [] /\ Forall (fun id => In id (map snd pizzaTypes)) ids).
Proof.
  unfold detectImageRequest.
  set (m := Js.toLowerCase message).
  set (f := fun pz : string * string => Js.includes m (fst pz)).
  destruct (negb _); [discriminate|].
  destruct (_ || _ || _ || _ && _); [intros [= <-]; now left|].
  assert (Hgen : forall l, l <> [] -> (forall pz, In pz l -> In pz (filter f pizzaTypes)) ->
                 map snd l <> [] /\ Forall (fun id => In id (map snd pizzaTypes)) (map snd l)).
  { intros l Hl Hin. split; [destruct l; [contradiction|discriminate]|].
    rewrite Forall_forall. intros id Hid. apply in_map_iff in Hid.
    destruct Hid as [pz [<- Hpz]]. now apply (mencionado_simples f), Hin. }
  destruct (filter f pizzaTypes) as [|s1 [|s2 rest]] eqn:E.
  - destruct (_ || _ || _ || _ && _); discriminate.
  - destruct (_ || _ || _ || _ && _); intros [= <-]; right; right;
      apply (Hgen [s1]); try discriminate; intros pz Hpz; exact Hpz.
  - destruct (_ || _ || _ || _ && _); intros [= <-].
    + right; left. exists (snd s1), (snd s2).
      assert (H1 : In s1 (filter f pizzaTypes)) by (rewrite E; now left).
      assert (H2 : In s2 (filter f pizzaTypes)) by (rewrite E; right; now left).
      repeat split;
        [exact (proj2 (mencionado_simples f s1 H1)) | exact (proj2 (mencionado_simples f s2 H2))].
    + right; right. apply (Hgen (s1 :: s2 :: rest)); [discriminate|].
      intros pz Hpz. exact Hpz.
Qed.

Lemma concat_cons (x : string) (l : list string) :
  String.concat "" (x :: l) = x ++ String.concat "" l.
Proof.
  destruct l as [|y l]; simpl; [now rewrite app_nil_r_s | reflexivity].
Qed.

Lemma render_image_blocks (ids : list string) (tail : string) :
  render IMAGE_TAG (map (fun id => (nl, id)) ids) tail =
  String.concat "" (map (fun id => nl ++ "[IMAGE_FORMAT]" ++ id ++ "[/END]") ids) ++ tail.
Proof.
  induction ids as [|id ids IH]; [reflexivity|].
  cbn [map]. rewrite concat_cons.
  change (render IMAGE_TAG ((nl, id) :: map (fun id0 => (nl, id0)) ids) tail)
    with (nl ++ IMAGE_TAG ++ id ++ END_TAG ++
          render IMAGE_TAG (map (fun id0 => (nl, id0)) ids) tail).
  rewrite IH. unfold IMAGE_TAG, END_TAG. now rewrite !app_assoc_s.
Qed.

Lemma wellFormed_image_blocks (pre0 id0 : string) (rest : list string) (tail : string) :
  Js.includes pre0 IMAGE_TAG = false ->
  simples id0 = true ->
  forallb simples rest = true ->
  matchBlock IMAGE_TAG tail = None ->
  wellFormed IMAGE_TAG ((pre0, id0) :: map (fun id => (nl, id)) rest) tail.
Proof.
  intros Hp H0 Hr Ht. split; [|exact Ht].
  constructor; [split; [exact Hp | now apply simples_no_tag]|].
  rewrite Forall_forall. intros [pre body] Hin.
  apply in_map_iff in Hin. destruct Hin as [id [[= <- <-] Hid]].
  rewrite forallb_forall in Hr. split; [reflexivity|].
  apply simples_no_tag. now apply Hr.
Qed.

Lemma imageMatches_simples (blocks : list (string * string)) (tail : string) :
  wellFormed IMAGE_TAG blocks tail ->
  forallb (fun pb => simples (snd pb) && negb (snd pb =? "")) blocks = true ->
  imageMatches (render IMAGE_TAG blocks tail) = map snd blocks.
Proof.
  intros Hw Hs. unfold imageMatches.
  rewrite (allBlocks_render IMAGE_TAG eq_refl blocks tail Hw).
  clear Hw. induction blocks as [|[pre body] rest IH]; [reflexivity|].
  cbn [forallb snd] in Hs. apply andb_prop in Hs. destruct Hs as [Hb Hrest].
  apply andb_prop in Hb. destruct Hb as [Hb Hne].
  cbn [map snd filter]. rewrite (simples_trim body Hb), Hne.
  f_equal. now apply IH.
Qed.

(** The canned reply to an image request shows exactly the identifiers
    asked for, as the resolver reads them. *)
Lemma respostaImagens_round_trip (ids : list string) :
  ids <> [] ->
  forallb (fun id => simples id && negb (id =? "")) ids = true ->
  (hd "" ids = "cardapio" -> ids = ["cardapio"]) ->
  imageMatches (respostaImagens ids) = ids.
Proof.
  intros Hne Hs Hc. destruct ids as [|id0 rest]; [contradiction|].
  cbn [forallb] in Hs. apply andb_prop in Hs. destruct Hs as [H0 Hrest].
  apply andb_prop in H0. destruct H0 as [H0 H0ne].
  assert (Hrs : forallb simples rest = true).
  { rewrite forallb_forall in *. intros x Hx. specialize (Hrest x Hx).
    apply andb_prop in Hrest. tauto. }
  unfold respostaImagens.
  destruct (String.eqb_spec id0 "cardapio") as [->|Hn].
  - rewrite (Hc eq_refl). reflexivity.
  - destruct rest as [|id1 rest].
    + change ("[TEXT_FORMAT]Aqui está a imagem da pizza solicitada:[/END]" ++ nl ++
              "[IMAGE_FORMAT]" ++ id0 ++ "[/END]" ++ nl ++
              "[TEXT_FORMAT]Gostaria de pedir esta pizza?[/END]")
        with (render IMAGE_TAG
                [("[TEXT_FORMAT]Aqui está a imagem da pizza solicitada:[/END]" ++ nl, id0)]
                (nl ++ "[TEXT_FORMAT]Gostaria de pedir esta pizza?[/END]")).
      rewrite imageMatches_simples; [reflexivity| |].
      * apply (wellFormed_image_blocks _ id0 [] _); reflexivity || assumption.
      * cbn [forallb snd]. now rewrite H0, H0ne.
    + set (header := "[TEXT_FORMAT]Aqui estão as imagens das pizzas solicitadas:[/END]").
      set (footer := nl ++ "[TEXT_FORMAT]Gostaria de pedir alguma destas pizzas?[/END]").
      assert (Hr : header ++
                   String.concat ""
                     (map (fun id => nl ++ "[IMAGE_FORMAT]" ++ id ++ "[/END]")
                          (id0 :: id1 :: rest)) ++ footer =
                   render IMAGE_TAG
                     ((header ++ nl, id0) :: map (fun id => (nl, id)) (id1 :: rest)) footer).
      { change (render IMAGE_TAG
                  ((header ++ nl, id0) :: map (fun id => (nl, id)) (id1 :: rest)) footer)
          with ((header ++ nl) ++ IMAGE_TAG ++ id0 ++ END_TAG ++
                render IMAGE_TAG (map (fun id => (nl, id)) (id1 :: rest)) footer).
        rewrite render_image_blocks.
        cbn [map]. rewrite (concat_cons (nl ++ "[IMAGE_FORMAT]" ++ id0 ++ "[/END]")).
        unfold IMAGE_TAG, END_TAG. now rewrite !app_assoc_s. }
      rewrite Hr.
      rewrite imageMatches_simples.
      * cbn [map snd]. f_equal. now rewrite map_map, map_id.
      * apply wellFormed_image_blocks; reflexivity || assumption.
      * cbn [forallb snd]. rewrite H0, H0ne. cbn [andb].
        rewrite forallb_forall. intros [pre body] Hin.
        apply in_map_iff in Hin. destruct Hin as [id [[= <- <-] Hid]].
        rewrite forallb_forall in Hrest. exact (Hrest id Hid).
Qed.

End ImageRequest.

(** X1. Whatever [detectImageRequest] answers is a list that is not
    empty: the menu alone, one composite of two identifiers of the table,
    or identifiers of the table. *)
Theorem X1_image_request_ids :
  forall message ids,
    detectImageRequest message = Some ids ->
    ids <> [] /\
    (ids = ["cardapio"] \/
     (exists a b, In a (map snd pizzaTypes) /\ In b (map snd pizzaTypes) /\
                  ids = [a ++ "+" ++ b]) \/
     Forall (fun id => In id (map snd pizzaTypes)) ids).
Proof.
  intros message ids H. apply detectImageRequest_cases in H.
  destruct H as [->|[(a & b & Ha & Hb & ->)|[Hne Hall]]].
  - split; [discriminate|now left].
  - split; [discriminate|]. right; left. now exists a, b.
  - split; [exact Hne|]. now right; right.
Qed.

Lemma X1_image_request_ids_witness :
  detectImageRequest "Quero ver meio Amazonas e meio Tropicale" =
  Some ["pizza-salgada_pizza-amazonas+pizza-salgada_pizza-tropicale"] /\
  ["pizza-salgada_pizza-amazonas+pizza-salgada_pizza-tropicale"] <> [].
Proof.
  assert (H : detectImageRequest "Quero ver meio Amazonas e meio Tropicale" =
              Some ["pizza-salgada_pizza-amazonas+pizza-salgada_pizza-tropicale"])
    by reflexivity.
  split; [exact H|].
  exact (proj1 (X1_image_request_ids _ _ H)).
Defined.

(** X2. The identifiers detected in the customer's message are exactly the
    image blocks the resolver collects from the canned reply built for
    them, in the same order. *)
Theorem X2_image_request_round_trip :
  forall message ids,
    detectImageRequest message = Some ids ->
    imageMatches (respostaImagens ids) = ids.
Proof.
  intros message ids H. apply detectImageRequest_cases in H.
  assert (Htab : forall id, In id (map snd pizzaTypes) ->
                            simples id = true /\ id <> "cardapio" /\ id <> "").
  { intros id Hin. simpl in Hin.
    repeat (destruct Hin as [<-|Hin]; [repeat split; discriminate || reflexivity|]).
    contradiction. }
  destruct H as [->|[(a & b & Ha & Hb & ->)|[Hne Hall]]].
  - reflexivity.
  - destruct (Htab a Ha) as (Sa & Na & Ea). destruct (Htab b Hb) as (Sb & _ & _).
    apply respostaImagens_round_trip; [discriminate| |].
    + cbn [forallb]. rewrite !simples_app, Sa, Sb. cbn.
      destruct a; [contradiction|reflexivity].
    + cbn [hd]. intro Hc. exfalso.
      assert (Hs : Js.includes (a ++ "+" ++ b) "+" = true)
        by (apply includes_app_r, includes_app_l; reflexivity).
      now rewrite Hc in Hs.
  - apply respostaImagens_round_trip; [exact Hne| |].
    + rewrite forallb_forall. intros id Hid. rewrite Forall_forall in Hall.
      destruct (Htab id (Hall id Hid)) as (S1 & _ & E1).
      rewrite S1. apply String.eqb_neq in E1. now rewrite E1.
    + destruct ids as [|id0 rest]; [contradiction|]. cbn [hd]. intro Hc.
      inversion Hall; subst. destruct (Htab _ H1) as (_ & N & _). contradiction.
Qed.

Lemma X2_image_request_round_trip_witness :
  imageMatches (respostaImagens ["pizza-salgada_pizza-amazonas"; "pizza-doce_pizza-dolce-banana"]) =
  ["pizza-salgada_pizza-amazonas"; "pizza-doce_pizza-dolce-banana"].
Proof.
  exact (X2_image_request_round_trip "mostra a amazonas e a banana" _ eq_refl).
Defined.

(* ================================================================== *)
(** * The address state of the detector *)

Section AddressState.

Lemma isDigit_lowerAscii (c : ascii) : Js.isDigit (Js.lowerAscii c) = Js.isDigit c.
Proof. destruct c as [[] [] [] [] [] [] [] []]; reflexivity. Qed.

Lemma isDigit_lowerLatin1 (c : ascii) : Js.isDigit (Js.lowerLatin1 c) = Js.isDigit c.
Proof. destruct c as [[] [] [] [] [] [] [] []]; reflexivity. Qed.

Lemma hasDigit_cons (c : ascii) (s : string) :
  Js.hasDigit (String c s) = Js.isDigit c || Js.hasDigit s.
Proof. reflexivity. Qed.

Lemma hasDigit_append (a b : string) :
  Js.hasDigit (a ++ b) = Js.hasDigit a || Js.hasDigit b.
Proof.
  induction a as [|c a IH]; [reflexivity|].
  cbn [append]. rewrite !hasDigit_cons, IH. now rewrite orb_assoc.
Qed.

Lemma is2_true (a b : ascii) (x y : nat) :
  Js.is2 a b x y = true -> a = ascii_of_nat x /\ b = ascii_of_nat y.
Proof.
  unfold Js.is2. intro H. apply andb_prop in H. destruct H as [H1 H2].
  apply Nat.eqb_eq in H1, H2.
  rewrite <- (ascii_nat_embedding a), <- (ascii_nat_embedding b), H1, H2. now split.
Qed.

Lemma is3_true (a b c : ascii) (x y z : nat) :
  Js.is3 a b c x y z = true ->
  a = ascii_of_nat x /\ b = ascii_of_nat y /\ c = ascii_of_nat z.
Proof.
  unfold Js.is3. intro H. apply andb_prop in H. destruct H as [H H3].
  apply andb_prop in H. destruct H as [H1 H2].
  apply Nat.eqb_eq in H1, H2, H3.
  rewrite <- (ascii_nat_embedding a), <- (ascii_nat_embedding b),
    <- (ascii_nat_embedding c), H1, H2, H3. now repeat split.
Qed.

Lemma toLowerCase_cons (a : ascii) (r1 : string) :
  Js.toLowerCase (String a r1) =
  match r1 with
  | EmptyString => String (Js.lowerAscii a) EmptyString
  | String b r2 =>
      if (nat_of_ascii a =? 195)%nat then
        String a (String (Js.lowerLatin1 b) (Js.toLowerCase r2))
      else if Js.is2 a b 196 176 then
        String "i"%char (Js.bytes2 204 135 ++ Js.toLowerCase r2)
      else if Js.is2 a b 197 184 then Js.bytes2 195 191 ++ Js.toLowerCase r2
      else
        match r2 with
        | EmptyString => String (Js.lowerAscii a) (Js.toLowerCase r1)
        | String c r3 =>
            if Js.is3 a b c 225 186 158 then Js.bytes2 195 159 ++ Js.toLowerCase r3
            else if Js.is3 a b c 226 132 170 then String "k"%char (Js.toLowerCase r3)
            else if Js.is3 a b c 226 132 171 then Js.bytes2 195 165 ++ Js.toLowerCase r3
            else String (Js.lowerAscii a) (Js.toLowerCase r1)
        end
  end.
Proof. destruct r1 as [|b [|c r3]]; reflexivity. Qed.

Lemma hasDigit_toLowerCase_le (n : nat) :
  forall s, (String.length s <= n)%nat -> Js.hasDigit (Js.toLowerCase s) = Js.hasDigit s.
Proof.
  induction n as [|n IH]; intros s Hn.
  - destruct s; [reflexivity | simpl in Hn; lia].
  - destruct s as [|a r1]; [reflexivity|]. simpl in Hn.
    assert (Hdef : Js.hasDigit (String (Js.lowerAscii a) (Js.toLowerCase r1)) =
                   Js.hasDigit (String a r1)).
    { rewrite !hasDigit_cons, isDigit_lowerAscii, (IH r1); [reflexivity | lia]. }
    rewrite toLowerCase_cons.
    destruct r1 as [|b r2].
    { now rewrite !hasDigit_cons, isDigit_lowerAscii. }
    simpl in Hn.
    destruct (nat_of_ascii a =? 195)%nat.
    { rewrite !hasDigit_cons, isDigit_lowerLatin1, (IH r2); [reflexivity | lia]. }
    destruct (Js.is2 a b 196 176) eqn:E1.
    { apply is2_true in E1. destruct E1 as [-> ->].
      cbn [Js.bytes2 append]. rewrite !hasDigit_cons, (IH r2); [reflexivity | lia]. }
    destruct (Js.is2 a b 197 184) eqn:E2.
    { apply is2_true in E2. destruct E2 as [-> ->].
      cbn [Js.bytes2 append]. rewrite !hasDigit_cons, (IH r2); [reflexivity | lia]. }
    destruct r2 as [|c r3]; [exact Hdef|].
    simpl in Hn.
    destruct (Js.is3 a b c 225 186 158) eqn:E3.
    { apply is3_true in E3. destruct E3 as (-> & -> & ->).
      cbn [Js.bytes2 append]. rewrite !hasDigit_cons, (IH r3); [reflexivity | lia]. }
    destruct (Js.is3 a b c 226 132 170) eqn:E4.
    { apply is3_true in E4. destruct E4 as (-> & -> & ->).
      rewrite !hasDigit_cons, (IH r3); [reflexivity | lia]. }
    destruct (Js.is3 a b c 226 132 171) eqn:E5.
    { apply is3_true in E5. destruct E5 as (-> & -> & ->).
      cbn [Js.bytes2 append]. rewrite !hasDigit_cons, (IH r3); [reflexivity | lia]. }
    exact Hdef.
Qed.

(** Lower case changes no digit. *)
Lemma hasDigit_toLowerCase (s : string) : Js.hasDigit (Js.toLowerCase s) = Js.hasDigit s.
Proof. apply (hasDigit_toLowerCase_le (String.length s)). lia. Qed.

Lemma hasDigit_trimStart (s : string) :
  Js.hasDigit (Js.trimStart s) = true -> Js.hasDigit s = true.
Proof.
  intro H. destruct (trimStart_suffix s) as [p Hp].
  rewrite Hp, hasDigit_append, H. apply orb_true_r.
Qed.

Lemma hasDigit_trimEnd (s : string) :
  Js.hasDigit (Js.trimEnd s) = true -> Js.hasDigit s = true.
Proof.
  induction s as [|c s IH]; [discriminate|].
  rewrite trimEnd_cons. destruct (Js.allSpaces (String c s)); [discriminate|].
  rewrite !hasDigit_cons. intro H. apply orb_prop in H. destruct H as [H|H].
  - now rewrite H.
  - rewrite (IH H). apply orb_true_r.
Qed.

Lemma onlyNumber_hasDigit (s : string) : Js.onlyNumber s = true -> Js.hasDigit s = true.
Proof.
  unfold Js.onlyNumber, Js.trim. intro H. apply andb_prop in H. destruct H as [Hne Hd].
  apply hasDigit_trimStart, hasDigit_trimEnd.
  destruct (Js.trimEnd (Js.trimStart s)) as [|c u]; [discriminate|].
  simpl in Hd. apply andb_prop in Hd. destruct Hd as [Hc _].
  rewrite hasDigit_cons, Hc. reflexivity.
Qed.

Lemma cepAt_hasDigit (s : string) : cepAt s = true -> Js.hasDigit s = true.
Proof.
  unfold cepAt. destruct s as [|c s]; [discriminate|]. simpl.
  destruct (Js.isDigit c); [reflexivity|discriminate].
Qed.

Lemma anywhere_hasDigit (f : string -> bool) (s : string) :
  (forall u, f u = true -> Js.hasDigit u = true) ->
  anywhere f s = true -> Js.hasDigit s = true.
Proof.
  intro Hf. induction s as [|c s IH]; simpl; intro H.
  - rewrite orb_false_r in H. now apply Hf in H.
  - apply orb_prop in H. destruct H as [H|H].
    + apply Hf in H. exact H.
    + rewrite (IH H). apply orb_true_r.
Qed.

(** In the address state the detector looks for a digit and for nothing
    else. *)
Lemma detector_state4 (botResponse userMessage : string) (c : Conversa) :
  checkIfShouldAdvanceState botResponse userMessage 4 c = JBool (Js.hasDigit userMessage).
Proof.
  unfold checkIfShouldAdvanceState. cbn [Z.eqb Pos.eqb].
  rewrite (hasDigit_toLowerCase userMessage).
  set (m := Js.toLowerCase userMessage).
  assert (Hm : Js.hasDigit m = Js.hasDigit userMessage) by apply hasDigit_toLowerCase.
  destruct (anywhere cepAt m) eqn:Ec.
  - apply (anywhere_hasDigit cepAt m cepAt_hasDigit) in Ec. rewrite Hm in Ec. rewrite Ec.
    cbn [andb]. destruct (leftmost commaNumberAt m); [reflexivity|].
    destruct (Js.onlyNumber m); reflexivity.
  - cbn [andb]. destruct (Js.onlyNumber m) eqn:Eo; [|destruct (Js.hasDigit userMessage); reflexivity].
    apply onlyNumber_hasDigit in Eo. rewrite Hm in Eo. now rewrite Eo.
Qed.

End AddressState.

(** X3. In the address state the state update goes on to the payment
    state exactly when the customer's message holds a digit, whatever the
    language model answered; nothing else is changed. *)
Theorem X3_address_state_advances_on_digit :
  forall botResponse message c w,
    state c = 4%Z ->
    atualizarEstado botResponse message c w =
    (None, (if Js.hasDigit message then setState c 5 else c), w).
Proof.
  intros botResponse message c w Hs. unfold atualizarEstado.
  rewrite Hs, detector_state4. cbn [truthy].
  destruct (Js.hasDigit message); reflexivity.
Qed.

Lemma X3_address_state_advances_on_digit_witness :
  atualizarEstado "[TEXT_FORMAT]Certo![/END]" "é o apartamento 32"
    (Demo.conversa 4 JUndef None) Demo.mundo =
  (None, Demo.conversa 5 JUndef None, Demo.mundo).
Proof.
  exact (X3_address_state_advances_on_digit "[TEXT_FORMAT]Certo![/END]" "é o apartamento 32"
           (Demo.conversa 4 JUndef None) Demo.mundo eq_refl).
Defined.

(* ================================================================== *)
(** * Looking up the conversation of a customer *)

Section Lookup.

Lemma replaceRow_fresh (c : Conversa) (rows : list Conversa) :
  ~ In (cid c) (map cid rows) -> replaceRow c rows = None.
Proof.
  induction rows as [|r rows IH]; [reflexivity|]. simpl. intro H.
  destruct (Nat.eqb_spec (cid r) (cid c)) as [E|_]; [exfalso; apply H; now left|].
  rewrite IH; [reflexivity|]. intro Hin. apply H. now right.
Qed.

(** A conversation just created becomes the newest one of its customer. *)
Lemma maisRecente_nova (userPhone : string) (agora_ : Z) (w : World) :
  maisRecente userPhone (saveConversa (novaConversa userPhone agora_ w) w) =
  Some (novaConversa userPhone agora_ w).
Proof.
  unfold maisRecente, saveConversa. cbn [conversas].
  rewrite (replaceRow_fresh (novaConversa userPhone agora_ w) (conversas w) (novoCid_fresh w)).
  cbn [find telefone novaConversa]. now rewrite String.eqb_refl.
Qed.

End Lookup.

(** X4. After [getOrCreateConversation] the newest stored conversation of
    the customer is the one that was returned. The stored conversation is
    returned as it is, and nothing is stored, exactly when the message is
    no reset, the conversation is not in state 7 and it began at most three
    hours ago; at exactly three hours it is still used. *)
Theorem X4_conversation_lookup :
  forall agora_ userPhone message w,
    let r := getOrCreateConversation agora_ userPhone message w in
    maisRecente userPhone (snd r) = Some (fst r) /\
    (forall c,
        maisRecente userPhone w = Some c ->
        (isResetRequest message = false /\ state c <> 7%Z /\
         (agora_ - inicio c <= 3 * 60 * 60 * 1000)%Z ->
         r = (c, w)) /\
        (isResetRequest message = true \/ state c = 7%Z \/
         (3 * 60 * 60 * 1000 < agora_ - inicio c)%Z ->
         r = (novaConversa userPhone agora_ w,
              saveConversa (novaConversa userPhone agora_ w) w))) /\
    (maisRecente userPhone w = None ->
     r = (novaConversa userPhone agora_ w,
          saveConversa (novaConversa userPhone agora_ w) w)).
Proof.
  intros agora_ userPhone message w r. subst r.
  unfold getOrCreateConversation, antiga.
  split; [|split].
  - destruct (isResetRequest message); [apply maisRecente_nova|].
    destruct (maisRecente userPhone w) as [c|] eqn:Em; [|apply maisRecente_nova].
    destruct ((state c =? 7)%Z || _); [apply maisRecente_nova | exact Em].
  - intros c Hc. rewrite Hc. split.
    + intros (Hr & Hs & Ha). rewrite Hr.
      apply Z.eqb_neq in Hs. rewrite Hs.
      assert (Hl : (3 * 60 * 60 * 1000 <? agora_ - inicio c)%Z = false)
        by (apply Z.ltb_ge; exact Ha).
      now rewrite Hl.
    + intros [Hr|[Hs|Ha]].
      * now rewrite Hr.
      * destruct (isResetRequest message); [reflexivity|].
        apply Z.eqb_eq in Hs. now rewrite Hs.
      * destruct (isResetRequest message); [reflexivity|].
        apply Z.ltb_lt in Ha. rewrite Ha. now rewrite orb_true_r.
  - intro Hn. rewrite Hn. destruct (isResetRequest message); reflexivity.
Qed.

(* ================================================================== *)
(** * The image route *)

Section ImageRoute.

Variable P : Platform.

Lemma findExact_some (db : list CardapioItem) (id : string) (item : CardapioItem) :
  findExact db id = Some item ->
  In item db /\ identificador item = id /\ disponivel item = true.
Proof.
  unfold findExact. intro H. apply find_some in H. destruct H as [Hin H].
  apply andb_prop in H. destruct H as [Hi Hd]. apply String.eqb_eq in Hi. tauto.
Qed.

Lemma findByNome_some (db : list CardapioItem) (pat : string) (item : CardapioItem) :
  findByNome P db pat = Some (Some item) -> In item db /\ disponivel item = true.
Proof.
  unfold findByNome. destruct (regexI P pat) as [test|]; [|discriminate].
  intros [= H]. apply find_some in H. destruct H as [Hin H].
  apply andb_prop in H. tauto.
Qed.

Lemma findBroad_some (db : list CardapioItem) (pat : string) (item : CardapioItem) :
  findBroad P db pat = Some (Some item) -> In item db /\ disponivel item = true.
Proof.
  unfold findBroad. destruct (regexI P pat) as [test|]; [|discriminate].
  intros [= H]. apply find_some in H. destruct H as [Hin H].
  apply andb_prop in H. tauto.
Qed.

(** Whatever the three lookups find is an available item of the menu. *)
Lemma resolveAdditional_some (db : list CardapioItem) (id : string) (item : CardapioItem) :
  resolveAdditional P db id = Some (Some item) -> In item db /\ disponivel item = true.
Proof.
  unfold resolveAdditional.
  destruct (findExact db id) as [it|] eqn:Ee.
  - intros [= <-]. apply findExact_some in Ee. tauto.
  - destruct (if Js.includes id "pizza-" then _ else _) as [[it|]|] eqn:En.
    + intros [= <-].
      destruct (Js.includes id "pizza-"); [|discriminate].
      destruct (truthyS _); [|discriminate].
      now apply findByNome_some in En.
    + apply findBroad_some.
    + discriminate.
Qed.

End ImageRoute.

(** X6. The image route answers 200, 400, 404 or 500. It succeeds only
    with the general picture and the caption of an item of the menu that
    is available and has a general picture; an item whose identifier is
    exactly the one asked for decides the answer alone: its picture, or
    404 when it has none, whatever other items would match. *)
Theorem X6_image_route :
  forall P db imageId,
    let r := getImageById P db imageId in
    In (ri_status r) [200%Z; 400%Z; 404%Z; 500%Z] /\
    (ri_success r = true <-> ri_status r = 200%Z) /\
    (ri_success r = true ->
     exists item,
       In item db /\ disponivel item = true /\ truthyS (imagemGeral item) = true /\
       ri_imageUrl r = imagemGeral item /\ ri_caption r = Some (captionItem item)) /\
    (imageId = "" -> ri_status r = 400%Z) /\
    (forall item,
        imageId <> "" ->
        findExact db imageId = Some item ->
        r = if truthyS (imagemGeral item)
            then mkRespostaImagem 200 true None (imagemGeral item) (Some (captionItem item))
            else mkRespostaImagem 404 false (Some "Imagem não encontrada") None None).
Proof.
  intros P db imageId r. subst r. unfold getImageById.
  destruct (String.eqb_spec imageId "") as [E|E].
  - cbn. repeat split; try discriminate; try tauto.
  - assert (Hex : forall item, findExact db imageId = Some item ->
                               resolveAdditional P db imageId = Some (Some item))
      by (intros item He; unfold resolveAdditional; now rewrite He).
    destruct (resolveAdditional P db imageId) as [[item|]|] eqn:Er.
    + pose proof (resolveAdditional_some P db imageId item Er) as [Hin Hd].
      destruct (truthyS (imagemGeral item)) eqn:Et; cbn;
        repeat split; try tauto; try discriminate;
        try (intros item' _ He; apply Hex in He; injection He as <-; now rewrite Et).
      intros _. exists item. repeat split; assumption.
    + cbn. repeat split; try tauto; try discriminate.
      intros item' _ He. apply Hex in He. discriminate.
    + cbn. repeat split; try tauto; try discriminate.
      intros item' _ He. apply Hex in He. discriminate.
Qed.

(* ================================================================== *)
(** * The payment methods of the prompt *)

Lemma fold_left_concat {A : Type} (f : A -> string) (l : list A) (acc : string) :
  fold_left (fun result x => result ++ f x) l acc = acc ++ String.concat "" (map f l).
Proof.
  revert acc. induction l as [|x l IH]; intro acc.
  - simpl. now rewrite app_nil_r_s.
  - cbn [fold_left map]. rewrite IH, concat_cons. now rewrite app_assoc_s.
Qed.

Lemma concat_app_s (l1 l2 : list string) :
  String.concat "" (l1 ++ l2) = String.concat "" l1 ++ String.concat "" l2.
Proof.
  induction l1 as [|x l1 IH]; [reflexivity|].
  change ((x :: l1) ++ l2)%list with (x :: (l1 ++ l2))%list.
  rewrite !concat_cons, IH. now rewrite app_assoc_s.
Qed.

Lemma includes_concat (x : string) (l : list string) :
  In x l -> Js.includes (String.concat "" l) x = true.
Proof.
  induction l as [|y l IH]; [contradiction|]. rewrite concat_cons. intros [->|H].
  - apply includes_self_app.
  - apply includes_app_r. now apply IH.
Qed.

(** X8. The payment text of the prompt lists every method given, each
    on its own line, in the order given, with the note on change where
    the method asks for it; the text of two lists put together is the two
    texts put together. *)
Theorem X8_payment_lines :
  forall l,
    formatPagamentoForPrompt (Some l) = String.concat "" (map linhaPagamento l) /\
    (forall forma, In forma l ->
                   Js.includes (formatPagamentoForPrompt (Some l)) (linhaPagamento forma) = true) /\
    (forall l2, formatPagamentoForPrompt (Some (l ++ l2)%list) =
                formatPagamentoForPrompt (Some l) ++ formatPagamentoForPrompt (Some l2)).
Proof.
  intro l.
  assert (H : forall k, formatPagamentoForPrompt (Some k) =
                        String.concat "" (map linhaPagamento k)).
  { intro k. unfold formatPagamentoForPrompt. now rewrite fold_left_concat. }
  split; [apply H|split].
  - intros forma Hin. rewrite H. apply includes_concat. now apply in_map.
  - intro l2. rewrite !H, map_app. apply concat_app_s.
Qed.

(* ================================================================== *)
(** * The menu of the prompt *)

(** The texts of a list without repetition, each where it first occurs. *)
Fixpoint primeiras (l : list string) : list string :=
  match l with
  | [] => []
  | x :: rest => x :: filter (fun y => negb (y =? x)) (primeiras rest)
  end.

Definition categoriaDe (item : ItemPrompt) : string :=
  match ip_categoria item with Some k => k | None => "" end.

(** An item the menu can print under a category of its own name: it has
    a category, which is no inherited name and no array index, and a
    price. *)
Definition imprimivel (item : ItemPrompt) : bool :=
  match ip_categoria item, ip_preco item with
  | Some k, Some _ =>
      negb (existsb (String.eqb k) herdadas) &&
      match indiceDe k with Some _ => false | None => true end
  | _, _ => false
  end.

(** The groups as the specification of the grouping has them. *)
Definition gruposDe (items : list ItemPrompt) : list (string * list ItemPrompt) :=
  map (fun k => (k, filter (fun it => categoriaDe it =? k) items))
      (primeiras (map categoriaDe items)).

Section Menu.

Variable P : Platform.

Definition linhaDe (item : ItemPrompt) : string :=
  match linhaItem P item with Some l => l | None => "" end.

Definition blocoDe (g : string * list ItemPrompt) : string :=
  nl ++ fst g ++ ":" ++ nl ++ String.concat "" (map linhaDe (snd g)).

Lemma primeiras_in (l : list string) (x : string) : In x (primeiras l) <-> In x l.
Proof.
  induction l as [|y l IH]; [reflexivity|]. cbn [primeiras]. split.
  - intros [->|H]; [now left|]. apply filter_In in H. right. now apply IH.
  - intros [->|H]; [now left|].
    destruct (String.eqb_spec x y) as [->|Hn]; [now left|].
    right. apply filter_In. split; [now apply IH|].
    apply negb_true_iff. now apply String.eqb_neq.
Qed.

Lemma filter_snoc {A : Type} (f : A -> bool) (l : list A) (x : A) :
  filter f (l ++ [x]) = (filter f l ++ (if f x then [x] else []))%list.
Proof. now rewrite filter_app. Qed.

Lemma primeiras_snoc (l : list string) (k : string) :
  primeiras (l ++ [k]) =
  if existsb (String.eqb k) l then primeiras l else (primeiras l ++ [k])%list.
Proof.
  induction l as [|y l IH]; [reflexivity|].
  change ((y :: l) ++ [k])%list with (y :: (l ++ [k]))%list.
  cbn [primeiras existsb]. rewrite IH.
  destruct (String.eqb_spec k y) as [->|Hn]; cbn [orb].
  - destruct (existsb (String.eqb y) l); [reflexivity|].
    rewrite filter_snoc, String.eqb_refl. cbn. now rewrite app_nil_r.
  - destruct (existsb (String.eqb k) l); [reflexivity|].
    rewrite filter_snoc. apply String.eqb_neq in Hn. rewrite Hn. reflexivity.
Qed.

Lemma primeiras_NoDup (l : list string) : NoDup (primeiras l).
Proof.
  induction l as [|y l IH]; [constructor|]. cbn [primeiras]. constructor.
  - intro H. apply filter_In in H. destruct H as [_ H].
    now rewrite String.eqb_refl in H.
  - now apply NoDup_filter.
Qed.

Lemma existsb_eqb_In (k : string) (l : list string) :
  existsb (String.eqb k) l = true <-> In k l.
Proof.
  rewrite existsb_exists. split.
  - intros [x [Hx E]]. apply String.eqb_eq in E. now subst.
  - intro H. exists k. split; [exact H | apply String.eqb_refl].
Qed.

(** Putting an item into the groups of a list gives the groups of the
    list with the item at its end. *)
Lemma inserirNoGrupo_spec (pre : list ItemPrompt) (item : ItemPrompt) (ks : list string) :
  NoDup ks ->
  (~ In (categoriaDe item) ks ->
   filter (fun it => categoriaDe it =? categoriaDe item) pre = []) ->
  inserirNoGrupo (categoriaDe item) item
    (map (fun k => (k, filter (fun it => categoriaDe it =? k) pre)) ks) =
  map (fun k => (k, filter (fun it => categoriaDe it =? k) (pre ++ [item])))
      (if existsb (String.eqb (categoriaDe item)) ks then ks else (ks ++ [categoriaDe item])%list).
Proof.
  set (k0 := categoriaDe item).
  induction ks as [|k ks IH]; intros Hnd Hnew.
  - cbn. rewrite filter_snoc. fold k0. rewrite String.eqb_refl.
    rewrite Hnew; [reflexivity|]. intros [].
  - cbn [map inserirNoGrupo existsb]. inversion Hnd as [|? ? Hk Hnd']; subst.
    rewrite (String.eqb_sym k0 k).
    destruct (String.eqb_spec k k0) as [->|Hn]; cbn [orb].
    + cbn [map]. rewrite filter_snoc. fold k0. rewrite String.eqb_refl. f_equal.
      apply map_ext_in. intros k' Hk'. rewrite filter_snoc. fold k0.
      destruct (String.eqb_spec k0 k') as [<-|_]; [contradiction|].
      now rewrite app_nil_r.
    + assert (E : (if existsb (String.eqb k0) ks then k :: ks else k :: ks ++ [k0]) =
                  k :: (if existsb (String.eqb k0) ks then ks else ks ++ [k0]))
        by (destruct (existsb (String.eqb k0) ks); reflexivity).
      change ((k :: ks) ++ [k0])%list with (k :: (ks ++ [k0]))%list.
      rewrite E. cbn [map]. rewrite IH.
      * f_equal. rewrite filter_snoc. fold k0.
        destruct (String.eqb_spec k0 k) as [->|_]; [contradiction|].
        now rewrite app_nil_r.
      * exact Hnd'.
      * intro Hni. apply Hnew. intros [->|H]; [now apply Hn|contradiction].
Qed.

Lemma gruposDe_snoc (pre : list ItemPrompt) (item : ItemPrompt) :
  inserirNoGrupo (categoriaDe item) item (gruposDe pre) = gruposDe (pre ++ [item]).
Proof.
  unfold gruposDe. rewrite map_app. cbn [map]. rewrite primeiras_snoc.
  assert (Hb : existsb (String.eqb (categoriaDe item)) (primeiras (map categoriaDe pre)) =
               existsb (String.eqb (categoriaDe item)) (map categoriaDe pre)).
  { apply eq_true_iff_eq. rewrite !existsb_eqb_In. apply primeiras_in. }
  rewrite <- Hb. apply inserirNoGrupo_spec; [apply primeiras_NoDup|].
  intro Hni. rewrite primeiras_in in Hni. clear Hb.
  induction pre as [|it pre IH]; [reflexivity|]. cbn [filter].
  destruct (String.eqb_spec (categoriaDe it) (categoriaDe item)) as [E|_].
  - exfalso. apply Hni. left. exact E.
  - apply IH. intro H. apply Hni. now right.
Qed.

(** The first loop builds the groups. *)
Lemma agrupar_spec (items pre : list ItemPrompt) :
  forallb imprimivel items = true ->
  agrupar items (gruposDe pre) = Some (gruposDe (pre ++ items)).
Proof.
  revert pre. induction items as [|item items IH]; intros pre H.
  - now rewrite app_nil_r.
  - cbn [forallb] in H. apply andb_prop in H. destruct H as [Hi Hrest].
    cbn [agrupar]. unfold imprimivel in Hi.
    destruct (ip_categoria item) as [k|] eqn:Ek; [|discriminate].
    destruct (ip_preco item); [|discriminate].
    apply andb_prop in Hi. destruct Hi as [Hh _]. apply negb_true_iff in Hh. rewrite Hh.
    assert (Hk : k = categoriaDe item) by (unfold categoriaDe; now rewrite Ek).
    rewrite Hk, gruposDe_snoc, (IH (pre ++ [item])%list Hrest).
    now rewrite <- app_assoc.
Qed.

Lemma chavesProprias_plain {A : Type} (grupos : list (string * A)) :
  forallb (fun g => match indiceDe (fst g) with Some _ => false | None => true end) grupos = true ->
  chavesProprias grupos = grupos.
Proof.
  intro H. unfold chavesProprias.
  assert (Hs : fold_right
                 (fun g acc => match indiceDe (fst g) with
                               | Some i => inserirPorIndice i g acc
                               | None => acc
                               end) [] grupos = []).
  { induction grupos as [|g grupos IH]; [reflexivity|].
    cbn [forallb] in H. apply andb_prop in H. destruct H as [Hg Hr].
    cbn [fold_right]. rewrite (IH Hr). destruct (indiceDe (fst g)); [discriminate|reflexivity]. }
  rewrite Hs. cbn [map app].
  induction grupos as [|g grupos IH]; [reflexivity|].
  cbn [forallb] in H. apply andb_prop in H. destruct H as [Hg Hr].
  cbn [filter]. rewrite Hg. f_equal. apply IH; [exact Hr|].
  clear -Hr. induction grupos as [|g' grupos IH]; [reflexivity|].
  cbn [forallb] in Hr. apply andb_prop in Hr. destruct Hr as [Hg Hr].
  cbn [fold_right]. rewrite (IH Hr). destruct (indiceDe (fst g')); [discriminate|reflexivity].
Qed.

Lemma formatarItens_spec (items : list ItemPrompt) (result : string) :
  forallb imprimivel items = true ->
  formatarItens P items result = Some (result ++ String.concat "" (map linhaDe items)).
Proof.
  revert result. induction items as [|item items IH]; intros result H.
  - cbn. now rewrite app_nil_r_s.
  - cbn [forallb] in H. apply andb_prop in H. destruct H as [Hi Hrest].
    cbn [formatarItens map]. rewrite concat_cons. unfold linhaDe at 1.
    assert (Hl : exists l, linhaItem P item = Some l).
    { unfold linhaItem, imprimivel in *. destruct (ip_categoria item); [|discriminate].
      destruct (ip_preco item); [eexists; reflexivity|discriminate]. }
    destruct Hl as [l Hl]. rewrite Hl, (IH _ Hrest). now rewrite app_assoc_s.
Qed.

Lemma formatarGrupos_spec (grupos : list (string * list ItemPrompt)) (result : string) :
  forallb (fun g => forallb imprimivel (snd g)) grupos = true ->
  formatarGrupos P grupos result = Some (result ++ String.concat "" (map blocoDe grupos)).
Proof.
  revert result. induction grupos as [|[k its] grupos IH]; intros result H.
  - cbn. now rewrite app_nil_r_s.
  - cbn [forallb snd] in H. apply andb_prop in H. destruct H as [Hi Hrest].
    cbn [formatarGrupos map]. rewrite concat_cons.
    rewrite (formatarItens_spec its _ Hi), (IH _ Hrest).
    unfold blocoDe. cbn [fst snd]. now rewrite !app_assoc_s.
Qed.

End Menu.

(** X9. For items that each have a price and a category (no array index
    and no name every object inherits), the menu text of the prompt has
    one block for each category, in the order in which the categories
    first occur; the block is the heading with the name of the category
    and then the lines of exactly its items, in the order of the list. *)
Theorem X9_menu_grouped_by_category :
  forall P items,
    forallb imprimivel items = true ->
    formatCardapioForPrompt P (Some items) =
    String.concat ""
      (map (fun k =>
              nl ++ k ++ ":" ++ nl ++
              String.concat ""
                (map (linhaDe P) (filter (fun it => categoriaDe it =? k) items)))
           (primeiras (map categoriaDe items))).
Proof.
  intros P items H. unfold formatCardapioForPrompt.
  change (@nil (string * list ItemPrompt)) with (gruposDe []).
  rewrite (agrupar_spec items [] H). cbn [app].
  assert (Hin : forall it, In it items -> imprimivel it = true)
    by (now apply forallb_forall).
  rewrite chavesProprias_plain.
  - rewrite formatarGrupos_spec.
    + unfold gruposDe. rewrite map_map. reflexivity.
    + apply forallb_forall. intros [k its] Hg. unfold gruposDe in Hg.
      apply in_map_iff in Hg. destruct Hg as [k' [[= <- <-] _]]. cbn [snd].
      apply forallb_forall. intros it Hit. apply filter_In in Hit. now apply Hin.
  - apply forallb_forall. intros [k its] Hg. unfold gruposDe in Hg.
    apply in_map_iff in Hg. destruct Hg as [k' [[= <- <-] Hk]]. cbn [fst].
    apply primeiras_in, in_map_iff in Hk. destruct Hk as [it [<- Hit]].
    specialize (Hin it Hit). unfold imprimivel, categoriaDe in *.
    destruct (ip_categoria it); [|discriminate]. destruct (ip_preco it); [|discriminate].
    apply andb_prop in Hin. tauto.
Qed.

(** The items of the examples: two pizzas, a drink between them, and an item without price. *)
Module Vitrine.

Definition amazonas : ItemPrompt :=
  mkItemPrompt (Some "Amazonas") (Some "Tucupi e jambu") (Some "Pizzas Salgadas")
               (Some 45.5%float) (Some "Belém").

Definition guarana : ItemPrompt :=
  mkItemPrompt (Some "Guaraná") None (Some "Bebidas") (Some 2%float) None.

Definition tropicale : ItemPrompt :=
  mkItemPrompt (Some "Tropicale") (Some "Frutas") (Some "Pizzas Salgadas")
               (Some 91%float) None.

Definition semPreco : ItemPrompt :=
  mkItemPrompt (Some "Surpresa") None (Some "Bebidas") None None.

End Vitrine.

Lemma X9_menu_grouped_by_category_witness :
  formatCardapioForPrompt Demo.plataforma
    (Some [Vitrine.amazonas; Vitrine.guarana; Vitrine.tropicale]) =
  String.concat ""
    (map (fun k =>
            nl ++ k ++ ":" ++ nl ++
            String.concat ""
              (map (linhaDe Demo.plataforma)
                   (filter (fun it => categoriaDe it =? k)
                           [Vitrine.amazonas; Vitrine.guarana; Vitrine.tropicale])))
         (primeiras (map categoriaDe [Vitrine.amazonas; Vitrine.guarana; Vitrine.tropicale]))).
Proof.
  apply (X9_menu_grouped_by_category Demo.plataforma
           [Vitrine.amazonas; Vitrine.guarana; Vitrine.tropicale]).
  vm_compute. reflexivity.
Defined.

Section MenuFailure.

Variable P : Platform.

Definition noGrupo (it : ItemPrompt) (grupos : list (string * list ItemPrompt)) : Prop :=
  exists g, In g grupos /\ In it (snd g).

Lemma inserirNoGrupo_in (k : string) (item it : ItemPrompt) grupos :
  it = item \/ noGrupo it grupos -> noGrupo it (inserirNoGrupo k item grupos).
Proof.
  induction grupos as [|[k' its] grupos IH]; intros H.
  - destruct H as [->|[g [[] _]]]. exists (k, [item]). split; now left.
  - cbn [inserirNoGrupo]. destruct (k' =? k).
    + destruct H as [->|[g [[<-|Hg] Hi]]].
      * exists (k', (its ++ [item])%list). split; [now left|]. cbn. apply in_or_app. right. now left.
      * exists (k', (its ++ [item])%list). split; [now left|]. cbn. apply in_or_app. now left.
      * exists g. split; [now right|exact Hi].
    + destruct H as [->|[g [[<-|Hg] Hi]]].
      * destruct IH as [g [Hg Hi]]; [now left|]. exists g. split; [now right|exact Hi].
      * exists (k', its). split; [now left|exact Hi].
      * destruct IH as [g' [Hg' Hi']]; [right; now exists g|].
        exists g'. split; [now right|exact Hi'].
Qed.

Lemma agrupar_in (items : list ItemPrompt) grupos grupos' (it : ItemPrompt) :
  agrupar items grupos = Some grupos' ->
  In it items \/ noGrupo it grupos -> noGrupo it grupos'.
Proof.
  revert grupos. induction items as [|item items IH]; intros grupos H Hin.
  - cbn in H. injection H as <-. destruct Hin as [[]|Hin]. exact Hin.
  - cbn [agrupar] in H. destruct (ip_categoria item) as [k|]; [|discriminate].
    destruct (existsb (String.eqb k) herdadas); [discriminate|].
    apply (IH _ H). destruct Hin as [[<-|Hin]|Hin].
    + right. apply inserirNoGrupo_in. now left.
    + now left.
    + right. apply inserirNoGrupo_in. now right.
Qed.

Lemma agrupar_sem_categoria (items : list ItemPrompt) grupos :
  (exists it, In it items /\ ip_categoria it = None) -> agrupar items grupos = None.
Proof.
  revert grupos. induction items as [|item items IH]; intros grupos [it [Hin Hc]].
  - destruct Hin.
  - cbn [agrupar]. destruct Hin as [<-|Hin]; [now rewrite Hc|].
    destruct (ip_categoria item); [|reflexivity].
    destruct (existsb _ herdadas); [reflexivity|]. apply IH. now exists it.
Qed.

Lemma inserirPorIndice_in {A : Type} (i : N) (x : A) (l : list (N * A)) (e : N * A) :
  e = (i, x) \/ In e l -> In e (inserirPorIndice i x l).
Proof.
  induction l as [|[j y] l IH]; intros H.
  - destruct H as [->|[]]. now left.
  - cbn [inserirPorIndice]. destruct (i <=? j)%N.
    + destruct H as [->|H]; [now left|now right].
    + destruct H as [->|[<-|H]].
      * right. apply IH. now left.
      * now left.
      * right. apply IH. now right.
Qed.

Lemma chavesProprias_in {A : Type} (grupos : list (string * A)) (g : string * A) :
  In g grupos -> In g (chavesProprias grupos).
Proof.
  intro H. unfold chavesProprias. apply in_or_app.
  destruct (indiceDe (fst g)) as [i|] eqn:Ei.
  - left. apply in_map_iff. exists (i, g). split; [reflexivity|].
    induction grupos as [|g' grupos IH]; [destruct H|].
    cbn [fold_right]. destruct H as [->|H].
    + rewrite Ei. apply inserirPorIndice_in. now left.
    + destruct (indiceDe (fst g')); [apply inserirPorIndice_in; right|]; now apply IH.
  - right. apply filter_In. split; [exact H|]. now rewrite Ei.
Qed.

Lemma formatarItens_sem_preco (items : list ItemPrompt) (result : string) :
  (exists it, In it items /\ ip_preco it = None) -> formatarItens P items result = None.
Proof.
  revert result. induction items as [|item items IH]; intros result [it [Hin Hp]].
  - destruct Hin.
  - cbn [formatarItens]. unfold linhaItem at 1. destruct Hin as [<-|Hin]; [now rewrite Hp|].
    destruct (ip_preco item); [|reflexivity]. apply IH. now exists it.
Qed.

Lemma formatarGrupos_sem_preco grupos (result : string) (it : ItemPrompt) :
  noGrupo it grupos -> ip_preco it = None -> formatarGrupos P grupos result = None.
Proof.
  revert result. induction grupos as [|[k its] grupos IH]; intros result [g [Hg Hi]] Hp.
  - destruct Hg.
  - cbn [formatarGrupos]. destruct Hg as [<-|Hg].
    + rewrite formatarItens_sem_preco; [reflexivity|]. now exists it.
    + destruct (formatarItens P its _); [|reflexivity]. apply IH; [now exists g|exact Hp].
Qed.

End MenuFailure.

(** X10. One menu item without category or without price is enough for
    the whole menu text of the prompt to be the fallback sentence: no
    other item is printed. *)
Theorem X10_menu_fails_as_a_whole :
  forall P items it,
    In it items ->
    ip_categoria it = None \/ ip_preco it = None ->
    formatCardapioForPrompt P (Some items) = "Cardápio não disponível".
Proof.
  intros P items it Hin [Hc|Hp]; unfold formatCardapioForPrompt.
  - rewrite agrupar_sem_categoria; [reflexivity|]. now exists it.
  - destruct (agrupar items []) as [grupos|] eqn:Eg; [|reflexivity].
    rewrite (formatarGrupos_sem_preco P _ _ it); [reflexivity| |exact Hp].
    destruct (agrupar_in _ _ _ it Eg) as [g [Hg Hi]]; [now left|].
    exists g. split; [now apply chavesProprias_in|exact Hi].
Qed.

Lemma X10_menu_fails_as_a_whole_witness :
  formatCardapioForPrompt Demo.plataforma
    (Some [Vitrine.amazonas; Vitrine.semPreco; Vitrine.tropicale]) = "Cardápio não disponível".
Proof.
  apply (X10_menu_fails_as_a_whole Demo.plataforma _ Vitrine.semPreco).
  - right. now left.
  - right. reflexivity.
Defined.

(* ================================================================== *)
(** * The spoken confirmation *)

(** The value is neither [null] nor [undefined]: its properties can be
    read. *)
Definition naoNulo (v : JValue) : bool :=
  match v with JUndef | JNull => false | _ => true end.

Section Confirmacao.

Variable P : Platform.

(** The line of one item. *)
Definition linhaConfirmacao (item : JValue) : string :=
  "- " ++ jsToString P (jsOr (getProp item "quantidade") (JNum 1%float)) ++ "x *" ++
  jsToString P (getProp item "nome") ++ "*: R$" ++ toFixed2 P (precoDe P item) ++
  " = R$" ++ toFixed2 P (PrimFloat.mul (precoDe P item) (quantidadeDe P item)) ++ nl.

(** The address the confirmation names. *)
Definition enderecoConfirmado (pedidoData : JValue) (conversa : option Conversa) : string :=
  match conversa with
  | Some c =>
      match addressData c with
      | Some ad =>
          match formattedAddress ad with
          | Some s => if s =? "" then jsToString P (getProp pedidoData "endereco") else s
          | None => jsToString P (getProp pedidoData "endereco")
          end
      | None => jsToString P (getProp pedidoData "endereco")
      end
  | None => jsToString P (getProp pedidoData "endereco")
  end.

Lemma prop_naoNulo (v : JValue) (k : string) :
  naoNulo v = true -> prop v k = Some (getProp v k).
Proof. destruct v; intro H; try discriminate; reflexivity. Qed.

Lemma prop_nulo (v : JValue) (k : string) :
  naoNulo v = false -> prop v k = None.
Proof. destruct v; intro H; try discriminate; reflexivity. Qed.

Lemma linhasConfirmacao_spec (items : list JValue) (texto : string) (total : float) :
  forallb naoNulo items = true ->
  linhasConfirmacao P items texto total =
  Some (texto ++ String.concat "" (map linhaConfirmacao items),
        fold_left (fun acc item =>
                     PrimFloat.add acc (PrimFloat.mul (precoDe P item) (quantidadeDe P item)))
                  items total).
Proof.
  revert texto total. induction items as [|item items IH]; intros texto total H.
  - cbn. now rewrite app_nil_r_s.
  - cbn [forallb] in H. apply andb_prop in H. destruct H as [Hi Hr].
    cbn [linhasConfirmacao]. rewrite !(prop_naoNulo _ _ Hi). rewrite (IH _ _ Hr).
    cbn [map fold_left]. rewrite concat_cons. unfold linhaConfirmacao at 2.
    unfold precoDe, quantidadeDe. rewrite !app_assoc_s. reflexivity.
Qed.

Lemma linhasConfirmacao_nulo (items : list JValue) (texto : string) (total : float) :
  forallb naoNulo items = false -> linhasConfirmacao P items texto total = None.
Proof.
  revert texto total. induction items as [|item items IH]; intros texto total H.
  - discriminate.
  - cbn [forallb] in H. cbn [linhasConfirmacao].
    destruct (naoNulo item) eqn:Hi.
    + rewrite !(prop_naoNulo _ _ Hi). apply IH. exact H.
    + now rewrite (prop_nulo _ _ Hi).
Qed.

Lemma enderecoConfirmado_eq (pedidoData : JValue) (conversa : option Conversa) :
  match conversa with
  | Some c =>
      match addressData c with
      | Some ad =>
          if truthyS (formattedAddress ad) then showS (formattedAddress ad)
          else jsToString P (getProp pedidoData "endereco")
      | None => jsToString P (getProp pedidoData "endereco")
      end
  | None => jsToString P (getProp pedidoData "endereco")
  end = enderecoConfirmado pedidoData conversa.
Proof.
  unfold enderecoConfirmado. destruct conversa as [c|]; [|reflexivity].
  destruct (addressData c) as [ad|]; [|reflexivity].
  destruct (formattedAddress ad) as [s|]; [|reflexivity].
  cbn. destruct (s =? ""); reflexivity.
Qed.

End Confirmacao.

(** X11. The confirmation text that is read out: for a staged order with
    a list of items (none of them null), an address and a payment, the
    text has one line for each item in the order of the list, the total
    is the sum of price times quantity over the items, and the address is
    the validated address of the conversation when it has one, the
    address of the order otherwise. *)
Theorem X11_spoken_confirmation :
  forall P pedidoData conversa items,
    getProp pedidoData "items" = JArr items ->
    truthy (getProp pedidoData "endereco") = true ->
    truthy (getProp pedidoData "pagamento") = true ->
    forallb naoNulo items = true ->
    gerarTextoConfirmacaoPedido P pedidoData conversa =
    "🎉 *PEDIDO CONFIRMADO* 🎉" ++ nl ++ nl ++ "*Itens:*" ++ nl ++
    String.concat "" (map (linhaConfirmacao P) items) ++ nl ++
    "*Valor Total:* R$" ++ toFixed2 P (somaPrecoVezesQuantidade P items) ++ nl ++
    "*Endereço de Entrega:* " ++ enderecoConfirmado P pedidoData conversa ++ nl ++
    "*Forma de Pagamento:* " ++ jsToString P (getProp pedidoData "pagamento") ++ nl ++ nl ++
    "Seu pedido será entregue em aproximadamente 50 minutos. Obrigado pela preferência! 🍕".
Proof.
  intros P pd conversa items Hit He Hp Hn.
  unfold gerarTextoConfirmacaoPedido.
  assert (Ht : truthy pd = true).
  { destruct pd; try reflexivity; cbn in Hit; discriminate. }
  rewrite Ht, Hit, He, Hp. cbn [truthy negb orb].
  rewrite (linhasConfirmacao_spec P items _ _ Hn).
  rewrite enderecoConfirmado_eq. unfold somaPrecoVezesQuantidade.
  rewrite !app_assoc_s. reflexivity.
Qed.

Lemma X11_spoken_confirmation_witness :
  gerarTextoConfirmacaoPedido Demo.plataforma (Demo.pedidoDemo "Rua Augusta, 1234") None =
  "🎉 *PEDIDO CONFIRMADO* 🎉" ++ nl ++ nl ++ "*Itens:*" ++ nl ++
  "- 2x *Amazonas*: R$45.50 = R$91.00" ++ nl ++ nl ++
  "*Valor Total:* R$91.00" ++ nl ++
  "*Endereço de Entrega:* Rua Augusta, 1234" ++ nl ++
  "*Forma de Pagamento:* pix" ++ nl ++ nl ++
  "Seu pedido será entregue em aproximadamente 50 minutos. Obrigado pela preferência! 🍕".
Proof.
  rewrite (X11_spoken_confirmation Demo.plataforma (Demo.pedidoDemo "Rua Augusta, 1234") None
             [JObj [("nome", JStr "Amazonas"); ("quantidade", JNum 2%float);
                    ("preco", JNum 45.5%float)]]);
    vm_compute; reflexivity.
Defined.

(** X12. The confirmation text falls back to the short default sentence
    as a whole when the staged order lacks its items, its address or its
    payment, when the items are no list, or when one item of the list is
    null: no line of the other items remains. *)
Theorem X12_spoken_confirmation_fallback :
  forall P pedidoData conversa,
    (truthy (getProp pedidoData "items") = false \/
     truthy (getProp pedidoData "endereco") = false \/
     truthy (getProp pedidoData "pagamento") = false \/
     isArray (getProp pedidoData "items") = false \/
     (exists items, getProp pedidoData "items" = JArr items /\
                    forallb naoNulo items = false)) ->
    gerarTextoConfirmacaoPedido P pedidoData conversa =
    "Pedido confirmado! Obrigado pela preferência.".
Proof.
  intros P pd conversa H. unfold gerarTextoConfirmacaoPedido.
  destruct (negb (truthy pd) || negb (truthy (getProp pd "items")) ||
            negb (truthy (getProp pd "endereco")) ||
            negb (truthy (getProp pd "pagamento"))) eqn:E; [reflexivity|].
  apply orb_false_elim in E. destruct E as [E E4].
  apply orb_false_elim in E. destruct E as [E E3].
  apply orb_false_elim in E. destruct E as [E1 E2].
  apply negb_false_iff in E2, E3, E4.
  destruct H as [H|[H|[H|[H|[items [Hi Hn]]]]]]; try congruence.
  - destruct (getProp pd "items"); try reflexivity. discriminate.
  - rewrite Hi. now rewrite linhasConfirmacao_nulo.
Qed.

Lemma X12_spoken_confirmation_fallback_witness :
  gerarTextoConfirmacaoPedido Demo.plataforma
    (JObj [("items", JArr [JObj [("nome", JStr "Amazonas"); ("preco", JNum 45.5%float)]; JNull]);
           ("endereco", JStr "Rua Augusta, 1234"); ("pagamento", JStr "pix")]) None =
  "Pedido confirmado! Obrigado pela preferência.".
Proof.
  apply X12_spoken_confirmation_fallback.
  right. right. right. right. eexists. split; reflexivity.
Defined.

(* ================================================================== *)
(** * Starting over *)

(** The welcome the stores hold: the configured one unless it is absent
    or empty. *)
Definition boasVindas (w : World) : string :=
  match botConfig w with
  | Some cfg =>
      match welcomeMessage cfg with
      | Some s => if s =? "" then BOAS_VINDAS_PADRAO else s
      | None => BOAS_VINDAS_PADRAO
      end
  | None => BOAS_VINDAS_PADRAO
  end.

(** The conversation a reset leaves. *)
Definition conversaReiniciada (agora_ : Z) (userPhone : string) (w : World) : Conversa :=
  mkConversa (novoCid w) userPhone agora_ 0 0
             [mkMensagem User "reiniciar";
              mkMensagem Bot (TEXT_TAG ++ boasVindas w ++ END_TAG)]
             None JUndef None None 0.

Section Reinicio.

Variable P : Platform.

Lemma replaceRow_head (c c' : Conversa) (rows : list Conversa) :
  cid c = cid c' -> replaceRow c' (c :: rows) = Some (persistido c' (Some c) :: rows).
Proof. intro E. cbn [replaceRow]. rewrite E, Nat.eqb_refl. reflexivity. Qed.

Lemma boasVindas_eq (w : World) :
  match botConfig w with
  | Some cfg => if truthyS (welcomeMessage cfg) then showS (welcomeMessage cfg)
                else BOAS_VINDAS_PADRAO
  | None => BOAS_VINDAS_PADRAO
  end = boasVindas w.
Proof.
  unfold boasVindas. destruct (botConfig w) as [cfg|]; [|reflexivity].
  destruct (welcomeMessage cfg) as [s|]; [|reflexivity].
  cbn. destruct (s =? ""); reflexivity.
Qed.

Lemma handleResetRequest_plain (agora_ : Z) (userPhone : string) (w : World) :
  semBlocos (boasVindas w) = true ->
  Js.includes (boasVindas w) TEXT_TAG = false ->
  handleResetRequest P agora_ userPhone w =
  (Some (plainResponse (Some 0%Z) (TEXT_TAG ++ boasVindas w ++ END_TAG)),
   conversaReiniciada agora_ userPhone w,
   mkWorld (pedidos w) (conversaReiniciada agora_ userPhone w :: conversas w)
           (cardapio w) (botConfig w) (tempPedidoData w) (trace w)).
Proof.
  intros Hs Ht. unfold handleResetRequest.
  change (botConfig (saveConversa (novaConversa userPhone agora_ w) w)) with (botConfig w).
  rewrite boasVindas_eq, Ht.
  rewrite processTaggedResponse_plain by (now apply semBlocos_wrapped).
  unfold saveConversa at 1. cbn [conversas saveConversa].
  rewrite (replaceRow_fresh (novaConversa userPhone agora_ w) (conversas w) (novoCid_fresh w)).
  rewrite replaceRow_head by reflexivity.
  reflexivity.
Qed.

End Reinicio.

(** A reset whose welcome holds no tag: the conversation it stores and
    what it sends. *)
Lemma enviosDoReinicio_plain (P : Platform) (agora_ : Z) (userPhone : string) (w : World) :
  semBlocos (boasVindas w) = true ->
  Js.includes (boasVindas w) TEXT_TAG = false ->
  Js.includes (boasVindas w) END_TAG = false ->
  enviosDoReinicio P agora_ userPhone w =
  ((if Js.trim (boasVindas w) =? "" then [] else [Js.trim (boasVindas w)]),
   conversaReiniciada agora_ userPhone w,
   mkWorld (pedidos w) (conversaReiniciada agora_ userPhone w :: conversas w)
           (cardapio w) (botConfig w) (tempPedidoData w) (trace w)).
Proof.
  intros Hs Ht He. unfold enviosDoReinicio.
  rewrite (handleResetRequest_plain P agora_ userPhone w Hs Ht).
  cbn [text plainResponse]. rewrite (textosEnviados_wrapped _ Ht He). reflexivity.
Qed.

(* ================================================================== *)
(** * Nothing is spoken once the order is summed up *)

Section LateVoice.

Variable P : Platform.

Lemma audio_comImagemConfirmacao (cfg : option BotConfig) (r : Response) :
  audio (comImagemConfirmacao cfg r) = audio r.
Proof.
  unfold comImagemConfirmacao. destruct cfg as [cfg|]; [|reflexivity].
  destruct (truthyS (confirmationImage cfg)); reflexivity.
Qed.

Lemma audio_vozSuprimida (botResponse : string) (r : Response) :
  audio (vozSuprimida botResponse r) = audio r.
Proof.
  unfold vozSuprimida. destruct (firstBlock VOICE_TAG botResponse); [|reflexivity].
  destruct (firstBlock TEXT_TAG botResponse); reflexivity.
Qed.

Lemma audio_followUp (botResponse imageId : string) (cap : option string)
      (estado : Z) (r : Response) :
  audio (followUp botResponse imageId cap estado r) = audio r.
Proof.
  unfold followUp.
  repeat match goal with |- context [if ?b then _ else _] => destruct b end;
    reflexivity.
Qed.

Lemma audio_firstImagePhase (botResponse : string) (estado : Z)
      (db : list CardapioItem) (cfg : option BotConfig) (id0 : string) (r : Response) :
  audio (firstImagePhase P botResponse estado db cfg id0 r) = audio r.
Proof.
  unfold firstImagePhase.
  destruct (resolveFirst P db cfg (Js.trim id0)) as [[url cap]|].
  - destruct (truthyS url).
    + rewrite audio_followUp. destruct (truthyS cap); reflexivity.
    + destruct (text r =? ""); reflexivity.
  - destruct (text r =? ""); reflexivity.
Qed.

Lemma audio_imagePhase (botResponse : string) (estado : Z)
      (db : list CardapioItem) (cfg : option BotConfig) (r : Response) :
  audio (imagePhase P botResponse estado db cfg r) = audio r.
Proof.
  unfold imagePhase.
  destruct (imageMatches botResponse) as [|id0 rest]; [reflexivity|].
  destruct rest; [apply audio_firstImagePhase|].
  cbn [audio setAllImages]. apply audio_firstImagePhase.
Qed.

Lemma audio_respostaJson (botResponse : string) (r : Response) :
  audio (respostaJson P botResponse r) = audio r.
Proof.
  unfold respostaJson.
  repeat match goal with
         | |- context [match ?x with _ => _ end] => destruct x
         end; reflexivity.
Qed.

Lemma audio_fallbackPhase (botResponse : string) (r : Response) :
  audio (fallbackPhase botResponse r) = audio r.
Proof.
  unfold fallbackPhase. destruct (semConteudo r); [|reflexivity].
  destruct (semTags botResponse); reflexivity.
Qed.

Lemma audio_jsonPhase (botResponse : string) (r : Response) (c : Conversa) (w : World) :
  audio r = None ->
  match fst (fst (jsonPhase P botResponse r c w)) with
  | Return r' | Continue r' => audio r' = None
  end.
Proof.
  intro H. rewrite jsonPhase_view.
  destruct (payloadDe P botResponse) as [pd|]; [|exact H].
  destruct (matchDigits (getProp pd "endereco")) as [[|]|]; cbn [fst].
  - now rewrite audio_respostaJson.
  - reflexivity.
  - exact H.
Qed.

Lemma audio_confirmationPhase (botResponse : string) (cfg : option BotConfig)
      (r : Response) (c : Conversa) (w : World)
      (s : Step Response) (c' : Conversa) (w' : World) :
  audio r = None ->
  confirmationPhase P botResponse cfg r c w = Some (s, c', w') ->
  match s with Return r' | Continue r' => audio r' = None end.
Proof.
  intros Ha H. unfold confirmationPhase in H.
  split_matches H; inversion H; subst; clear H;
    rewrite ?audio_comImagemConfirmacao; exact Ha.
Qed.

End LateVoice.

(** X5. While the conversation is in state 6 or 7 the resolver speaks
    nothing, whatever voice block the reply carries: no speech is
    generated and the answer holds no audio. *)
Theorem X5_no_voice_once_summed_up :
  forall P botResponse userMessage c cfg w r c' w',
    state c = 6%Z \/ state c = 7%Z ->
    processTaggedResponse P botResponse userMessage c cfg w = (Some r, c', w') ->
    audio r = None /\ trace w' = trace w.
Proof.
  intros P botResponse userMessage c cfg w r c' w' Hs H.
  split; [|exact (processTaggedResponse_trace_late P _ _ _ _ _ _ _ _ Hs H)].
  unfold processTaggedResponse in H.
  rewrite (voicePhase_suppressed P botResponse (state c) _ w Hs) in H.
  set (r2 := imagePhase P botResponse (state c) (cardapio w) cfg
               (vozSuprimida botResponse (plainResponse (Some (state c)) botResponse))) in H.
  assert (H2 : audio r2 = None).
  { unfold r2. rewrite audio_imagePhase, audio_vozSuprimida. reflexivity. }
  pose proof (audio_jsonPhase P botResponse r2 c w H2) as Hj.
  destruct (jsonPhase P botResponse r2 c w) as [[s2 c2] w2]. cbn [fst] in Hj.
  destruct s2 as [rr|r3].
  - inversion H; subst. exact Hj.
  - destruct (confirmationPhase P botResponse cfg r3 c2 w2) as [[[s3 c3] w3]|] eqn:Ec;
      [|discriminate].
    pose proof (audio_confirmationPhase P _ _ _ _ _ _ _ _ Hj Ec) as Hc.
    destruct s3; inversion H; subst; [exact Hc|].
    now rewrite audio_fallbackPhase.
Qed.

Lemma X5_no_voice_once_summed_up_witness :
  audio (plainResponse (Some 6%Z) "[TEXT_FORMAT]Seu pedido chega em 50 minutos[/END]") = None /\
  trace Demo.mundo = trace Demo.mundo.
Proof.
  apply (X5_no_voice_once_summed_up Demo.plataforma
           "[VOICE_FORMAT]Seu pedido chega em 50 minutos[/END]" "ok"
           (Demo.conversa 6 JUndef None) None Demo.mundo
           (plainResponse (Some 6%Z) "[TEXT_FORMAT]Seu pedido chega em 50 minutos[/END]")
           (Demo.conversa 6 JUndef None) Demo.mundo).
  - left. reflexivity.
  - vm_compute. reflexivity.
Defined.

(* ================================================================== *)
(** * What reaches the customer *)

Section Delivery.

Variable P : Platform.
Variable downloadMedia : nat -> string -> bool.

Lemma matchBlock_no_closer (tag s : string) :
  Js.includes s END_TAG = false -> matchBlock tag s = None.
Proof.
  intro H. unfold matchBlock.
  destruct (Js.splitFirst s tag) as [[b rest]|] eqn:E; [|reflexivity].
  apply splitFirst_none.
  destruct (Js.includes rest END_TAG) eqn:Hr; [|reflexivity].
  apply splitFirst_sound in E. subst s.
  rewrite (includes_app_r b (tag ++ rest) END_TAG) in H; [discriminate|].
  now apply includes_app_r.
Qed.

Lemma allBlocks_absent (tag s : string) :
  Js.includes s tag = false \/ Js.includes s END_TAG = false -> allBlocks tag s = [].
Proof.
  intro H. unfold allBlocks. destruct (String.length s); [reflexivity|].
  cbn [allBlocksFuel].
  destruct H as [H|H].
  - apply firstBlock_absent in H. destruct H as [H _]. now rewrite H.
  - now rewrite (matchBlock_no_closer tag s H).
Qed.

(** The set of addresses sent is the addresses of the images sent, and no
    address is there twice. *)
Definition coerente (st : EstadoEnvio) : Prop :=
  let '(enviadas, sentImages, _) := st in
  NoDup (map fst enviadas) /\ (forall u, In u sentImages <-> In u (map fst enviadas)).

Lemma enviarImagem_coerente (url caption : string) (st : EstadoEnvio) :
  coerente st -> coerente (enviarImagem downloadMedia url caption st).
Proof.
  destruct st as [[enviadas sent] n]. intros [Hnd Hs]. unfold enviarImagem.
  destruct (existsb (String.eqb url) sent) eqn:Ex; [split; assumption|].
  assert (Hni : ~ In url (map fst enviadas)).
  { intro Hin. apply Hs in Hin.
    assert (existsb (String.eqb url) sent = true); [|congruence].
    apply existsb_exists. exists url. split; [exact Hin|apply String.eqb_refl]. }
  assert (Hok : forall m, coerente ((enviadas ++ [(url, caption)])%list, url :: sent, m)).
  { intro m. split.
    - rewrite map_app. cbn [map fst]. apply NoDup_app_remove_l with (l := []).
      cbn [app]. apply NoDup_rev in Hnd.
      rewrite <- (rev_involutive (map fst enviadas ++ [url])), rev_app_distr.
      apply NoDup_rev. cbn [rev app]. constructor; [|exact Hnd].
      now rewrite <- in_rev.
    - intro u. rewrite map_app, in_app_iff. cbn [map fst In]. rewrite <- Hs. tauto. }
  destruct (Js.startsWith url "data:image").
  - destruct (dataUrl url); [apply Hok|split; assumption].
  - destruct (downloadMedia n url); [apply Hok|split; assumption].
Qed.

(** Where an image that was sent comes from. *)
Definition origem (r : Response) (img : string * string) : Prop :=
  fst img <> "" /\
  ((image r = Some (fst img) /\ snd img = showS (orS (imageCaption r) (Some ""))) \/
   exists l e, allImages r = Some l /\ In e l /\ ie_url e = fst img /\
               snd img = showS (orS (ie_caption e) (Some ""))).

Lemma enviarImagem_in (url caption : string) (st : EstadoEnvio) (img : string * string) :
  In img (fst (fst (enviarImagem downloadMedia url caption st))) ->
  In img (fst (fst st)) \/ img = (url, caption).
Proof.
  destruct st as [[enviadas sent] n]. unfold enviarImagem.
  repeat match goal with |- context [if ?b then _ else _] => destruct b end;
    cbn [fst]; try tauto;
    intro H; apply in_app_or in H; destruct H as [H|[<-|[]]]; tauto.
Qed.

Lemma adicionais_in (l : list ImageEntry) (st : EstadoEnvio) (img : string * string) :
  In img (fst (fst (fold_left
                      (fun st imgData =>
                         if ie_url imgData =? "" then st
                         else enviarImagem downloadMedia (ie_url imgData)
                                (showS (orS (ie_caption imgData) (Some ""))) st) l st))) ->
  In img (fst (fst st)) \/
  exists e, In e l /\ ie_url e <> "" /\ ie_url e = fst img /\
            snd img = showS (orS (ie_caption e) (Some "")).
Proof.
  revert st. induction l as [|e l IH]; intros st H; [now left|].
  cbn [fold_left] in H. apply IH in H. destruct H as [H|[e' [He' H]]].
  - destruct (String.eqb_spec (ie_url e) "") as [E|E]; [now left|].
    apply enviarImagem_in in H. destruct H as [H| ->]; [now left|].
    right. exists e. cbn [fst snd]. repeat split; try assumption; now left.
  - right. exists e'. split; [now right|exact H].
Qed.

Lemma adicionais_coerente (l : list ImageEntry) (st : EstadoEnvio) :
  coerente st ->
  coerente (fold_left
              (fun st imgData =>
                 if ie_url imgData =? "" then st
                 else enviarImagem downloadMedia (ie_url imgData)
                        (showS (orS (ie_caption imgData) (Some ""))) st) l st).
Proof.
  revert st. induction l as [|e l IH]; intros st H; [exact H|].
  cbn [fold_left]. apply IH. destruct (ie_url e =? ""); [exact H|].
  now apply enviarImagem_coerente.
Qed.

End Delivery.

(** X13. Whatever the downloads do, the entry point sends no image
    address twice, so the main image, which the answer lists again among
    all its images, goes out once; and every image sent is the main image
    of the answer or one of its list, with the caption found there (the
    empty caption when there is none). *)
Theorem X13_no_image_sent_twice :
  forall downloadMedia r,
    NoDup (map fst (rm_imagens (entregar downloadMedia r))) /\
    (forall img, In img (rm_imagens (entregar downloadMedia r)) -> origem r img).
Proof.
  intros dl r. unfold entregar.
  destruct (negb (success r)); [split; [constructor|intros img []]|].
  cbn [rm_imagens].
  set (n0 := if truthyS (audio r) then 1%nat else 0%nat).
  set (st1 := if truthyS (image r)
              then enviarImagem dl (showS (image r))
                     (showS (orS (imageCaption r) (Some ""))) ([], [], n0)
              else ([], [], n0)).
  assert (H0 : coerente (@nil (string * string), @nil string, n0)).
  { split; [constructor|]. intro u. reflexivity. }
  assert (H1 : coerente st1).
  { unfold st1. destruct (truthyS (image r)); [|exact H0].
    now apply enviarImagem_coerente. }
  assert (I1 : forall img, In img (fst (fst st1)) -> origem r img).
  { intros img Hin. unfold st1 in Hin. destruct (truthyS (image r)) eqn:Et; [|destruct Hin].
    apply enviarImagem_in in Hin. destruct Hin as [[]| ->].
    unfold origem. destruct (image r) as [u|]; [|discriminate]. cbn in Et.
    cbn [showS fst snd].
    split; [|left; split; reflexivity].
    intros ->. discriminate. }
  destruct (allImages r) as [l|] eqn:El.
  - split.
    + pose proof (adicionais_coerente dl l st1 H1) as Hc.
      destruct (fold_left _ l st1) as [[enviadas sent] n]. exact (proj1 Hc).
    + intros img Hin. apply adicionais_in in Hin. destruct Hin as [Hin|[e [He [Hu [Hf Hs]]]]].
      * now apply I1.
      * split; [congruence|]. right. exists l, e. auto.
  - split; [|exact I1]. destruct st1 as [[enviadas sent] n]. exact (proj1 H1).
Qed.

(** X7. The texts the entry point sends for an answer are never empty
    and never begin or end with white space; there is at most one for
    each text block of the answer, and none at all when the answer holds
    no opener or no closer of a text block. *)
Theorem X7_sent_texts :
  forall t,
    Forall (fun s => s <> "" /\ Js.trim s = s) (textosEnviados t) /\
    (List.length (textosEnviados t) <= List.length (allBlocks TEXT_TAG t))%nat /\
    (Js.includes t TEXT_TAG = false \/ Js.includes t END_TAG = false ->
     textosEnviados t = []).
Proof.
  intro t. unfold textosEnviados. split; [|split].
  - apply Forall_forall. intros s Hs. apply filter_In in Hs. destruct Hs as [Hin Hne].
    split.
    + intros ->. discriminate.
    + apply in_map_iff in Hin. destruct Hin as [body [<- _]]. apply trim_idem.
  - etransitivity; [apply filter_length_le|]. now rewrite length_map.
  - intro H. now rewrite (allBlocks_absent TEXT_TAG t H).
Qed.

(** X14. A reply whose order block gives an address without a digit: the
    resolver answers with the request for the house number and puts the
    conversation back to state 4, and of that answer the entry point
    sends nothing, neither text nor voice nor image, since the request
    is no text block. *)
Theorem X14_house_number_request_is_not_delivered :
  forall P downloadMedia botResponse userMessage c cfg w,
    semNumeroNoEndereco P botResponse = true ->
    exists r c' w',
      processTaggedResponse P botResponse userMessage c cfg w = (Some r, c', w') /\
      text r = PEDIR_NUMERO /\ state c' = 4%Z /\
      entregar downloadMedia r = mkRemessa [] None [].
Proof.
  intros P dl botResponse userMessage c cfg w H.
  unfold processTaggedResponse.
  destruct (voicePhase P botResponse (state c) _ w) as [r1 w1].
  destruct (jsonPhase_return P botResponse
              (imagePhase P botResponse (state c) (cardapio w1) cfg r1) c w1 H)
    as [w2 [E _]].
  rewrite E. eexists _, _, _. split; [reflexivity|].
  split; [reflexivity|]. split; [reflexivity|].
  vm_compute. reflexivity.
Qed.

Lemma X14_house_number_request_is_not_delivered_witness :
  exists r c' w',
    processTaggedResponse Demo.plataforma
      ("[JSON_FORMAT]" ++ Demo.jsonPedido "Rua Augusta" ++ "[/END]") "pix"
      (Demo.conversa 5 JUndef None) None Demo.mundo = (Some r, c', w') /\
    text r = PEDIR_NUMERO /\ state c' = 4%Z /\
    entregar (fun _ _ => true) r = mkRemessa [] None [].
Proof.
  apply (X14_house_number_request_is_not_delivered Demo.plataforma (fun _ _ => true)
           ("[JSON_FORMAT]" ++ Demo.jsonPedido "Rua Augusta" ++ "[/END]") "pix"
           (Demo.conversa 5 JUndef None) None Demo.mundo).
  vm_compute. reflexivity.
Defined.

(* ================================================================== *)
(** * Messages the engine does not see *)

(** The message asks for the spoken confirmation: it names audio or
    listening, and the order or its confirmation. *)
Definition pedeAudioDoPedido (message : string) : bool :=
  let m := Js.toLowerCase message in
  (Js.includes m "audio" || Js.includes m "áudio" ||
   Js.includes m "ouvir" || Js.includes m "escutar") &&
  (Js.includes m "confirmação" || Js.includes m "confirmado" || Js.includes m "pedido").

Section Bypass.

Variable P : Platform.
Variable downloadMedia : nat -> string -> bool.

Lemma handleAudioRequest_none (userPhone message : string) (w : World) :
  pedeAudioDoPedido message = false ->
  handleAudioRequest P downloadMedia userPhone message w = None.
Proof.
  unfold pedeAudioDoPedido, handleAudioRequest. cbv zeta.
  destruct (Js.includes (Js.toLowerCase message) "audio");
    destruct (Js.includes (Js.toLowerCase message) "áudio");
    destruct (Js.includes (Js.toLowerCase message) "ouvir");
    destruct (Js.includes (Js.toLowerCase message) "escutar");
    cbn [negb andb orb]; try reflexivity; intros ->; reflexivity.
Qed.

Lemma reset_is_no_audio_request (message : string) :
  isResetRequest message = true -> pedeAudioDoPedido message = false.
Proof.
  unfold isResetRequest, pedeAudioDoPedido. cbv zeta. intro H.
  apply orb_prop in H. destruct H as [H|H]; [apply orb_prop in H; destruct H as [H|H]|];
    apply String.eqb_eq in H; rewrite H; vm_compute; reflexivity.
Qed.

End Bypass.

(** X15. A reset that arrives through the WhatsApp entry point stores two
    new conversations: the lookup of the conversation creates an empty
    one, and the reset itself creates the one that holds the message
    "reiniciar" and the welcome. The welcome (without tags) is all that
    is sent, and the orders are untouched. *)
Theorem X15_whatsapp_reset_stores_two_conversations :
  forall P downloadMedia t userPhone message w,
    isResetRequest message = true ->
    semBlocos (boasVindas w) = true ->
    Js.includes (boasVindas w) TEXT_TAG = false ->
    Js.includes (boasVindas w) END_TAG = false ->
    processTextMessage P downloadMedia t userPhone message w =
    (mkRemessa (if Js.trim (boasVindas w) =? "" then [] else [Js.trim (boasVindas w)]) None [],
     mkWorld (pedidos w)
             (conversaReiniciada (agora t) userPhone
                (saveConversa (novaConversa userPhone (agora t) w) w) ::
              novaConversa userPhone (agora t) w :: conversas w)
             (cardapio w) (botConfig w) (tempPedidoData w) (trace w)).
Proof.
  intros P dl t userPhone message w Hr Hs Ht He. unfold processTextMessage.
  rewrite (handleAudioRequest_none P dl userPhone message w
             (reset_is_no_audio_request message Hr)).
  unfold getOrCreateConversation. rewrite Hr.
  set (w1 := saveConversa (novaConversa userPhone (agora t) w) w).
  assert (Hb : boasVindas w1 = boasVindas w) by reflexivity.
  assert (Hc : conversas w1 = novaConversa userPhone (agora t) w :: conversas w).
  { unfold w1, saveConversa. cbn [conversas].
    now rewrite (replaceRow_fresh (novaConversa userPhone (agora t) w) (conversas w)
                   (novoCid_fresh w)). }
  rewrite (enviosDoReinicio_plain P (agora t) userPhone w1) by (rewrite Hb; assumption).
  rewrite Hb, Hc. reflexivity.
Qed.

Lemma X15_whatsapp_reset_stores_two_conversations_witness :
  processTextMessage Demo.plataforma (fun _ _ => true)
    (mkTurno 1000 ReplyError ReplyError false false false) "5511999990000" "Reiniciar" Demo.mundo =
  (mkRemessa ["Olá! Bem-vindo à pizzaria."] None [],
   mkWorld []
           [mkConversa 2 "5511999990000" 1000 0 0
              [mkMensagem User "reiniciar";
               mkMensagem Bot "[TEXT_FORMAT]Olá! Bem-vindo à pizzaria.[/END]"]
              None JUndef None None 0;
            mkConversa 1 "5511999990000" 1000 0 0 [] None JUndef None None 0]
           [] (Some Demo.config) [] []).
Proof.
  apply (X15_whatsapp_reset_stores_two_conversations Demo.plataforma (fun _ _ => true)
           (mkTurno 1000 ReplyError ReplyError false false false) "5511999990000" "Reiniciar" Demo.mundo);
    vm_compute; reflexivity.
Defined.

(** X16. A message that names audio or listening together with the order
    or its confirmation is answered by the audio handler alone: the
    engine and the language model are not reached, the message is not
    recorded, conversations, orders and staged payloads stay as they
    were, no image is sent, and the only texts possible are the two
    apologies, the first of them whenever the customer's newest
    conversation holds no staged order. *)
Theorem X16_audio_request_bypasses_engine :
  forall P downloadMedia t userPhone message w,
    pedeAudioDoPedido message = true ->
    let res := processTextMessage P downloadMedia t userPhone message w in
    conversas (snd res) = conversas w /\
    pedidos (snd res) = pedidos w /\
    tempPedidoData (snd res) = tempPedidoData w /\
    (trace (snd res) = trace w \/ exists texto, trace (snd res) = (trace w ++ [EvAudio texto])%list) /\
    rm_imagens (fst res) = [] /\
    (rm_textos (fst res) = [] \/
     fst res = mkRemessa [SEM_PEDIDO_PARA_AUDIO] None [] \/
     fst res = mkRemessa [SEM_AUDIO_DA_CONFIRMACAO] None []) /\
    ((forall c, maisRecente userPhone w = Some c -> truthy (pedidoData c) = false) ->
     res = (mkRemessa [SEM_PEDIDO_PARA_AUDIO] None [], w)).
Proof.
  intros P dl t userPhone message w H res. subst res.
  unfold processTextMessage, handleAudioRequest. unfold pedeAudioDoPedido in H.
  cbv zeta in H. apply andb_prop in H. destruct H as [Ha Hc].
  assert (Hn : negb (Js.includes (Js.toLowerCase message) "audio") &&
               negb (Js.includes (Js.toLowerCase message) "áudio") &&
               negb (Js.includes (Js.toLowerCase message) "ouvir") &&
               negb (Js.includes (Js.toLowerCase message) "escutar") = false).
  { destruct (Js.includes (Js.toLowerCase message) "audio");
      destruct (Js.includes (Js.toLowerCase message) "áudio");
      destruct (Js.includes (Js.toLowerCase message) "ouvir");
      destruct (Js.includes (Js.toLowerCase message) "escutar");
      try reflexivity; discriminate. }
  cbv zeta. rewrite Hn, Hc.
  destruct (maisRecente userPhone w) as [c|] eqn:Em;
    [destruct (truthy (pedidoData c)) eqn:Et;
     [destruct (truthyS (generateAudio P _))|]|];
    cbn [fst snd rm_textos rm_imagens conversas pedidos tempPedidoData trace addEvent];
    repeat match goal with |- _ /\ _ => split end;
    try reflexivity;
    try (left; reflexivity);
    try (right; left; reflexivity);
    try (right; right; reflexivity);
    try (right; eexists; reflexivity);
    try (intros _; reflexivity);
    try (intro Hall; specialize (Hall c eq_refl); congruence).
Qed.

Lemma X16_audio_request_bypasses_engine_witness :
  let res := processTextMessage Demo.plataforma (fun _ _ => true)
               (mkTurno 1000 ReplyError ReplyError false false false) "5511999990000"
               "Quero ouvir o meu pedido" Demo.mundo in
  conversas (snd res) = conversas Demo.mundo /\
  pedidos (snd res) = pedidos Demo.mundo /\
  tempPedidoData (snd res) = tempPedidoData Demo.mundo /\
  (trace (snd res) = trace Demo.mundo \/
   exists texto, trace (snd res) = (trace Demo.mundo ++ [EvAudio texto])%list) /\
  rm_imagens (fst res) = [] /\
  (rm_textos (fst res) = [] \/
   fst res = mkRemessa [SEM_PEDIDO_PARA_AUDIO] None [] \/
   fst res = mkRemessa [SEM_AUDIO_DA_CONFIRMACAO] None []) /\
  ((forall c, maisRecente "5511999990000" Demo.mundo = Some c ->
              truthy (pedidoData c) = false) ->
   res = (mkRemessa [SEM_PEDIDO_PARA_AUDIO] None [], Demo.mundo)).
Proof.
  apply (X16_audio_request_bypasses_engine Demo.plataforma (fun _ _ => true)
           (mkTurno 1000 ReplyError ReplyError false false false) "5511999990000"
           "Quero ouvir o meu pedido" Demo.mundo).
  vm_compute. reflexivity.
Defined.

(* ================================================================== *)
(** * Which addresses are accepted *)

(** [t] is what is left of [s] from some position on. *)
Inductive sufixo (t : string) : string -> Prop :=
| sufixo_aqui : sufixo t t
| sufixo_depois (c : ascii) (s : string) : sufixo t s -> sufixo t (String c s).

Section Address.

Variable consultaCep : string -> ConsultaCep.

Lemma leftmostBounded_sufixo {A : Type} (f : string -> option A) (s : string) :
  forall prevWord a,
    leftmostBounded f prevWord s = Some a -> exists t, sufixo t s /\ f t = Some a.
Proof.
  induction s as [|c s IH]; intros prevWord a H; cbn [leftmostBounded] in H.
  - destruct prevWord; [discriminate|].
    destruct (f "") eqn:E; [|discriminate]. injection H as <-.
    exists "". split; [constructor|exact E].
  - destruct (if prevWord then None else f (String c s)) as [a'|] eqn:E.
    + injection H as <-. destruct prevWord; [discriminate|].
      exists (String c s). split; [constructor|exact E].
    + destruct (IH _ _ H) as [t [Ht Hf]]. exists t. split; [now constructor|exact Hf].
Qed.

Lemma leftmost_sufixo {A : Type} (f : string -> option A) (s : string) (a : A) :
  leftmost f s = Some a -> exists t, sufixo t s /\ f t = Some a.
Proof.
  induction s as [|c s IH]; intro H; cbn [leftmost] in H.
  - destruct (f "") eqn:E; [|discriminate]. injection H as <-.
    exists "". split; [constructor|exact E].
  - destruct (f (String c s)) as [a'|] eqn:E.
    + injection H as <-. exists (String c s). split; [constructor|exact E].
    + destruct (IH H) as [t [Ht Hf]]. exists t. split; [now constructor|exact Hf].
Qed.

Lemma hasDigit_sufixo (t s : string) :
  sufixo t s -> Js.hasDigit t = true -> Js.hasDigit s = true.
Proof.
  induction 1 as [|c s _ IH]; intro H; [exact H|].
  cbn [Js.hasDigit]. rewrite (IH H). apply orb_true_r.
Qed.

Lemma takeDigits_spec (n : nat) :
  forall s d r,
    takeDigits n s = Some (d, r) ->
    String.length d = n /\ Js.allDigits d = true /\ s = d ++ r.
Proof.
  induction n as [|n IH]; intros s d r H; cbn [takeDigits] in H.
  - injection H as <- <-. repeat split.
  - destruct s as [|c s]; [discriminate|].
    destruct (Js.isDigit c) eqn:Ec; [|discriminate].
    destruct (takeDigits n s) as [[d' r']|] eqn:E; [|discriminate].
    injection H as <- <-. destruct (IH _ _ _ E) as [Hl [Ha ->]].
    cbn [String.length Js.allDigits]. rewrite Hl, Ec, Ha. repeat split.
Qed.

Lemma allDigits_app (a b : string) :
  Js.allDigits a = true -> Js.allDigits b = true -> Js.allDigits (a ++ b) = true.
Proof.
  induction a as [|c a IH]; intros Ha Hb; [exact Hb|].
  cbn [Js.allDigits] in Ha. apply andb_prop in Ha. destruct Ha as [Hc Ha].
  change (String c a ++ b) with (String c (a ++ b)).
  cbn [Js.allDigits]. now rewrite Hc, IH.
Qed.

(** The postal code that is found is eight digits, and the text that
    holds it holds a digit. *)
Lemma cepBoundedAt_spec (s cep_ : string) :
  cepBoundedAt s = Some cep_ ->
  String.length cep_ = 8%nat /\ Js.allDigits cep_ = true /\ Js.hasDigit s = true.
Proof.
  unfold cepBoundedAt. intro H.
  destruct (takeDigits 5 s) as [[d5 r]|] eqn:E5; [|discriminate].
  destruct (takeDigits 3 (skipHyphen r)) as [[d3 rest]|] eqn:E3; [|discriminate].
  destruct (takeDigits_spec _ _ _ _ E5) as [L5 [A5 ->]].
  destruct (takeDigits_spec _ _ _ _ E3) as [L3 [A3 _]].
  assert (Hc : cep_ = d5 ++ d3).
  { destruct rest as [|c rest]; [congruence|]. destruct (isWord c); congruence. }
  subst cep_. rewrite length_app_s, L5, L3. split; [reflexivity|].
  split; [now apply allDigits_app|].
  destruct d5 as [|c d5]; [discriminate|].
  cbn [Js.allDigits] in A5. apply andb_prop in A5. destruct A5 as [Hc _].
  change (String c d5 ++ r) with (String c (d5 ++ r)). cbn [Js.hasDigit]. now rewrite Hc.
Qed.

Lemma spanDigits_allDigits (s : string) : Js.allDigits (spanDigits s) = true.
Proof.
  induction s as [|c s IH]; [reflexivity|]. cbn [spanDigits].
  destruct (Js.isDigit c) eqn:E; [|reflexivity]. cbn [Js.allDigits]. now rewrite E, IH.
Qed.

Lemma digitsAt_spec (s d : string) :
  digitsAt s = Some d -> d <> "" /\ Js.allDigits d = true.
Proof.
  unfold digitsAt. destruct (String.eqb_spec (spanDigits s) "") as [E|E]; [discriminate|].
  intro H. injection H as <-. split; [exact E|apply spanDigits_allDigits].
Qed.

Lemma numeroDaRuaAt_spec (s d : string) :
  numeroDaRuaAt s = Some d -> d <> "" /\ Js.allDigits d = true.
Proof.
  unfold numeroDaRuaAt. intro H.
  destruct (logradouroAt s) as [n|]; [|discriminate].
  destruct (Js.spaceAt (Js.drop n s)) as [r|]; [|discriminate].
  destruct (negb (spanNotComma r =? "")); [|discriminate].
  destruct (Js.drop _ r) as [|v depois]; [discriminate|].
  exact (digitsAt_spec _ _ H).
Qed.

End Address.

(** X17. An address that is accepted and is a text: either the postal
    code found in it (eight digits) was located by the service in the
    city of São Paulo, state SP, and then a house number was read after
    the street and its comma, all digits, unless the call is a query; or
    the service was not asked or gave no data, the call is no query, and
    the text is kept as it is. In both cases the text holds a digit. *)
Theorem X17_accepted_address :
  forall consultaCep a isQuery,
    valid (validateAddress consultaCep (JStr a) isQuery) = true ->
    Js.hasDigit a = true /\
    ((fromCep (validateAddress consultaCep (JStr a) isQuery) = true /\
      exists cep_ cepData comps,
        leftmostBounded cepBoundedAt false a = Some cep_ /\
        String.length cep_ = 8%nat /\ Js.allDigits cep_ = true /\
        consultaCep cep_ = CepDados cepData /\
        city cepData = Some "São Paulo" /\ uf cepData = Some "SP" /\
        va_components (validateAddress consultaCep (JStr a) isQuery) = Some comps /\
        postalCode comps = cep_ /\
        locality comps = Some "São Paulo" /\ administrativeArea comps = Some "SP" /\
        Js.allDigits (streetNumber comps) = true /\
        (streetNumber comps = "" -> isQuery = true)) \/
     (fromCep (validateAddress consultaCep (JStr a) isQuery) = false /\
      isQuery = false /\
      va_formattedAddress (validateAddress consultaCep (JStr a) isQuery) = Some (JStr a) /\
      match leftmostBounded cepBoundedAt false a with
      | Some cep_ => consultaCep cep_ = CepSemDados
      | None => True
      end)).
Proof.
  intros consulta a isQuery. unfold validateAddress.
  destruct (negb (truthy (JStr a))); [discriminate|].
  destruct (Js.trim a =? ""); [discriminate|].
  assert (Hsem : forall (Q : Prop),
             Q ->
             valid (semConsulta a isQuery) = true ->
             Js.hasDigit a = true /\
             (fromCep (semConsulta a isQuery) = false /\ isQuery = false /\
              va_formattedAddress (semConsulta a isQuery) = Some (JStr a) /\ Q)).
  { intros Q HQ. unfold semConsulta. destruct isQuery; [discriminate|].
    destruct (Js.hasDigit a); [|discriminate]. intros _. repeat split. exact HQ. }
  destruct (leftmostBounded cepBoundedAt false a) as [cep_|] eqn:Ec.
  - destruct (leftmostBounded_sufixo _ _ _ _ Ec) as [t [Hsuf Ht]].
    destruct (cepBoundedAt_spec _ _ Ht) as [L8 [A8 Hd]].
    pose proof (hasDigit_sufixo _ _ Hsuf Hd) as Hda.
    destruct (consulta cep_) as [| |cepData] eqn:Eq; [discriminate| |].
    + intro H. destruct (Hsem (CepSemDados = CepSemDados) eq_refl H) as [_ H']. tauto.
    + unfold comDados.
      destruct (city cepData) as [k|] eqn:Ek; [|discriminate].
      destruct (String.eqb_spec k "São Paulo") as [->|_]; [|discriminate].
      destruct (uf cepData) as [u|] eqn:Eu; [|discriminate].
      destruct (String.eqb_spec u "SP") as [->|_]; [|discriminate].
      cbn [andb].
      assert (Hn : Js.allDigits match leftmost numeroDaRuaAt a with
                                | Some d => d
                                | None => ""
                                end = true).
      { destruct (leftmost numeroDaRuaAt a) as [d|] eqn:En; [|reflexivity].
        destruct (leftmost_sufixo _ _ _ En) as [t' [_ Ht']].
        now apply numeroDaRuaAt_spec in Ht'. }
      destruct (negb (_ =? "") || isQuery) eqn:Eb; [|discriminate].
      intros _. split; [exact Hda|]. left. split; [reflexivity|].
      eexists cep_, cepData, _. cbn [va_components postalCode locality administrativeArea
                                      streetNumber].
      repeat split; try reflexivity; try assumption.
      intro E0. cbn [streetNumber] in E0. rewrite E0 in Eb. cbn in Eb. exact Eb.
  - intro H. destruct (Hsem True I H) as [Hd H']. tauto.
Qed.

Lemma X17_accepted_address_witness :
  let consulta := fun digits => match Demo.lookupCep digits with
                                | Some d => CepDados d
                                | None => CepFalha
                                end in
  valid (validateAddress consulta (JStr "Av. Paulista, 1000 - 01310-100") false) = true /\
  Js.hasDigit "Av. Paulista, 1000 - 01310-100" = true.
Proof.
  intro consulta. split; [vm_compute; reflexivity|].
  apply (X17_accepted_address consulta "Av. Paulista, 1000 - 01310-100" false).
  vm_compute. reflexivity.
Defined.

(** X18. Through the route, an address that is no text and not falsy (a
    number, [true], a list, an object) is accepted as it is: the answer
    is 200 with a valid address, and the service is not asked. *)
Theorem X18_address_that_is_no_text_is_accepted :
  forall consultaCep address,
    truthy address = true ->
    (forall a, address <> JStr a) ->
    rotaValidarEndereco consultaCep address =
    (200%Z,
     Some (mkValidacao true false None (Some address) None
             "Endereço registrado. Se houver algum problema com a entrega, entraremos em contato."
             false)).
Proof.
  intros consulta address Ht Hn. unfold rotaValidarEndereco, validateAddress. rewrite Ht.
  cbn [negb]. destruct address; try reflexivity. exfalso. now apply (Hn s).
Qed.

Lemma X18_address_that_is_no_text_is_accepted_witness :
  rotaValidarEndereco (fun _ => CepFalha) (JNum 42%float) =
  (200%Z,
   Some (mkValidacao true false None (Some (JNum 42%float)) None
           "Endereço registrado. Se houver algum problema com a entrega, entraremos em contato."
           false)).
Proof.
  apply (X18_address_that_is_no_text_is_accepted (fun _ => CepFalha) (JNum 42%float)).
  - vm_compute. reflexivity.
  - intros a H. discriminate H.
Defined.

(* ================================================================== *)
(** * The orders of a session *)

(** The orders of [w'] are those of [w] and at most one more, stored as
    confirmed under the number [tel]. *)
Definition umPedidoNoMaximo (tel : string) (w w' : World) : Prop :=
  pedidos w' = pedidos w \/
  exists p, pedidos w' = (pedidos w ++ [p])%list /\
            p_telefone p = tel /\ status p = "Confirmado".

Section SessionOrders.

Variable P : Platform.

Lemma confirmarPedido_telefone (c : Conversa) (saved : JValue) (w : World)
      (c1 : Conversa) (w1 : World) :
  confirmarPedido P c saved w = Some (c1, w1) -> telefone c1 = telefone c.
Proof.
  unfold confirmarPedido. intro H.
  split_matches H; inversion H; subst; reflexivity.
Qed.

Lemma confirmationPhase_telefone (botResponse : string) (cfg : option BotConfig)
      (r : Response) (c : Conversa) (w : World)
      (s : Step Response) (c' : Conversa) (w' : World) :
  confirmationPhase P botResponse cfg r c w = Some (s, c', w') ->
  telefone c' = telefone c.
Proof.
  unfold confirmationPhase. intro H.
  split_matches H; inversion H; subst; try reflexivity;
    match goal with
    | E : confirmarPedido _ _ _ _ = Some _ |- _ =>
        apply confirmarPedido_telefone in E; exact E
    end.
Qed.

Lemma processTaggedResponse_telefone (botResponse userMessage : string) (c : Conversa)
      (cfg : option BotConfig) (w : World)
      (r : option Response) (c' : Conversa) (w' : World) :
  processTaggedResponse P botResponse userMessage c cfg w = (r, c', w') ->
  telefone c' = telefone c.
Proof.
  unfold processTaggedResponse. intro H.
  destruct (voicePhase P botResponse (state c)
              (plainResponse (Some (state c)) botResponse) w) as [r1 w1].
  destruct (jsonPhase P botResponse _ c w1) as [[s2 c2] w2] eqn:Ej.
  apply jsonPhase_frame in Ej. destruct Ej as (_ & _ & _ & Ht2 & _).
  destruct s2 as [rr|r3]; [inversion H; subst; exact Ht2|].
  destruct (confirmationPhase P botResponse cfg r3 c2 w2) as [[[s3 c3] w3]|] eqn:Ec.
  - apply confirmationPhase_telefone in Ec.
    destruct s3; inversion H; subst; congruence.
  - inversion H; subst. exact Ht2.
Qed.

Lemma processTaggedResponse_um (botResponse userMessage : string) (c : Conversa)
      (cfg : option BotConfig) (w : World)
      (r : option Response) (c' : Conversa) (w' : World) :
  processTaggedResponse P botResponse userMessage c cfg w = (r, c', w') ->
  umPedidoNoMaximo (telefone c) w w'.
Proof.
  intro H. pose proof (processTaggedResponse_telefone _ _ _ _ _ _ _ _ H) as Ht.
  apply processTaggedResponse_orders in H.
  destruct H as [[H _]|[_ (p & H & Hp & _)]]; [now left|].
  apply pedidoDaConfirmacao_total in Hp. destruct Hp as (Hp1 & Hp2 & _).
  right. exists p. split; [exact H|]. split; [congruence | exact Hp2].
Qed.

Lemma responder_um (botResponse message : string) (c : Conversa)
      (cfg : option BotConfig) (w : World) (r : Response) (c' : Conversa) (w' : World) :
  responder P botResponse message c cfg w = (r, c', w') ->
  umPedidoNoMaximo (telefone c) w w'.
Proof.
  unfold responder. intro H.
  destruct (processTaggedResponse P botResponse message c cfg w) as [[o c2] w2] eqn:E.
  apply processTaggedResponse_um in E. destruct o; inversion H; subst; exact E.
Qed.

Lemma registrarCEP_frame_orders (message : string) (c : Conversa) (w : World) :
  pedidos (snd (registrarCEP P message c w)) = pedidos w /\
  telefone (fst (registrarCEP P message c w)) = telefone c.
Proof.
  unfold registrarCEP. destruct (detectAndValidateCEP P message); split; reflexivity.
Qed.

Lemma interceptNumero_frame_orders (message : string) (c : Conversa) (w : World)
      (r : Response) (c' : Conversa) (w' : World) :
  interceptNumero message c w = Some (r, c', w') -> pedidos w' = pedidos w.
Proof.
  unfold interceptNumero. intro H.
  split_matches H; inversion H; subst; reflexivity.
Qed.

Lemma interceptPagamento_frame_orders (message : string) (c : Conversa) (w : World)
      (r : Response) (c' : Conversa) (w' : World) :
  interceptPagamento message c w = Some (r, c', w') -> pedidos w' = pedidos w.
Proof.
  unfold interceptPagamento. intro H.
  split_matches H; inversion H; subst; reflexivity.
Qed.

Lemma interceptConfirmacao_um (t : Turno) (message : string) (c : Conversa) (w : World)
      (r : Response) (c' : Conversa) (w' : World) :
  interceptConfirmacao P t message c w = Some (r, c', w') ->
  umPedidoNoMaximo (telefone c) w w'.
Proof.
  intro H. apply interceptConfirmacao_orders in H. unfold umPedidoNoMaximo. rewrite H.
  destruct (truthy (pedidoData c)); [|now left].
  destruct (calcularTotal P false (getProp (pedidoData c) "items")) as [total|]; [|now left].
  destruct (newPedido P (pedidoDoAtalho P c total)) as [p|] eqn:En; [|now left].
  apply newPedido_spec in En. destruct En as (Ht & Hs & _).
  right. exists p. split; [reflexivity|]. split; [exact Ht | exact Hs].
Qed.

Lemma primeiraResposta_frame_orders (t : Turno) (c : Conversa) (w : World)
      (s : string) (c' : Conversa) (w' : World) :
  primeiraResposta P t c w = (s, c', w') ->
  pedidos w' = pedidos w /\ telefone c' = telefone c.
Proof.
  unfold primeiraResposta. intro H.
  split_matches H; inversion H; subst; split; reflexivity.
Qed.

Lemma armazenarPedido_frame_orders (botResponse : string) (c : Conversa) (w : World)
      (c' : Conversa) (w' : World) :
  armazenarPedido P botResponse c w = (c', w') ->
  pedidos w' = pedidos w /\ telefone c' = telefone c.
Proof.
  unfold armazenarPedido. intro H.
  split_matches H; inversion H; subst; split;
    rewrite ?pedidos_saveConversa, ?pedidos_guardarTemp; reflexivity.
Qed.

Lemma respostaEnriquecida_frame_orders (t : Turno) (botResponse : string) (w : World) :
  pedidos (snd (respostaEnriquecida t botResponse w)) = pedidos w.
Proof.
  unfold respostaEnriquecida.
  repeat match goal with
         | |- context [match ?x with _ => _ end] => destruct x
         end; reflexivity.
Qed.

Lemma atualizarEstado_frame_orders (botResponse message : string) (c : Conversa) (w : World)
      (o : option Response) (c' : Conversa) (w' : World) :
  atualizarEstado botResponse message c w = (o, c', w') ->
  pedidos w' = pedidos w /\ telefone c' = telefone c.
Proof.
  unfold atualizarEstado. intro H.
  split_matches H; inversion H; subst; split; reflexivity.
Qed.

Lemma viaModelo_um (t : Turno) (message : string) (c : Conversa) (w : World)
      (r : Response) (c' : Conversa) (w' : World) :
  viaModelo P t message c w = (r, c', w') -> umPedidoNoMaximo (telefone c) w w'.
Proof.
  unfold viaModelo. intro H.
  destruct (primeiraResposta P t c (addEvent w EvModelCall)) as [[r1 c1] w1] eqn:E1.
  apply primeiraResposta_frame_orders in E1. destruct E1 as [Hp1 Ht1].
  rewrite pedidos_addEvent in Hp1.
  destruct (armazenarPedido P r1 c1 w1) as [c2 w2] eqn:E2.
  apply armazenarPedido_frame_orders in E2. destruct E2 as [Hp2 Ht2].
  pose proof (respostaEnriquecida_frame_orders t r1 w2) as Hp3.
  destruct (respostaEnriquecida t r1 w2) as [r2 w3]. cbn [snd] in Hp3.
  match type of H with
  | context [atualizarEstado ?a ?b ?c3 ?d] =>
      destruct (atualizarEstado a b c3 d) as [[o c4] w4] eqn:E4;
      apply atualizarEstado_frame_orders in E4
  end.
  destruct E4 as [Hp4 Ht4]. cbn [telefone pushMensagem] in Ht4.
  assert (Hw : pedidos w4 = pedidos w) by congruence.
  assert (Ht : telefone c4 = telefone c) by congruence.
  destruct o as [r4|]; [inversion H; subst; now left|].
  apply responder_um in H. rewrite Ht in H. unfold umPedidoNoMaximo in *.
  rewrite pedidos_saveConversa, Hw in H. exact H.
Qed.

Lemma processMessageInternally_um (t : Turno) (userPhone message : string)
      (isAudio : bool) (c : Conversa) (w : World)
      (r : Response) (c' : Conversa) (w' : World) :
  processMessageInternally P t userPhone message isAudio c w = (r, c', w') ->
  umPedidoNoMaximo (telefone c) w w'.
Proof.
  unfold processMessageInternally. intro H.
  destruct (userPhone =? ""); [inversion H; subst; now left|].
  destruct (isResetRequest message); [inversion H; subst; now left|].
  destruct (registrarCEP_frame_orders message
              (setDuracao c (minutosDesde (inicio c) (agora t))) w) as [Hp1 Ht1].
  destruct (registrarCEP P message (setDuracao c (minutosDesde (inicio c) (agora t))) w)
    as [c1 w1].
  cbn [fst snd telefone setDuracao] in Hp1, Ht1.
  set (c2 := pushMensagem c1
               (mkMensagem User (if isAudio then "[Áudio]: " ++ message else message))) in H.
  assert (Ht2 : telefone c2 = telefone c) by exact Ht1.
  unfold umPedidoNoMaximo. rewrite <- Hp1, <- Ht2.
  destruct (interceptNumero message c2 w1) as [[[r0 c0] w0]|] eqn:En.
  { apply interceptNumero_frame_orders in En. inversion H; subst. now left. }
  destruct (interceptPagamento message c2 w1) as [[[r0 c0] w0]|] eqn:Ep.
  { apply interceptPagamento_frame_orders in Ep. inversion H; subst. now left. }
  destruct (interceptConfirmacao P t message c2 w1) as [[[r0 c0] w0]|] eqn:Ec.
  { apply interceptConfirmacao_um in Ec. inversion H; subst. exact Ec. }
  destruct (detectImageRequest message) as [[|id0 ids]|].
  - now apply viaModelo_um in H.
  - apply responder_um in H. exact H.
  - now apply viaModelo_um in H.
Qed.

Lemma getOrCreateConversation_telefone (agora_ : Z) (userPhone message : string) (w : World) :
  telefone (fst (getOrCreateConversation agora_ userPhone message w)) = userPhone /\
  pedidos (snd (getOrCreateConversation agora_ userPhone message w)) = pedidos w.
Proof.
  unfold getOrCreateConversation.
  destruct (isResetRequest message); [split; reflexivity|].
  destruct (maisRecente userPhone w) as [c|] eqn:Em; [|split; reflexivity].
  destruct ((state c =? 7)%Z || antiga c agora_); [split; reflexivity|].
  split; [|reflexivity]. cbn [fst]. unfold maisRecente in Em.
  apply find_some in Em. destruct Em as [_ Em]. now apply String.eqb_eq in Em.
Qed.

Lemma apiMessage_um (t : Turno) (phone : string) (message0 : option string)
      (isAudio : bool) (w : World) :
  umPedidoNoMaximo phone w (snd (apiMessage P t phone message0 isAudio w)).
Proof.
  unfold apiMessage.
  destruct (phone =? ""); [now left|].
  destruct message0 as [message|]; [|now left].
  destruct (getOrCreateConversation_telefone (agora t) phone message w) as [Ht Hp].
  destruct (getOrCreateConversation (agora t) phone message w) as [c w1].
  cbn [fst snd] in Ht, Hp.
  destruct (processMessageInternally P t phone message isAudio c w1) as [[r c'] w'] eqn:E.
  apply processMessageInternally_um in E. cbn [snd].
  unfold umPedidoNoMaximo in *. now rewrite Ht, Hp in E.
Qed.

End SessionOrders.

(** X19. Over any sequence of messages through the entry point the
    orders only grow: the orders stored before stay in place and
    unchanged, each message stores at most one order, and every order
    stored is confirmed and filed under the number of a customer who
    wrote. *)
Theorem X19_orders_only_grow :
  forall P turns w,
    exists novos,
      pedidos (sessao P turns w) = (pedidos w ++ novos)%list /\
      (List.length novos <= List.length turns)%nat /\
      Forall (fun p => status p = "Confirmado" /\ In (p_telefone p) (map en_phone turns)) novos.
Proof.
  intros P turns. induction turns as [|e turns IH]; intro w.
  - exists []. cbn. rewrite app_nil_r. repeat split; [lia|constructor].
  - cbn [sessao].
    pose proof (apiMessage_um P (en_turno e) (en_phone e) (en_message e) (en_audio e) w) as H1.
    destruct (IH (snd (apiMessage P (en_turno e) (en_phone e) (en_message e) (en_audio e) w)))
      as [novos [Hn [Hl Hf]]].
    assert (Hf' : Forall (fun p => status p = "Confirmado" /\
                                   In (p_telefone p) (map en_phone (e :: turns))) novos).
    { eapply Forall_impl; [|exact Hf]. intros p [Hs Hi]. split; [exact Hs|now right]. }
    destruct H1 as [H1|[p [H1 [Ht Hs]]]]; rewrite H1 in Hn.
    + exists novos. repeat split; [exact Hn|cbn; lia|exact Hf'].
    + exists (p :: novos). rewrite <- app_assoc in Hn. repeat split; [exact Hn|cbn; lia|].
      constructor; [|exact Hf']. split; [exact Hs|left; symmetry; exact Ht].
Qed.

(* ================================================================== *)
(** * The configured images on the path through the model *)

Section CachedConfig.

Variable P : Platform.

Lemma resolveFirst_cached (db : list CardapioItem) (w0 : World) (imageId : string) :
  resolveFirst P db (cachedBotConfig w0) imageId = resolveFirst P db None imageId.
Proof.
  unfold resolveFirst, cachedBotConfig.
  destruct ((imageId =? "cardapio") || (imageId =? "menu")); [|reflexivity].
  destruct (botConfig w0); reflexivity.
Qed.

Lemma imagePhase_cached (botResponse : string) (estado : Z) (db : list CardapioItem)
      (w0 : World) (r : Response) :
  imagePhase P botResponse estado db (cachedBotConfig w0) r =
  imagePhase P botResponse estado db None r.
Proof.
  unfold imagePhase, firstImagePhase.
  destruct (imageMatches botResponse) as [|id0 rest]; [reflexivity|].
  now rewrite resolveFirst_cached.
Qed.

Lemma confirmationPhase_cached (botResponse : string) (w0 : World)
      (r : Response) (c : Conversa) (w : World) :
  confirmationPhase P botResponse (cachedBotConfig w0) r c w =
  confirmationPhase P botResponse None r c w.
Proof.
  unfold cachedBotConfig. destruct (botConfig w0); reflexivity.
Qed.

End CachedConfig.

(** X20. On the path through the language model the reply is resolved
    with the cached configuration, which was read without its image
    fields: whatever images are configured, the reply is resolved as if
    there were no configuration, so a block that asks for the menu image
    gets none and a confirmation carries no confirmation image. *)
Theorem X20_cached_configuration_has_no_images :
  forall P botResponse userMessage c w0 w,
    processTaggedResponse P botResponse userMessage c (cachedBotConfig w0) w =
    processTaggedResponse P botResponse userMessage c None w /\
    (forall db imageId,
        imageId = "cardapio" \/ imageId = "menu" ->
        resolveFirst P db (cachedBotConfig w0) imageId = Some (None, None)).
Proof.
  intros P botResponse userMessage c w0 w. split.
  - unfold processTaggedResponse.
    destruct (voicePhase P botResponse (state c) _ w) as [r1 w1].
    rewrite imagePhase_cached.
    destruct (jsonPhase P botResponse _ c w1) as [[[r|r3] c2] w2]; [reflexivity|].
    now rewrite confirmationPhase_cached.
  - intros db imageId H. rewrite resolveFirst_cached. unfold resolveFirst.
    destruct H as [-> | ->]; reflexivity.
Qed.

